(* ===== verification/_CoqProject ===== *)
-Q . S2P
Prelude.v
GoStrings.v
CacheKey.v
TinyLFU.v
Entry.v
Shard.v
Disk.v
Cache.v
Contents.v
Predictor.v
Stampede.v
Streaming.v
Http.v
CacheControl.v
Range.v
Paths.v
Circuit.v
Balancer.v
Origin.v
Handler.v
Tenant.v
Codec.v
MultiTenant.v
Flights.v
Answers.v
Parts.v
Store.v
Api.v
Middleware.v
Float.v
Logging.v
Metrics.v
RateLimit.v
Tracing.v
Chain.v
Purge.v
Sync.v
Publish.v
ControlPlane.v
Analytics.v
Config.v
Certs.v
Program.v
Handshake.v
Upgrade.v
Edge.v
Running.v
DataPlane.v
Serving.v
