(* ===== verification/Prelude.v ===== *)
(** * cdn-edge: a verification of a CDN edge server and its control plane

    The program (package names are directories of [src/]) is an HTTP cache in front of
    origin servers, in a single-tenant and a multi-tenant form, and a control plane that
    keeps tenants, domains and cache rules and sends the edges their configuration. This
    library models its core, translated function by function from the Go source, and
    proves what makes it correct; where the code does not do what it means to, the
    theorem states what it does.

    ** How the program works and where it is modelled

    A request enters [handler.CDN.ServeHTTP] ([Handler.v]) or, with many tenants,
    [handler.MultiTenantCDN.ServeHTTP] ([MultiTenant.v]). Guards check method, path
    ([Paths.v]) and host; a range request goes to [serveByteRange] ([Range.v]); otherwise
    the predictor of uncacheable URLs ([Predictor.v]) may skip the lookup, the key is
    built ([CacheKey.v]) and the two-tier cache asked ([Cache.v] over [Shard.v],
    [TinyLFU.v], [Disk.v] and [Entry.v]). On a miss one goroutine per key fetches, the
    others wait on the stampede lock ([Stampede.v]) and may read the body while it comes
    in ([Streaming.v]). The fetch itself ([Origin.v]) goes through a circuit breaker
    ([Circuit.v]) and coalesces concurrent calls; the response's lifetime comes from its
    headers ([CacheControl.v]). [Balancer.v] is the proxy package's backend choice and
    health checking.

    Around the handler are the middlewares: compression, CORS and the HTTPS redirect
    ([Middleware.v]), the rate limiter ([RateLimit.v]), tracing ([Tracing.v]), request
    metrics ([Metrics.v]) and the access log ([Logging.v]). A handler is written once for
    every response writer ([HttpHandler] over the class [Writer], [Http.v]); a middleware
    runs the one inside it on a writer of its own. The main program ([Edge.v]) builds
    everything from its configuration ([Config.v]), shares one state among the endpoints,
    stacks the middlewares ([Chain.v]), mounts the endpoints behind the admin key and
    follows the signals; connections reach it through the handshake pool ([Handshake.v])
    on a listener a new binary can inherit ([Upgrade.v], [Serving.v]).

    The control plane's store and REST API are [Store.v] and [Api.v], over the data of
    [Tenant.v] that the edges share; it pushes configuration and purges to the edges
    ([Sync.v]), which purge one another ([Purge.v]), keeps statistics ([Analytics.v]) and
    certificates ([Certs.v]). [ControlPlane.v] puts API, pushes, polls and edges together
    as one transition system ([plane_step]); its main program is [Program.v]
    ([program_step]).

    - [Prelude.v]: machine words, time, tactics, the hash interface, generic lemmas.
    - [GoStrings.v]: the parts of [strings], [strconv] and [net/textproto] the code uses.
    - [CacheKey.v]: [NormalizeKey] and helpers, [cache/cache.go] lines 222-331.
    - [TinyLFU.v]: [cache/tinylfu.go], count-min sketch, doorkeeper, admission.
    - [Entry.v]: [cache.Entry] and [cache/headers.go].
    - [Shard.v]: one shard, a map and a [container/list] of elements with their
      addresses, and the association list in recency order it stands for ([shard_abs]).
    - [Disk.v]: the disk tier, [cache/cache.go] lines 512-672: directory and byte counter.
    - [Cache.v]: [NewWithOptions], [Get], [Put], [Delete], [Purge], [Len]: the state is the
      record [Cache], the abstraction [abs], the specification [spec_step].
    - [Contents.v]: [keeps P c], the interface by which the handlers' theorems see the
      cache: every entry in memory satisfies [P], and the operations keep it so.
    - [Predictor.v], [Stampede.v], [Streaming.v]: the other files of [cache/]. The last
      two have step relations ([sys_step], [stream_step]) that interleave any number of
      goroutines; [Predictor.v] interleaves compare-and-swap loops ([cas_step]).
    - [Http.v]: requests, and response writers as a class: [net/http]'s own
      ([ResponseWriter]), and the scripts ([wop]) a handler runs on any lawful one.
    - [Answers.v]: each answer of the two data-plane handlers as such a script.
    - [CacheControl.v], [Range.v], [Paths.v]: the pure parts of [handler/].
    - [Circuit.v], [Balancer.v], [Origin.v]: [proxy/]; [os_step] interleaves fetches.
    - [Handler.v]: [handler/handler.go] and [handler/warm.go]; a request maps the state
      [CDN] to an [outcome]: new state, response, lock events, spawned revalidations.
    - [Tenant.v], [MultiTenant.v]: [tenant/tenant.go], [handler/multitenant.go].
    - [Flights.v]: the multi-tenant handler and the flight group of [proxy/origin.go] as one
      machine ([mt_move_step]): requests interleave at their fetches and join each other's.
    - [Codec.v]: a concrete wire format for the witnesses; no file of [src/] of its own.
    - [Store.v], [Api.v]: [controlplane/store/store.go], [controlplane/api/api.go].
    - [Middleware.v]: [compress/compress.go] and [middleware/]; a compressor is a class
      whose law is that what it emits decodes to what was written.
    - [Float.v]: binary64 arithmetic ([f64], one rounding [round64] for every operation)
      with the bounds the floating-point theorems need; no file of [src/] of its own.
    - [Logging.v], [Metrics.v], [Tracing.v], [RateLimit.v]: the packages of those names.
    - [Purge.v], [Sync.v]: [purge/distributed.go], [controlplane/sync/sync.go]; goroutines
      of a fan-out take effect in any order ([fan_out] on a schedule), and [deliver] runs
      a request through a network of edges.
    - [ControlPlane.v]: what [controlplane/cmd/main.go] composes, with the pollers.
    - [Publish.v]: a domain's way from the store through a push to the client of an edge.
    - [Analytics.v], [Certs.v]: [controlplane/analytics/] and [controlplane/certs/].
    - [Program.v]: [controlplane/cmd/main.go]: flags and start ([cp_main]), the handlers it
      wires, the routes of its listener ([cp_mux]) and every step it makes.
    - [Config.v]: [config/config.go], one constructor per field.
    - [Handshake.v]: [handshake/offload.go]; one program counter per goroutine, one
      constructor of [accept_step], [worker_step], [Accept_step] or [close_step] per
      channel operation, and ghost fields for the fate of every connection.
    - [Upgrade.v]: [upgrade/upgrade.go] and [upgrade/sockopt_unix.go].
    - [Edge.v]: [main.go]: the state [Edge], how it is built ([boot]), the middleware layers
      ([appHandler]), both listeners' routes, SIGHUP, background work and the life of the
      process ([life_step]). [Parts.v] says what any request may do to the state
      ([moved]); [Running.v] and [DataPlane.v] prove what holds of the whole edge, on
      [Chain.v]'s lemmas about stacked middleware.
    - [Serving.v]: the servers and listeners of [main.go] ([front_step]), and upgrades.

    ** What the theorems show

    - The cache: invariant and capacity for any sequence of operations
      ([Cache_invariant]), refinement to a textbook LRU with admission and promotion
      ([Cache_refines_LRU]), accounting, header compression and disk round trips, the
      disk bound; the sketch never underestimates; keys are injective on plain targets.
    - Concurrency: one fetcher per key and no stranded waiter ([Stampede_safety],
      [single_flight]), agreement on what waiters receive, readers of a stream see
      prefixes, no lost predictor mark.
    - Failure handling: the breaker refines a three-phase machine and recovers; the
      balancer hands out healthy backends only and is fair.
    - HTTP behaviour end to end: miss then hit, through the whole stack of middleware
      ([edge_miss_then_hit], [edge_transparent]); stale while revalidate, nothing marked
      private on the line the code reads is stored, exact byte ranges from the text of the
      header, no path escapes; tenants are isolated in the shared cache whoever joins
      whose fetch ([mt_isolation]); configuration versions.
    - The running programs: every component of an edge keeps its invariant whatever
      happens to it ([running_edge_invariant]); nobody without a key changes the control
      plane ([stranger_changes_nothing]), whose keys are those it made ([keys_are_issued]);
      and what its listener is asked, with every interleaving of pushes and polls, makes
      edges route only domains it had active ([program_routes_true]).
    - The control plane: referential integrity and unique hostnames, the snapshot routes
      exactly the hostnames of active domains, durability, authentication; a push makes
      the edges route as the snapshot says, and a pushed domain is served
      ([publish_then_serve]); statistics are exact counts, a hostname is served a
      certificate when it is listed, but for those listed without one at the start
      ([served_iff_listed]), and renewals keep certificates valid.
    - The middlewares: a compressed response decodes to the handler's, the rate limiter
      keeps every bucket in bounds in binary64, allows exactly the burst and treats
      clients independently; the histogram and percentiles are exact; the access log,
      metrics and tracing all report the status that was sent.
    - The process: what the environment sets wins and only valid configurations load; no
      endpoint but the probes answers without the admin key; readiness follows start and
      shutdown; no connection is lost or served twice by the handshake pool; the process
      an upgrade starts inherits listener and environment, and the old one drains.
    - Flaws, each as a theorem: waiters of an uncacheable response get an error, ranges
      ignore [Vary], passthrough requests cross tenants, any tenant key opens every
      domain, hostnames can be hijacked by an update, [max-age=0] is cached, a loop of
      [NewPredictor] that does not end, a closed listener leaks queued connections, a
      child that dies is taken for ready, an edge with TLS serves nobody, one with
      automatic certificates serves plain text, a tenant's key purges every tenant, a
      hostname escapes the certificate directory, an overtaken push rolls edges back, a failed
      ACME renewal is never repeated, any client forges its address for the limiter, a
      [private] on a second [Cache-Control] line is not seen ([second_line_private]), a
      certificate missing on disk stays listed ([listed_without_pair]), a sample rate out of
      range loads ([sample_rate_unchecked]), and others beside the properties they concern.

    ** Conventions, bounds and fuel

    An [int], [int64] or [time.Duration] is a [Z] wrapped by [i64] where the code can
    overflow, an unsigned word by [u32] or [u64]; strings are byte strings; a Go map is a
    [gmap]. Instants are nanoseconds; a definition that calls [time.Now] takes the
    instants as arguments. Loops that are not structural take fuel, and a lemma beside
    each says how much is enough: the shard's length plus one for evictions
    ([evict_loop_spec]), the number of files plus one on disk ([make_room_enough]), the
    string's length plus one for directives ([directive_loop_spec]), the body's length
    for chunks and reads ([write_chunks_all], [drain_all]), 64 for halvings of a word.

    What is not in the repository is a class with the laws the code relies on: xxhash
    ([Hash64]), gob and zstd ([HeaderCodec]), SHA-256, JSON and file writes ([DiskWorld],
    [StoreJson], [ConfigJson]), Unicode tables ([Unicode]), the HTTP client
    ([HttpClient]), date parsing ([HttpTime]), map iteration order ([RangeOrder]), gzip
    and brotli ([Compressor]), URL queries and configuration values ([UrlQuery],
    [ConfigParsers]), the JSON of single messages ([PurgeJson], [StatsJson],
    [MetricsJson], [ConfigMarshal]) and what it makes of bytes that are not UTF-8
    ([JsonText]), printing of numbers and times ([FloatFormat],
    [LogTime]), the text of API answers ([ApiJson]), certificates and the ACME client
    ([CertLib]), how TLS handshakes end ([CryptoTLS]), files and sockets of an upgrade
    ([UpgradeOS]).
    Witnesses instantiate each with a concrete function. That the message of a push or a
    poll reads back as the domains written, or not at all, is the hypothesis
    [wire_faithful] of [program_routes_true].

    ** What is not modelled

    The dashboard's static files; sockets and what [net/http]'s server does with a
    connection; request paths that [http.ServeMux] redirects to their clean form. Spans
    and their export, the output of log lines, certificate parsing and signing and
    command-line syntax are the work of libraries. In a running program ([Edge.v],
    [Program.v]) each request runs to its end before the next one: the interleavings
    inside the lock, the origin client, the streams, the listener, the fan-outs and the
    pushes are the matter of those files, and multi-tenant requests interleave at their
    fetches in [Flights.v]. Inside the modelled files: deadlines, buffer
    pools, [Flush], the log lines of the handlers and of the handshake pool, and the memory
    sharing of header maps. *)

From Stdlib Require Export Ascii.
From stdpp Require Export prelude gmap strings list sorting.
From Stdlib Require Export ZArith Lia.

#[export] Set Default Goal Selector "!".

(** ** Machine integers

    Go integers are kept as [Z]; every operation that can overflow writes its
    wrap-around out with one of these functions. *)

Local Open Scope Z_scope.

(** [uN x]: conversion of [x] to the N-bit unsigned type. *)
Definition u8 (x : Z) : Z := x mod 2 ^ 8.
Definition u32 (x : Z) : Z := x mod 2 ^ 32.
Definition u64 (x : Z) : Z := x mod 2 ^ 64.

(** [i64 x]: conversion of [x] to the two's complement 64-bit type (Go's [int64],
    [int] and [time.Duration] on the 64-bit targets). *)
Definition i64 (x : Z) : Z := (x + 2 ^ 63) mod 2 ^ 64 - 2 ^ 63.

(** Conversion to [int32]. *)
Definition i32 (x : Z) : Z := (x + 2 ^ 31) mod 2 ^ 32 - 2 ^ 31.

Definition min_i64 : Z := - 2 ^ 63.
Definition max_i64 : Z := 2 ^ 63 - 1.

Definition in_u8 (x : Z) : Prop := 0 <= x < 2 ^ 8.
Definition in_u32 (x : Z) : Prop := 0 <= x < 2 ^ 32.
Definition in_u64 (x : Z) : Prop := 0 <= x < 2 ^ 64.
Definition in_i64 (x : Z) : Prop := min_i64 <= x <= max_i64.

(** [bits.Len64]: the number of bits needed to represent [x]. *)
Definition Len64 (x : Z) : Z := if x =? 0 then 0 else Z.log2 x + 1.

(** [(h >> 32) | (h << 32)] on uint64: the two halves of [h] exchanged. *)
Definition swap32 (h : Z) : Z := Z.lor (Z.shiftr h 32) (u64 (Z.shiftl h 32)).

(** ** Time

    A [time.Time] is a number of nanoseconds since the Unix epoch. [Time.Sub]
    saturates at the ends of [time.Duration]. *)
Definition Duration : Type := Z.
Definition Nanosecond : Z := 1.
Definition Second : Z := 1000000000.
Definition Minute : Z := 60 * Second.
Definition Hour : Z := 60 * Minute.

Definition time_sub (t u : Z) : Duration := Z.max min_i64 (Z.min max_i64 (t - u)).

(** The zero [time.Time], January 1 of year 1. *)
Definition zero_time : Z := -62135596800 * Second.

(** ** Notations and automation *)

Declare Scope go_scope.
Delimit Scope go_scope with go.
Notation "x '+u64' y" := (u64 (x + y)) (at level 50, left associativity) : go_scope.
Notation "x '*u64' y" := (u64 (x * y)) (at level 40, left associativity) : go_scope.
Notation "x '+i64' y" := (i64 (x + y)) (at level 50, left associativity) : go_scope.
Notation "x '*i64' y" := (i64 (x * y)) (at level 40, left associativity) : go_scope.

(** Case analysis on every boolean comparison of [Z] in the goal or a hypothesis. *)
Ltac zbool :=
  repeat match goal with
    | |- context [?a =? ?b] => destruct (Z.eqb_spec a b)
    | |- context [?a <? ?b] => destruct (Z.ltb_spec a b)
    | |- context [?a <=? ?b] => destruct (Z.leb_spec a b)
    | H : context [?a =? ?b] |- _ => destruct (Z.eqb_spec a b)
    | H : context [?a <? ?b] |- _ => destruct (Z.ltb_spec a b)
    | H : context [?a <=? ?b] |- _ => destruct (Z.leb_spec a b)
    end.

(** Unfold the word conversions and solve with [lia]. *)
Ltac word := unfold u8, u32, u64, i64, in_u8, in_u32, in_u64, in_i64, min_i64, max_i64 in *;
  try (Z.to_euclidean_division_equations; lia).

Create HintDb cdn discriminated.
Create HintDb word discriminated.

(** ** Lemmas on words *)

Lemma u64_range x : in_u64 (u64 x).
Proof. unfold in_u64, u64. apply Z.mod_pos_bound. lia. Qed.

Lemma u64_small x : in_u64 x -> u64 x = x.
Proof. unfold in_u64, u64. apply Z.mod_small. Qed.

Lemma u32_range x : in_u32 (u32 x).
Proof. unfold in_u32, u32. apply Z.mod_pos_bound. lia. Qed.

Lemma i64_range x : in_i64 (i64 x).
Proof. word. Qed.

Lemma i64_small x : in_i64 x -> i64 x = x.
Proof. word. Qed.

#[export] Hint Resolve u64_range u32_range i64_range : word.

Lemma time_sub_small t u : in_i64 (t - u) -> time_sub t u = t - u.
Proof. unfold time_sub, in_i64, min_i64, max_i64. lia. Qed.

Lemma Len64_spec x : 0 < x -> 2 ^ (Len64 x - 1) <= x < 2 ^ Len64 x.
Proof.
  intros Hx. unfold Len64. zbool; [lia |].
  replace (Z.log2 x + 1 - 1) with (Z.log2 x) by lia.
  rewrite Z.add_1_r. by apply Z.log2_spec.
Qed.

Lemma Len64_nonneg x : 0 <= Len64 x.
Proof. unfold Len64. zbool; [lia | pose proof (Z.log2_nonneg x); lia]. Qed.

Lemma Len64_le x n : 0 <= n -> 0 <= x < 2 ^ n -> Len64 x <= n.
Proof.
  intros Hn Hx. unfold Len64. zbool; [lia |].
  assert (Z.log2 x < n); [apply Z.log2_lt_pow2 | ]; lia.
Qed.

(** Masking with [2^n - 1] is reduction modulo [2^n]. *)
Lemma land_mask x n : 0 <= n -> Z.land x (2 ^ n - 1) = x mod 2 ^ n.
Proof. intros Hn. rewrite <- Z.land_ones by done. by rewrite Z.ones_equiv, Z.sub_1_r. Qed.

Lemma land_mask_bound x n : 0 <= n -> 0 <= Z.land x (2 ^ n - 1) < 2 ^ n.
Proof. intros Hn. rewrite land_mask by done. apply Z.mod_pos_bound. lia. Qed.

(** ** The hash interface

    [xxhash.Sum64String] (github.com/cespare/xxhash) is not part of the
    repository: what the code relies on is that it maps a string to a uint64. *)
Class Hash64 := {
  Sum64String : string -> Z;
  Sum64String_range : forall k, in_u64 (Sum64String k)
}.

(** A concrete instance, used to evaluate the definitions on inputs: the FNV-1
    style polynomial over the bytes of the key. *)
Fixpoint poly_hash (s : string) (h : Z) : Z :=
  match s with
  | EmptyString => h
  | String c s' => poly_hash s' (u64 (Z.lxor (u64 (h * 1099511628211)) (Z.of_nat (Ascii.nat_of_ascii c))))
  end.

Definition poly_hash64 : Hash64.
Proof.
  refine {| Sum64String k := u64 (poly_hash k 14695981039346656037) |}.
  intros k. apply u64_range.
Defined.

(** ** Lemmas on lists *)

Lemma filter_all {A} (P : A -> Prop) `{forall x, Decision (P x)} (l : list A) :
  (forall x, x ∈ l -> P x) -> filter P l = l.
Proof.
  induction l as [| x l IH]; intros Hl; [done |]. rewrite filter_cons, decide_True.
  - f_equal. apply IH. intros y Hy. apply Hl. by right.
  - apply Hl. left.
Qed.

Lemma omap_ext_in {A B} (f g : A -> option B) (l : list A) :
  (forall x, x ∈ l -> f x = g x) -> omap f l = omap g l.
Proof.
  induction l as [| x l IH]; intros Hl; [done |]. cbn [omap list_omap].
  rewrite (Hl x ltac:(left)), IH; [done |]. intros y Hy. apply Hl. by right.
Qed.

(** The Boolean filter of the standard library on lists in another order. *)
#[export] Instance List_filter_Permutation {A} (f : A -> bool) : Proper ((≡ₚ) ==> (≡ₚ)) (List.filter f).
Proof.
  intros l l' Hl. induction Hl as [| x l l' _ IH | x y l | l1 l2 l3 _ IH1 _ IH2]; cbn; [done | | | by etransitivity].
  - destruct (f x); [by constructor | done].
  - destruct (f x), (f y); by constructor || done.
Qed.

(** ** Reachability

    A property of the first state that every step keeps holds of every state the steps
    reach. *)
Lemma rtc_invariant {A} (R : relation A) (P : A -> Prop) x y :
  P x -> (forall a b, P a -> R a b -> P b) -> rtc R x y -> P y.
Proof. intros Hx Hstep Hr. induction Hr as [| x y z Hxy _ IH]; eauto. Qed.

(** ** Background loops

    [for { select { case <-ctx.Done(): return; case <-ticker.C: body } }]: what the
    [select] receives, in order, is a list; a tick brings the inputs of its body. *)
Inductive tick (A : Type) := Tick (a : A) | CtxDone.
Arguments Tick {A}.
Arguments CtxDone {A}.

Fixpoint ticker_loop {A S : Type} (body : A -> S -> S) (events : list (tick A)) (s : S) : S :=
  match events with
  | [] => s
  | CtxDone :: _ => s
  | Tick a :: events => ticker_loop body events (body a s)
  end.

(** [time.NewTicker(d)] panics, here [None], unless [d] is positive. *)
Definition NewTicker (d : Duration) : option unit := if 0 <? d then Some tt else None.

(** The loop runs the bodies of the ticks before the context ended, in order. *)
Fixpoint ticks {A : Type} (events : list (tick A)) : list A :=
  match events with
  | [] | CtxDone :: _ => []
  | Tick a :: events => a :: ticks events
  end.

Lemma ticker_loop_ticks {A S : Type} (body : A -> S -> S) events s :
  ticker_loop body events s = foldl (fun s a => body a s) s (ticks events).
Proof. revert s. induction events as [| [a |] events IH]; intros s; [done | apply IH | done]. Qed.

Lemma foldl_invariant {A S : Type} (P : S -> Prop) (f : S -> A -> S) l s :
  (forall s a, a ∈ l -> P s -> P (f s a)) -> P s -> P (foldl f s l).
Proof.
  revert s. induction l as [| a l IH]; intros s Hf Hs; [done |].
  apply IH; [intros s' a' Ha'; apply Hf; by right | apply Hf; [left | done]].
Qed.

Lemma NewTicker_panics d : NewTicker d = None <-> d <= 0.
Proof. unfold NewTicker. zbool; split; intros ?; done || lia. Qed.
