(* ===== verification/GoStrings.v ===== *)
(** * Go strings: the functions of [strings], [strconv], [sort] and [net/http] the program uses

    A Go string is a sequence of bytes, here Rocq's [string]. Functions that only
    look at bytes are modelled exactly. The four functions that look at Unicode
    ([strings.ToLower], [strings.TrimSpace], [strings.EqualFold]) are exact on
    ASCII strings; what they do on other strings is the interface [Unicode]. *)

From S2P Require Import Prelude.

Local Open Scope Z_scope.

#[global] Arguments String.append !_ _ / : simpl nomatch.

(** ** Bytes *)

Definition code (c : ascii) : Z := Z.of_nat (Ascii.nat_of_ascii c).
Definition chr (z : Z) : ascii := Ascii.ascii_of_nat (Z.to_nat z).

(** [hex.EncodeToString] *)
Definition hex_digit (n : Z) : ascii := chr (if n <? 10 then 48 + n else 87 + n).
Fixpoint EncodeToString (b : list Z) : string :=
  match b with
  | [] => EmptyString
  | x :: b => String (hex_digit (x / 16)) (String (hex_digit (x mod 16)) (EncodeToString b))
  end.

Definition is_upper (c : ascii) : bool := (65 <=? code c) && (code c <=? 90).
Definition is_lower (c : ascii) : bool := (97 <=? code c) && (code c <=? 122).
Definition is_digit (c : ascii) : bool := (48 <=? code c) && (code c <=? 57).
(** The ASCII characters of [unicode.IsSpace]: \t \n \v \f \r and the space. *)
Definition is_space (c : ascii) : bool :=
  ((9 <=? code c) && (code c <=? 13)) || (code c =? 32).

Definition lower_byte (c : ascii) : ascii := if is_upper c then chr (code c + 32) else c.
Definition upper_byte (c : ascii) : ascii := if is_lower c then chr (code c - 32) else c.

Fixpoint str_map (f : ascii -> ascii) (s : string) : string :=
  match s with
  | EmptyString => EmptyString
  | String c s' => String (f c) (str_map f s')
  end.

Fixpoint str_forall (f : ascii -> bool) (s : string) : bool :=
  match s with
  | EmptyString => true
  | String c s' => f c && str_forall f s'
  end.

Definition is_ascii (s : string) : bool := str_forall (fun c => code c <? 128) s.

Definition str_len (s : string) : Z := Z.of_nat (String.length s).

(** ** Splitting and joining *)

(** The prefix before the first [sep] and, when there is one, what follows it. *)
Fixpoint cut_byte (sep : ascii) (s : string) : string * option string :=
  match s with
  | EmptyString => (EmptyString, None)
  | String c s' =>
      if Ascii.eqb c sep then (EmptyString, Some s')
      else let '(a, b) := cut_byte sep s' in (String c a, b)
  end.

(** [strings.Split(s, sep)] for a one-byte separator. *)
Fixpoint Split (sep : ascii) (s : string) : list string :=
  match s with
  | EmptyString => [EmptyString]
  | String c s' =>
      if Ascii.eqb c sep then EmptyString :: Split sep s'
      else match Split sep s' with
           | [] => [String c EmptyString]
           | p :: ps => String c p :: ps
           end
  end.

(** [strings.Join(parts, sep)] *)
Fixpoint Join (sep : string) (parts : list string) : string :=
  match parts with
  | [] => EmptyString
  | [p] => p
  | p :: ps => p +:+ sep +:+ Join sep ps
  end.

(** ** Searching *)

Fixpoint HasPrefix (s prefix : string) : bool :=
  match prefix, s with
  | EmptyString, _ => true
  | String p prefix', String c s' => Ascii.eqb c p && HasPrefix s' prefix'
  | _, EmptyString => false
  end.

Fixpoint drop_bytes (n : nat) (s : string) : string :=
  match n, s with
  | O, _ => s
  | S n', String _ s' => drop_bytes n' s'
  | S _, EmptyString => EmptyString
  end.

Fixpoint take_bytes (n : nat) (s : string) : string :=
  match n, s with
  | O, _ => EmptyString
  | S n', String c s' => String c (take_bytes n' s')
  | S _, EmptyString => EmptyString
  end.

Definition TrimPrefix (s prefix : string) : string :=
  if HasPrefix s prefix then drop_bytes (String.length prefix) s else s.

Definition HasSuffix (s suffix : string) : bool :=
  (String.length suffix <=? String.length s)%nat
  && String.eqb (drop_bytes (String.length s - String.length suffix) s) suffix.

Definition TrimSuffix (s suffix : string) : string :=
  if HasSuffix s suffix then take_bytes (String.length s - String.length suffix) s else s.

(** [strings.Contains(s, sub)] *)
Fixpoint Contains (s sub : string) : bool :=
  HasPrefix s sub ||
  match s with
  | EmptyString => false
  | String _ s' => Contains s' sub
  end.

(** [strings.IndexByte(s, b)]: -1 when absent. *)
Fixpoint IndexByte (s : string) (b : ascii) : Z :=
  match s with
  | EmptyString => -1
  | String c s' =>
      if Ascii.eqb c b then 0
      else let i := IndexByte s' b in if i <? 0 then -1 else i + 1
  end.

(** [strings.LastIndex(s, b)] for a one-byte substring: -1 when absent. *)
Fixpoint LastIndexByte (s : string) (b : ascii) : Z :=
  match s with
  | EmptyString => -1
  | String c s' =>
      let i := LastIndexByte s' b in
      if 0 <=? i then i + 1 else if Ascii.eqb c b then 0 else -1
  end.

Definition ContainsByte (s : string) (b : ascii) : bool := 0 <=? IndexByte s b.

(** ** Trimming *)

Fixpoint trim_left (f : ascii -> bool) (s : string) : string :=
  match s with
  | EmptyString => EmptyString
  | String c s' => if f c then trim_left f s' else s
  end.

Fixpoint trim_right (f : ascii -> bool) (s : string) : string :=
  match s with
  | EmptyString => EmptyString
  | String c s' =>
      match trim_right f s' with
      | EmptyString => if f c then EmptyString else String c EmptyString
      | r => String c r
      end
  end.

(** [strings.TrimRight(s, cutset)] for a one-byte cutset. *)
Definition TrimRightByte (s : string) (b : ascii) : string := trim_right (Ascii.eqb b) s.

Definition trim_space_ascii (s : string) : string := trim_right is_space (trim_left is_space s).
Definition lower_ascii (s : string) : string := str_map lower_byte s.

(** ** Unicode-aware functions *)

Class Unicode := {
  uni_lower : string -> string;
  uni_trim : string -> string;
  uni_fold : string -> string -> bool
}.

(** The instance that treats every byte as ASCII, used to evaluate definitions. *)
Definition ascii_unicode : Unicode :=
  {| uni_lower := lower_ascii; uni_trim := trim_space_ascii;
     uni_fold a b := String.eqb (lower_ascii a) (lower_ascii b) |}.

Section unicode.
Context `{Unicode}.

Definition ToLower (s : string) : string := if is_ascii s then lower_ascii s else uni_lower s.
Definition TrimSpace (s : string) : string := if is_ascii s then trim_space_ascii s else uni_trim s.
Definition EqualFold (s t : string) : bool :=
  if is_ascii s && is_ascii t then String.eqb (lower_ascii s) (lower_ascii t) else uni_fold s t.

End unicode.

(** ** Numbers *)

Fixpoint digits_val (s : string) (acc : Z) : option Z :=
  match s with
  | EmptyString => Some acc
  | String c s' => if is_digit c then digits_val s' (acc * 10 + (code c - 48)) else None
  end.

Definition parse_digits (s : string) : option Z :=
  match s with EmptyString => None | _ => digits_val s 0 end.

(** [strconv.Atoi]: an optional sign and decimal digits, an error outside int64. *)
Definition Atoi (s : string) : option Z :=
  let v := match s with
           | String c s' =>
               if Ascii.eqb c "-" then Z.opp <$> parse_digits s'
               else if Ascii.eqb c "+" then parse_digits s'
               else parse_digits s
           | EmptyString => None
           end in
  match v with
  | Some z => if (min_i64 <=? z) && (z <=? max_i64) then Some z else None
  | None => None
  end.

(** Decimal digits of a non-negative number below [10 ^ fuel]. *)
Fixpoint udec (fuel : nat) (n : Z) (acc : string) : string :=
  match fuel with
  | O => acc
  | S f => if n <? 10 then String (chr (48 + n)) acc
           else udec f (n / 10) (String (chr (48 + n mod 10)) acc)
  end.

(** [strconv.Itoa] on int64: 20 digits are enough. *)
Definition Itoa (n : Z) : string :=
  if n <? 0 then String "-" (udec 20 (- n) EmptyString) else udec 20 n EmptyString.

(** ** Sorting: [sort.Strings] is the sorted permutation in byte order *)
Definition sort_Strings (l : list string) : list string := merge_sort String.le l.

(** ** HTTP headers: [http.Header] *)

Abbreviation Header := (gmap string (list string)).

(** [validHeaderFieldByte]: the token characters of RFC 7230. *)
Definition is_token (c : ascii) : bool :=
  is_upper c || is_lower c || is_digit c ||
  existsb (Ascii.eqb c)
    ["!"; "#"; "$"; "%"; "&"; "'"; "*"; "+"; "-"; "."; "^"; "_"; "`"; "|"; "~"]%char.

Fixpoint canonical (up : bool) (s : string) : string :=
  match s with
  | EmptyString => EmptyString
  | String c s' =>
      String (if up then upper_byte c else lower_byte c) (canonical (Ascii.eqb c "-") s')
  end.

Definition CanonicalHeaderKey (s : string) : string :=
  if str_forall is_token s then canonical true s else s.

(** [Header.Get]: the first value under the canonical key, "" when absent. *)
Definition Header_Get (h : Header) (key : string) : string :=
  match h !! CanonicalHeaderKey key with
  | Some (v :: _) => v
  | _ => EmptyString
  end.

Definition Header_Set (h : Header) (key value : string) : Header :=
  <[CanonicalHeaderKey key := [value]]> h.

Definition Header_Add (h : Header) (key value : string) : Header :=
  <[CanonicalHeaderKey key := default [] (h !! CanonicalHeaderKey key) ++ [value]]> h.

Definition Header_Del (h : Header) (key : string) : Header := delete (CanonicalHeaderKey key) h.

(** ** Lemmas *)

Lemma code_range c : 0 <= code c < 256.
Proof. unfold code. pose proof (Ascii.nat_ascii_bounded c). lia. Qed.

Lemma code_chr z : 0 <= z < 256 -> code (chr z) = z.
Proof. intros Hz. unfold code, chr. rewrite Ascii.nat_ascii_embedding; lia. Qed.

Lemma chr_code c : chr (code c) = c.
Proof. unfold code, chr. rewrite Nat2Z.id. apply Ascii.ascii_nat_embedding. Qed.

Lemma code_inj c d : code c = code d -> c = d.
Proof. intros E. rewrite <- (chr_code c), <- (chr_code d). by rewrite E. Qed.

Lemma ascii_eqb_false c d : code c <> code d -> Ascii.eqb c d = false.
Proof. intros Hne. apply Ascii.eqb_neq. by intros ->. Qed.

(** *** Case mapping *)

Lemma lower_byte_code c : code (lower_byte c) = if is_upper c then code c + 32 else code c.
Proof.
  unfold lower_byte. destruct (is_upper c) eqn:E; [| done].
  apply andb_true_iff in E as [?%Z.leb_le ?%Z.leb_le]. apply code_chr. lia.
Qed.

Lemma lower_byte_not_upper c : is_upper (lower_byte c) = false.
Proof.
  unfold is_upper at 1. rewrite lower_byte_code.
  destruct (is_upper c) eqn:E; unfold is_upper in E; zbool; cbn in *; (done || lia).
Qed.

Lemma lower_byte_id c : is_upper c = false -> lower_byte c = c.
Proof. unfold lower_byte. by intros ->. Qed.

Lemma lower_byte_ascii c : code c < 128 -> code (lower_byte c) < 128.
Proof. intros Hc. rewrite lower_byte_code. unfold is_upper. zbool; cbn; lia. Qed.

Lemma lower_ascii_id s : str_forall (fun c => negb (is_upper c)) s = true -> lower_ascii s = s.
Proof.
  induction s as [| c s IH]; cbn; [done |].
  intros [Hc Hs]%andb_true_iff. apply negb_true_iff in Hc.
  rewrite lower_byte_id by done. f_equal. by apply IH.
Qed.

Lemma lower_ascii_lower s : str_forall (fun c => negb (is_upper c)) (lower_ascii s) = true.
Proof.
  induction s as [| c s IH]; cbn; [done |]. rewrite lower_byte_not_upper. exact IH.
Qed.

Lemma lower_ascii_idemp s : lower_ascii (lower_ascii s) = lower_ascii s.
Proof. apply lower_ascii_id, lower_ascii_lower. Qed.

Lemma lower_ascii_is_ascii s : is_ascii s = true -> is_ascii (lower_ascii s) = true.
Proof.
  unfold is_ascii. induction s as [| c s IH]; cbn; [done |].
  intros [Hc Hs]%andb_true_iff. apply Z.ltb_lt in Hc.
  apply andb_true_iff; split; [by apply Z.ltb_lt, lower_byte_ascii | by apply IH].
Qed.

(** *** Splitting *)

Lemma Split_cons sep s : exists p ps, Split sep s = p :: ps.
Proof.
  induction s as [| c s (p & ps & E)]; cbn; [by eexists _, _ |].
  destruct (Ascii.eqb c sep); [by eexists _, _ |]. rewrite E. by eexists _, _.
Qed.

(** [strings.Join] undoes [strings.Split]. *)
Lemma Join_Split sep s : Join (String sep EmptyString) (Split sep s) = s.
Proof.
  induction s as [| c s IH]; cbn; [done |].
  destruct (Split_cons sep s) as (p & ps & E). rewrite E in *.
  destruct (Ascii.eqb_spec c sep) as [-> |].
  - change (String sep (Join (String sep EmptyString) (p :: ps)) = String sep s). by rewrite IH.
  - destruct ps; cbn in *; by rewrite <- IH.
Qed.

Lemma IndexByte_range s b : -1 <= IndexByte s b < str_len s \/ IndexByte s b = -1.
Proof.
  unfold str_len. induction s as [| c s IH]; cbn -[Z.of_nat]; [lia |].
  destruct (Ascii.eqb c b); zbool; lia.
Qed.

(** Without a separator the string is one part. *)
Lemma Split_no_sep sep s : ContainsByte s sep = false -> Split sep s = [s].
Proof.
  unfold ContainsByte. induction s as [| c s IH]; cbn; [done |].
  destruct (Ascii.eqb c sep); [done |]. intros Hi.
  rewrite IH; [done |]. zbool; done || lia.
Qed.

(** *** Decimal numbers *)

Lemma digit_char n : 0 <= n < 10 -> is_digit (chr (48 + n)) = true /\ code (chr (48 + n)) - 48 = n.
Proof.
  intros Hn. unfold is_digit. rewrite code_chr by lia. split; [zbool; cbn; lia | lia].
Qed.

Lemma digits_val_udec f n acc :
  0 <= n < 10 ^ Z.of_nat f -> (0 < f)%nat -> digits_val (udec f n acc) 0 = digits_val acc n.
Proof.
  revert n acc. induction f as [| f IH]; intros n acc Hn Hf; [lia |]. cbn [udec].
  rewrite Nat2Z.inj_succ, Z.pow_succ_r in Hn by lia.
  assert (Hm : 0 <= n mod 10 < 10) by (apply Z.mod_pos_bound; lia).
  destruct (Z.ltb_spec n 10) as [Hlt | Hge].
  - destruct (digit_char n ltac:(lia)) as [Hd Hc]. cbn [digits_val]. rewrite Hd.
    f_equal. lia.
  - assert (Hdiv : 0 <= n / 10 < 10 ^ Z.of_nat f).
    { split; [apply Z.div_pos | apply Z.div_lt_upper_bound]; lia. }
    destruct (digit_char (n mod 10) Hm) as [Hd Hc].
    rewrite IH; [| lia | destruct f; [cbn in Hdiv; Z.to_euclidean_division_equations; lia | lia]].
    cbn [digits_val]. rewrite Hd. f_equal. pose proof (Z.div_mod n 10 ltac:(lia)). lia.
Qed.

Lemma udec_digits f n acc :
  0 <= n -> str_forall is_digit acc = true -> str_forall is_digit (udec f n acc) = true.
Proof.
  revert n acc. induction f as [| f IH]; intros n acc Hn Ha; [done |]. cbn [udec].
  destruct (Z.ltb_spec n 10) as [Hlt | Hge].
  - cbn. by rewrite (proj1 (digit_char n ltac:(lia))).
  - apply IH; [apply Z.div_pos; lia |]. cbn.
    by rewrite (proj1 (digit_char (n mod 10) (Z.mod_pos_bound n 10 ltac:(lia)))).
Qed.

Lemma udec_nonempty f n acc : (0 < f)%nat -> udec f n acc <> EmptyString.
Proof.
  revert n acc. induction f as [| f IH]; intros n acc Hf; [lia |]. cbn [udec].
  zbool; [done |]. destruct f; [cbn; done | apply IH; lia].
Qed.

Lemma digit_not_sign c : is_digit c = true -> Ascii.eqb c "-" = false /\ Ascii.eqb c "+" = false.
Proof.
  unfold is_digit. intros [Hl Hu]%andb_true_iff. apply Z.leb_le in Hl.
  split; apply ascii_eqb_false; [change (code "-") with 45 | change (code "+") with 43]; lia.
Qed.

(** [strconv.Atoi] reads back what [strconv.Itoa] writes. *)
Lemma Atoi_Itoa n : in_i64 n -> Atoi (Itoa n) = Some n.
Proof.
  intros Hn. assert (Hb : Z.abs n < 10 ^ Z.of_nat 20) by (unfold in_i64, min_i64, max_i64 in *; lia).
  assert (Hfin : forall m, m = n -> (if (min_i64 <=? m) && (m <=? max_i64) then Some m else None) = Some n).
  { intros m ->. unfold in_i64 in Hn. zbool; cbn; lia || done. }
  unfold Itoa. destruct (Z.ltb_spec n 0) as [Hneg | Hpos].
  - unfold Atoi. change (Ascii.eqb "-" "-") with true; cbn beta iota.
    unfold parse_digits. destruct (udec 20 (- n) EmptyString) eqn:E.
    { exfalso. revert E. apply udec_nonempty. lia. }
    rewrite <- E, digits_val_udec by lia. cbn. apply Hfin. lia.
  - pose proof (udec_digits 20 n EmptyString Hpos eq_refl) as Hd.
    pose proof (digits_val_udec 20 n EmptyString ltac:(lia) ltac:(lia)) as Hv.
    unfold Atoi. destruct (udec 20 n EmptyString) as [| c s] eqn:E.
    { exfalso. revert E. apply udec_nonempty. lia. }
    cbn [str_forall] in Hd. apply andb_true_iff in Hd as [Hc _].
    destruct (digit_not_sign c Hc) as [-> ->]. unfold parse_digits. rewrite Hv.
    cbn. by apply Hfin.
Qed.

(** *** Cutting at a separator *)

Definition no_byte (b : ascii) (s : string) : bool := str_forall (fun c => negb (Ascii.eqb c b)) s.

Lemma cut_byte_app sep a r :
  no_byte sep a = true -> cut_byte sep (a +:+ String sep r) = (a, Some r).
Proof.
  induction a as [| c a IH]; cbn; [by rewrite Ascii.eqb_refl |].
  intros [Hc Ha]%andb_true_iff. apply negb_true_iff in Hc. by rewrite Hc, IH.
Qed.

Lemma cut_byte_none sep a : no_byte sep a = true -> cut_byte sep a = (a, None).
Proof.
  induction a as [| c a IH]; cbn; [done |].
  intros [Hc Ha]%andb_true_iff. apply negb_true_iff in Hc. by rewrite Hc, IH.
Qed.

(** The inverse: what a cut found. *)
Lemma cut_byte_Some sep s a b : cut_byte sep s = (a, Some b) -> s = a +:+ String sep b /\ no_byte sep a = true.
Proof.
  revert a. induction s as [| c s IH]; intros a; cbn; [done |]. destruct (Ascii.eqb_spec c sep) as [-> | Hc]; [by intros [= <- <-] |].
  destruct (cut_byte sep s) as [a' o]. intros [= <- ->]. destruct (IH a' eq_refl) as [-> Ha]. split; [done |].
  cbn. unfold no_byte in Ha. rewrite Ha. by rewrite (proj2 (Ascii.eqb_neq c sep) Hc).
Qed.

Lemma cut_byte_None sep s a : cut_byte sep s = (a, None) -> no_byte sep s = true.
Proof.
  revert a. induction s as [| c s IH]; intros a; cbn; [done |]. destruct (Ascii.eqb_spec c sep) as [-> | Hc]; [done |].
  destruct (cut_byte sep s) as [a' o]. intros [= <- ->]. by apply (IH a').
Qed.

(** *** Prefixes *)

Lemma HasPrefix_nil s : HasPrefix s EmptyString = true.
Proof. by destruct s. Qed.

Lemma HasPrefix_app s t : HasPrefix (s +:+ t) s = true.
Proof. induction s as [| c s IH]; cbn; [by destruct t |]. by rewrite Ascii.eqb_refl. Qed.

Lemma HasPrefix_spec s p : HasPrefix s p = true <-> exists t, s = p +:+ t.
Proof.
  split; [| by intros [t ->]; apply HasPrefix_app].
  revert s. induction p as [| c p IH]; intros s; [by exists s |].
  destruct s as [| d s]; cbn; [done |]. intros [Hc Hs]%andb_true_iff.
  apply Ascii.eqb_eq in Hc as ->. destruct (IH s Hs) as [t ->]. by exists t.
Qed.

Lemma drop_app_len a b : drop_bytes (String.length a) (a +:+ b) = b.
Proof. by induction a. Qed.

Lemma TrimPrefix_spec s p : HasPrefix s p = true -> s = p +:+ TrimPrefix s p.
Proof. intros Hp. unfold TrimPrefix. rewrite Hp. apply HasPrefix_spec in Hp as [t ->]. by rewrite drop_app_len. Qed.

Lemma Split_parts sep s : Forall (fun p => no_byte sep p = true) (Split sep s).
Proof.
  induction s as [| c s IH]; cbn; [by repeat constructor |].
  destruct (Ascii.eqb c sep) eqn:E; [by constructor |].
  destruct (Split_cons sep s) as (p & ps & Es). rewrite Es in *.
  inversion_clear IH as [| ? ? Hp Hps]. constructor; [| done].
  unfold no_byte in *; cbn. by rewrite E.
Qed.

Lemma Split_app sep a r :
  no_byte sep a = true -> Split sep (a +:+ String sep r) = a :: Split sep r.
Proof.
  induction a as [| c a IH]; cbn; [by rewrite Ascii.eqb_refl |].
  intros [Hc Ha]%andb_true_iff. apply negb_true_iff in Hc. by rewrite Hc, IH.
Qed.

Lemma Split_none sep a : no_byte sep a = true -> Split sep a = [a].
Proof.
  induction a as [| c a IH]; cbn; [done |].
  intros [Hc Ha]%andb_true_iff. apply negb_true_iff in Hc. by rewrite Hc, IH.
Qed.

(** [strings.Split] undoes [strings.Join] on parts without the separator. *)
Lemma Split_Join sep parts :
  parts <> [] -> Forall (fun p => no_byte sep p = true) parts ->
  Split sep (Join (String sep EmptyString) parts) = parts.
Proof.
  intros Hne Hf. induction Hf as [| p ps Hp Hps IH]; [done |].
  destruct ps as [| p' ps]; [by apply Split_none |].
  change (Split sep (p +:+ String sep (Join (String sep EmptyString) (p' :: ps))) = p :: p' :: ps).
  rewrite Split_app by done. by rewrite IH.
Qed.

(** ** Appending, and the slices [s[:n]] and [s[n:]] *)

Lemma str_app_assoc (a b c : string) : (a +:+ b) +:+ c = a +:+ (b +:+ c).
Proof. induction a as [| x a IH]; cbn; [done | by rewrite IH]. Qed.

Lemma str_app_nil_r (a : string) : a +:+ "" = a.
Proof. induction a as [| x a IH]; cbn; [done | by rewrite IH]. Qed.

Lemma take_drop_bytes n s : take_bytes n s +:+ drop_bytes n s = s.
Proof. revert s. induction n as [| n IH]; intros [| c s]; cbn; try done. by rewrite IH. Qed.

Lemma str_len_app a b : str_len (a +:+ b) = str_len a + str_len b.
Proof. unfold str_len. induction a as [| c a IH]; cbn in *; lia. Qed.

Lemma str_len_take n s : str_len (take_bytes n s) = Z.min (Z.of_nat n) (str_len s).
Proof. unfold str_len. revert s. induction n as [| n IH]; intros [| c s]; cbn; try lia. specialize (IH s). lia. Qed.

Lemma drop_drop_bytes n m s : drop_bytes m (drop_bytes n s) = drop_bytes (n + m) s.
Proof. revert s. induction n as [| n IH]; intros s; [done |]. destruct s; cbn; [by destruct m | apply IH]. Qed.

Lemma take_bytes_add n m s : take_bytes (n + m) s = take_bytes n s +:+ take_bytes m (drop_bytes n s).
Proof.
  revert s. induction n as [| n IH]; intros s; [done |]. destruct s; cbn; [by destruct m | by rewrite IH].
Qed.

Lemma take_bytes_all n s : str_len s <= Z.of_nat n -> take_bytes n s = s.
Proof.
  unfold str_len. revert s. induction n as [| n IH]; intros [| c s]; cbn; intros Hn; done || lia || (rewrite IH; done || lia).
Qed.

Lemma take_bytes_app n s t : Z.of_nat n <= str_len s -> take_bytes n (s +:+ t) = take_bytes n s.
Proof.
  unfold str_len. revert s. induction n as [| n IH]; intros [| c s]; cbn; intros Hn; done || lia || (rewrite IH; done || lia).
Qed.

Lemma str_len_nonneg s : 0 <= str_len s.
Proof. unfold str_len. lia. Qed.

Lemma drop_bytes_all n s : str_len s <= Z.of_nat n -> drop_bytes n s = ""%string.
Proof.
  unfold str_len. revert s. induction n as [| n IH]; intros [| c s]; cbn; intros Hn; done || lia || (apply IH; lia).
Qed.

Lemma str_len_0 s : str_len s = 0 -> s = EmptyString.
Proof. unfold str_len. destruct s; cbn; [done | lia]. Qed.

Lemma str_len_drop n s : str_len (drop_bytes n s) = Z.max 0 (str_len s - Z.of_nat n).
Proof.
  pose proof (take_drop_bytes n s) as E. apply (f_equal str_len) in E.
  rewrite str_len_app, str_len_take in E. unfold str_len in *. lia.
Qed.

(** *** Predicates on all the bytes *)

Lemma str_forall_app f a b : str_forall f (a +:+ b) = str_forall f a && str_forall f b.
Proof. induction a as [| c a IH]; cbn; [done |]. by rewrite IH, andb_assoc. Qed.

Lemma str_forall_impl (f g : ascii -> bool) s :
  (forall c, f c = true -> g c = true) -> str_forall f s = true -> str_forall g s = true.
Proof.
  intros Hfg. induction s as [| c s IH]; cbn; [done |].
  intros [Hc Hs]%andb_true_iff. by rewrite Hfg, IH.
Qed.

Lemma trim_space_id s : str_forall (fun c => negb (is_space c)) s = true -> trim_space_ascii s = s.
Proof.
  unfold trim_space_ascii. intros Hs.
  assert (Hl : trim_left is_space s = s).
  { destruct s as [| c s]; [done |]. cbn in *. apply andb_true_iff in Hs as [Hc _].
    apply negb_true_iff in Hc. by rewrite Hc. }
  rewrite Hl. clear Hl. induction s as [| c s IH]; [done |]. cbn in *.
  apply andb_true_iff in Hs as [Hc Hs]. apply negb_true_iff in Hc. rewrite IH by done.
  destruct s; [by rewrite Hc | done].
Qed.

Lemma Contains_no_byte b s : no_byte b s = true -> Contains s (String b EmptyString) = false.
Proof.
  unfold no_byte. induction s as [| c s IH]; cbn; [done |].
  intros [Hc Hs]%andb_true_iff. apply negb_true_iff in Hc. by rewrite Hc, IH.
Qed.

(** Digits are ASCII, and none of the separators. *)
Lemma digit_facts c :
  is_digit c = true ->
  (code c <? 128) = true /\ negb (is_space c) = true /\ negb (Ascii.eqb c "-") = true /\
  negb (Ascii.eqb c ",") = true.
Proof.
  unfold is_digit, is_space. intros [Hl Hu]%andb_true_iff. apply Z.leb_le in Hl, Hu.
  split_and!.
  - by apply Z.ltb_lt; lia.
  - zbool; cbn; done || lia.
  - rewrite ascii_eqb_false; [done |]. change (code "-") with 45. lia.
  - rewrite ascii_eqb_false; [done |]. change (code ",") with 44. lia.
Qed.

Lemma Itoa_digits n : 0 <= n -> str_forall is_digit (Itoa n) = true.
Proof. intros Hn. unfold Itoa. rewrite (proj2 (Z.ltb_ge n 0)) by done. by apply udec_digits. Qed.

Lemma Itoa_nonempty n : Itoa n <> EmptyString.
Proof. unfold Itoa. destruct (n <? 0); [done |]. apply udec_nonempty. lia. Qed.
