(* ===== verification/CacheKey.v ===== *)
(** * Cache keys: [NormalizeKey] and its helpers ([cache/cache.go], lines 222-331)

    The pooled [strings.Builder] is reset before use, so it is modelled as a
    string built from the empty one. *)

From S2P Require Import Prelude GoStrings.

Local Open Scope Z_scope.
Local Open Scope string_scope.

Definition isLowerASCII (s : string) : bool := str_forall (fun c => negb (is_upper c)) s.

Definition sortQuery (q : string) : string := Join "&" (sort_Strings (Split "&" q)).

(** The [for i, p := range parts] loop of [writeSortedQuery], [first] being [i = 0]. *)
Fixpoint write_parts (sb : string) (first : bool) (parts : list string) : string :=
  match parts with
  | [] => sb
  | p :: ps => write_parts ((if first then sb else sb +:+ "&") +:+ p) false ps
  end.

Definition writeSortedQuery (sb q : string) : string :=
  if negb (ContainsByte q "&") then sb +:+ q
  else write_parts sb true (sort_Strings (Split "&" q)).

(** The byte-wise lowering loop of the slow path. *)
Fixpoint write_lower (sb host : string) : string :=
  match host with
  | EmptyString => sb
  | String c rest => write_lower (sb +:+ String (if is_upper c then chr (code c + 32) else c) EmptyString) rest
  end.

Section keys.
Context `{Unicode}.

Definition parseVary (vary : string) : list string :=
  if String.eqb vary "*" then []
  else
    let names := map (fun h => TrimSpace (ToLower h)) (Split "," vary) in
    let headers := map CanonicalHeaderKey (filter (fun h => h <> "") names) in
    sort_Strings headers.

(** The [for i, h := range vary] loop appending the request's values. *)
Fixpoint write_vary (sb : string) (first : bool) (reqHeaders : Header) (vary : list string) : string :=
  match vary with
  | [] => sb
  | h :: hs =>
      write_vary ((if first then sb else sb +:+ "&") +:+ h +:+ "=" +:+ Header_Get reqHeaders h)
        false reqHeaders hs
  end.

Definition NormalizeKey (host path query varyHeader : string) (reqHeaders : Header) : string :=
  if String.eqb query "" && String.eqb varyHeader "" then
    if isLowerASCII host then host +:+ path else ToLower host +:+ path
  else
    let sb := if isLowerASCII host then host else write_lower "" host in
    let sb := sb +:+ path in
    let sb := if negb (String.eqb query "") then writeSortedQuery (sb +:+ "?") query else sb in
    if String.eqb varyHeader "" then sb
    else
      let vary := parseVary varyHeader in
      if (0 <? Z.of_nat (length vary))%Z then write_vary (sb +:+ "|vary:") true reqHeaders vary
      else sb.

End keys.

(** ** Lemmas *)

Lemma write_lower_eq sb host : write_lower sb host = sb +:+ lower_ascii host.
Proof.
  revert sb. induction host as [| c host IH]; intros sb; cbn; [by rewrite str_app_nil_r |].
  rewrite IH, str_app_assoc. done.
Qed.

Lemma Join_cons2 sep p p' ps : Join sep (p :: p' :: ps) = p +:+ sep +:+ Join sep (p' :: ps).
Proof. done. Qed.

Lemma write_parts_false sb p ps : write_parts sb false (p :: ps) = sb +:+ "&" +:+ Join "&" (p :: ps).
Proof.
  revert sb p. induction ps as [| p' ps IH]; intros sb p.
  - change ((sb +:+ "&") +:+ p = sb +:+ "&" +:+ p). apply str_app_assoc.
  - rewrite Join_cons2. change (write_parts ((sb +:+ "&") +:+ p) false (p' :: ps)
      = sb +:+ "&" +:+ p +:+ "&" +:+ Join "&" (p' :: ps)).
    by rewrite IH, !str_app_assoc.
Qed.

Lemma write_parts_true sb parts : write_parts sb true parts = sb +:+ Join "&" parts.
Proof.
  destruct parts as [| p [| p' ps]]; [by rewrite str_app_nil_r | done |].
  rewrite Join_cons2. change (write_parts (sb +:+ p) false (p' :: ps)
    = sb +:+ p +:+ "&" +:+ Join "&" (p' :: ps)).
  by rewrite write_parts_false, str_app_assoc.
Qed.

(** Sorting forgets the order of the parts. *)
Lemma sort_Strings_perm l l' : l ≡ₚ l' -> sort_Strings l = sort_Strings l'.
Proof.
  intros Hp. unfold sort_Strings.
  apply (StronglySorted_unique String.le); try apply StronglySorted_merge_sort; try apply _.
  by rewrite !merge_sort_Permutation.
Qed.

Lemma writeSortedQuery_eq sb q : writeSortedQuery sb q = sb +:+ sortQuery q.
Proof.
  unfold writeSortedQuery, sortQuery. destruct (ContainsByte q "&") eqn:E; cbn.
  - apply write_parts_true.
  - by rewrite Split_no_sep.
Qed.

(** [writeSortedQuery] appends exactly what [sortQuery] returns, a rearrangement of
    the query's own parameters. *)
Theorem writeSortedQuery_sortQuery sb q :
  writeSortedQuery sb q = sb +:+ sortQuery q /\
  exists parts, sortQuery q = Join "&" parts /\ parts ≡ₚ Split "&" q /\ Sorted String.le parts.
Proof.
  split; [apply writeSortedQuery_eq |].
  exists (sort_Strings (Split "&" q)). split_and!; [done | apply merge_sort_Permutation |].
  apply Sorted_merge_sort; apply _.
Qed.

Section key_facts.
Context `{Unicode}.

Lemma parseVary_perm v v' :
  Split "," v ≡ₚ Split "," v' -> parseVary v = parseVary v'.
Proof.
  intros Hp. unfold parseVary.
  assert (Hstar : forall a b, Split "," a ≡ₚ Split "," b -> a = "*" -> b = "*").
  { intros a b Hab ->. apply Permutation_length_1_inv in Hab.
    rewrite <- (Join_Split "," b), Hab. done. }
  destruct (String.eqb_spec v "*") as [Hv | Hv].
  { rewrite (Hstar v v' Hp Hv). done. }
  destruct (String.eqb_spec v' "*") as [Hv' | Hv']; [by destruct Hv; apply (Hstar v' v) |].
  apply sort_Strings_perm. apply Permutation_map. rewrite Hp. done.
Qed.

(** The key does not depend on the order of the query parameters nor on the order
    of the names in [Vary]. *)
Theorem NormalizeKey_order_insensitive host path q q' v v' hdr :
  Split "&" q ≡ₚ Split "&" q' -> Split "," v ≡ₚ Split "," v' ->
  NormalizeKey host path q v hdr = NormalizeKey host path q' v' hdr.
Proof.
  intros Hq Hv.
  assert (Hempty : forall sep a b, Split sep a ≡ₚ Split sep b -> a = "" -> b = "").
  { intros sep a b Hab ->. apply Permutation_length_1_inv in Hab.
    by rewrite <- (Join_Split sep b), Hab. }
  assert (Heq : forall sep a b, Split sep a ≡ₚ Split sep b -> String.eqb a "" = String.eqb b "").
  { intros sep a b Hab. apply eq_true_iff_eq. rewrite !String.eqb_eq.
    split; [by apply (Hempty sep) | by apply (Hempty sep)]. }
  unfold NormalizeKey. rewrite <- (Heq _ _ _ Hq), <- (Heq _ _ _ Hv).
  rewrite (parseVary_perm v v' Hv).
  destruct (String.eqb q "" && String.eqb v ""); [done |].
  rewrite !writeSortedQuery_eq. unfold sortQuery.
  by rewrite (sort_Strings_perm _ _ Hq).
Qed.

(** The key without a Vary part, on an ASCII host. *)
Definition base_key (host path query : string) : string :=
  lower_ascii host +:+ path +:+ (if String.eqb query "" then "" else "?" +:+ sortQuery query).

Lemma NormalizeKey_base host path query hdr :
  is_ascii host = true -> NormalizeKey host path query "" hdr = base_key host path query.
Proof.
  intros Ha. unfold NormalizeKey, base_key. rewrite String.eqb_refl, andb_true_r.
  assert (Hl : (if isLowerASCII host then host else write_lower "" host) = lower_ascii host).
  { rewrite write_lower_eq. unfold isLowerASCII. destruct (str_forall _ _) eqn:E; [| done].
    by rewrite lower_ascii_id. }
  rewrite Hl. destruct (String.eqb query "").
  - rewrite str_app_nil_r. rewrite write_lower_eq in Hl.
    destruct (isLowerASCII host); [by rewrite <- Hl |]. unfold ToLower. by rewrite Ha.
  - cbn [negb]. rewrite writeSortedQuery_eq. by rewrite !str_app_assoc.
Qed.

(** The key does not depend on the case of the host. *)
Theorem NormalizeKey_host_case host path query vary hdr :
  is_ascii host = true ->
  NormalizeKey host path query vary hdr = NormalizeKey (lower_ascii host) path query vary hdr.
Proof.
  intros Ha. destruct (String.eqb_spec vary "") as [-> | Hv].
  - rewrite !NormalizeKey_base by auto using lower_ascii_is_ascii.
    unfold base_key. by rewrite lower_ascii_idemp.
  - unfold NormalizeKey. apply String.eqb_neq in Hv. rewrite Hv, andb_false_r.
    assert (Hl : forall h, (if isLowerASCII h then h else write_lower "" h) = lower_ascii h).
    { intros h. rewrite write_lower_eq. unfold isLowerASCII. destruct (str_forall _ _) eqn:E; [| done].
      by rewrite lower_ascii_id. }
    by rewrite !Hl, lower_ascii_idemp.
Qed.

End key_facts.

(** ** When two requests share a key *)

Lemma sortQuery_inj q q' : sortQuery q = sortQuery q' -> Split "&" q ≡ₚ Split "&" q'.
Proof.
  unfold sortQuery. intros E. apply (f_equal (Split "&")) in E.
  assert (Hp : forall q, sort_Strings (Split "&" q) ≡ₚ Split "&" q) by (intros; apply merge_sort_Permutation).
  assert (Hs : forall q, Split "&" (Join "&" (sort_Strings (Split "&" q))) = sort_Strings (Split "&" q)).
  { intros r. apply Split_Join.
    - destruct (Split_cons "&" r) as (p & ps & Er). intros Hnil.
      specialize (Hp r). rewrite Hnil, Er in Hp. by apply Permutation_nil_cons in Hp.
    - rewrite Hp. apply Split_parts. }
  rewrite !Hs in E. by rewrite <- (Hp q), E.
Qed.

Lemma no_byte_lower b s :
  is_lower b = false -> no_byte b s = true -> no_byte b (lower_ascii s) = true.
Proof.
  intros Hb. unfold no_byte. induction s as [| c s IH]; cbn; [done |].
  intros [Hc Hs]%andb_true_iff. apply andb_true_iff; split; [| by apply IH].
  apply negb_true_iff, Ascii.eqb_neq in Hc. apply negb_true_iff, Ascii.eqb_neq. intros E.
  unfold lower_byte in E. destruct (is_upper c) eqn:Eu; [| done].
  assert (Hcb : code b = code c + 32).
  { rewrite <- E, code_chr; [done |]. unfold is_upper in Eu. zbool; cbn in *; done || lia. }
  unfold is_lower in Hb. unfold is_upper in Eu. rewrite Hcb in Hb. zbool; cbn in *; done || lia.
Qed.

Section key_sharing.
Context `{Unicode}.

(** What a request line gives for a host and an unescaped path without a literal '?'. *)
Definition plain_target (host path : string) : Prop :=
  is_ascii host = true /\ no_byte "/" host = true /\
  (exists rest, path = String "/" rest) /\ no_byte "?" path = true.

(** C30: For such targets the key identifies the host up to case, the path, and the
    query up to the order of its parameters. *)
Theorem NormalizeKey_injective host path q host' path' q' hdr hdr' :
  plain_target host path -> plain_target host' path' ->
  NormalizeKey host path q "" hdr = NormalizeKey host' path' q' "" hdr' <->
  lower_ascii host = lower_ascii host' /\ path = path' /\ Split "&" q ≡ₚ Split "&" q'.
Proof.
  intros (Ha & Hh & (r & ->) & Hp) (Ha' & Hh' & (r' & ->) & Hp').
  rewrite !NormalizeKey_base by done. split.
  - intros E. unfold base_key in E.
    apply (f_equal (cut_byte "/")) in E. cbn [String.append] in E.
    rewrite !cut_byte_app in E by (by apply no_byte_lower). injection E as Eh Er.
    split; [done |]. unfold no_byte in Hp, Hp'; cbn in Hp, Hp'.
    change (no_byte "?" r = true) in Hp. change (no_byte "?" r' = true) in Hp'.
    destruct (String.eqb_spec q "") as [-> |], (String.eqb_spec q' "") as [-> |];
      apply (f_equal (cut_byte "?")) in Er; cbn [String.append] in Er;
      rewrite ?str_app_nil_r, ?cut_byte_app, ?cut_byte_none in Er by done; try discriminate;
      injection Er.
    + by intros ->.
    + intros Es ->. split; [done | by apply sortQuery_inj].
  - intros (Eh & Ep & Eq). unfold base_key. rewrite Eh, Ep. do 2 f_equal.
    assert (Hs : sortQuery q = sortQuery q') by (unfold sortQuery; by rewrite (sort_Strings_perm _ _ Eq)).
    rewrite Hs. assert (He : q = "" <-> q' = "").
    { split; intros ->; [| symmetry in Eq]; apply Permutation_length_1_inv in Eq;
        [rewrite <- (Join_Split "&" q') | rewrite <- (Join_Split "&" q)]; by rewrite Eq. }
    destruct (String.eqb_spec q ""), (String.eqb_spec q' ""); tauto || done.
Qed.

(** A literal '?' in the decoded path (sent as [%3F]) makes the key of one resource
    equal to the key of another: the path is written into the key unescaped. *)
Theorem NormalizeKey_path_collision host path q hdr hdr' :
  is_ascii host = true -> q <> "" ->
  NormalizeKey host (path +:+ "?" +:+ sortQuery q) "" "" hdr = NormalizeKey host path q "" hdr'.
Proof.
  intros Ha Hq. rewrite !NormalizeKey_base by done. unfold base_key.
  apply String.eqb_neq in Hq. rewrite Hq. cbn [String.eqb].
  by rewrite str_app_nil_r.
Qed.

End key_sharing.

(** ** Concrete inputs *)

Lemma NormalizeKey_order_insensitive_witness :
  @NormalizeKey ascii_unicode "h" "/p" "b=2&a=1" "Accept,Cookie" ∅
  = @NormalizeKey ascii_unicode "h" "/p" "a=1&b=2" "Cookie,Accept" ∅.
Proof.
  apply (@NormalizeKey_order_insensitive ascii_unicode); cbn; apply perm_swap.
Defined.

Lemma NormalizeKey_host_case_witness :
  @NormalizeKey ascii_unicode "CDN.Example" "/p" "a=1" "" ∅
  = @NormalizeKey ascii_unicode (lower_ascii "CDN.Example") "/p" "a=1" "" ∅.
Proof. apply (@NormalizeKey_host_case ascii_unicode). reflexivity. Defined.

Lemma NormalizeKey_injective_witness :
  @NormalizeKey ascii_unicode "CDN.example" "/p" "b&a" "" ∅
  = @NormalizeKey ascii_unicode "cdn.example" "/p" "a&b" "" ∅.
Proof.
  apply (@NormalizeKey_injective ascii_unicode);
    [split_and!; try done; by eexists | split_and!; try done; by eexists |].
  split_and!; [done | done | cbn; apply perm_swap].
Defined.

Lemma NormalizeKey_path_collision_witness :
  @NormalizeKey ascii_unicode "cdn.example" "/download?file=a" "" "" ∅
  = @NormalizeKey ascii_unicode "cdn.example" "/download" "file=a" "" ∅.
Proof.
  apply (@NormalizeKey_path_collision ascii_unicode "cdn.example" "/download" "file=a" ∅ ∅);
    [reflexivity | discriminate].
Defined.
