(* ===== verification/TinyLFU.v ===== *)
(** * TinyLFU: the frequency sketch and the admission policy ([cache/tinylfu.go])

    [countMinSketch], [doorkeeper] and [TinyLFU] with one definition per method.
    Slices of counters are lists of [Z]; the index computed from a hash is always
    inside the slice ([cmsHashes_bound], [door_word_bound]), so the reads and
    writes below never take Go's out-of-range panic. The mutex of [TinyLFU] makes
    each method atomic. *)

From S2P Require Import Prelude.

Local Open Scope Z_scope.
Local Open Scope go_scope.

(** ** Helpers *)

Definition nextPow2 (v : Z) : Z :=
  if v =? 0 then 1 else u64 (Z.shiftl 1 (Len64 (v - 1))).

(** Reading a slice of counters at a uint64 index. *)
Definition at_ (l : list Z) (i : Z) : Z := default 0 (l !! Z.to_nat i).

(** ** Count-Min Sketch *)

Record countMinSketch := {
  cms_rows : list (list Z);
  cms_width : Z;
  cms_mask : Z
}.

Definition newCountMinSketch (maxItems : Z) : countMinSketch :=
  let w0 := nextPow2 (u64 maxItems *u64 10) in
  let w := if w0 <? 4096 then 4096 else w0 in
  {| cms_rows := replicate 4 (replicate (Z.to_nat w) 0);
     cms_width := w;
     cms_mask := w - 1 |}.

Section hashed.
Context `{Hash64}.

Definition cmsHashes (s : countMinSketch) (key : string) : list Z :=
  let h := Sum64String key in
  let h1 := h in
  let h2 := let r := swap32 h in if r =? 0 then 0x9E3779B97F4A7C15 else r in
  map (fun i => Z.land (h1 +u64 (i *u64 h2)) (cms_mask s)) [0; 1; 2; 3].

(** One row of [increment]: the saturating [row[i]++]. *)
Definition bump (row : list Z) (i : Z) : list Z :=
  if at_ row i <? 255 then <[Z.to_nat i := at_ row i + 1]> row else row.

Definition cms_increment (s : countMinSketch) (key : string) : countMinSketch :=
  {| cms_rows := zip_with bump (cms_rows s) (cmsHashes s key);
     cms_width := cms_width s;
     cms_mask := cms_mask s |}.

(** The counters of [key], one per row. *)
Definition cms_counters (s : countMinSketch) (key : string) : list Z :=
  zip_with at_ (cms_rows s) (cmsHashes s key).

Definition cms_estimate (s : countMinSketch) (key : string) : Z :=
  foldl (fun m c => if c <? m then c else m) 255 (cms_counters s key).

End hashed.

Definition cms_halve (s : countMinSketch) : countMinSketch :=
  {| cms_rows := map (map (fun c => Z.shiftr c 1)) (cms_rows s);
     cms_width := cms_width s;
     cms_mask := cms_mask s |}.

Definition cms_reset (s : countMinSketch) : countMinSketch :=
  {| cms_rows := map (map (fun _ => 0)) (cms_rows s);
     cms_width := cms_width s;
     cms_mask := cms_mask s |}.

(** ** Doorkeeper (Bloom filter) *)

Record doorkeeper := {
  dk_bits : list Z;
  dk_n : Z;
  dk_mask : Z
}.

Definition newDoorkeeper (maxItems : Z) : doorkeeper :=
  let t0 := nextPow2 (u64 maxItems *u64 8) in
  let totalBits := if t0 <? 64 then 64 else t0 in
  let nWords := totalBits / 64 in
  {| dk_bits := replicate (Z.to_nat nWords) 0; dk_n := nWords; dk_mask := totalBits - 1 |}.

(** [(word >> b) & 1 == 1] *)
Definition bit_is_set (w b : Z) : bool := Z.land (Z.shiftr w b) 1 =? 1.

(** [bits[w] |= 1 << b] *)
Definition set_bit (bits : list Z) (w b : Z) : list Z :=
  <[Z.to_nat w := Z.lor (at_ bits w) (u64 (Z.shiftl 1 b))]> bits.

Section hashed_door.
Context `{Hash64}.

Definition door_hashes (d : doorkeeper) (key : string) : Z * Z :=
  let h := Sum64String key in
  (Z.land h (dk_mask d), Z.land (swap32 h) (dk_mask d)).

Definition door_add (d : doorkeeper) (key : string) : doorkeeper * bool :=
  let '(h1, h2) := door_hashes d key in
  let '(w1, b1) := (h1 / 64, h1 mod 64) in
  let '(w2, b2) := (h2 / 64, h2 mod 64) in
  let present := bit_is_set (at_ (dk_bits d) w1) b1 && bit_is_set (at_ (dk_bits d) w2) b2 in
  ({| dk_bits := set_bit (set_bit (dk_bits d) w1 b1) w2 b2;
      dk_n := dk_n d; dk_mask := dk_mask d |}, present).

Definition door_contains (d : doorkeeper) (key : string) : bool :=
  let '(h1, h2) := door_hashes d key in
  let '(w1, b1) := (h1 / 64, h1 mod 64) in
  let '(w2, b2) := (h2 / 64, h2 mod 64) in
  bit_is_set (at_ (dk_bits d) w1) b1 && bit_is_set (at_ (dk_bits d) w2) b2.

End hashed_door.

Definition door_reset (d : doorkeeper) : doorkeeper :=
  {| dk_bits := map (fun _ => 0) (dk_bits d); dk_n := dk_n d; dk_mask := dk_mask d |}.

(** ** TinyLFU *)

Record TinyLFU := {
  tl_sketch : countMinSketch;
  tl_door : doorkeeper;
  tl_counter : Z;
  tl_maxItems : Z
}.

Definition newTinyLFU (maxItems : Z) : TinyLFU :=
  let w0 := maxItems *i64 10 in
  let sampleWindow := if w0 <? 1000 then 1000 else w0 in
  {| tl_sketch := newCountMinSketch maxItems;
     tl_door := newDoorkeeper maxItems;
     tl_counter := 0;
     tl_maxItems := sampleWindow |}.

Section hashed_lfu.
Context `{Hash64}.

Definition TinyLFU_Increment (t : TinyLFU) (key : string) : TinyLFU :=
  let '(door, present) := door_add (tl_door t) key in
  let sketch := if present then cms_increment (tl_sketch t) key else tl_sketch t in
  let c := tl_counter t +i64 1 in
  if tl_maxItems t <=? c then
    {| tl_sketch := cms_halve sketch; tl_door := door_reset door;
       tl_counter := 0; tl_maxItems := tl_maxItems t |}
  else
    {| tl_sketch := sketch; tl_door := door; tl_counter := c; tl_maxItems := tl_maxItems t |}.

Definition TinyLFU_Admit (t : TinyLFU) (newKey victimKey : string) : bool :=
  let newFreq := cms_estimate (tl_sketch t) newKey in
  let victimFreq := cms_estimate (tl_sketch t) victimKey in
  victimFreq <=? newFreq.

Definition TinyLFU_Estimate (t : TinyLFU) (key : string) : Z :=
  cms_estimate (tl_sketch t) key.

End hashed_lfu.

(** ** [nextPow2] *)

(** The value [nextPow2] computes for an argument that fits, as a power of two. *)
Lemma nextPow2_eq v :
  1 <= v <= 2 ^ 63 -> nextPow2 v = 2 ^ Len64 (v - 1) /\ 0 <= Len64 (v - 1) <= 63.
Proof.
  intros Hv. unfold nextPow2.
  assert (Hl : 0 <= Len64 (v - 1) <= 63).
  { split; [apply Len64_nonneg | apply Len64_le; lia]. }
  split; [| done]. zbool; [lia |].
  rewrite Z.shiftl_1_l, u64_small; [done |].
  split; [lia |]. apply Z.pow_lt_mono_r; lia.
Qed.

(** [nextPow2] is a power of two or, past [2^63], the wrapped value 0. *)
Lemma nextPow2_cases v :
  in_u64 v -> (exists n, 0 <= n <= 63 /\ nextPow2 v = 2 ^ n) \/ nextPow2 v = 0.
Proof.
  intros Hv. destruct (Z.eq_dec v 0) as [-> | Hnz]; [left; exists 0; split; [lia | done] |].
  destruct (Z.le_gt_cases v (2 ^ 63)) as [Hs | Hs].
  - unfold in_u64 in Hv. destruct (nextPow2_eq v ltac:(lia)) as [-> Hl].
    left. by exists (Len64 (v - 1)).
  - right. unfold nextPow2. zbool; [lia |]. rewrite Z.shiftl_1_l.
    replace (Len64 (v - 1)) with 64; [done |].
    unfold Len64. zbool; [lia |].
    enough (Z.log2 (v - 1) = 63) by lia.
    apply Z.log2_unique; unfold in_u64 in Hv; lia.
Qed.

(** The least power of two above the argument. *)
Theorem nextPow2_least v :
  1 <= v <= 2 ^ 63 ->
  v <= nextPow2 v /\ nextPow2 v < 2 * v /\
  (exists n, 0 <= n /\ nextPow2 v = 2 ^ n) /\
  (forall m, 0 <= m -> v <= 2 ^ m -> nextPow2 v <= 2 ^ m).
Proof.
  intros Hv. destruct (nextPow2_eq v Hv) as [-> Hl].
  destruct (Z.eq_dec v 1) as [-> | Hne].
  { change (2 ^ Len64 (1 - 1)) with 1. split_and!; [lia | lia | by exists 0 |].
    intros m Hm _. change 1 with (2 ^ 0). apply Z.pow_le_mono_r; lia. }
  pose proof (Len64_spec (v - 1) ltac:(lia)) as [Hlo Hhi].
  set (n := Len64 (v - 1)) in *.
  assert (Hn : 2 ^ n = 2 * 2 ^ (n - 1)).
  { replace n with (Z.succ (n - 1)) at 1 by lia. apply Z.pow_succ_r.
    destruct (Z.eq_dec n 0) as [E |]; [rewrite E in Hhi |]; lia. }
  split_and!; [lia | lia | exists n; lia |].
  intros m Hm Hvm. apply Z.pow_le_mono_r; [lia |].
  destruct (Z.le_gt_cases n m); [done |].
  assert (2 ^ m <= 2 ^ (n - 1)) by (apply Z.pow_le_mono_r; lia). lia.
Qed.

(** ** Well-formed sketches and filters *)

(** A size that is a power of two together with its mask. *)
Definition pow2_mask (size mask : Z) : Prop :=
  exists n, 0 <= n <= 63 /\ size = 2 ^ n /\ mask = size - 1.

Lemma pow2_mask_land size mask x : pow2_mask size mask -> 0 <= Z.land x mask < size.
Proof. intros (n & Hn & -> & ->). apply land_mask_bound. lia. Qed.

Lemma pow2_mask_floor v k :
  in_u64 v -> 0 <= k <= 63 ->
  pow2_mask (if nextPow2 v <? 2 ^ k then 2 ^ k else nextPow2 v)
    ((if nextPow2 v <? 2 ^ k then 2 ^ k else nextPow2 v) - 1).
Proof.
  intros Hv Hk. destruct (nextPow2_cases v Hv) as [(n & Hn & ->) | ->].
  - zbool; [exists k | exists n]; lia.
  - zbool; [exists k; lia | lia].
Qed.

Definition cms_wf (s : countMinSketch) : Prop :=
  pow2_mask (cms_width s) (cms_mask s) /\
  length (cms_rows s) = 4%nat /\
  Forall (fun row => length row = Z.to_nat (cms_width s) /\ Forall in_u8 row) (cms_rows s).

Definition door_wf (d : doorkeeper) : Prop :=
  pow2_mask (dk_n d * 64) (dk_mask d) /\ length (dk_bits d) = Z.to_nat (dk_n d).

Definition TinyLFU_wf (t : TinyLFU) : Prop :=
  cms_wf (tl_sketch t) /\ door_wf (tl_door t) /\
  0 <= tl_counter t < tl_maxItems t /\ 1000 <= tl_maxItems t <= max_i64.

Lemma newCountMinSketch_wf m : cms_wf (newCountMinSketch m).
Proof.
  unfold newCountMinSketch, cms_wf; cbn -[Z.to_nat].
  change 4096 with (2 ^ 12).
  split; [apply pow2_mask_floor; [apply u64_range | lia] |].
  split; [done |].
  repeat constructor; rewrite ?length_replicate; try done;
    apply Forall_replicate; unfold in_u8; lia.
Qed.

Lemma newDoorkeeper_wf m : door_wf (newDoorkeeper m).
Proof.
  unfold newDoorkeeper, door_wf; cbn -[Z.to_nat Z.mul Z.div].
  change 64 with (2 ^ 6) at 1 2 6 7.
  pose proof (pow2_mask_floor (u64 m *u64 8) 6 (u64_range _) ltac:(lia)) as Hp.
  set (t := if _ <? 2 ^ 6 then _ else _) in *.
  split; [| by rewrite length_replicate].
  assert (Hdiv : t / 64 * 64 = t).
  { assert (2 ^ 6 <= t) by (unfold t; zbool; lia).
    destruct Hp as (n & Hn & Ht & _).
    assert (6 <= n).
    { destruct (Z.le_gt_cases 6 n); [done |].
      assert (2 ^ n < 2 ^ 6) by (apply Z.pow_lt_mono_r; lia). lia. }
    rewrite Ht. replace n with (n - 6 + 6) by lia. rewrite Z.pow_add_r by lia.
    change (2 ^ 6) with 64. rewrite Z.div_mul; lia. }
  by rewrite Hdiv.
Qed.

(** ** Rows of counters *)

Lemma at_insert_eq l i x : 0 <= i < Z.of_nat (length l) -> at_ (<[Z.to_nat i := x]> l) i = x.
Proof. intros Hi. unfold at_. by rewrite list_lookup_insert_eq by lia. Qed.

Lemma at_insert_ne l i j x :
  0 <= i -> 0 <= j -> i <> j -> at_ (<[Z.to_nat i := x]> l) j = at_ l j.
Proof. intros. unfold at_. by rewrite list_lookup_insert_ne by lia. Qed.

Lemma at_in_u8 l i : 0 <= i < Z.of_nat (length l) -> Forall in_u8 l -> in_u8 (at_ l i).
Proof.
  intros Hi Hl. destruct (lookup_lt_is_Some_2 l (Z.to_nat i) ltac:(lia)) as [x Hx].
  unfold at_. rewrite Hx; cbn.
  by eapply Forall_lookup_1.
Qed.

Lemma length_bump row i : length (bump row i) = length row.
Proof. unfold bump. zbool; [apply length_insert | done]. Qed.

Lemma bump_u8 row i :
  0 <= i < Z.of_nat (length row) -> Forall in_u8 row -> Forall in_u8 (bump row i).
Proof.
  intros Hi Hr. pose proof (at_in_u8 row i Hi Hr) as Ha. unfold bump.
  zbool; [| done]. apply Forall_insert; [done |]. unfold in_u8 in *. lia.
Qed.

(** A counter never decreases, and the counter bumped reaches [min 255 (c + 1)]. *)
Lemma bump_ge row i j : 0 <= i -> 0 <= j -> at_ row j <= at_ (bump row i) j.
Proof.
  intros Hi Hj. unfold bump. zbool; [| lia].
  destruct (Z.eq_dec i j) as [-> | Hne]; [| rewrite at_insert_ne; lia].
  destruct (Z.lt_ge_cases j (Z.of_nat (length row))).
  - rewrite at_insert_eq; lia.
  - unfold at_. rewrite list_insert_ge by lia. done.
Qed.

Lemma bump_eq row i :
  0 <= i < Z.of_nat (length row) -> Z.min 255 (at_ row i + 1) <= at_ (bump row i) i.
Proof. intros Hi. unfold bump. zbool; [rewrite at_insert_eq; lia | lia]. Qed.

(** ** Facts on the sketch *)

Lemma foldl_min_glb n m l :
  n <= foldl (fun m c => if c <? m then c else m) m l <-> n <= m /\ Forall (fun c => n <= c) l.
Proof.
  revert m. induction l as [| c l IH]; intros m; cbn.
  - split; [intros; split; [done | constructor] | tauto].
  - rewrite IH, Forall_cons. zbool; intuition lia.
Qed.

Section sketch_facts.
Context `{Hash64}.

(** The indices depend on the mask alone. *)
Lemma cmsHashes_mask s s' key : cms_mask s = cms_mask s' -> cmsHashes s key = cmsHashes s' key.
Proof. intros E. unfold cmsHashes. by rewrite E. Qed.

Lemma length_cmsHashes s key : length (cmsHashes s key) = 4%nat.
Proof. done. Qed.

(** Every index [cmsHashes] returns is inside the rows. *)
Lemma cmsHashes_bound s key :
  cms_wf s -> Forall (fun i => 0 <= i < cms_width s) (cmsHashes s key).
Proof.
  intros [Hm _]. unfold cmsHashes. apply Forall_forall. intros i Hi.
  apply list_elem_of_fmap in Hi as (x & -> & _). by apply pow2_mask_land.
Qed.

Lemma cms_estimate_glb s key n :
  n <= cms_estimate s key <-> n <= 255 /\ Forall (fun c => n <= c) (cms_counters s key).
Proof. apply foldl_min_glb. Qed.

Lemma cms_increment_wf s key : cms_wf s -> cms_wf (cms_increment s key).
Proof.
  intros Hwf. pose proof (cmsHashes_bound s key Hwf) as Hidx.
  destruct Hwf as (Hm & Hl & Hr). unfold cms_increment, cms_wf; cbn [cms_rows cms_width cms_mask].
  split_and!; [done | rewrite length_zip_with, Hl; done |].
  clear Hl. revert Hidx. generalize (cmsHashes s key). induction Hr as [| row rows [Hlen H8] _ IH].
  - intros; constructor.
  - intros [| i idx] Hidx; [constructor |]. inversion_clear Hidx as [| ? ? Hi Hidx'].
    constructor; [| by apply IH].
    split; [by rewrite length_bump | apply bump_u8; [lia | done]].
Qed.

Lemma cms_halve_wf s : cms_wf s -> cms_wf (cms_halve s).
Proof.
  intros (Hm & Hl & Hr). unfold cms_halve, cms_wf; cbn.
  split_and!; [done | by rewrite length_map |].
  apply Forall_fmap. eapply Forall_impl; [exact Hr |].
  intros row [Hlen H8]. split; [by unfold compose; rewrite length_map |].
  apply Forall_fmap. eapply Forall_impl; [exact H8 |].
  intros c Hc. unfold in_u8, compose in *. rewrite Z.shiftr_div_pow2 by lia.
  change (2 ^ 1) with 2. Z.to_euclidean_division_equations; lia.
Qed.

Lemma cms_reset_wf s : cms_wf s -> cms_wf (cms_reset s).
Proof.
  intros (Hm & Hl & Hr). unfold cms_reset, cms_wf; cbn.
  split_and!; [done | by rewrite length_map |].
  apply Forall_fmap. eapply Forall_impl; [exact Hr |].
  intros row [Hlen H8]. split; [by unfold compose; rewrite length_map |].
  apply Forall_fmap, Forall_true. unfold in_u8, compose. lia.
Qed.

Lemma cms_estimate_range s key : cms_wf s -> 0 <= cms_estimate s key <= 255.
Proof.
  intros Hwf. pose proof (cmsHashes_bound s key Hwf) as Hidx. split.
  - apply cms_estimate_glb. split; [lia |].
    destruct Hwf as (_ & _ & Hr). unfold cms_counters.
    revert Hidx. generalize (cmsHashes s key).
    induction Hr as [| row rows [Hlen H8] _ IH]; intros idx Hidx; [constructor |].
    destruct idx as [| i idx]; [constructor |]. inversion_clear Hidx as [| ? ? Hi Hidx'].
    constructor; [| by apply IH].
    assert (in_u8 (at_ row i)) as [? ?]; [apply at_in_u8; [lia | done] | lia].
  - apply (proj1 (cms_estimate_glb s key _) (Z.le_refl _)).
Qed.

(** Incrementing any key keeps every lower bound of an estimate, and incrementing
    [key] itself raises it by one, up to the saturation at 255. *)
Lemma cms_increment_mono s key key' n :
  cms_wf s -> n <= cms_estimate s key -> n <= cms_estimate (cms_increment s key') key.
Proof.
  intros Hwf. rewrite !cms_estimate_glb. intros [Hn Hc]; split; [done |].
  unfold cms_counters in *. rewrite (cmsHashes_mask (cms_increment s key') s) by done.
  unfold cms_increment; cbn [cms_rows].
  pose proof (cmsHashes_bound s key Hwf) as Hidx.
  pose proof (cmsHashes_bound s key' Hwf) as Hidx'. revert Hc Hidx Hidx'.
  generalize (cmsHashes s key).
  generalize (cmsHashes s key').
  induction (cms_rows s) as [| row rows IH]; intros idx' idx; [constructor |].
  destruct idx as [| i idx], idx' as [| i' idx']; cbn; try (constructor; fail).
  intros Hc Hi Hi'. inversion_clear Hc. inversion_clear Hi. inversion_clear Hi'.
  constructor; [etransitivity; [eassumption | apply bump_ge; lia] | by apply IH].
Qed.

Lemma cms_increment_own s key n :
  cms_wf s -> n <= cms_estimate s key ->
  Z.min 255 (n + 1) <= cms_estimate (cms_increment s key) key.
Proof.
  intros Hwf. pose proof (cmsHashes_bound s key Hwf) as Hidx.
  rewrite !cms_estimate_glb. intros [Hn Hc]; split; [lia |].
  unfold cms_counters in *. rewrite (cmsHashes_mask (cms_increment s key) s) by done.
  unfold cms_increment; cbn [cms_rows]. destruct Hwf as (_ & _ & Hr). revert Hc Hidx.
  generalize (cmsHashes s key).
  induction Hr as [| row rows [Hlen H8] _ IH]; intros idx; [constructor |].
  destruct idx as [| i idx]; cbn; [constructor |].
  intros Hc Hi. inversion_clear Hc. inversion_clear Hi.
  constructor; [| by apply IH].
  pose proof (bump_eq row i ltac:(lia)). lia.
Qed.

Lemma cms_halve_estimate s key n :
  0 <= n -> n <= cms_estimate s key -> n / 2 <= cms_estimate (cms_halve s) key.
Proof.
  intros Hn0. rewrite !cms_estimate_glb. intros [Hn Hc]; split.
  { Z.to_euclidean_division_equations; lia. }
  unfold cms_counters in *. rewrite (cmsHashes_mask (cms_halve s) s) by done.
  unfold cms_halve; cbn [cms_rows].
  revert Hc. generalize (cmsHashes s key).
  induction (cms_rows s) as [| row rows IH]; intros idx; [constructor |].
  destruct idx as [| i idx]; cbn; [constructor |].
  intros Hc. inversion_clear Hc. constructor; [| by apply IH].
  assert (Hat : at_ (map (fun c => Z.shiftr c 1) row) i = at_ row i / 2).
  { unfold at_.
    change (map (fun c => Z.shiftr c 1) row) with ((fun c => Z.shiftr c 1) <$> row).
    rewrite list_lookup_fmap. destruct (row !! Z.to_nat i); cbn; [| done].
    by rewrite Z.shiftr_div_pow2. }
  rewrite Hat. Z.to_euclidean_division_equations; lia.
Qed.

End sketch_facts.

(** ** Facts on the doorkeeper *)

Lemma bit_is_set_testbit w b : 0 <= b -> bit_is_set w b = Z.testbit w b.
Proof.
  intros Hb. unfold bit_is_set. change 1 with (Z.ones 1) at 1.
  rewrite Z.land_ones by lia. change (2 ^ 1) with 2.
  rewrite <- Z.bit0_mod, Z.shiftr_spec by lia. rewrite Z.add_0_l.
  by destruct (Z.testbit w b).
Qed.

Lemma set_bit_eq bits w b :
  0 <= w < Z.of_nat (length bits) -> 0 <= b < 64 ->
  bit_is_set (at_ (set_bit bits w b) w) b = true.
Proof.
  intros Hw Hb. unfold set_bit. rewrite at_insert_eq, bit_is_set_testbit by lia.
  rewrite Z.lor_spec, Z.shiftl_1_l, u64_small by (split; [lia | apply Z.pow_lt_mono_r; lia]).
  rewrite Z.pow2_bits_true by lia. apply orb_true_r.
Qed.

Lemma set_bit_mono bits w b w' b' :
  0 <= w -> 0 <= w' -> 0 <= b' ->
  bit_is_set (at_ bits w') b' = true -> bit_is_set (at_ (set_bit bits w b) w') b' = true.
Proof.
  intros Hw Hw' Hb'. unfold set_bit.
  destruct (Z.eq_dec w w') as [-> | Hne]; [| by rewrite at_insert_ne].
  destruct (Z.lt_ge_cases w' (Z.of_nat (length bits))).
  - rewrite at_insert_eq, !bit_is_set_testbit, Z.lor_spec by lia. by intros ->.
  - by rewrite list_insert_ge by lia.
Qed.

Section door_facts.
Context `{Hash64}.

(** The two words [add] and [contains] touch are inside the filter. *)
Lemma door_word_bound d key :
  door_wf d ->
  let '(h1, h2) := door_hashes d key in
  0 <= h1 / 64 < Z.of_nat (length (dk_bits d)) /\ 0 <= h2 / 64 < Z.of_nat (length (dk_bits d)).
Proof.
  intros [Hm Hl]. unfold door_hashes. rewrite Hl.
  pose proof (pow2_mask_land _ _ (Sum64String key) Hm).
  pose proof (pow2_mask_land _ _ (swap32 (Sum64String key)) Hm).
  split; Z.to_euclidean_division_equations; lia.
Qed.

Lemma door_add_wf d key : door_wf d -> door_wf (door_add d key).1.
Proof.
  intros [Hm Hl]. unfold door_add, door_wf, set_bit; cbn.
  split; [done | by rewrite !length_insert].
Qed.

Lemma door_reset_wf d : door_wf d -> door_wf (door_reset d).
Proof. intros [Hm Hl]. unfold door_reset, door_wf; cbn. split; [done | by rewrite length_map]. Qed.

Lemma door_add_present d key : (door_add d key).2 = door_contains d key.
Proof. done. Qed.

Lemma door_contains_add d key : door_wf d -> door_contains (door_add d key).1 key = true.
Proof.
  intros Hwf. pose proof (door_word_bound d key Hwf) as Hw.
  unfold door_contains, door_add, door_hashes in *; cbn [fst dk_bits dk_mask] in *.
  destruct Hw as [Hw1 Hw2].
  set (h1 := Z.land (Sum64String key) (dk_mask d)) in *.
  set (h2 := Z.land (swap32 (Sum64String key)) (dk_mask d)) in *.
  pose proof (Z.mod_pos_bound h1 64 ltac:(lia)). pose proof (Z.mod_pos_bound h2 64 ltac:(lia)).
  apply andb_true_iff; split.
  - apply set_bit_mono; [lia.. |]. by apply set_bit_eq.
  - apply set_bit_eq; [| lia]. unfold set_bit. by rewrite length_insert.
Qed.

Lemma door_contains_mono d key key' :
  door_wf d -> door_contains d key = true -> door_contains (door_add d key').1 key = true.
Proof.
  intros Hwf. pose proof (door_word_bound d key Hwf) as Hw.
  pose proof (door_word_bound d key' Hwf) as Hw'.
  unfold door_contains, door_add, door_hashes in *; cbn [fst dk_bits dk_mask] in *.
  destruct Hw as [Hw1 Hw2], Hw' as [Hw1' Hw2'].
  intros [H1 H2]%andb_true_iff. apply andb_true_iff.
  split; apply set_bit_mono; try lia; try (apply Z.mod_pos_bound; lia);
    apply set_bit_mono; try lia; try (apply Z.mod_pos_bound; lia); done.
Qed.

End door_facts.

(** ** The specification: the exact decayed frequency of one key

    [ideal] is what TinyLFU approximates: a counter for one key, with the same
    doorkeeper discipline (the first access of a window is not counted), the same
    saturation and the same periodic halving. *)

Record ideal := { id_seen : bool; id_freq : Z; id_window : Z }.

Definition ideal_step (W : Z) (key : string) (st : ideal) (accessed : string) : ideal :=
  let hit := bool_decide (accessed = key) in
  let freq := if hit && id_seen st then Z.min 255 (id_freq st + 1) else id_freq st in
  let seen := id_seen st || hit in
  if W <=? id_window st + 1 then {| id_seen := false; id_freq := freq / 2; id_window := 0 |}
  else {| id_seen := seen; id_freq := freq; id_window := id_window st + 1 |}.

Definition ideal_init : ideal := {| id_seen := false; id_freq := 0; id_window := 0 |}.

Definition ideal_run (W : Z) (key : string) (accesses : list string) : ideal :=
  foldl (ideal_step W key) ideal_init accesses.

Section lfu_facts.
Context `{Hash64}.

Lemma newTinyLFU_wf m : TinyLFU_wf (newTinyLFU m).
Proof.
  unfold TinyLFU_wf, newTinyLFU; cbn [tl_sketch tl_door tl_counter tl_maxItems].
  split_and!; try (zbool; pose proof (i64_range (m * 10)); unfold in_i64, max_i64 in *; lia).
  - apply newCountMinSketch_wf.
  - apply newDoorkeeper_wf.
Qed.

Lemma TinyLFU_Increment_wf t key : TinyLFU_wf t -> TinyLFU_wf (TinyLFU_Increment t key).
Proof.
  intros (Hs & Hd & Hc & HW). unfold TinyLFU_Increment.
  destruct (door_add (tl_door t) key) as [door present] eqn:E.
  pose proof (door_add_wf (tl_door t) key Hd) as Hd'. rewrite E in Hd'; cbn [fst] in Hd'.
  assert (Hs' : cms_wf (if present then cms_increment (tl_sketch t) key else tl_sketch t)).
  { destruct present; [by apply cms_increment_wf | done]. }
  rewrite i64_small by (unfold in_i64, min_i64, max_i64 in *; lia).
  unfold TinyLFU_wf. zbool; cbn [tl_sketch tl_door tl_counter tl_maxItems];
    split_and!; try lia; auto using cms_halve_wf, door_reset_wf.
Qed.

Lemma TinyLFU_Increment_maxItems t key : tl_maxItems (TinyLFU_Increment t key) = tl_maxItems t.
Proof. unfold TinyLFU_Increment. destruct (door_add _ _). by zbool. Qed.

(** The simulation relation between the filter and the exact counter of [key]. *)
Definition lfu_sim (key : string) (t : TinyLFU) (st : ideal) : Prop :=
  TinyLFU_wf t /\ id_window st = tl_counter t /\
  0 <= id_freq st <= TinyLFU_Estimate t key /\
  (id_seen st = true -> door_contains (tl_door t) key = true).

Lemma lfu_sim_step key t st accessed :
  lfu_sim key t st ->
  lfu_sim key (TinyLFU_Increment t accessed) (ideal_step (tl_maxItems t) key st accessed).
Proof.
  intros (Hwf & Hwin & Hfreq & Hseen).
  split; [by apply TinyLFU_Increment_wf |].
  destruct Hwf as (Hs & Hd & Hc & HW).
  unfold TinyLFU_Increment, ideal_step, TinyLFU_Estimate in *.
  pose proof (door_add_present (tl_door t) accessed) as Hp.
  pose proof (door_contains_add (tl_door t) accessed Hd) as Hadd.
  pose proof (fun key' => door_contains_mono (tl_door t) key' accessed Hd) as Hmono.
  pose proof (door_add_wf (tl_door t) accessed Hd) as Hd'.
  destruct (door_add (tl_door t) accessed) as [door present]; cbn [fst snd] in *.
  rewrite i64_small by (unfold in_i64, min_i64, max_i64 in *; lia). rewrite Hwin.
  set (freq' := if bool_decide (accessed = key) && id_seen st then _ else _).
  set (sketch' := if present then _ else _).
  assert (Hf' : 0 <= freq' <= cms_estimate sketch' key).
  { unfold freq', sketch'. case_bool_decide as Heq; [subst accessed |]; cbn [andb].
    - destruct (id_seen st).
      + rewrite (Hseen eq_refl) in Hp. subst present.
        split; [lia | apply cms_increment_own; [done | lia]].
      + destruct present; [| done]. split; [lia | apply cms_increment_mono; [done | lia]].
    - destruct present; [| done]. split; [lia | apply cms_increment_mono; [done | lia]]. }
  zbool; cbn [tl_counter tl_sketch tl_door id_freq id_window id_seen].
  - split_and!; [done | Z.to_euclidean_division_equations; lia | | done].
    apply cms_halve_estimate; lia.
  - split_and!; [done | lia | lia |].
    intros [Hs' | ->%bool_decide_eq_true]%orb_true_iff; [by apply Hmono, Hseen | done].
Qed.

Lemma lfu_sim_run key t st ks :
  lfu_sim key t st ->
  lfu_sim key (foldl TinyLFU_Increment t ks) (foldl (ideal_step (tl_maxItems t) key) st ks).
Proof.
  revert t st. induction ks as [| k ks IH]; intros t st Hsim; [done |].
  cbn [foldl]. rewrite <- (TinyLFU_Increment_maxItems t k).
  apply IH. rewrite TinyLFU_Increment_maxItems. by apply lfu_sim_step.
Qed.

Lemma lfu_sim_init key m : lfu_sim key (newTinyLFU m) ideal_init.
Proof.
  split; [apply newTinyLFU_wf |]. split; [done |]. split; [| done].
  split; [done |]. apply cms_estimate_range, newTinyLFU_wf.
Qed.

(** C37: After any sequence of accesses the estimate of a key lies between its exact
    decayed frequency and 255: the sketch never underestimates, whatever the
    collisions. *)
Theorem TinyLFU_never_underestimates maxItems accesses key :
  let t := foldl TinyLFU_Increment (newTinyLFU maxItems) accesses in
  id_freq (ideal_run (tl_maxItems (newTinyLFU maxItems)) key accesses) <= TinyLFU_Estimate t key
  /\ 0 <= TinyLFU_Estimate t key <= 255 /\ TinyLFU_wf t.
Proof.
  intros t. destruct (lfu_sim_run key _ _ accesses (lfu_sim_init key maxItems)) as (Hwf & _ & Hf & _).
  split_and!; [apply Hf | apply cms_estimate_range, Hwf | apply cms_estimate_range, Hwf | done].
Qed.

(** Scan resistance. A newcomer whose estimate is below the exact frequency of the
    victim is never admitted. *)
Theorem TinyLFU_scan_resistance maxItems accesses newKey victimKey :
  let t := foldl TinyLFU_Increment (newTinyLFU maxItems) accesses in
  TinyLFU_Estimate t newKey
    < id_freq (ideal_run (tl_maxItems (newTinyLFU maxItems)) victimKey accesses) ->
  TinyLFU_Admit t newKey victimKey = false.
Proof.
  intros t Hlt. unfold TinyLFU_Admit. apply Z.leb_gt.
  destruct (lfu_sim_run victimKey _ _ accesses (lfu_sim_init victimKey maxItems)) as (_ & _ & Hf & _).
  unfold TinyLFU_Estimate in *. fold t in Hf. unfold ideal_run in Hlt. lia.
Qed.

End lfu_facts.

(** A key seen three times resists a key never seen. *)
Lemma TinyLFU_scan_resistance_witness :
  @TinyLFU_Admit poly_hash64
    (foldl (@TinyLFU_Increment poly_hash64) (newTinyLFU 10) ["/hot"; "/hot"; "/hot"]%string)
    "/scan" "/hot" = false.
Proof.
  apply (@TinyLFU_scan_resistance poly_hash64 10 ["/hot"; "/hot"; "/hot"]%string "/scan" "/hot").
  vm_compute. reflexivity.
Defined.

Lemma nextPow2_least_witness : 1 <= 1000 <= 2 ^ 63 /\ 1000 <= nextPow2 1000.
Proof. split; [lia | apply (nextPow2_least 1000); lia]. Defined.
