(* ===== verification/Entry.v ===== *)
(** * Cache entries and their compressed headers ([cache/headers.go], [Entry] of [cache/cache.go])

    [encoding/gob] and the zstd codec are the interface [HeaderCodec]: encoders and
    decoders, with the round-trip laws their documentation states in
    [HeaderCodecLaws]. Everything around them (the flag byte, the choice between raw
    and compressed storage, the nil and error branches) is defined here. *)

From S2P Require Import Prelude GoStrings.

Local Open Scope Z_scope.

(** ** The codecs *)

Class HeaderCodec := {
  gob_Encode : Header -> option string;
  gob_Decode : string -> option Header;
  zstd_EncodeAll : string -> string;
  zstd_DecodeAll : string -> option string
}.

Class HeaderCodecLaws `{HeaderCodec} : Prop := {
  gob_Encode_total : forall h, is_Some (gob_Encode h);
  gob_roundtrip : forall h s, gob_Encode h = Some s -> gob_Decode s = Some h;
  zstd_roundtrip : forall s, zstd_DecodeAll (zstd_EncodeAll s) = Some s
}.

(** ** [CompressedHeader] *)

Definition hdrFlagRaw : ascii := chr 0.
Definition hdrFlagZstd : ascii := chr 1.

Record CompressedHeader := { ch_data : string }.

Section codec.
Context `{HeaderCodec}.

Definition NewCompressedHeader (h : Header) : option CompressedHeader :=
  if (size h =? 0)%nat then None
  else
    match gob_Encode h with
    | None => None
    | Some raw =>
        let compressed := zstd_EncodeAll raw in
        if str_len raw + 1 <=? str_len compressed + 1
        then Some {| ch_data := String hdrFlagRaw raw |}
        else Some {| ch_data := String hdrFlagZstd compressed |}
    end.

(** The receiver may be nil: [None]. *)
Definition CompressedHeader_Decode (ch : option CompressedHeader) : Header :=
  match ch with
  | None => ∅
  | Some ch =>
      match ch_data ch with
      | EmptyString => ∅
      | String flag payload =>
          let raw :=
            if Ascii.eqb flag hdrFlagRaw then Some payload
            else if Ascii.eqb flag hdrFlagZstd then zstd_DecodeAll payload
            else None in
          match raw with
          | None => ∅
          | Some raw => default ∅ (gob_Decode raw)
          end
      end
  end.

Definition CompressedHeader_Size (ch : option CompressedHeader) : Z :=
  match ch with None => 0 | Some ch => str_len (ch_data ch) end.

Definition CompressedHeader_Get (ch : option CompressedHeader) (key : string) : string :=
  match ch with None => EmptyString | Some _ => Header_Get (CompressedHeader_Decode ch) key end.

(** ** [Entry] *)

Record Entry := {
  e_Body : string;
  e_Header : option Header;                       (* nil or a map *)
  e_CompressedHeader : option CompressedHeader;   (* nil or a pointer *)
  e_StatusCode : Z;
  e_StoredAt : Z;
  e_TTL : Duration;
  e_ETag : string;
  e_LastMod : string;
  e_VaryKey : string;
  e_StaleWhileRevalidate : Duration
}.

Definition Entry_GetHeader (e : Entry) : Header :=
  match e_Header e with
  | Some h => h
  | None =>
      match e_CompressedHeader e with
      | Some ch => CompressedHeader_Decode (Some ch)
      | None => ∅
      end
  end.

(** [now] is what [time.Now] returns inside [time.Since]. *)
Definition Entry_IsExpired (now : Z) (e : Entry) : bool :=
  if e_TTL e <=? 0 then false else e_TTL e <? time_sub now (e_StoredAt e).

Definition Entry_IsStaleServable (now : Z) (e : Entry) : bool :=
  if (e_StaleWhileRevalidate e <=? 0) || (e_TTL e <=? 0) then false
  else
    let age := time_sub now (e_StoredAt e) in
    (e_TTL e <? age) && (age <=? i64 (e_TTL e + e_StaleWhileRevalidate e)).

(** [entry.CompressedHeader = NewCompressedHeader(entry.Header); entry.Header = nil] *)
Definition compress_header (e : Entry) (h : Header) : Entry :=
  {| e_Body := e_Body e; e_Header := None; e_CompressedHeader := NewCompressedHeader h;
     e_StatusCode := e_StatusCode e; e_StoredAt := e_StoredAt e; e_TTL := e_TTL e;
     e_ETag := e_ETag e; e_LastMod := e_LastMod e; e_VaryKey := e_VaryKey e;
     e_StaleWhileRevalidate := e_StaleWhileRevalidate e |}.

(** ** Compression is lossless *)

Lemma NewCompressedHeader_decode `{!HeaderCodecLaws} h :
  CompressedHeader_Decode (NewCompressedHeader h) = h.
Proof.
  unfold NewCompressedHeader. destruct (Nat.eqb_spec (size h) 0) as [E | _].
  { symmetry. by apply map_size_empty_iff. }
  destruct (gob_Encode_total h) as [raw Hraw]. rewrite Hraw.
  pose proof (gob_roundtrip h raw Hraw) as Hdec.
  zbool; cbn [CompressedHeader_Decode ch_data].
  - change (Ascii.eqb hdrFlagRaw hdrFlagRaw) with true; cbn iota. by rewrite Hdec.
  - change (Ascii.eqb hdrFlagZstd hdrFlagRaw) with false.
    change (Ascii.eqb hdrFlagZstd hdrFlagZstd) with true; cbn iota. by rewrite zstd_roundtrip, Hdec.
Qed.

(** Storing a header compressed and reading it back gives the header, and the stored
    form is never longer than the raw encoding plus its flag byte. *)
Theorem CompressedHeader_roundtrip `{!HeaderCodecLaws} h :
  CompressedHeader_Decode (NewCompressedHeader h) = h /\
  (forall key, CompressedHeader_Get (NewCompressedHeader h) key = Header_Get h key) /\
  (forall raw, gob_Encode h = Some raw ->
     CompressedHeader_Size (NewCompressedHeader h) <= 1 + str_len raw).
Proof.
  pose proof (NewCompressedHeader_decode h) as Hd. split; [done |]. split.
  - intros key. unfold CompressedHeader_Get.
    destruct (NewCompressedHeader h) eqn:E; [by rewrite Hd |].
    cbn in Hd. rewrite <- Hd. done.
  - intros raw Hraw. unfold NewCompressedHeader. rewrite Hraw.
    destruct (size h =? 0)%nat; [unfold str_len; cbn; lia |].
    unfold str_len in *. zbool; cbn [CompressedHeader_Size ch_data str_len String.length];
      unfold str_len; cbn [String.length]; lia.
Qed.

Lemma compress_header_GetHeader `{!HeaderCodecLaws} e h :
  Entry_GetHeader (compress_header e h) = h.
Proof.
  unfold Entry_GetHeader, compress_header; cbn.
  pose proof (NewCompressedHeader_decode h) as Hd.
  by destruct (NewCompressedHeader h).
Qed.

(** ** Expiry *)

(** The three ages of an entry with a positive TTL whose window does not overflow:
    fresh up to the TTL, then stale but servable up to TTL plus the window, then dead;
    exactly one holds at any instant. *)
Theorem Entry_lifetime e now :
  0 < e_TTL e -> 0 <= e_StaleWhileRevalidate e ->
  e_TTL e + e_StaleWhileRevalidate e < max_i64 ->
  let age := now - e_StoredAt e in
  (Entry_IsExpired now e = false <-> age <= e_TTL e) /\
  (Entry_IsStaleServable now e = true
     <-> e_TTL e < age <= e_TTL e + e_StaleWhileRevalidate e) /\
  (Entry_IsExpired now e = true /\ Entry_IsStaleServable now e = false
     <-> e_TTL e + e_StaleWhileRevalidate e < age).
Proof.
  intros HT HS Hsum age. unfold Entry_IsExpired, Entry_IsStaleServable, time_sub.
  rewrite i64_small by (unfold in_i64, min_i64, max_i64 in *; lia). fold age.
  unfold min_i64, max_i64 in *. zbool; cbn; intuition (discriminate || lia).
Qed.

(** When TTL plus the stale window exceeds int64 the sum wraps and the entry is never
    served stale. *)
Theorem Entry_stale_window_overflow e now :
  in_i64 (e_TTL e) -> in_i64 (e_StaleWhileRevalidate e) ->
  max_i64 < e_TTL e + e_StaleWhileRevalidate e ->
  Entry_IsStaleServable now e = false.
Proof.
  unfold in_i64, Entry_IsStaleServable. intros HT HS Hsum.
  assert (Hw : i64 (e_TTL e + e_StaleWhileRevalidate e)
               = e_TTL e + e_StaleWhileRevalidate e - 2 ^ 64) by word.
  rewrite Hw. unfold min_i64, max_i64 in *. zbool; cbn; done || lia.
Qed.

End codec.

(** ** A concrete codec *)

Fixpoint pos_bits (p : positive) : string :=
  match p with
  | xH => EmptyString
  | xO p => String "0" (pos_bits p)
  | xI p => String "1" (pos_bits p)
  end.

Fixpoint bits_pos (s : string) : positive :=
  match s with
  | EmptyString => xH
  | String c s => if Ascii.eqb c "0" then xO (bits_pos s) else xI (bits_pos s)
  end.

Definition bits_codec : HeaderCodec :=
  {| gob_Encode h := Some (pos_bits (encode h)); gob_Decode s := decode (bits_pos s);
     zstd_EncodeAll s := s; zstd_DecodeAll s := Some s |}.

Lemma bits_codec_laws : @HeaderCodecLaws bits_codec.
Proof.
  assert (Hb : forall p, bits_pos (pos_bits p) = p) by (induction p; cbn; congruence).
  split; [by eexists | | done].
  intros h s [= <-]. cbn. rewrite Hb. apply decode_encode.
Qed.

Definition sample_header : Header := {["Etag" := ["v1"]]}.

Definition sample_entry : Entry :=
  {| e_Body := "hello"; e_Header := Some sample_header; e_CompressedHeader := None;
     e_StatusCode := 200; e_StoredAt := 1000 * Second; e_TTL := 300 * Second;
     e_ETag := "v1"; e_LastMod := ""; e_VaryKey := ""; e_StaleWhileRevalidate := 60 * Second |}.

Lemma CompressedHeader_roundtrip_witness :
  @CompressedHeader_Decode bits_codec (@NewCompressedHeader bits_codec sample_header) = sample_header.
Proof. apply (@CompressedHeader_roundtrip bits_codec bits_codec_laws sample_header). Defined.

Lemma Entry_lifetime_witness : Entry_IsStaleServable (1350 * Second) sample_entry = true.
Proof.
  refine (proj2 (proj1 (proj2 (Entry_lifetime sample_entry (1350 * Second) _ _ _))) _);
    unfold sample_entry, Second, max_i64; cbn; lia.
Defined.

Lemma Entry_stale_window_overflow_witness :
  let e := {| e_Body := ""; e_Header := None; e_CompressedHeader := None; e_StatusCode := 200;
              e_StoredAt := 0; e_TTL := 300 * Second; e_ETag := ""; e_LastMod := ""; e_VaryKey := "";
              e_StaleWhileRevalidate := 9223372036 * Second |} in
  Entry_IsStaleServable (301 * Second) e = false.
Proof.
  apply Entry_stale_window_overflow; unfold in_i64, min_i64, max_i64, Second; cbn; lia.
Defined.
