(* ===== verification/Shard.v ===== *)
(** * One LRU partition of the cache ([cacheShard] of [cache/cache.go])

    [container/list] is modelled with its pointers: an element is an identifier, the
    list is the sequence of identifiers from front to back, and [sh_elems] is the
    heap the [*list.Element] and [*lruItem] pointers go to. The map of the shard
    goes from keys to element pointers, as in the code. [shard_abs] forgets the
    pointers: it is the association list, most recently used first, that the shard
    stands for, and each pointer operation is shown to implement the list operation
    it is meant to be. The shard's mutex makes every operation atomic. *)

From S2P Require Import Prelude Entry.

Local Open Scope Z_scope.

Record lruItem := { it_key : string; it_entry : Entry }.

Record cacheShard := {
  sh_items : gmap string nat;
  sh_eviction : list nat;         (* front first *)
  sh_elems : gmap nat lruItem;    (* the Value of each element ever created *)
  sh_next : nat;                  (* the next element to allocate *)
  sh_maxItems : Z
}.

Definition newShard (maxItems : Z) : cacheShard :=
  {| sh_items := ∅; sh_eviction := []; sh_elems := ∅; sh_next := 0%nat; sh_maxItems := maxItems |}.

(** ** [container/list] *)

Definition list_Remove (l : list nat) (e : nat) : list nat := filter (fun x => x <> e) l.
Definition list_MoveToFront (l : list nat) (e : nat) : list nat :=
  if decide (e ∈ l) then e :: list_Remove l e else l.
Definition list_Back (l : list nat) : option nat := last l.
Definition list_Len (l : list nat) : Z := Z.of_nat (length l).

(** ** The pointer operations of the shard *)

(** [shard.eviction.MoveToFront(elem)] *)
Definition shard_MoveToFront (sh : cacheShard) (e : nat) : cacheShard :=
  {| sh_items := sh_items sh; sh_eviction := list_MoveToFront (sh_eviction sh) e;
     sh_elems := sh_elems sh; sh_next := sh_next sh; sh_maxItems := sh_maxItems sh |}.

(** [shard.eviction.Remove(elem); delete(shard.items, key)] *)
Definition shard_Remove (sh : cacheShard) (e : nat) (key : string) : cacheShard :=
  {| sh_items := delete key (sh_items sh); sh_eviction := list_Remove (sh_eviction sh) e;
     sh_elems := sh_elems sh; sh_next := sh_next sh; sh_maxItems := sh_maxItems sh |}.

(** [item.entry = entry], [item] being [elem.Value] *)
Definition shard_SetEntry (sh : cacheShard) (e : nat) (entry : Entry) : cacheShard :=
  {| sh_items := sh_items sh; sh_eviction := sh_eviction sh;
     sh_elems := alter (fun it => {| it_key := it_key it; it_entry := entry |}) e (sh_elems sh);
     sh_next := sh_next sh; sh_maxItems := sh_maxItems sh |}.

(** [elem := shard.eviction.PushFront(&lruItem{key, entry}); shard.items[key] = elem] *)
Definition shard_PushFront (sh : cacheShard) (key : string) (entry : Entry) : cacheShard :=
  let e := sh_next sh in
  {| sh_items := <[key := e]> (sh_items sh); sh_eviction := e :: sh_eviction sh;
     sh_elems := <[e := {| it_key := key; it_entry := entry |}]> (sh_elems sh);
     sh_next := S e; sh_maxItems := sh_maxItems sh |}.

(** [shard.items = make(map[string]*list.Element); shard.eviction.Init()] *)
Definition shard_Clear (sh : cacheShard) : cacheShard :=
  {| sh_items := ∅; sh_eviction := []; sh_elems := sh_elems sh; sh_next := sh_next sh;
     sh_maxItems := sh_maxItems sh |}.

(** The element and the entry found under [key]. *)
Definition shard_lookup (sh : cacheShard) (key : string) : option (nat * Entry) :=
  e ← sh_items sh !! key; it ← sh_elems sh !! e; Some (e, it_entry it).

(** The victim [shard.eviction.Back()] with its item. *)
Definition shard_Back (sh : cacheShard) : option (nat * lruItem) :=
  e ← list_Back (sh_eviction sh); it ← sh_elems sh !! e; Some (e, it).

(** ** The specification: an association list in recency order *)

Definition lru_remove (k : string) (l : list (string * Entry)) : list (string * Entry) :=
  filter (fun p => p.1 <> k) l.
Definition lru_use (k : string) (v : Entry) (l : list (string * Entry)) : list (string * Entry) :=
  (k, v) :: lru_remove k l.
Fixpoint lru_find (k : string) (l : list (string * Entry)) : option Entry :=
  match l with
  | [] => None
  | p :: l => if decide (p.1 = k) then Some p.2 else lru_find k l
  end.


(** Insertion into a list of at most [cap] pairs: an existing key is updated in place of
    its old entry, a full list gives up its last pair if [admits] says so. *)
Definition lru_put (cap : Z) (admits : string -> bool) (k : string) (v : Entry)
    (l : list (string * Entry)) : list (string * Entry) :=
  match lru_find k l with
  | Some _ => lru_use k v l
  | None =>
      if cap <=? Z.of_nat (length l) then
        match last l with
        | Some (victim, _) => if admits victim then (k, v) :: lru_remove victim l else l
        | None => (k, v) :: l
        end
      else (k, v) :: l
  end.

Definition elem_item (sh : cacheShard) (e : nat) : option (string * Entry) :=
  it ← sh_elems sh !! e; Some (it_key it, it_entry it).
Definition shard_abs (sh : cacheShard) : list (string * Entry) :=
  omap (elem_item sh) (sh_eviction sh).

(** ** Well-formedness: map, list and heap agree *)

Record shard_wf (sh : cacheShard) : Prop := {
  wf_nodup : NoDup (sh_eviction sh);
  wf_elem : forall e, e ∈ sh_eviction sh ->
    exists it, sh_elems sh !! e = Some it /\ sh_items sh !! it_key it = Some e;
  wf_item : forall k e, sh_items sh !! k = Some e ->
    e ∈ sh_eviction sh /\ exists it, sh_elems sh !! e = Some it /\ it_key it = k;
  wf_fresh : forall e, is_Some (sh_elems sh !! e) -> (e < sh_next sh)%nat;
  wf_cap : Z.of_nat (length (sh_eviction sh)) <= sh_maxItems sh
}.

Lemma newShard_wf m : 0 <= m -> shard_wf (newShard m).
Proof.
  intros Hm. split; cbn; [constructor | by intros e ?%not_elem_of_nil | done | | lia].
  intros e [x Hx]. by rewrite lookup_empty in Hx.
Qed.

Lemma list_elem_of_Remove l e x : x ∈ list_Remove l e <-> x <> e /\ x ∈ l.
Proof. unfold list_Remove. by rewrite list_elem_of_filter. Qed.

Lemma length_list_Remove l e : NoDup l -> e ∈ l -> length l = S (length (list_Remove l e)).
Proof.
  intros Hnd He. induction Hnd as [| x l Hx Hnd IH]; [by apply not_elem_of_nil in He |].
  unfold list_Remove. rewrite filter_cons. destruct (decide (x <> e)) as [Hne | Heq].
  - cbn. f_equal. apply IH. by apply elem_of_cons in He as [-> |].
  - apply dec_stable in Heq as ->. cbn. f_equal.
    assert (Hid : list_Remove l e = l); [| unfold list_Remove in Hid; by rewrite Hid].
    apply filter_all. intros y Hy ->. done.
Qed.

Section wf.
Context (sh : cacheShard) (Hwf : shard_wf sh).

Lemma shard_lookup_Some k e v :
  shard_lookup sh k = Some (e, v) <->
  sh_items sh !! k = Some e /\ sh_elems sh !! e = Some {| it_key := k; it_entry := v |}.
Proof using Hwf.
  unfold shard_lookup. split.
  - intros (e' & He & (it & Hit & [= <- <-])%bind_Some)%bind_Some. split; [done |].
    destruct (wf_item _ Hwf k e' He) as (_ & it' & Hit' & <-). simplify_eq. by destruct it.
  - intros [He Hit]. rewrite He; cbn. rewrite Hit. done.
Qed.

Lemma shard_lookup_None k : shard_lookup sh k = None <-> sh_items sh !! k = None.
Proof using Hwf.
  unfold shard_lookup. split; [| by intros ->].
  destruct (sh_items sh !! k) as [e |] eqn:He; [| done].
  destruct (wf_item _ Hwf k e He) as (_ & it & Hit & _). cbn. by rewrite Hit.
Qed.

Lemma elem_key_inj e e' it it' :
  e ∈ sh_eviction sh -> e' ∈ sh_eviction sh ->
  sh_elems sh !! e = Some it -> sh_elems sh !! e' = Some it' ->
  it_key it = it_key it' -> e = e'.
Proof using Hwf.
  intros He He' Hit Hit' Hk.
  destruct (wf_elem _ Hwf e He) as (? & ? & Hi), (wf_elem _ Hwf e' He') as (? & ? & Hi').
  simplify_eq. congruence.
Qed.

(** Removing an element from the list removes its key from the association list. *)
Lemma omap_list_Remove e k v l :
  (forall x, x ∈ l -> x ∈ sh_eviction sh) -> e ∈ sh_eviction sh ->
  sh_elems sh !! e = Some {| it_key := k; it_entry := v |} ->
  omap (elem_item sh) (list_Remove l e) = lru_remove k (omap (elem_item sh) l).
Proof using Hwf.
  intros Hl He Hit. induction l as [| x l IH]; [done |].
  unfold list_Remove, lru_remove in *. rewrite filter_cons.
  destruct (wf_elem _ Hwf x (Hl x ltac:(left))) as (itx & Hitx & _).
  assert (Hx : elem_item sh x = Some (it_key itx, it_entry itx)).
  { unfold elem_item. by rewrite Hitx. }
  cbn [omap list_omap]. rewrite Hx, filter_cons. cbn [fst].
  rewrite <- IH by (intros; apply Hl; by right).
  destruct (decide (x <> e)) as [Hne | Heq]; destruct (decide (it_key itx <> k)) as [Hk | Hk].
  - cbn [omap list_omap]. by rewrite Hx.
  - exfalso. apply Hne, dec_stable. intros Hne'. apply Hk. intros Hkk.
    apply Hne', (elem_key_inj x e itx _ (Hl x ltac:(left)) He Hitx Hit Hkk).
  - exfalso. apply dec_stable in Heq as ->. rewrite Hit in Hitx. by simplify_eq.
  - done.
Qed.

Lemma shard_abs_MoveToFront k e v :
  shard_lookup sh k = Some (e, v) ->
  shard_abs (shard_MoveToFront sh e) = lru_use k v (shard_abs sh).
Proof using Hwf.
  intros [Hi Hit]%shard_lookup_Some. destruct (wf_item _ Hwf k e Hi) as [He _].
  unfold shard_abs, shard_MoveToFront, list_MoveToFront, lru_use; cbn [sh_eviction].
  rewrite decide_True by done. cbn [omap list_omap]. unfold elem_item at 1; cbn [sh_elems].
  rewrite Hit; cbn. f_equal. by apply (omap_list_Remove e k v).
Qed.

Lemma shard_abs_SetEntry k e v v' :
  shard_lookup sh k = Some (e, v) ->
  shard_abs (shard_SetEntry (shard_MoveToFront sh e) e v') = lru_use k v' (shard_abs sh).
Proof using Hwf.
  intros Hl. pose proof (shard_abs_MoveToFront k e v Hl) as Hm.
  apply shard_lookup_Some in Hl as [Hi Hit]. destruct (wf_item _ Hwf k e Hi) as [He _].
  unfold shard_abs, shard_SetEntry, shard_MoveToFront, list_MoveToFront, lru_use in *.
  cbn [sh_eviction sh_elems] in *. rewrite decide_True in * by done.
  cbn [omap list_omap] in *. unfold elem_item at 1; unfold elem_item at 1 in Hm; cbn [sh_elems] in *.
  rewrite Hit in Hm. rewrite lookup_alter_eq, Hit; cbn in *. injection Hm as Hm. f_equal.
  rewrite <- Hm. apply omap_ext_in. intros x [Hne _]%list_elem_of_Remove.
  unfold elem_item; cbn [sh_elems]. by rewrite lookup_alter_ne.
Qed.

Lemma shard_abs_Remove k e v :
  shard_lookup sh k = Some (e, v) ->
  shard_abs (shard_Remove sh e k) = lru_remove k (shard_abs sh).
Proof using Hwf.
  intros [Hi Hit]%shard_lookup_Some. destruct (wf_item _ Hwf k e Hi) as [He _].
  unfold shard_abs, shard_Remove; cbn [sh_eviction]. by apply (omap_list_Remove e k v).
Qed.

Lemma shard_abs_PushFront k v :
  shard_abs (shard_PushFront sh k v) = (k, v) :: shard_abs sh.
Proof using Hwf.
  unfold shard_abs, shard_PushFront; cbn [sh_eviction omap list_omap].
  unfold elem_item at 1; cbn [sh_elems]. rewrite lookup_insert_eq; cbn. f_equal.
  apply omap_ext_in. intros x Hx. unfold elem_item; cbn [sh_elems].
  rewrite lookup_insert_ne; [done |].
  destruct (wf_elem _ Hwf x Hx) as (it & Hit & _).
  pose proof (wf_fresh _ Hwf x ltac:(eauto)). lia.
Qed.

Lemma shard_MoveToFront_wf e : shard_wf (shard_MoveToFront sh e).
Proof using Hwf.
  unfold shard_MoveToFront, list_MoveToFront. destruct (decide (e ∈ sh_eviction sh)) as [He |];
    [| by destruct sh, Hwf].
  pose proof (length_list_Remove _ e (wf_nodup _ Hwf) He) as Hlen.
  assert (Hin : forall x, x ∈ e :: list_Remove (sh_eviction sh) e <-> x ∈ sh_eviction sh).
  { intros x. rewrite elem_of_cons, list_elem_of_Remove.
    destruct (decide (x = e)) as [-> |]; tauto. }
  split; cbn.
  - constructor; [rewrite list_elem_of_Remove; tauto | by apply NoDup_filter, (wf_nodup _ Hwf)].
  - intros x. rewrite Hin. apply (wf_elem _ Hwf).
  - intros k x. rewrite Hin. apply (wf_item _ Hwf).
  - apply (wf_fresh _ Hwf).
  - rewrite <- Hlen. apply (wf_cap _ Hwf).
Qed.

Lemma shard_Remove_wf k e : sh_items sh !! k = Some e -> shard_wf (shard_Remove sh e k).
Proof using Hwf.
  intros Hi. destruct (wf_item _ Hwf k e Hi) as (He & it & Hit & Hk).
  pose proof (length_list_Remove _ e (wf_nodup _ Hwf) He) as Hlen.
  split; cbn.
  - by apply NoDup_filter, (wf_nodup _ Hwf).
  - intros x [Hne Hx]%list_elem_of_Remove. destruct (wf_elem _ Hwf x Hx) as (itx & Hitx & Hix).
    exists itx. split; [done |]. rewrite lookup_delete_ne; [done |].
    intros ->. congruence.
  - intros k' x [Hne Hx]%lookup_delete_Some. destruct (wf_item _ Hwf k' x Hx) as (Hx' & itx & Hitx & Hk').
    split; [| by exists itx]. apply list_elem_of_Remove. split; [| done]. intros ->. congruence.
  - apply (wf_fresh _ Hwf).
  - pose proof (wf_cap _ Hwf). lia.
Qed.

Lemma shard_PushFront_wf k v :
  sh_items sh !! k = None -> Z.of_nat (length (sh_eviction sh)) < sh_maxItems sh ->
  shard_wf (shard_PushFront sh k v).
Proof using Hwf.
  intros Hk Hcap.
  assert (Hfresh : forall x it, sh_elems sh !! x = Some it -> x <> sh_next sh).
  { intros x it Hx ->. pose proof (wf_fresh _ Hwf (sh_next sh) ltac:(eauto)). lia. }
  split; cbn.
  - constructor; [| apply (wf_nodup _ Hwf)].
    intros Hin. destruct (wf_elem _ Hwf _ Hin) as (it & Hit & _). by eapply Hfresh.
  - intros x [-> | Hx]%elem_of_cons; [eexists; rewrite lookup_insert_eq; split; [done |]; cbn; by rewrite lookup_insert_eq |].
    destruct (wf_elem _ Hwf x Hx) as (it & Hit & Hi). exists it.
    rewrite lookup_insert_ne by (intros Hx0; by eapply (Hfresh x it)). split; [done |].
    rewrite lookup_insert_ne; [done |]. intros ->. congruence.
  - intros k' x [[<- <-] | [Hne Hx]]%lookup_insert_Some.
    + split; [left |]. eexists. by rewrite lookup_insert_eq.
    + destruct (wf_item _ Hwf k' x Hx) as (Hx' & it & Hit & Hk'). split; [by right |].
      exists it. rewrite lookup_insert_ne; [done | intros Hx0; by eapply (Hfresh x it)].
  - intros x. destruct (decide (x = sh_next sh)) as [-> | Hne]; [lia |].
    rewrite lookup_insert_ne by done. intros Hx%(wf_fresh _ Hwf). lia.
  - lia.
Qed.

Lemma shard_SetEntry_wf e v : shard_wf (shard_SetEntry sh e v).
Proof using Hwf.
  assert (Halt : forall x it, sh_elems sh !! x = Some it -> exists it',
    alter (fun it => {| it_key := it_key it; it_entry := v |}) e (sh_elems sh) !! x = Some it'
    /\ it_key it' = it_key it).
  { intros x it Hx. destruct (decide (e = x)) as [-> | Hne].
    - rewrite lookup_alter_eq, Hx; cbn. by eexists.
    - rewrite lookup_alter_ne by done. eauto. }
  split; cbn.
  - apply (wf_nodup _ Hwf).
  - intros x Hx. destruct (wf_elem _ Hwf x Hx) as (it & Hit & Hi).
    destruct (Halt x it Hit) as (it' & Hit' & Hk). exists it'. by rewrite Hk.
  - intros k x Hx. destruct (wf_item _ Hwf k x Hx) as (Hin & it & Hit & Hk).
    destruct (Halt x it Hit) as (it' & Hit' & Hk'). split; [done |]. exists it'. by rewrite Hk'.
  - intros x Hx. apply (wf_fresh _ Hwf).
    destruct (decide (e = x)) as [-> | Hne];
      [rewrite lookup_alter_eq in Hx; by apply fmap_is_Some in Hx |
       by rewrite lookup_alter_ne in Hx].
  - apply (wf_cap _ Hwf).
Qed.

End wf.

(** ** Queries on the pointers and on the association list *)

Section queries.
Context (sh : cacheShard) (Hwf : shard_wf sh).

Lemma lru_find_not_in k l : (forall p, p ∈ l -> p.1 <> k) -> lru_find k l = None.
Proof using.
  induction l as [| p l IH]; intros Hl; [done |]. cbn.
  rewrite decide_False by (apply Hl; left). apply IH. intros q Hq. apply Hl. by right.
Qed.

Lemma shard_abs_elem k v :
  (k, v) ∈ shard_abs sh <-> exists e, shard_lookup sh k = Some (e, v).
Proof using Hwf.
  unfold shard_abs. rewrite list_elem_of_omap. split.
  - intros (e & He & (it & Hit & [= <- <-])%bind_Some). exists e.
    apply shard_lookup_Some; [done |]. destruct (wf_elem _ Hwf e He) as (it' & Hit' & Hi).
    simplify_eq. split; [done |]. by destruct it.
  - intros (e & [Hi Hit]%shard_lookup_Some); [| done]. exists e.
    split; [by apply (wf_item _ Hwf k e) |]. unfold elem_item. by rewrite Hit.
Qed.

Lemma shard_abs_NoDup_keys : NoDup (shard_abs sh).*1.
Proof using Hwf.
  assert (Hg : forall l, NoDup l -> (forall x, x ∈ l -> x ∈ sh_eviction sh) ->
    NoDup (omap (elem_item sh) l).*1).
  { intros l Hnd. induction Hnd as [| x l Hx Hnd IH]; intros Hl; [constructor |].
    cbn [omap list_omap]. destruct (wf_elem _ Hwf x (Hl x ltac:(left))) as (it & Hit & _).
    assert (Ex : elem_item sh x = Some (it_key it, it_entry it)) by (unfold elem_item; by rewrite Hit).
    rewrite Ex. constructor; [| apply IH; intros y Hy; apply Hl; by right].
    intros ([k v] & Hk & Hin)%list_elem_of_fmap. cbn in Hk.
    apply list_elem_of_omap in Hin as (y & Hy & (ity & Hity & [= <- <-])%bind_Some).
    apply Hx. rewrite (elem_key_inj sh Hwf x y it ity); try done;
      [apply Hl; left | apply Hl; by right]. }
  apply Hg; [apply (wf_nodup _ Hwf) | done].
Qed.

Lemma lru_find_elem k v l : NoDup l.*1 -> (k, v) ∈ l -> lru_find k l = Some v.
Proof using.
  induction l as [| p l IH]; cbn; intros Hnd Hin; [by apply not_elem_of_nil in Hin |].
  apply NoDup_cons in Hnd as [Hp Hnd]. apply elem_of_cons in Hin as [<- | Hin].
  - by rewrite decide_True.
  - rewrite decide_False; [by apply IH |]. intros E. apply Hp.
    apply list_elem_of_fmap. by exists (k, v).
Qed.

(** Looking a key up through the map is looking it up in the association list. *)
Lemma shard_lookup_abs k : snd <$> shard_lookup sh k = lru_find k (shard_abs sh).
Proof using Hwf.
  destruct (shard_lookup sh k) as [[e v] |] eqn:E; cbn; symmetry.
  - apply lru_find_elem; [apply shard_abs_NoDup_keys |]. apply shard_abs_elem. by exists e.
  - apply lru_find_not_in. intros [k' v] (e & Hl)%shard_abs_elem. cbn. intros ->. congruence.
Qed.

Lemma length_shard_abs : length (shard_abs sh) = length (sh_eviction sh).
Proof using Hwf.
  unfold shard_abs. assert (Hall : forall x, x ∈ sh_eviction sh -> is_Some (elem_item sh x)).
  { intros x Hx. destruct (wf_elem _ Hwf x Hx) as (it & Hit & _).
    unfold elem_item. rewrite Hit. by eexists. }
  induction (sh_eviction sh) as [| x l IH]; [done |]. cbn [omap list_omap].
  destruct (Hall x ltac:(left)) as [p ->]. cbn. f_equal. apply IH. intros y Hy. apply Hall. by right.
Qed.

(** [len(shard.items)] is the length of the list. *)
Lemma size_items : size (sh_items sh) = length (sh_eviction sh).
Proof using Hwf.
  rewrite <- length_shard_abs, <- (length_fmap fst), <- size_dom.
  rewrite <- (size_list_to_set (C := gset string)) by apply shard_abs_NoDup_keys.
  f_equal. apply set_eq. intros k. rewrite elem_of_list_to_set, elem_of_dom, list_elem_of_fmap.
  split.
  - intros [e He]. destruct (wf_item _ Hwf k e He) as (_ & it & Hit & <-).
    exists (it_key it, it_entry it). split; [done |]. apply shard_abs_elem. exists e.
    apply shard_lookup_Some; [done |]. split; [done |]. by destruct it.
  - intros ([k' v] & -> & (e & [Hi _]%shard_lookup_Some)%shard_abs_elem); [by exists e | done].
Qed.

(** The back of the list is the last pair of the association list. *)
Lemma shard_Back_abs :
  match shard_Back sh with
  | Some (e, it) =>
      shard_lookup sh (it_key it) = Some (e, it_entry it) /\
      last (shard_abs sh) = Some (it_key it, it_entry it)
  | None => sh_eviction sh = []
  end.
Proof using Hwf.
  unfold shard_Back, list_Back. destruct (last (sh_eviction sh)) as [e |] eqn:El; cbn.
  - apply last_Some in El as [l' El].
    destruct (wf_elem _ Hwf e ltac:(rewrite El; set_solver)) as (it & Hit & Hi).
    rewrite Hit; cbn. split.
    + apply shard_lookup_Some; [done |]. split; [done |]. by destruct it.
    + unfold shard_abs. rewrite El, omap_app, last_app; cbn. unfold elem_item.
      rewrite Hit. done.
  - by apply last_None.
Qed.

End queries.

Lemma shard_Clear_wf sh : shard_wf sh -> shard_wf (shard_Clear sh).
Proof.
  intros Hwf. split; cbn; [constructor | by intros e ?%not_elem_of_nil | done | apply (wf_fresh _ Hwf) |].
  pose proof (wf_cap _ Hwf). lia.
Qed.

(** Membership in the association lists the operations build. *)
Lemma elem_of_lru_remove k l p : p ∈ lru_remove k l <-> p.1 <> k /\ p ∈ l.
Proof. unfold lru_remove. by rewrite list_elem_of_filter. Qed.

Lemma lru_find_remove k l : lru_find k (lru_remove k l) = None.
Proof. apply lru_find_not_in. by intros p [? _]%elem_of_lru_remove. Qed.

Lemma lru_find_Some k v l : lru_find k l = Some v -> (k, v) ∈ l.
Proof.
  induction l as [| [k' v'] l IH]; [done |]; cbn. destruct (decide (k' = k)) as [-> |].
  - intros [= ->]. left.
  - intros H. right. by apply IH.
Qed.

#[export] Hint Resolve shard_Clear_wf newShard_wf shard_MoveToFront_wf shard_Remove_wf shard_SetEntry_wf : cdn.
