(* ===== verification/Disk.v ===== *)
(** * The disk tier of the cache ([cache/cache.go], lines 512-672)

    The cache directory is a map from file names to directory entries, plus the
    counter [diskUsedBytes] the program keeps beside it. [crypto/sha256], the JSON
    codec and the outcome of a write are the interface [DiskWorld]; a failing write
    is one that cannot open the file. Removing a file that was just listed succeeds.
    [diskMu] serialises the operations. *)

From S2P Require Import Prelude GoStrings Entry.

Local Open Scope Z_scope.

Record diskEntry := {
  de_Body : string;
  de_Header : option Header;
  de_StatusCode : Z;
  de_StoredAt : Z;
  de_TTLNs : Z;
  de_ETag : string;
  de_LastMod : string;
  de_VaryKey : string;
  de_StaleWhileRevalidate : Z
}.

Class DiskWorld := {
  sha256_hex : string -> string;                (* hex.EncodeToString(sha256.Sum256(key)) *)
  json_Marshal : diskEntry -> option string;
  json_Unmarshal : string -> option diskEntry;
  WriteFile_ok : string -> string -> bool       (* name, data *)
}.

(** A directory entry; [d_mtime] is the modification time. *)
Record dirent := { d_isDir : bool; d_size : Z; d_mtime : Z; d_data : string }.

Record diskTier := { dt_files : gmap string dirent; dt_used : Z }.

(** [os.ReadDir]: the entries sorted by file name. *)
Definition ReadDir (files : gmap string dirent) : list (string * dirent) :=
  omap (fun n => d ← files !! n; Some (n, d)) (sort_Strings (elements (dom files))).

Definition calculateDiskUsage (files : gmap string dirent) : Z :=
  foldl (fun total e => i64 (total + d_size e.2)) 0 (ReadDir files).

(** The [for _, e := range entries] scan for the oldest regular file. *)
Definition oldest_file (entries : list (string * dirent)) : option (string * dirent) :=
  foldl (fun oldest e =>
      if d_isDir e.2 then oldest
      else match oldest with
           | None => Some e
           | Some o => if d_mtime e.2 <? d_mtime o.2 then Some e else Some o
           end) None entries.

(** [diskUsedBytes -= size], clamped at 0. *)
Definition sub_used (used size : Z) : Z :=
  let u := i64 (used - size) in if u <? 0 then 0 else u.

Definition evictOldestDiskEntry (dt : diskTier) : diskTier * bool :=
  match oldest_file (ReadDir (dt_files dt)) with
  | None => (dt, false)
  | Some (name, info) =>
      ({| dt_files := delete name (dt_files dt); dt_used := sub_used (dt_used dt) (d_size info) |}, true)
  end.

(** The [for c.diskUsedBytes+entrySize > c.diskMaxBytes] loop: [Some (dt, true)] when
    the entry fits, [Some (dt, false)] when nothing is left to evict, [None] when the
    fuel runs out. One unit of fuel per file and one for the last test are enough
    ([make_room_enough]). *)
Fixpoint make_room (fuel : nat) (entrySize maxBytes : Z) (dt : diskTier) : option (diskTier * bool) :=
  match fuel with
  | O => None
  | S fuel =>
      if maxBytes <? i64 (dt_used dt + entrySize) then
        match evictOldestDiskEntry dt with
        | (dt', true) => make_room fuel entrySize maxBytes dt'
        | (dt', false) => Some (dt', false)
        end
      else Some (dt, true)
  end.

Definition make_room_fuel (dt : diskTier) : nat := S (size (dt_files dt)).

Section disk.
Context `{HeaderCodec} `{DiskWorld}.

(** The name of the file for a key, inside the cache directory. *)
Definition diskPath (key : string) : string := sha256_hex key +:+ ".json".

Definition to_diskEntry (entry : Entry) : diskEntry :=
  let hdr := match e_Header entry with
             | None =>
                 match e_CompressedHeader entry with
                 | Some ch => Some (CompressedHeader_Decode (Some ch))
                 | None => None
                 end
             | Some h => Some h
             end in
  {| de_Body := e_Body entry; de_Header := hdr; de_StatusCode := e_StatusCode entry;
     de_StoredAt := e_StoredAt entry; de_TTLNs := e_TTL entry; de_ETag := e_ETag entry;
     de_LastMod := e_LastMod entry; de_VaryKey := e_VaryKey entry;
     de_StaleWhileRevalidate := e_StaleWhileRevalidate entry |}.

Definition of_diskEntry (de : diskEntry) : Entry :=
  {| e_Body := de_Body de; e_Header := de_Header de; e_CompressedHeader := None;
     e_StatusCode := de_StatusCode de; e_StoredAt := de_StoredAt de; e_TTL := de_TTLNs de;
     e_ETag := de_ETag de; e_LastMod := de_LastMod de; e_VaryKey := de_VaryKey de;
     e_StaleWhileRevalidate := de_StaleWhileRevalidate de |}.

(** [saveToDisk]: the new files and whether the error is nil. *)
Definition saveToDisk (now : Z) (files : gmap string dirent) (key : string) (entry : Entry)
  : gmap string dirent * bool :=
  match json_Marshal (to_diskEntry entry) with
  | None => (files, false)
  | Some data =>
      if WriteFile_ok (diskPath key) data then
        (<[diskPath key := {| d_isDir := false; d_size := str_len data; d_mtime := now; d_data := data |}]> files,
         true)
      else (files, false)
  end.

Definition spillToDisk (now diskMaxBytes : Z) (dt : diskTier) (key : string) (entry : Entry) : diskTier :=
  let size := str_len (e_Body entry) + 512 in
  let save dt :=
    match saveToDisk now (dt_files dt) key entry with
    | (files, true) => {| dt_files := files; dt_used := i64 (dt_used dt + size) |}
    | (files, false) => {| dt_files := files; dt_used := dt_used dt |}
    end in
  if 0 <? diskMaxBytes then
    match make_room (make_room_fuel dt) size diskMaxBytes dt with
    | Some (dt', true) => save dt'
    | Some (dt', false) => dt'
    | None => dt   (* excluded by [make_room_enough] *)
    end
  else save dt.

(** [loadFromDisk]: [None] for an error. *)
Definition loadFromDisk (compressHeaders : bool) (files : gmap string dirent) (key : string) : option Entry :=
  match files !! diskPath key with
  | None => None
  | Some f =>
      if d_isDir f then None
      else
        match json_Unmarshal (d_data f) with
        | None => None
        | Some de =>
            let e := of_diskEntry de in
            match compressHeaders, e_Header e with
            | true, Some h => Some (compress_header e h)
            | _, _ => Some e
            end
        end
  end.

Definition removeFromDisk (dt : diskTier) (key : string) : diskTier :=
  match dt_files dt !! diskPath key with
  | None => dt
  | Some info =>
      {| dt_files := delete (diskPath key) (dt_files dt);
         dt_used := sub_used (dt_used dt) (d_size info) |}
  end.

End disk.

(** ** The eviction loop *)

Lemma ReadDir_elem files n d : (n, d) ∈ ReadDir files <-> files !! n = Some d.
Proof.
  unfold ReadDir. rewrite list_elem_of_omap. split.
  - by intros (n' & _ & (d' & Hd & [= -> ->])%bind_Some).
  - intros Hd. exists n. split; [| by rewrite Hd].
    unfold sort_Strings. rewrite merge_sort_Permutation, elem_of_elements, elem_of_dom. by eexists.
Qed.

Lemma oldest_file_spec entries :
  match oldest_file entries with
  | Some o => o ∈ entries /\ d_isDir o.2 = false /\
      forall e, e ∈ entries -> d_isDir e.2 = false -> d_mtime o.2 <= d_mtime e.2
  | None => forall e, e ∈ entries -> d_isDir e.2 = true
  end.
Proof.
  unfold oldest_file. induction entries as [| e entries IH] using rev_ind.
  { by intros e ?%not_elem_of_nil. }
  rewrite foldl_app; cbn [foldl]. set (o := foldl _ None entries) in *.
  destruct (d_isDir e.2) eqn:Ed.
  - destruct o as [o |].
    + destruct IH as (Hin & Hd & Hmin). split_and!; [set_solver | done |].
      intros x [Hx | ->%list_elem_of_singleton]%elem_of_app Hxd; [by apply Hmin | congruence].
    + intros x [Hx | ->%list_elem_of_singleton]%elem_of_app; [by apply IH | done].
  - destruct o as [o |].
    + destruct IH as (Hin & Hd & Hmin).
      destruct (Z.ltb_spec (d_mtime e.2) (d_mtime o.2)); (split_and!; [set_solver | done |]);
        intros x [Hx | ->%list_elem_of_singleton]%elem_of_app Hxd; try lia;
        specialize (Hmin x Hx Hxd); lia.
    + split_and!; [set_solver | done |].
      intros x [Hx | ->%list_elem_of_singleton]%elem_of_app Hxd; [| lia].
      rewrite (IH x Hx) in Hxd. done.
Qed.

(** One eviction removes one regular file that no other file is older than, or finds
    no regular file. *)
Lemma evictOldest_spec dt :
  match evictOldestDiskEntry dt with
  | (dt', true) => exists name info,
      dt_files dt !! name = Some info /\ d_isDir info = false /\
      (forall n d, dt_files dt !! n = Some d -> d_isDir d = false -> d_mtime info <= d_mtime d) /\
      dt_files dt' = delete name (dt_files dt) /\ dt_used dt' = sub_used (dt_used dt) (d_size info)
  | (dt', false) => dt' = dt /\ forall n d, dt_files dt !! n = Some d -> d_isDir d = true
  end.
Proof.
  unfold evictOldestDiskEntry. pose proof (oldest_file_spec (ReadDir (dt_files dt))) as Ho.
  destruct (oldest_file _) as [[name info] |].
  - destruct Ho as (Hin%ReadDir_elem & Hd & Hmin). exists name, info. split_and!; try done.
    intros n d Hn Hnd. apply (Hmin (n, d)); [by apply ReadDir_elem | done].
  - split; [done |]. intros n d Hn. apply (Ho (n, d)). by apply ReadDir_elem.
Qed.

Lemma evict_size dt dt' :
  evictOldestDiskEntry dt = (dt', true) -> size (dt_files dt) = S (size (dt_files dt')).
Proof.
  intros E. pose proof (evictOldest_spec dt) as Hs. rewrite E in Hs.
  destruct Hs as (name & info & Hn & _ & _ & -> & _).
  rewrite map_size_delete, Hn; cbn. enough (size (dt_files dt) <> 0%nat) by lia.
  intros Hz%map_size_empty_iff. rewrite Hz in Hn. by rewrite lookup_empty in Hn.
Qed.

(** File sizes and the counter are non-negative int64 values. *)
Definition dt_ok (dt : diskTier) : Prop :=
  0 <= dt_used dt <= max_i64 /\ map_Forall (fun _ d => 0 <= d_size d <= max_i64) (dt_files dt).

Lemma sub_used_bound used size :
  0 <= used <= max_i64 -> 0 <= size <= max_i64 -> 0 <= sub_used used size <= used.
Proof.
  intros Hu Hs. unfold sub_used.
  rewrite i64_small by (unfold in_i64, min_i64, max_i64 in *; lia). zbool; lia.
Qed.

Lemma dt_ok_evict dt dt' name info :
  dt_files dt !! name = Some info -> dt_files dt' = delete name (dt_files dt) ->
  dt_used dt' = sub_used (dt_used dt) (d_size info) ->
  dt_ok dt -> dt_ok dt' /\ dt_used dt' <= dt_used dt.
Proof.
  intros Hn Ef Eu [Hu Hf].
  pose proof (sub_used_bound (dt_used dt) (d_size info) Hu (Hf name info Hn)) as Hb.
  unfold dt_ok. rewrite Ef, Eu. split_and!; [lia | lia | by apply map_Forall_delete | lia].
Qed.

(** What the loop guarantees, by induction on the fuel. *)
Lemma make_room_spec fuel entrySize maxBytes dt :
  (size (dt_files dt) < fuel)%nat ->
  exists dt' fits, make_room fuel entrySize maxBytes dt = Some (dt', fits) /\
    dt_files dt' ⊆ dt_files dt /\
    (forall n d, dt_files dt !! n = Some d -> d_isDir d = true -> dt_files dt' !! n = Some d) /\
    (if fits then i64 (dt_used dt' + entrySize) <= maxBytes
     else forall n d, dt_files dt' !! n = Some d -> d_isDir d = true) /\
    (dt_ok dt -> dt_ok dt' /\ dt_used dt' <= dt_used dt).
Proof.
  revert dt. induction fuel as [| fuel IH]; intros dt Hsz; [lia |]. cbn [make_room].
  destruct (Z.ltb_spec maxBytes (i64 (dt_used dt + entrySize))) as [Hlt | Hge].
  - pose proof (evictOldest_spec dt) as Hs. pose proof (evict_size dt) as Hev.
    destruct (evictOldestDiskEntry dt) as [dt1 [|]].
    + specialize (Hev dt1 eq_refl). destruct (IH dt1 ltac:(lia)) as (dt' & fits & -> & Hsub & Hdir & Hfit & Hu).
      exists dt', fits. destruct Hs as (name & info & Hn & Hd & _ & Ef & Eu).
      split; [done |]. split_and!; [| | done |].
      * etransitivity; [exact Hsub |]. rewrite Ef. apply delete_subseteq.
      * intros n d Hnd Hdd. apply Hdir; [| done]. rewrite Ef, lookup_delete_ne; [done |].
        intros ->. congruence.
      * intros Hok. destruct (dt_ok_evict dt dt1 name info Hn Ef Eu Hok) as [Hok1 Hle].
        destruct (Hu Hok1). split; [done | lia].
    + destruct Hs as [-> Hall]. exists dt, false. split_and!; auto with lia.
  - exists dt, true. split_and!; auto with lia.
Qed.

Lemma make_room_enough dt entrySize maxBytes :
  is_Some (make_room (make_room_fuel dt) entrySize maxBytes dt).
Proof.
  destruct (make_room_spec (make_room_fuel dt) entrySize maxBytes dt) as (dt' & fits & -> & _).
  { unfold make_room_fuel. lia. }
  by eexists.
Qed.

(** ** What the tier guarantees *)

(** Text the JSON encoder keeps as it is: ASCII strings, and a time with a four-digit year. *)
Definition header_ascii (h : Header) : Prop :=
  map_Forall (fun k vs => is_ascii k = true /\ Forall (fun v => is_ascii v = true) vs) h.

Definition json_textual (de : diskEntry) : Prop :=
  is_ascii (de_ETag de) = true /\ is_ascii (de_LastMod de) = true /\ is_ascii (de_VaryKey de) = true /\
  (forall h, de_Header de = Some h -> header_ascii h) /\
  0 <= de_StoredAt de < 253402300800 * Second.

(** [encoding/json]: decoding what was encoded gives it back. *)
Class JsonLaws `{DiskWorld} : Prop := {
  json_roundtrip : forall de s, json_textual de -> json_Marshal de = Some s -> json_Unmarshal s = Some de
}.

Section disk_facts.
Context `{HeaderCodec} `{DiskWorld}.

(** An entry spilled to disk is read back with the same body, headers, status, times
    and validators, whether or not headers are stored compressed in memory. *)
Theorem disk_roundtrip `{!HeaderCodecLaws} `{!JsonLaws} now files files' key e compressHeaders :
  json_textual (to_diskEntry e) ->
  saveToDisk now files key e = (files', true) ->
  exists e', loadFromDisk compressHeaders files' key = Some e' /\
    Entry_GetHeader e' = Entry_GetHeader e /\ e_Body e' = e_Body e /\
    e_StatusCode e' = e_StatusCode e /\ e_StoredAt e' = e_StoredAt e /\ e_TTL e' = e_TTL e /\
    e_ETag e' = e_ETag e /\ e_LastMod e' = e_LastMod e /\ e_VaryKey e' = e_VaryKey e /\
    e_StaleWhileRevalidate e' = e_StaleWhileRevalidate e.
Proof.
  intros Ht. unfold saveToDisk. destruct (json_Marshal _) as [data |] eqn:Em; [| done].
  destruct (WriteFile_ok _ _); [| done]. intros [= <-].
  unfold loadFromDisk. rewrite lookup_insert_eq; cbn [d_isDir d_data].
  rewrite (json_roundtrip _ _ Ht Em).
  assert (Hh : forall h, e_Header (of_diskEntry (to_diskEntry e)) = Some h -> h = Entry_GetHeader e).
  { unfold of_diskEntry, to_diskEntry, Entry_GetHeader; cbn.
    destruct (e_Header e); [congruence |]. destruct (e_CompressedHeader e); congruence. }
  assert (Hn : e_Header (of_diskEntry (to_diskEntry e)) = None -> Entry_GetHeader e = ∅).
  { unfold of_diskEntry, to_diskEntry, Entry_GetHeader; cbn.
    destruct (e_Header e); [done |]. by destruct (e_CompressedHeader e). }
  destruct (e_Header (of_diskEntry (to_diskEntry e))) as [h |] eqn:Eh.
  - rewrite <- (Hh h eq_refl). destruct compressHeaders; eexists; (split; [done |]).
    + split; [apply compress_header_GetHeader | done].
    + split; [| done]. unfold Entry_GetHeader. by rewrite Eh.
  - rewrite (Hn eq_refl). destruct compressHeaders; eexists; (split; [done |]); split; try done;
      unfold Entry_GetHeader; by rewrite Eh.
Qed.

Lemma saveToDisk_ok now files key e :
  map_Forall (fun _ d => 0 <= d_size d <= max_i64) files ->
  (forall data, json_Marshal (to_diskEntry e) = Some data -> str_len data <= max_i64) ->
  map_Forall (fun _ d => 0 <= d_size d <= max_i64) (saveToDisk now files key e).1.
Proof.
  intros Hf Hj. unfold saveToDisk. destruct (json_Marshal _) as [data |]; [| done].
  destruct (WriteFile_ok _ _); [| done]. cbn. apply map_Forall_insert_2; [| done].
  specialize (Hj data eq_refl). cbn [d_size]. unfold str_len in *. lia.
Qed.

(** A bounded spill keeps the program's own accounting within the limit, and every
    file it leaves behind is an old file or the file of the key. *)
Theorem spillToDisk_bounded now maxBytes dt key e :
  0 < maxBytes -> maxBytes + str_len (e_Body e) + 512 <= max_i64 ->
  dt_ok dt -> dt_used dt <= maxBytes ->
  let dt' := spillToDisk now maxBytes dt key e in
  0 <= dt_used dt' <= maxBytes /\
  (forall n d, n <> diskPath key -> dt_files dt' !! n = Some d -> dt_files dt !! n = Some d).
Proof.
  intros Hm Hov Hok Hu dt'. unfold dt', spillToDisk. rewrite (proj2 (Z.ltb_lt 0 maxBytes) Hm).
  assert (Hlen : 0 <= str_len (e_Body e)) by (unfold str_len; lia).
  destruct (make_room_spec (make_room_fuel dt) (str_len (e_Body e) + 512) maxBytes dt)
    as (dt1 & fits & -> & Hsub & _ & Hfit & Hused).
  { unfold make_room_fuel. lia. }
  destruct (Hused Hok) as [[Hu1 Hf1] Hle].
  assert (Hin : forall n d, dt_files dt1 !! n = Some d -> dt_files dt !! n = Some d).
  { intros n d Hd. by eapply lookup_weaken. }
  destruct fits; [| split; [lia | auto]].
  rewrite i64_small in Hfit by (unfold in_i64, min_i64, max_i64 in *; lia).
  unfold saveToDisk. destruct (json_Marshal _) as [data |]; [| by (split; [cbn; lia | auto])].
  destruct (WriteFile_ok _ _); [| by (split; [cbn; lia | auto])].
  cbn [dt_used dt_files]. rewrite i64_small by (unfold in_i64, min_i64, max_i64 in *; lia).
  split; [lia |]. intros n d Hne. rewrite lookup_insert_ne by done. apply Hin.
Qed.

(** Spilling an entry larger than the whole tier evicts every file and stores
    nothing: the size test comes after the evictions. *)
Theorem spillToDisk_oversized_wipes now maxBytes dt key e :
  0 < maxBytes -> maxBytes < str_len (e_Body e) + 512 <= max_i64 / 2 ->
  dt_ok dt -> dt_used dt <= max_i64 / 2 ->
  let dt' := spillToDisk now maxBytes dt key e in
  forall n d, dt_files dt' !! n = Some d -> d_isDir d = true.
Proof.
  intros Hm Hlen Hok Hu dt'. unfold dt', spillToDisk. rewrite (proj2 (Z.ltb_lt 0 maxBytes) Hm).
  destruct (make_room_spec (make_room_fuel dt) (str_len (e_Body e) + 512) maxBytes dt)
    as (dt1 & fits & -> & _ & _ & Hfit & Hused).
  { unfold make_room_fuel. lia. }
  destruct (Hused Hok) as [[Hu1 _] Hle].
  destruct fits; [| exact Hfit]. exfalso. revert Hfit.
  assert (max_i64 / 2 * 2 <= max_i64) by (vm_compute; discriminate).
  rewrite i64_small by (unfold in_i64, min_i64 in *; lia). lia.
Qed.

(** A removed file is not found again, and no other file is touched. *)
Lemma removeFromDisk_load dt key compressHeaders :
  loadFromDisk compressHeaders (dt_files (removeFromDisk dt key)) key = None.
Proof.
  unfold removeFromDisk, loadFromDisk.
  destruct (dt_files dt !! diskPath key) as [f |] eqn:E; [cbn | by rewrite E].
  by rewrite lookup_delete_eq.
Qed.

Lemma removeFromDisk_ok dt key : dt_ok dt -> dt_ok (removeFromDisk dt key).
Proof.
  intros Hok. unfold removeFromDisk.
  destruct (dt_files dt !! diskPath key) as [info |] eqn:E; [| done].
  by apply (dt_ok_evict dt _ (diskPath key) info).
Qed.

End disk_facts.

(** ** A concrete disk *)

Definition de_tuple (de : diskEntry) :=
  ((de_Body de, de_Header de, de_StatusCode de), (de_StoredAt de, de_TTLNs de, de_StaleWhileRevalidate de),
   (de_ETag de, de_LastMod de, de_VaryKey de)).

Definition tuple_de (t : (string * option Header * Z) * (Z * Z * Z) * (string * string * string)) : diskEntry :=
  let '((b, h, c), (st, ttl, swr), (et, lm, vk)) := t in
  {| de_Body := b; de_Header := h; de_StatusCode := c; de_StoredAt := st; de_TTLNs := ttl;
     de_ETag := et; de_LastMod := lm; de_VaryKey := vk; de_StaleWhileRevalidate := swr |}.

Definition plain_disk : DiskWorld :=
  {| sha256_hex k := k;
     json_Marshal de := Some (pos_bits (encode (de_tuple de)));
     json_Unmarshal s := tuple_de <$> decode (bits_pos s);
     WriteFile_ok _ _ := true |}.

Lemma plain_disk_laws : @JsonLaws plain_disk.
Proof.
  assert (Hb : forall p, bits_pos (pos_bits p) = p) by (induction p; cbn; congruence).
  split. intros de s _ [= <-]. cbn. rewrite Hb, decode_encode. by destruct de.
Qed.

Definition two_files : diskTier :=
  {| dt_files := {["a.json" := {| d_isDir := false; d_size := 600; d_mtime := 1; d_data := "" |};
                   "b.json" := {| d_isDir := false; d_size := 700; d_mtime := 2; d_data := "" |}]};
     dt_used := 1300 |}.

Lemma two_files_ok : dt_ok two_files.
Proof.
  split; [vm_compute; intuition discriminate |].
  intros n d. unfold two_files; cbn [dt_files].
  intros [[<- <-] | [_ [<- <-]%lookup_singleton_Some]]%lookup_insert_Some;
    vm_compute; intuition discriminate.
Qed.

Lemma disk_roundtrip_witness :
  exists e', @loadFromDisk bits_codec plain_disk true
      (@saveToDisk bits_codec plain_disk 5 ∅ "k" sample_entry).1 "k" = Some e' /\
    @Entry_GetHeader bits_codec e' = sample_header.
Proof.
  destruct (@disk_roundtrip bits_codec plain_disk bits_codec_laws plain_disk_laws 5 ∅
    (@saveToDisk bits_codec plain_disk 5 ∅ "k" sample_entry).1 "k" sample_entry true)
    as (e' & Hl & Hh & _).
  - split_and!; [reflexivity | reflexivity | reflexivity | | vm_compute; discriminate | vm_compute; reflexivity].
    intros h [= <-] k vs. unfold sample_header.
    intros [<- <-]%lookup_singleton_Some. split; [reflexivity | by repeat constructor].
  - reflexivity.
  - exists e'. split; [exact Hl | exact Hh].
Defined.

Lemma spillToDisk_bounded_witness :
  0 <= dt_used (@spillToDisk bits_codec plain_disk 9 2000 two_files "k" sample_entry) <= 2000.
Proof.
  apply (@spillToDisk_bounded bits_codec plain_disk 9 2000 two_files "k" sample_entry);
    [lia | vm_compute; discriminate | exact two_files_ok | vm_compute; discriminate].
Defined.

Lemma spillToDisk_oversized_wipes_witness :
  map_Forall (fun _ d => d_isDir d = true)
    (dt_files (@spillToDisk bits_codec plain_disk 9 500 two_files "k" sample_entry)).
Proof.
  intros n d. apply (@spillToDisk_oversized_wipes bits_codec plain_disk 9 500 two_files "k" sample_entry);
    [lia | split; vm_compute; [reflexivity | discriminate] | exact two_files_ok | vm_compute; discriminate].
Defined.
