(* ===== verification/Cache.v ===== *)
(** * The two-tier cache ([Cache] of [cache/cache.go])

    [NewWithOptions], [Get], [Put], [putInShard], [evictItem], [Delete], [Purge],
    [Len] and [GetStats] over the shards of [Shard.v], the sketch of [TinyLFU.v] and
    the disk tier of [Disk.v]. An operation runs to its end before the next one starts,
    which is what the shard mutex, the sketch mutex and [diskMu] give the parts it
    touches. [clk n] is the [n]-th time the operation asks for. *)

From S2P Require Import Prelude GoStrings TinyLFU Entry Shard Disk.

Local Open Scope Z_scope.
Local Open Scope go_scope.

Record Stats := { st_Hits : Z; st_Misses : Z; st_Evicts : Z; st_StaleHits : Z }.

Record Options := {
  o_MaxItems : Z;
  o_MaxEntryBytes : Z;
  o_MaxKeyLen : Z;
  o_DiskDir : string;
  o_DiskMaxBytes : Z;
  o_NumShards : Z;
  o_CompressHeaders : bool
}.

Record Cache := {
  c_shards : list cacheShard;
  c_numShards : Z;
  c_shardMask : Z;
  c_maxEntryBytes : Z;
  c_maxKeyLen : Z;
  c_diskDir : string;
  c_diskMaxBytes : Z;
  c_disk : diskTier;               (* the directory and [diskUsedBytes] *)
  c_stats : Stats;
  c_lfu : TinyLFU;
  c_compressHeaders : bool
}.

Definition with_shards (l : list cacheShard) (c : Cache) : Cache :=
  {| c_shards := l; c_numShards := c_numShards c; c_shardMask := c_shardMask c;
     c_maxEntryBytes := c_maxEntryBytes c; c_maxKeyLen := c_maxKeyLen c; c_diskDir := c_diskDir c;
     c_diskMaxBytes := c_diskMaxBytes c; c_disk := c_disk c; c_stats := c_stats c;
     c_lfu := c_lfu c; c_compressHeaders := c_compressHeaders c |}.

Definition with_disk (d : diskTier) (c : Cache) : Cache :=
  {| c_shards := c_shards c; c_numShards := c_numShards c; c_shardMask := c_shardMask c;
     c_maxEntryBytes := c_maxEntryBytes c; c_maxKeyLen := c_maxKeyLen c; c_diskDir := c_diskDir c;
     c_diskMaxBytes := c_diskMaxBytes c; c_disk := d; c_stats := c_stats c;
     c_lfu := c_lfu c; c_compressHeaders := c_compressHeaders c |}.

Definition with_stats (s : Stats) (c : Cache) : Cache :=
  {| c_shards := c_shards c; c_numShards := c_numShards c; c_shardMask := c_shardMask c;
     c_maxEntryBytes := c_maxEntryBytes c; c_maxKeyLen := c_maxKeyLen c; c_diskDir := c_diskDir c;
     c_diskMaxBytes := c_diskMaxBytes c; c_disk := c_disk c; c_stats := s;
     c_lfu := c_lfu c; c_compressHeaders := c_compressHeaders c |}.

Definition with_lfu (t : TinyLFU) (c : Cache) : Cache :=
  {| c_shards := c_shards c; c_numShards := c_numShards c; c_shardMask := c_shardMask c;
     c_maxEntryBytes := c_maxEntryBytes c; c_maxKeyLen := c_maxKeyLen c; c_diskDir := c_diskDir c;
     c_diskMaxBytes := c_diskMaxBytes c; c_disk := c_disk c; c_stats := c_stats c;
     c_lfu := t; c_compressHeaders := c_compressHeaders c |}.

(** [c.stats.Hits.Add(1)] and its siblings. *)
Definition add_hit (s : Stats) : Stats :=
  {| st_Hits := st_Hits s +i64 1; st_Misses := st_Misses s; st_Evicts := st_Evicts s;
     st_StaleHits := st_StaleHits s |}.
Definition add_miss (s : Stats) : Stats :=
  {| st_Hits := st_Hits s; st_Misses := st_Misses s +i64 1; st_Evicts := st_Evicts s;
     st_StaleHits := st_StaleHits s |}.
Definition add_evict (s : Stats) : Stats :=
  {| st_Hits := st_Hits s; st_Misses := st_Misses s; st_Evicts := st_Evicts s +i64 1;
     st_StaleHits := st_StaleHits s |}.
Definition add_stale (s : Stats) : Stats :=
  {| st_Hits := st_Hits s; st_Misses := st_Misses s; st_Evicts := st_Evicts s;
     st_StaleHits := st_StaleHits s +i64 1 |}.
Definition count (f : Stats -> Stats) (c : Cache) : Cache := with_stats (f (c_stats c)) c.

(** ** Construction *)

Definition defaultNumShards : Z := 256.

(** [for numShards > maxItems { numShards /= 2 }]; 64 rounds empty an int. *)
Fixpoint halve_shards (fuel : nat) (numShards maxItems : Z) : Z :=
  match fuel with
  | O => numShards
  | S fuel => if maxItems <? numShards then halve_shards fuel (numShards / 2) maxItems else numShards
  end.

Definition shard_count (opts : Options) : Z * Z :=
  let n := if o_NumShards opts <=? 0 then defaultNumShards else o_NumShards opts in
  let n := i64 (nextPow2 (u64 n)) in
  let maxItems := if o_MaxItems opts <? 1 then 1 else o_MaxItems opts in
  let n := if maxItems <? 64 then 1 else n in
  let n := halve_shards 64 n maxItems in
  (if n <? 1 then 1 else n, maxItems).

Definition make_shards (numShards perShard remainder : Z) : list cacheShard :=
  map (fun i => newShard (if Z.of_nat i <? remainder then perShard + 1 else perShard))
      (seq 0 (Z.to_nat numShards)).

(** [mkdir_ok] is the outcome of [os.MkdirAll], [files] what the directory holds. *)
Definition NewWithOptions (mkdir_ok : bool) (files : gmap string dirent) (opts : Options) : option Cache :=
  let '(numShards, maxItems) := shard_count opts in
  let useDisk := negb (String.eqb (o_DiskDir opts) "") in
  if useDisk && negb mkdir_ok then None
  else
    Some {| c_shards := make_shards numShards (maxItems / numShards) (maxItems mod numShards);
            c_numShards := u64 numShards;
            c_shardMask := u64 (u64 numShards - 1);
            c_maxEntryBytes := o_MaxEntryBytes opts;
            c_maxKeyLen := o_MaxKeyLen opts;
            c_diskDir := o_DiskDir opts;
            c_diskMaxBytes := o_DiskMaxBytes opts;
            c_disk := {| dt_files := files; dt_used := if useDisk then calculateDiskUsage files else 0 |};
            c_stats := {| st_Hits := 0; st_Misses := 0; st_Evicts := 0; st_StaleHits := 0 |};
            c_lfu := newTinyLFU maxItems;
            c_compressHeaders := o_CompressHeaders opts |}.

(** [New]: the options with the defaults of the other fields. *)
Definition New (mkdir_ok : bool) (files : gmap string dirent) (maxItems maxEntryBytes : Z)
    (diskDir : string) (diskMaxBytes : Z) : option Cache :=
  NewWithOptions mkdir_ok files
    {| o_MaxItems := maxItems; o_MaxEntryBytes := maxEntryBytes; o_MaxKeyLen := 0;
       o_DiskDir := diskDir; o_DiskMaxBytes := diskMaxBytes; o_NumShards := 0;
       o_CompressHeaders := false |}.

(** ** Operations *)

Section ops.
Context `{Hash64} `{HeaderCodec} `{DiskWorld}.

(** The index [h & c.shardMask]. *)
Definition shard_index (c : Cache) (key : string) : nat :=
  Z.to_nat (Z.land (Sum64String key) (c_shardMask c)).

(** [None] is the out-of-range panic, excluded by [getShard_total]. *)
Definition getShard (c : Cache) (key : string) : option cacheShard :=
  c_shards c !! shard_index c key.

Definition set_shard (c : Cache) (key : string) (sh : cacheShard) : Cache :=
  with_shards (<[shard_index c key := sh]> (c_shards c)) c.

Definition useDisk (c : Cache) : bool := negb (String.eqb (c_diskDir c) "").

Definition disk_remove (c : Cache) (key : string) : Cache :=
  if useDisk c then with_disk (removeFromDisk (c_disk c) key) c else c.

(** [evictItem] on the shard the caller holds; [now] is the write time of a spilled file. *)
Definition evictItem (now : Z) (c : Cache) (sh : cacheShard) (e : nat) (item : lruItem) : Cache * cacheShard :=
  let sh := shard_Remove sh e (it_key item) in
  let c := count add_evict c in
  let c := if useDisk c
           then with_disk (spillToDisk now (c_diskMaxBytes c) (c_disk c) (it_key item) (it_entry item)) c
           else c in
  (c, sh).

(** The [for shard.eviction.Len() >= shard.maxItems] loop of [putInShard]: the last
    component tells whether the insertion goes on. One unit of fuel per element and one
    for the last test are enough ([evict_loop_spec]). *)
Fixpoint evict_loop (fuel : nat) (now : Z) (c : Cache) (sh : cacheShard) (key : string)
  : option (Cache * cacheShard * bool) :=
  match fuel with
  | O => None
  | S fuel =>
      if sh_maxItems sh <=? list_Len (sh_eviction sh) then
        match shard_Back sh with
        | None => Some (c, sh, true)
        | Some (victim, victimItem) =>
            if negb (TinyLFU_Admit (c_lfu c) key (it_key victimItem)) then Some (c, sh, false)
            else let '(c, sh) := evictItem now c sh victim victimItem in evict_loop fuel now c sh key
        end
      else Some (c, sh, true)
  end.

Definition putInShard (now : Z) (c : Cache) (sh : cacheShard) (key : string) (entry : Entry) : Cache :=
  match shard_lookup sh key with
  | Some (elem, _) => set_shard c key (shard_SetEntry (shard_MoveToFront sh elem) elem entry)
  | None =>
      match evict_loop (S (length (sh_eviction sh))) now c sh key with
      | None => c   (* excluded by [evict_loop_spec] *)
      | Some (c, sh, false) => set_shard c key sh
      | Some (c, sh, true) => set_shard c key (shard_PushFront sh key entry)
      end
  end.

Definition Get (clk : nat -> Z) (c : Cache) (key : string) : Cache * option Entry :=
  let c := with_lfu (TinyLFU_Increment (c_lfu c) key) c in
  match getShard c key with
  | None => (c, None)
  | Some sh =>
      match shard_lookup sh key with
      | Some (elem, entry) =>
          if Entry_IsExpired (clk 0%nat) entry then
            if Entry_IsStaleServable (clk 1%nat) entry then
              (count add_stale (set_shard c key (shard_MoveToFront sh elem)), Some entry)
            else
              let c := set_shard c key (shard_Remove sh elem key) in
              (count add_miss (disk_remove c key), None)
          else (count add_hit (set_shard c key (shard_MoveToFront sh elem)), Some entry)
      | None =>
          match (if useDisk c then loadFromDisk (c_compressHeaders c) (dt_files (c_disk c)) key else None) with
          | Some entry =>
              if Entry_IsExpired (clk 0%nat) entry && negb (Entry_IsStaleServable (clk 1%nat) entry) then
                (count add_miss (with_disk (removeFromDisk (c_disk c) key) c), None)
              else
                let c := putInShard (clk 2%nat) c sh key entry in
                if Entry_IsExpired (clk 3%nat) entry then (count add_stale c, Some entry)
                else (count add_hit c, Some entry)
          | None => (count add_miss c, None)
          end
      end
  end.

(** [Put] may rewrite the entry it is given (header compression), so it returns it. *)
Definition Put (now : Z) (c : Cache) (key : string) (entry : Entry) : Cache * Entry :=
  if (0 <? c_maxEntryBytes c) && (c_maxEntryBytes c <? str_len (e_Body entry)) then (c, entry)
  else if (0 <? c_maxKeyLen c) && (c_maxKeyLen c <? str_len key) then (c, entry)
  else
    let entry :=
      match c_compressHeaders c, e_Header entry, e_CompressedHeader entry with
      | true, Some h, None => compress_header entry h
      | _, _, _ => entry
      end in
    match getShard c key with
    | None => (c, entry)
    | Some sh => (putInShard now c sh key entry, entry)
    end.

Definition deleteShard (c : Cache) (sh : cacheShard) (key : string) : Cache :=
  let c := match shard_lookup sh key with
           | Some (elem, _) => set_shard c key (shard_Remove sh elem key)
           | None => c
           end in
  disk_remove c key.

Definition Delete (c : Cache) (key : string) : Cache :=
  match getShard c key with None => c | Some sh => deleteShard c sh key end.

Definition Purge (c : Cache) : Cache := with_shards (map shard_Clear (c_shards c)) c.

Definition GetStats (c : Cache) : Z * Z * Z * Z :=
  (st_Hits (c_stats c), st_Misses (c_stats c), st_Evicts (c_stats c), st_StaleHits (c_stats c)).

Definition Len (c : Cache) : Z :=
  foldl (fun total sh => total +i64 Z.of_nat (size (sh_items sh))) 0 (c_shards c).

End ops.

(** ** Well-formedness *)

Section facts.
Context `{Hash64} `{HeaderCodec} `{DiskWorld}.

Record cache_wf (c : Cache) : Prop := {
  cw_pow2 : exists n, 0 <= n <= 63 /\ c_shardMask c = 2 ^ n - 1 /\
    Z.of_nat (length (c_shards c)) = 2 ^ n;
  cw_shards : forall i sh, c_shards c !! i = Some sh -> shard_wf sh /\ 1 <= sh_maxItems sh;
  cw_routed : forall i sh k, c_shards c !! i = Some sh -> is_Some (sh_items sh !! k) ->
    shard_index c k = i
}.

(** The total capacity, and the association lists the shards stand for. *)
Definition capacity (c : Cache) : Z := foldr (fun sh n => sh_maxItems sh + n) 0 (c_shards c).
Definition abs (c : Cache) : list (list (string * Entry)) := map shard_abs (c_shards c).

(** Everything but the disk tier and the statistics is the same. *)
Definition same_memory (c c' : Cache) : Prop :=
  c_shards c' = c_shards c /\ c_shardMask c' = c_shardMask c /\ c_lfu c' = c_lfu c /\
  c_diskDir c' = c_diskDir c /\ c_maxEntryBytes c' = c_maxEntryBytes c /\
  c_maxKeyLen c' = c_maxKeyLen c /\ c_diskMaxBytes c' = c_diskMaxBytes c /\
  c_compressHeaders c' = c_compressHeaders c /\
  st_Hits (c_stats c') = st_Hits (c_stats c) /\ st_Misses (c_stats c') = st_Misses (c_stats c) /\
  st_StaleHits (c_stats c') = st_StaleHits (c_stats c).

Lemma same_memory_wf c c' : same_memory c c' -> cache_wf c -> cache_wf c'.
Proof.
  intros (Hs & Hm & _) [Hp Hw Hr].
  split; rewrite ?Hs, ?Hm; [done | done |].
  intros i sh k Hi Hk. unfold shard_index. rewrite Hm. by apply (Hr i sh k).
Qed.

Lemma getShard_total c key : cache_wf c -> is_Some (getShard c key).
Proof.
  intros [(n & Hn & Hm & Hl) _ _]. apply lookup_lt_is_Some. unfold shard_index. rewrite Hm.
  pose proof (land_mask_bound (Sum64String key) n ltac:(lia)). lia.
Qed.

Lemma set_shard_wf c key sh sh' :
  cache_wf c -> getShard c key = Some sh -> shard_wf sh' -> sh_maxItems sh' = sh_maxItems sh ->
  (forall k, is_Some (sh_items sh' !! k) -> k = key \/ is_Some (sh_items sh !! k)) ->
  cache_wf (set_shard c key sh').
Proof.
  intros [Hp Hw Hr] Hg Hwf' Hcap Hk. split; cbn [set_shard with_shards c_shards c_shardMask].
  - by rewrite length_insert.
  - intros i s [(<- & <- & _) | [_ Hi]]%list_lookup_insert_Some; [| by apply (Hw i)].
    split; [done |]. rewrite Hcap. apply (Hw _ sh Hg).
  - intros i s k [(<- & <- & _) | [_ Hi]]%list_lookup_insert_Some Hs.
    + destruct (Hk k Hs) as [-> | Hs']; [done | by apply (Hr _ sh)].
    + by apply (Hr i s).
Qed.

Lemma capacity_insert c i sh sh' :
  c_shards c !! i = Some sh -> sh_maxItems sh' = sh_maxItems sh ->
  capacity (with_shards (<[i := sh']> (c_shards c)) c) = capacity c.
Proof.
  unfold capacity; cbn [with_shards c_shards]. revert i.
  induction (c_shards c) as [| s l IH]; intros i Hi Hc; [done |].
  destruct i as [| i]; cbn in *; [by simplify_eq; rewrite Hc | f_equal; by apply (IH i)].
Qed.

Lemma capacity_set_shard c key sh sh' :
  getShard c key = Some sh -> sh_maxItems sh' = sh_maxItems sh ->
  capacity (set_shard c key sh') = capacity c.
Proof. apply capacity_insert. Qed.

Lemma abs_set_shard c key sh : abs (set_shard c key sh) = <[shard_index c key := shard_abs sh]> (abs c).
Proof. unfold abs, set_shard; cbn [with_shards c_shards]. apply list_fmap_insert. Qed.

Lemma abs_lookup c key sh :
  getShard c key = Some sh -> abs c !! shard_index c key = Some (shard_abs sh).
Proof.
  unfold getShard. intros Hg. unfold abs. change (map shard_abs) with (fmap (M:=list) shard_abs).
  by rewrite list_lookup_fmap, Hg.
Qed.

(** ** The eviction loop *)

Lemma evictItem_spec now c sh e it :
  same_memory c (evictItem now c sh e it).1 /\ (evictItem now c sh e it).2 = shard_Remove sh e (it_key it).
Proof. unfold evictItem, same_memory. by destruct (useDisk _). Qed.

(** The loop ends, with at most one eviction, and tells whether there is room. *)
Lemma evict_loop_spec now c sh key :
  shard_wf sh -> 1 <= sh_maxItems sh ->
  exists c' sh' go, evict_loop (S (length (sh_eviction sh))) now c sh key = Some (c', sh', go) /\
    same_memory c c' /\
    (if go then shard_wf sh' /\ list_Len (sh_eviction sh') < sh_maxItems sh' else sh' = sh) /\
    sh_maxItems sh' = sh_maxItems sh /\
    (forall k, is_Some (sh_items sh' !! k) -> is_Some (sh_items sh !! k)) /\
    forall v, lru_find key (shard_abs sh) = None ->
      (if go then (key, v) :: shard_abs sh' else shard_abs sh')
      = lru_put (sh_maxItems sh) (TinyLFU_Admit (c_lfu c) key) key v (shard_abs sh).
Proof.
  intros Hwf Hmax. pose proof (wf_cap _ Hwf) as Hcap. cbn [evict_loop]. unfold list_Len, lru_put in *.
  assert (Hsame : same_memory c c) by (unfold same_memory; tauto).
  destruct (Z.leb_spec (sh_maxItems sh) (Z.of_nat (length (sh_eviction sh)))) as [Hfull | Hroom].
  - pose proof (shard_Back_abs sh Hwf) as Hb. destruct (shard_Back sh) as [[e it] |].
    2: { rewrite Hb in Hfull; cbn in Hfull; lia. }
    destruct Hb as [Hlk Hlast]. destruct (TinyLFU_Admit (c_lfu c) key (it_key it)) eqn:Ea; cbn [negb].
    + destruct (evictItem_spec now c sh e it) as [Hs Hsh].
      destruct (evictItem now c sh e it) as [c1 sh1]; cbn [fst snd] in *; subst sh1.
      pose proof (proj1 (shard_lookup_Some sh Hwf _ _ _) Hlk) as [Hi _].
      pose proof (shard_Remove_wf sh Hwf _ _ Hi) as Hwf1.
      destruct (wf_item _ Hwf _ _ Hi) as [He _].
      pose proof (length_list_Remove _ e (wf_nodup _ Hwf) He) as Hlen.
      assert (Hr : Z.of_nat (length (list_Remove (sh_eviction sh) e)) < sh_maxItems sh) by lia.
      rewrite Hlen. cbn [evict_loop]. unfold list_Len; cbn [shard_Remove sh_eviction sh_maxItems].
      rewrite (proj2 (Z.leb_gt _ _) Hr).
      eexists _, _, true. split; [done |]. split_and!; try done.
      * intros k; cbn. intros [x [_ Hx]%lookup_delete_Some]. by exists x.
      * intros v Hf. rewrite Hf, (length_shard_abs sh Hwf), Hlen, (proj2 (Z.leb_le _ _)) by lia.
        rewrite Hlast, Ea. f_equal. by apply (shard_abs_Remove sh Hwf _ e (it_entry it)).
    + eexists _, _, false. split; [done |]. split_and!; try done.
      intros v Hf. by rewrite Hf, (length_shard_abs sh Hwf), (proj2 (Z.leb_le _ _) Hfull), Hlast, Ea.
  - eexists _, _, true. split; [done |]. split_and!; try done.
    intros v Hf. by rewrite Hf, (length_shard_abs sh Hwf), (proj2 (Z.leb_gt _ _) Hroom).
Qed.

(** ** Insertion *)

(** [set_shard] commutes with what the disk tier and the statistics change. *)
Lemma set_shard_same c c' key sh :
  same_memory c c' -> same_memory (set_shard c key sh) (set_shard c' key sh).
Proof.
  unfold same_memory, set_shard, shard_index; cbn. intros (-> & -> & -> & -> & -> & -> & -> & -> & ?).
  tauto.
Qed.

(** Everything [putInShard] does to memory: the shard of the key becomes one that stands
    for the updated association list. *)
Lemma putInShard_spec now c sh key v :
  cache_wf c -> getShard c key = Some sh ->
  exists sh', same_memory (set_shard c key sh') (putInShard now c sh key v) /\
    cache_wf (set_shard c key sh') /\ sh_maxItems sh' = sh_maxItems sh /\
    shard_abs sh' = lru_put (sh_maxItems sh) (TinyLFU_Admit (c_lfu c) key) key v (shard_abs sh).
Proof.
  intros Hc Hg. destruct (cw_shards _ Hc _ sh Hg) as [Hwf Hmax].
  assert (Hsame : forall c, same_memory c c) by (unfold same_memory; tauto).
  pose proof (shard_lookup_abs sh Hwf key) as Hfind. unfold putInShard.
  destruct (shard_lookup sh key) as [[e w] |] eqn:El; cbn in Hfind.
  - eexists; split_and!; [apply Hsame | | done |].
    + apply (set_shard_wf c key sh); [done | done | by auto using shard_SetEntry_wf, shard_MoveToFront_wf | done |].
      cbn. auto.
    + unfold lru_put. rewrite <- Hfind. by apply (shard_abs_SetEntry sh Hwf key e w).
  - destruct (evict_loop_spec now c sh key Hwf Hmax)
      as (c' & sh' & go & -> & Hs & Hgo & Hcap & Hk & Habs).
    apply shard_lookup_None in El; [| done]. specialize (Habs v (eq_sym Hfind)).
    assert (Hnone : sh_items sh' !! key = None).
    { apply eq_None_not_Some. intros Hi%Hk. rewrite El in Hi. by destruct Hi. }
    destruct go.
    + destruct Hgo as [Hwf' Hroom]. exists (shard_PushFront sh' key v).
      split_and!; [by apply set_shard_same | | done | by rewrite shard_abs_PushFront].
      apply (set_shard_wf c key sh); [done | done | by apply shard_PushFront_wf | done |].
      intros k; cbn. destruct (decide (key = k)) as [-> | Hne]; [by left |].
      rewrite lookup_insert_ne by done. auto.
    + subst sh'. exists sh. split_and!; [by apply set_shard_same | | done | done].
      apply (set_shard_wf c key sh); auto.
Qed.

Lemma same_memory_capacity c c' : same_memory c c' -> capacity c' = capacity c.
Proof. unfold capacity. by intros (-> & _). Qed.

Lemma same_memory_abs c c' : same_memory c c' -> abs c' = abs c.
Proof. unfold abs. by intros (-> & _). Qed.

Lemma count_wf f c : cache_wf c -> cache_wf (count f c).
Proof. by intros [? ? ?]. Qed.

Lemma with_lfu_wf t c : cache_wf c -> cache_wf (with_lfu t c).
Proof. by intros [? ? ?]. Qed.

Lemma with_disk_wf d c : cache_wf c -> cache_wf (with_disk d c).
Proof. by intros [? ? ?]. Qed.

Lemma disk_remove_shards c key :
  c_shards (disk_remove c key) = c_shards c /\ c_shardMask (disk_remove c key) = c_shardMask c.
Proof. unfold disk_remove. by destruct (useDisk c). Qed.

Lemma disk_remove_wf c key : cache_wf c -> cache_wf (disk_remove c key).
Proof. intros Hc. unfold disk_remove. destruct (useDisk c); [by apply with_disk_wf | done]. Qed.

Lemma MoveToFront_shard_wf c key sh e :
  cache_wf c -> getShard c key = Some sh -> cache_wf (set_shard c key (shard_MoveToFront sh e)).
Proof.
  intros Hc Hg. apply (set_shard_wf c key sh); auto.
  apply shard_MoveToFront_wf, (cw_shards _ Hc _ sh Hg).
Qed.

Lemma Remove_shard_wf c key sh e v :
  cache_wf c -> getShard c key = Some sh -> shard_lookup sh key = Some (e, v) ->
  cache_wf (set_shard c key (shard_Remove sh e key)).
Proof.
  intros Hc Hg Hl. destruct (cw_shards _ Hc _ sh Hg) as [Hwf _].
  apply (set_shard_wf c key sh); auto.
  - apply shard_Remove_wf; [done |]. by apply (shard_lookup_Some sh Hwf) in Hl as [? _].
  - intros k. cbn. intros [x [_ Hx]%lookup_delete_Some]. right. by exists x.
Qed.

(** ** Operations as steps, and their specification on association lists *)

Inductive Op :=
  | OpGet (clk : nat -> Z) (key : string)
  | OpPut (now : Z) (key : string) (entry : Entry)
  | OpDelete (key : string)
  | OpPurge.

Definition step (c : Cache) (op : Op) : Cache * option Entry :=
  match op with
  | OpGet clk key => Get clk c key
  | OpPut now key entry => ((Put now c key entry).1, None)
  | OpDelete key => (Delete c key, None)
  | OpPurge => (Purge c, None)
  end.

(** Past its TTL and past its stale window, as [Get] reads the clock. *)
Definition dead (clk : nat -> Z) (e : Entry) : bool :=
  Entry_IsExpired (clk 0%nat) e && negb (Entry_IsStaleServable (clk 1%nat) e).

(** [disk] is the entry the disk tier has for the key, if any. *)
Definition spec_get (clk : nat -> Z) (cap : Z) (admits : string -> bool) (disk : option Entry)
    (key : string) (l : list (string * Entry)) : list (string * Entry) * option Entry :=
  match lru_find key l with
  | Some e => if dead clk e then (lru_remove key l, None) else (lru_use key e l, Some e)
  | None =>
      match disk with
      | Some e => if dead clk e then (l, None) else (lru_put cap admits key e l, Some e)
      | None => (l, None)
      end
  end.

Definition acceptable (c : Cache) (key : string) (e : Entry) : bool :=
  negb ((0 <? c_maxEntryBytes c) && (c_maxEntryBytes c <? str_len (e_Body e)))
  && negb ((0 <? c_maxKeyLen c) && (c_maxKeyLen c <? str_len key)).

(** What [Put] stores. *)
Definition stored_form (c : Cache) (e : Entry) : Entry :=
  match c_compressHeaders c, e_Header e, e_CompressedHeader e with
  | true, Some h, None => compress_header e h
  | _, _, _ => e
  end.

Definition disk_entry (c : Cache) (key : string) : option Entry :=
  if useDisk c then loadFromDisk (c_compressHeaders c) (dt_files (c_disk c)) key else None.

(** What an operation on [key] does to the pairs [l] of the key's shard, and its result. *)
Definition spec_step (c : Cache) (op : Op) (cap : Z) (l : list (string * Entry))
  : list (string * Entry) * option Entry :=
  match op with
  | OpGet clk key =>
      spec_get clk cap (TinyLFU_Admit (TinyLFU_Increment (c_lfu c) key) key) (disk_entry c key) key l
  | OpPut _ key entry =>
      (if acceptable c key entry
       then lru_put cap (TinyLFU_Admit (c_lfu c) key) key (stored_form c entry) l else l, None)
  | OpDelete key => (lru_remove key l, None)
  | OpPurge => ([], None)
  end.

Definition op_key (op : Op) : option string :=
  match op with OpGet _ key | OpPut _ key _ | OpDelete key => Some key | OpPurge => None end.

Lemma abs_id c key sh :
  getShard c key = Some sh -> <[shard_index c key := shard_abs sh]> (abs c) = abs c.
Proof. intros Hg. by apply list_insert_id, abs_lookup. Qed.

Lemma lru_remove_absent key l : lru_find key l = None -> lru_remove key l = l.
Proof.
  intros Hf. apply filter_all. intros [k v] Hin. cbn. intros ->.
  induction l as [| [k' v'] l IH]; [by apply not_elem_of_nil in Hin |]. cbn in Hf.
  destruct (decide (k' = key)) as [-> | Hne]; [done |].
  apply elem_of_cons in Hin as [[= <- <-] | Hin]; [done | by apply IH].
Qed.

Lemma putInShard_refines now c sh key v :
  cache_wf c -> getShard c key = Some sh ->
  let c' := putInShard now c sh key v in
  cache_wf c' /\ capacity c' = capacity c /\
  abs c' = <[shard_index c key :=
    lru_put (sh_maxItems sh) (TinyLFU_Admit (c_lfu c) key) key v (shard_abs sh)]> (abs c).
Proof.
  intros Hc Hg. destruct (putInShard_spec now c sh key v Hc Hg) as (sh' & Hs & Hwf & Hcap & <-).
  cbn zeta. split_and!.
  - by apply (same_memory_wf _ _ Hs).
  - rewrite (same_memory_capacity _ _ Hs). by apply (capacity_set_shard c key sh).
  - by rewrite (same_memory_abs _ _ Hs), abs_set_shard.
Qed.

(** The two ways [Get] leaves the shard it hit. *)
Lemma Get_hit_refines c key sh e v :
  cache_wf c -> getShard c key = Some sh -> shard_lookup sh key = Some (e, v) ->
  (let c1 := set_shard c key (shard_MoveToFront sh e) in
   cache_wf c1 /\ capacity c1 = capacity c /\
   abs c1 = <[shard_index c key := lru_use key v (shard_abs sh)]> (abs c)) /\
  (let c2 := disk_remove (set_shard c key (shard_Remove sh e key)) key in
   cache_wf c2 /\ capacity c2 = capacity c /\
   abs c2 = <[shard_index c key := lru_remove key (shard_abs sh)]> (abs c)).
Proof.
  intros Hc Hg Hl. destruct (cw_shards _ Hc _ sh Hg) as [Hwf _]. cbv zeta.
  split_and!.
  - by apply MoveToFront_shard_wf.
  - by apply (capacity_set_shard c key sh).
  - rewrite abs_set_shard. by rewrite (shard_abs_MoveToFront sh Hwf key e v).
  - by eapply disk_remove_wf, Remove_shard_wf.
  - unfold capacity. rewrite (proj1 (disk_remove_shards _ _)). by apply (capacity_set_shard c key sh).
  - unfold abs at 1. rewrite (proj1 (disk_remove_shards _ _)). fold (abs (set_shard c key (shard_Remove sh e key))).
    rewrite abs_set_shard. by rewrite (shard_abs_Remove sh Hwf key e v).
Qed.

Definition refines_at (c : Cache) (op : Op) (key : string) : Prop :=
  exists sh, getShard c key = Some sh /\
    let '(l, r) := spec_step c op (sh_maxItems sh) (shard_abs sh) in
    abs (step c op).1 = <[shard_index c key := l]> (abs c) /\ (step c op).2 = r /\
    cache_wf (step c op).1 /\ capacity (step c op).1 = capacity c.

Lemma Get_refines clk c key : cache_wf c -> refines_at c (OpGet clk key) key.
Proof.
  intros Hc. destruct (getShard_total c key Hc) as [sh Hg]. exists sh. split; [done |].
  cbn [spec_step step]. unfold Get.
  set (c0 := with_lfu (TinyLFU_Increment (c_lfu c) key) c).
  assert (Hc0 : cache_wf c0) by by apply with_lfu_wf.
  assert (Hg0 : getShard c0 key = Some sh) by done. rewrite Hg0.
  destruct (cw_shards _ Hc _ sh Hg) as [Hwf _].
  pose proof (shard_lookup_abs sh Hwf key) as Hf.
  change (abs c) with (abs c0). change (capacity c) with (capacity c0).
  change (shard_index c key) with (shard_index c0 key).
  destruct (shard_lookup sh key) as [[e v] |] eqn:El; cbn in Hf.
  - destruct (Get_hit_refines c0 key sh e v Hc0 Hg0 El) as ((Hm & Hmc & Hma) & (Hr & Hrc & Hra)).
    unfold spec_get. rewrite <- Hf. unfold dead.
    destruct (Entry_IsExpired (clk 0%nat) v); [destruct (Entry_IsStaleServable (clk 1%nat) v) |]; cbn [andb negb];
      split_and!; cbn [fst snd]; done || by apply count_wf.
  - unfold spec_get. rewrite <- Hf. unfold disk_entry.
    change (useDisk c) with (useDisk c0). change (c_disk c) with (c_disk c0).
    change (c_compressHeaders c) with (c_compressHeaders c0).
    destruct (if useDisk c0 then _ else None) as [v |].
    + unfold dead. destruct (Entry_IsExpired (clk 0%nat) v && negb (Entry_IsStaleServable (clk 1%nat) v)).
      * split_and!; [by symmetry; apply (abs_id c0) | done | by apply count_wf, with_disk_wf | done].
      * destruct (putInShard_refines (clk 2%nat) c0 sh key v Hc0 Hg0) as (Hw & Hcap & Habs).
        destruct (Entry_IsExpired (clk 3%nat) v); split_and!; try done; by apply count_wf.
    + split_and!; [by symmetry; apply (abs_id c0) | done | by apply count_wf | done].
Qed.

Lemma Put_refines now c key e : cache_wf c -> refines_at c (OpPut now key e) key.
Proof.
  intros Hc. destruct (getShard_total c key Hc) as [sh Hg]. exists sh. split; [done |].
  cbn [spec_step step]. unfold Put, acceptable, stored_form. rewrite Hg.
  destruct (_ && _); cbn [negb andb fst snd]; [by rewrite (abs_id c key sh) |].
  destruct (_ && _); cbn [negb andb fst snd]; [by rewrite (abs_id c key sh) |].
  edestruct (putInShard_refines now c sh key) as (Hw & Hcap & Habs); [done | done |].
  split_and!; [apply Habs | done | done | done].
Qed.

Lemma Delete_refines c key : cache_wf c -> refines_at c (OpDelete key) key.
Proof.
  intros Hc. destruct (getShard_total c key Hc) as [sh Hg]. exists sh. split; [done |].
  cbn [spec_step step fst snd]. unfold Delete, deleteShard. rewrite Hg.
  destruct (cw_shards _ Hc _ sh Hg) as [Hwf _].
  destruct (shard_lookup sh key) as [[e v] |] eqn:El.
  - destruct (Get_hit_refines c key sh e v Hc Hg El) as (_ & (Hr & Hrc & Hra)). done.
  - rewrite lru_remove_absent.
    2: { by rewrite <- (shard_lookup_abs sh Hwf), El. }
    rewrite (abs_id c key sh Hg). destruct (disk_remove_shards c key) as [Hs Hm].
    unfold abs, capacity. rewrite Hs. split_and!; auto using disk_remove_wf.
Qed.

Lemma Purge_shards c i sh :
  c_shards (Purge c) !! i = Some sh -> exists sh0, c_shards c !! i = Some sh0 /\ sh = shard_Clear sh0.
Proof.
  unfold Purge; cbn [with_shards c_shards].
  change (map shard_Clear) with (fmap (M:=list) shard_Clear). rewrite list_lookup_fmap.
  intros (sh0 & Hi & ->)%fmap_Some. by exists sh0.
Qed.

Lemma Purge_refines c :
  cache_wf c ->
  cache_wf (Purge c) /\ capacity (Purge c) = capacity c /\ abs (Purge c) = map (fun _ => []) (abs c).
Proof.
  intros [Hp Hw Hr]. split_and!.
  - split.
    + unfold Purge; cbn [with_shards c_shards c_shardMask]. by rewrite length_map.
    + intros i sh (sh0 & Hi & ->)%Purge_shards. destruct (Hw i sh0 Hi). auto using shard_Clear_wf.
    + intros i sh k (sh0 & Hi & ->)%Purge_shards. cbn. by intros [? ?%lookup_empty_Some].
  - unfold capacity, Purge; cbn [with_shards c_shards]. clear.
    induction (c_shards c) as [| s l IH]; [done |]. cbn in *. by rewrite IH.
  - unfold abs, Purge; cbn [with_shards c_shards]. by rewrite !map_map.
Qed.

(** ** Construction *)

Lemma halve_shards_pow2 fuel k m :
  1 <= m -> 0 <= k -> (Z.to_nat k < fuel)%nat ->
  exists j, 0 <= j <= k /\ halve_shards fuel (2 ^ k) m = 2 ^ j /\ 2 ^ j <= m.
Proof.
  revert k. induction fuel as [| fuel IH]; intros k Hm Hk Hf; [lia |]. cbn [halve_shards].
  destruct (Z.ltb_spec m (2 ^ k)) as [Hlt | Hge]; [| exists k; split_and!; lia].
  assert (k <> 0) by (intros ->; cbn in Hlt; lia).
  assert (Hhalf : 2 ^ k / 2 = 2 ^ (k - 1)).
  { replace k with (Z.succ (k - 1)) at 1 by lia. rewrite Z.pow_succ_r by lia.
    rewrite Z.mul_comm. apply Z.div_mul. lia. }
  rewrite Hhalf. destruct (IH (k - 1) Hm ltac:(lia) ltac:(lia)) as (j & Hj & -> & Hjm).
  exists j. split_and!; [lia | lia | done | done].
Qed.

Lemma shard_count_spec opts :
  o_MaxItems opts <= max_i64 -> o_NumShards opts <= max_i64 ->
  exists j, 0 <= j <= 62 /\ shard_count opts = (2 ^ j, Z.max 1 (o_MaxItems opts)) /\
    2 ^ j <= Z.max 1 (o_MaxItems opts).
Proof.
  intros Hm Hn. unfold shard_count. set (n0 := if o_NumShards opts <=? 0 then _ else _).
  assert (Hn0 : 1 <= n0 <= max_i64) by (unfold n0, defaultNumShards, max_i64 in *; zbool; lia).
  assert (HM : (if o_MaxItems opts <? 1 then 1 else o_MaxItems opts) = Z.max 1 (o_MaxItems opts)).
  { zbool; lia. }
  rewrite HM. set (m := Z.max 1 (o_MaxItems opts)). assert (Hm1 : 1 <= m) by lia.
  rewrite u64_small by (unfold in_u64, max_i64 in *; lia).
  destruct (nextPow2_eq n0 ltac:(unfold max_i64 in *; lia)) as [-> Hk]. set (k := Len64 (n0 - 1)) in *.
  assert (Hone : exists j, 0 <= j <= 62 /\ (1, m) = (2 ^ j, m) /\ 2 ^ j <= m).
  { exists 0. split_and!; [lia | lia | done | cbn; lia]. }
  destruct (m <? 64); [cbn [halve_shards] |].
  { rewrite (proj2 (Z.ltb_ge m 1)) by lia. exact Hone. }
  destruct (Z.eq_dec k 63) as [-> | Hk63].
  - replace (i64 (2 ^ 63)) with (- 2 ^ 63) by reflexivity. cbn [halve_shards].
    rewrite (proj2 (Z.ltb_ge m (- 2 ^ 63))) by lia. exact Hone.
  - assert (Hpow : 1 <= 2 ^ k <= 2 ^ 62).
    { split; [apply (Z.pow_le_mono_r 2 0 k); lia | apply Z.pow_le_mono_r; lia]. }
    rewrite i64_small by (unfold in_i64, min_i64, max_i64; lia).
    destruct (halve_shards_pow2 64 k m Hm1 ltac:(lia) ltac:(lia)) as (j & Hj & -> & Hjm).
    assert (1 <= 2 ^ j) by (apply (Z.pow_le_mono_r 2 0 j); lia).
    rewrite (proj2 (Z.ltb_ge (2 ^ j) 1)) by lia. exists j. split_and!; [lia | lia | done | done].
Qed.

(** The remainder goes to the first shards, one more item each. *)
Lemma make_shards_capacity start len p r :
  0 <= r <= Z.of_nat (start + len) ->
  foldr (fun sh n => sh_maxItems sh + n) 0
    (map (fun i => newShard (if Z.of_nat i <? r then p + 1 else p)) (seq start len))
  = Z.of_nat len * p + Z.max 0 (r - Z.of_nat start).
Proof.
  revert start. induction len as [| len IH]; intros start Hr; cbn [seq map foldr]; [lia |].
  rewrite IH by lia. cbn [newShard sh_maxItems]. zbool; lia.
Qed.

Lemma NewWithOptions_spec mkdir_ok files opts c :
  o_MaxItems opts <= max_i64 -> o_NumShards opts <= max_i64 ->
  NewWithOptions mkdir_ok files opts = Some c ->
  cache_wf c /\ capacity c = Z.max 1 (o_MaxItems opts).
Proof.
  intros Hm Hn. unfold NewWithOptions.
  destruct (shard_count_spec opts Hm Hn) as (j & Hj & -> & Hjm). set (m := Z.max 1 _) in *.
  destruct (_ && _); [done |]. intros [= <-].
  assert (Hp : 1 <= 2 ^ j <= 2 ^ 62).
  { split; [apply (Z.pow_le_mono_r 2 0 j); lia | apply Z.pow_le_mono_r; lia]. }
  assert (Hper : 1 <= m / 2 ^ j) by (apply Z.div_le_lower_bound; lia).
  pose proof (Z.mod_pos_bound m (2 ^ j) ltac:(lia)) as Hrem.
  pose proof (Z.div_mod m (2 ^ j) ltac:(lia)) as Hdm.
  assert (Hnew : forall i sh, make_shards (2 ^ j) (m / 2 ^ j) (m mod 2 ^ j) !! i = Some sh ->
    exists cap, 1 <= cap /\ sh = newShard cap).
  { intros i sh. unfold make_shards. change (map ?f) with (fmap (M:=list) f).
    rewrite list_lookup_fmap. intros (x & _ & ->)%fmap_Some. eexists. split; [| done]. zbool; lia. }
  split; [split; cbn [c_shards c_shardMask] |].
  - exists j. split_and!; [lia | lia | |].
    + rewrite !u64_small; unfold in_u64; rewrite ?u64_small; unfold in_u64; lia.
    + unfold make_shards. rewrite length_map, length_seq. lia.
  - intros i sh (cap & Hcap & ->)%Hnew. split; [by apply newShard_wf; lia | done].
  - intros i sh k (cap & Hcap & ->)%Hnew. cbn. by intros [? ?%lookup_empty_Some].
  - unfold capacity, make_shards; cbn [c_shards]. rewrite make_shards_capacity by lia. lia.
Qed.

(** ** Reachable states *)

Definition run (c : Cache) (ops : list Op) : Cache := foldl (fun c op => (step c op).1) c ops.

Lemma step_wf c op : cache_wf c -> cache_wf (step c op).1 /\ capacity (step c op).1 = capacity c.
Proof.
  assert (Hr : forall key, refines_at c op key -> cache_wf (step c op).1 /\ capacity (step c op).1 = capacity c).
  { intros key (sh & _ & Hs). destruct (spec_step _ _ _ _). by destruct Hs as (_ & _ & ? & ?). }
  intros Hc. destruct op as [clk key | now key e | key |].
  - by apply (Hr key), Get_refines.
  - by apply (Hr key), Put_refines.
  - by apply (Hr key), Delete_refines.
  - destruct (Purge_refines c Hc) as (? & ? & _). done.
Qed.

Lemma run_wf c ops : cache_wf c -> cache_wf (run c ops) /\ capacity (run c ops) = capacity c.
Proof.
  revert c. induction ops as [| op ops IH]; intros c Hc; [done |].
  destruct (step_wf c op Hc) as [Hw Hcap]. change (run c (op :: ops)) with (run (step c op).1 ops).
  rewrite <- Hcap. by apply IH.
Qed.

Lemma Len_bound c : cache_wf c -> capacity c <= max_i64 -> 0 <= Len c <= capacity c.
Proof.
  intros [_ Hw _]. unfold Len, capacity.
  assert (Hg : forall l, (forall sh, sh ∈ l -> shard_wf sh /\ 1 <= sh_maxItems sh) ->
    0 <= foldr (fun sh n => sh_maxItems sh + n) 0 l /\
    forall a, 0 <= a -> a + foldr (fun sh n => sh_maxItems sh + n) 0 l <= max_i64 ->
      a <= foldl (fun total sh => total +i64 Z.of_nat (size (sh_items sh))) a l
        <= a + foldr (fun sh n => sh_maxItems sh + n) 0 l).
  { induction l as [| sh l IH]; intros Hl; cbn [foldl foldr]; [split; intros; lia |].
    destruct (Hl sh ltac:(left)) as [Hwf Hmax]. pose proof (wf_cap _ Hwf) as Hcap.
    destruct IH as [Hnn IH]. { intros s Hs. apply Hl. by right. }
    split; [lia |]. intros a Ha Hsum. rewrite (size_items sh Hwf) in *.
    rewrite i64_small by (unfold in_i64, min_i64, max_i64 in *; lia).
    specialize (IH (a + Z.of_nat (length (sh_eviction sh))) ltac:(lia) ltac:(lia)). lia. }
  intros Hcap. destruct (Hg (c_shards c)) as [_ Hb].
  - intros sh [i Hi]%list_elem_of_lookup. by apply (Hw i).
  - specialize (Hb 0 ltac:(lia) ltac:(lia)). lia.
Qed.

(** ** What the cache guarantees *)

(** The entry memory holds for a key. *)
Definition peek (c : Cache) (key : string) : option Entry :=
  lru_find key (default [] (abs c !! shard_index c key)).

Lemma peek_find c key sh : getShard c key = Some sh -> peek c key = lru_find key (shard_abs sh).
Proof. intros Hg. unfold peek. by rewrite (abs_lookup c key sh Hg). Qed.

Lemma fresh_run mkdir_ok files opts c0 ops :
  o_MaxItems opts <= max_i64 -> o_NumShards opts <= max_i64 ->
  NewWithOptions mkdir_ok files opts = Some c0 ->
  cache_wf (run c0 ops) /\ capacity (run c0 ops) = Z.max 1 (o_MaxItems opts) /\ 0 <= Len (run c0 ops) <= Z.max 1 (o_MaxItems opts).
Proof.
  intros Hm Hn Hnew. destruct (NewWithOptions_spec _ _ _ _ Hm Hn Hnew) as [Hw0 Hc0].
  destruct (run_wf c0 ops Hw0) as [Hw Hcap]. rewrite Hc0 in Hcap.
  pose proof (Len_bound _ Hw) as Hl. rewrite Hcap in Hl.
  split; [done |]. split; [done |]. apply Hl. unfold max_i64 in *. lia.
Qed.

(** C7: Whatever the options and whatever operations are performed, the map, the list and
    the elements of every shard agree, a key is only ever in its own shard, the shards'
    capacities add up to [MaxItems] (1 if it is not positive), and [Len] never exceeds it. *)
Theorem Cache_invariant mkdir_ok files opts c0 ops :
  o_MaxItems opts <= max_i64 -> o_NumShards opts <= max_i64 ->
  NewWithOptions mkdir_ok files opts = Some c0 ->
  let c := run c0 ops in
  cache_wf c /\ capacity c = Z.max 1 (o_MaxItems opts) /\ 0 <= Len c <= Z.max 1 (o_MaxItems opts).
Proof. apply fresh_run. Qed.

(** C1: Every operation on a key acts on the key's shard as the textbook operation acts
    on a list of pairs in recency order: [Get] moves a live pair to the front, drops a
    dead one, and promotes the entry the disk has; [Put] updates in place or inserts at
    the front of a list that gives up its last pair when it is full and TinyLFU admits
    the newcomer; [Delete] removes; [Purge] empties every shard. No other shard changes. *)
Theorem Cache_refines_LRU c op :
  cache_wf c ->
  match op_key op with
  | Some key => refines_at c op key
  | None => abs (step c op).1 = map (fun _ => []) (abs c) /\ (step c op).2 = None
  end.
Proof.
  intros Hc. destruct op as [clk key | now key e | key |]; cbn [op_key].
  - by apply Get_refines.
  - by apply Put_refines.
  - by apply Delete_refines.
  - destruct (Purge_refines c Hc) as (_ & _ & ?). done.
Qed.

(** [Get] never returns an entry past both its TTL and its stale window, and counts
    each call once: a miss exactly when it returns nothing, otherwise a hit or a stale
    hit. *)
Theorem Get_accounting clk c key :
  cache_wf c ->
  let '(c', r) := Get clk c key in
  let '(hits, misses, _, stale) := GetStats c in
  let '(hits', misses', _, stale') := GetStats c' in
  match r with
  | None => misses' = misses +i64 1 /\ hits' = hits /\ stale' = stale
  | Some e =>
      (Entry_IsExpired (clk 0%nat) e = false \/ Entry_IsStaleServable (clk 1%nat) e = true) /\
      misses' = misses /\
      ((hits' = hits +i64 1 /\ stale' = stale) \/ (hits' = hits /\ stale' = stale +i64 1))
  end.
Proof.
  intros Hc. unfold Get, GetStats. set (c0 := with_lfu _ c).
  change (c_stats c) with (c_stats c0). assert (Hc0 : cache_wf c0) by by apply with_lfu_wf.
  destruct (getShard_total c0 key Hc0) as [sh Hg]. rewrite Hg.
  destruct (shard_lookup sh key) as [[e v] |].
  - destruct (Entry_IsExpired _ v) eqn:E; [destruct (Entry_IsStaleServable _ v) eqn:Es |];
      cbn [count with_stats set_shard with_shards c_stats add_hit add_miss add_stale
           st_Hits st_Misses st_StaleHits]; [tauto | | tauto].
    unfold disk_remove. by destruct (useDisk _).
  - destruct (if useDisk c0 then _ else None) as [v |]; [| done].
    destruct (Entry_IsExpired (clk 0%nat) v && negb (Entry_IsStaleServable (clk 1%nat) v)) eqn:Ed; [done |].
    destruct (putInShard_spec (clk 2%nat) c0 sh key v Hc0 Hg)
      as (sh' & (_ & _ & _ & _ & _ & _ & _ & _ & Hh & Hms & Hst) & _).
    cbn [set_shard with_shards c_stats] in *.
    apply andb_false_iff in Ed. rewrite negb_false_iff in Ed.
    destruct (Entry_IsExpired (clk 3%nat) v);
      cbn [count with_stats c_stats add_hit add_miss add_stale st_Hits st_Misses st_StaleHits];
      rewrite Hh, Hms, Hst; tauto.
Qed.

(** What is put is what is got. *)
Lemma Put_get now clk c key e sh :
  cache_wf c -> getShard c key = Some sh ->
  lru_find key (shard_abs sh) <> None \/ Z.of_nat (length (shard_abs sh)) < sh_maxItems sh \/
    (exists victim v, last (shard_abs sh) = Some (victim, v) /\
       TinyLFU_Admit (c_lfu c) key victim = true) ->
  if acceptable c key e
  then dead clk (stored_form c e) = false ->
       (Get clk (Put now c key e).1 key).2 = Some (stored_form c e)
  else (Put now c key e).1 = c.
Proof.
  intros Hc Hg Hroom. destruct (acceptable c key e) eqn:Ea.
  2: { unfold acceptable in Ea. unfold Put.
       destruct ((0 <? c_maxEntryBytes c) && _); [done |].
       by destruct ((0 <? c_maxKeyLen c) && _). }
  intros Hlive. destruct (Put_refines now c key e Hc) as (sh1 & Hg1 & Hput).
  rewrite Hg in Hg1; injection Hg1 as <-. cbn [spec_step step] in Hput. rewrite Ea in Hput.
  destruct Hput as (Habs & _ & Hwf' & _). cbn [fst] in *. set (c' := (Put now c key e).1) in *.
  destruct (Get_refines clk c' key Hwf') as (sh' & Hg' & Hget). cbn [spec_step step] in Hget.
  assert (Hidx : shard_index c' key = shard_index c key).
  { unfold shard_index, c', Put. rewrite Hg. destruct (_ && _); [done |]. destruct (_ && _); [done |].
    cbn [fst]. destruct (putInShard_spec now c sh key
      match c_compressHeaders c, e_Header e, e_CompressedHeader e with
      | true, Some h, None => compress_header e h | _, _, _ => e end Hc Hg) as (s & (_ & Hm & _) & _).
    by rewrite Hm. }
  pose proof (abs_lookup c' key sh' Hg') as Hl. rewrite Habs, Hidx in Hl.
  rewrite list_lookup_insert_eq in Hl by (apply lookup_lt_Some with (shard_abs sh), abs_lookup, Hg).
  injection Hl as Hl. rewrite <- Hl in Hget.
  assert (Hfind : lru_find key (lru_put (sh_maxItems sh) (TinyLFU_Admit (c_lfu c) key) key
                    (stored_form c e) (shard_abs sh)) = Some (stored_form c e)).
  { assert (Hcons : forall l, lru_find key ((key, stored_form c e) :: l) = Some (stored_form c e)).
    { intros l. cbn. by rewrite decide_True. }
    unfold lru_put, lru_use. destruct (lru_find key (shard_abs sh)) eqn:Ef; [apply Hcons |].
    destruct (Z.leb_spec (sh_maxItems sh) (Z.of_nat (length (shard_abs sh)))); [| apply Hcons].
    destruct (last (shard_abs sh)) as [[vk vv] |] eqn:El; [| apply Hcons].
    destruct Hroom as [[] | [Hr | (victim & v & [= -> ->] & Had)]]; [done | lia |].
    rewrite Had. apply Hcons. }
  unfold spec_get in Hget. rewrite Hfind, Hlive in Hget. by destruct Hget as (_ & -> & _).
Qed.

(** An entry within the size limits, put under a key that is present, or whose shard
    has room, or that TinyLFU prefers to the shard's least recently used key, is what the
    next [Get] returns while it is alive. An entry over a limit changes nothing. *)
Theorem Put_then_Get now clk c key e sh :
  cache_wf c -> getShard c key = Some sh ->
  lru_find key (shard_abs sh) <> None \/ Z.of_nat (length (shard_abs sh)) < sh_maxItems sh \/
    (exists victim v, last (shard_abs sh) = Some (victim, v) /\
       TinyLFU_Admit (c_lfu c) key victim = true) ->
  if acceptable c key e
  then dead clk (stored_form c e) = false ->
       (Get clk (Put now c key e).1 key).2 = Some (stored_form c e)
  else (Put now c key e).1 = c.
Proof. apply Put_get. Qed.

(** A deleted key is gone from memory and from the disk. *)
Theorem Delete_then_Get clk c key : cache_wf c -> (Get clk (Delete c key) key).2 = None.
Proof.
  intros Hc. destruct (Delete_refines c key Hc) as (sh & Hg & Hdel).
  cbn [spec_step step] in Hdel. destruct Hdel as (Habs & _ & Hwf' & _). cbn [fst] in *.
  set (c' := Delete c key) in *.
  assert (Hrest : shard_index c' key = shard_index c key /\ disk_entry c' key = None).
  { unfold c', Delete. rewrite Hg. unfold deleteShard.
    assert (Hd : forall c1, shard_index (disk_remove c1 key) key = shard_index c1 key /\
      disk_entry (disk_remove c1 key) key = None).
    { intros c1. unfold disk_remove, disk_entry. destruct (useDisk c1) eqn:Eu; [| by rewrite Eu].
      split; [done |]. change (useDisk (with_disk _ c1)) with (useDisk c1). rewrite Eu.
      apply removeFromDisk_load. }
    destruct (shard_lookup sh key) as [[el v] |].
    - apply (Hd (set_shard c key (shard_Remove sh el key))).
    - apply (Hd c). }
  destruct Hrest as [Hidx Hdisk].
  destruct (Get_refines clk c' key Hwf') as (sh' & Hg' & Hget). cbn [spec_step step] in Hget.
  pose proof (abs_lookup c' key sh' Hg') as Hl. rewrite Habs, Hidx in Hl.
  rewrite list_lookup_insert_eq in Hl by (apply lookup_lt_Some with (shard_abs sh), abs_lookup, Hg).
  injection Hl as Hl. unfold spec_get in Hget. rewrite <- Hl, lru_find_remove, Hdisk in Hget.
  by destruct Hget as (_ & -> & _).
Qed.

End facts.

(** ** A concrete cache *)

Definition small_opts : Options :=
  {| o_MaxItems := 2; o_MaxEntryBytes := 0; o_MaxKeyLen := 0; o_DiskDir := "/var/cache";
     o_DiskMaxBytes := 0; o_NumShards := 0; o_CompressHeaders := true |}.

(** A cache of two shards of one item each, built by hand to keep the sketch small. *)
Definition tiny_cache : Cache :=
  {| c_shards := [newShard 1; newShard 1]; c_numShards := 2; c_shardMask := 1;
     c_maxEntryBytes := 1024; c_maxKeyLen := 64; c_diskDir := ""; c_diskMaxBytes := 0;
     c_disk := {| dt_files := ∅; dt_used := 0 |};
     c_stats := {| st_Hits := 0; st_Misses := 0; st_Evicts := 0; st_StaleHits := 0 |};
     c_lfu := {| tl_sketch := {| cms_rows := replicate 4 (replicate 4 0); cms_width := 4; cms_mask := 3 |};
                 tl_door := {| dk_bits := [0]; dk_n := 1; dk_mask := 63 |};
                 tl_counter := 0; tl_maxItems := 1000 |};
     c_compressHeaders := true |}.

#[local] Existing Instances poly_hash64 bits_codec plain_disk.

Lemma tiny_cache_wf : cache_wf tiny_cache.
Proof.
  assert (Hi : forall i sh, c_shards tiny_cache !! i = Some sh -> sh = newShard 1).
  { intros [| [| i]] sh; cbn; intros [= <-]; done. }
  split.
  - exists 1. split_and!; [lia | lia | done | done].
  - intros i sh ->%Hi. split; [apply newShard_wf; lia | cbn; lia].
  - intros i sh k ->%Hi. cbn. by intros [? ?%lookup_empty_Some].
Qed.

Lemma Cache_invariant_witness :
  exists c0, NewWithOptions true ∅ small_opts = Some c0 /\
    0 <= Len (run c0 [OpPut 0 "a" sample_entry; OpGet (fun _ => 0) "a"]) <= 2.
Proof.
  eexists. split; [reflexivity |].
  apply (Cache_invariant true ∅ small_opts); [cbn; unfold max_i64; lia | cbn; unfold max_i64; lia | reflexivity].
Defined.

Lemma Cache_refines_LRU_witness : refines_at tiny_cache (OpPut 5 "a" sample_entry) "a".
Proof. apply (Cache_refines_LRU tiny_cache (OpPut 5 "a" sample_entry)). apply tiny_cache_wf. Defined.

Lemma Get_accounting_witness :
  st_Misses (c_stats (Get (fun _ => 0) tiny_cache "a").1) = 1.
Proof.
  exact (proj1 (Get_accounting (fun _ => 0) tiny_cache "a" tiny_cache_wf)).
Defined.

Lemma Put_then_Get_witness :
  (Get (fun _ => 1200 * Second) (Put 5 tiny_cache "a" sample_entry).1 "a").2
  = Some (compress_header sample_entry sample_header).
Proof.
  refine (Put_then_Get 5 (fun _ => 1200 * Second) tiny_cache "a" sample_entry (newShard 1)
    tiny_cache_wf _ _ _); [vm_compute; reflexivity | right; left; cbn; lia | vm_compute; reflexivity].
Defined.

Lemma Delete_then_Get_witness :
  (Get (fun _ => 1200 * Second) (Delete (Put 5 tiny_cache "a" sample_entry).1 "a") "a").2 = None.
Proof.
  apply Delete_then_Get. apply (step_wf tiny_cache (OpPut 5 "a" sample_entry)), tiny_cache_wf.
Defined.
