(* ===== verification/Contents.v ===== *)
(** * What a cache holds

    Predicates on the pairs kept in memory, and how the operations of [Cache.v] keep
    them: the interface through which the handlers' safety theorems see the cache. A
    cache with a disk tier can bring back what an earlier process wrote, so these facts
    are about caches without one. *)

From S2P Require Import Prelude GoStrings TinyLFU Entry Shard Disk Cache.

Local Open Scope Z_scope.

Section contents.
Context `{Hash64} `{HeaderCodec} `{DiskWorld}.

(** The pair [(k, e)] is in memory. *)
Definition holds (c : Cache) (k : string) (e : Entry) : Prop :=
  exists l, l ∈ abs c /\ (k, e) ∈ l.

(** A well-formed cache without disk tier, every pair of which satisfies [P]. *)
Record keeps (P : string -> Entry -> Prop) (c : Cache) : Prop := {
  kp_wf : cache_wf c;
  kp_disk : useDisk c = false;
  kp_all : forall k e, holds c k e -> P k e
}.

Lemma elem_of_lru_put cap ad k v l x : x ∈ lru_put cap ad k v l -> x = (k, v) \/ x ∈ l.
Proof.
  unfold lru_put, lru_use, lru_remove. destruct (lru_find k l).
  { rewrite elem_of_cons, list_elem_of_filter. tauto. }
  destruct (_ <=? _); [| by rewrite elem_of_cons].
  destruct (last l) as [[victim w] |]; [| by rewrite elem_of_cons].
  destruct (ad victim); [| by right]. rewrite elem_of_cons, list_elem_of_filter. tauto.
Qed.

Lemma elem_of_lru_find k l v : lru_find k l = Some v -> (k, v) ∈ l.
Proof.
  induction l as [| [k' v'] l IH]; cbn; [done |]. rewrite elem_of_cons.
  destruct (decide (k' = k)) as [-> |]; [intros [= ->]; by left | right; auto].
Qed.

(** What an operation that refines its specification leaves in memory. *)
Lemma refines_holds c op key k e :
  refines_at c op key -> holds (step c op).1 k e ->
  holds c k e \/ exists sh, getShard c key = Some sh /\
    (k, e) ∈ (spec_step c op (sh_maxItems sh) (shard_abs sh)).1.
Proof.
  intros (sh & Hg & Hr) (l & Hl & Hin).
  destruct (spec_step c op (sh_maxItems sh) (shard_abs sh)) as [l' r] eqn:Es. destruct Hr as (Habs & _).
  rewrite Habs in Hl. apply list_elem_of_lookup in Hl as [i Hi].
  apply list_lookup_insert_Some in Hi as [(<- & <- & _) | [_ Hi]].
  - right. exists sh. by rewrite Es.
  - left. exists l. split; [by eapply list_elem_of_lookup_2 | done].
Qed.

Lemma shard_holds c key sh k e : getShard c key = Some sh -> (k, e) ∈ shard_abs sh -> holds c k e.
Proof. intros Hg Hin. exists (shard_abs sh). split; [| done]. by eapply list_elem_of_lookup_2, abs_lookup. Qed.

Lemma Get_useDisk clk c key : cache_wf c -> c_diskDir (Get clk c key).1 = c_diskDir c /\
  c_compressHeaders (Get clk c key).1 = c_compressHeaders c /\
  c_maxEntryBytes (Get clk c key).1 = c_maxEntryBytes c /\ c_maxKeyLen (Get clk c key).1 = c_maxKeyLen c.
Proof.
  intros Hc. unfold Get. set (c0 := with_lfu _ c). assert (Hc0 : cache_wf c0) by by apply with_lfu_wf.
  destruct (getShard c0 key) as [sh |] eqn:Eg; [| done].
  destruct (shard_lookup sh key) as [[e v] |].
  - destruct (Entry_IsExpired _ v); [| done]. destruct (Entry_IsStaleServable _ v); [done |].
    unfold disk_remove. by destruct (useDisk _).
  - destruct (if useDisk c0 then _ else None) as [v |]; [| done].
    destruct (Entry_IsExpired (clk 0%nat) v && _); [done |].
    destruct (putInShard_spec (clk 2%nat) c0 sh key v Hc0 Eg) as (s & (_ & _ & _ & E1 & E2 & E3 & _ & E4 & _) & _).
    destruct (Entry_IsExpired (clk 3%nat) v); cbn; rewrite E1, E2, E3, E4; done.
Qed.

Lemma Put_useDisk now c key e : cache_wf c -> c_diskDir (Put now c key e).1 = c_diskDir c /\
  c_compressHeaders (Put now c key e).1 = c_compressHeaders c /\
  c_maxEntryBytes (Put now c key e).1 = c_maxEntryBytes c /\ c_maxKeyLen (Put now c key e).1 = c_maxKeyLen c.
Proof.
  intros Hc. unfold Put. destruct (_ && _); [done |]. destruct (_ && _); [done |].
  destruct (getShard c key) as [sh |] eqn:Eg; [| done]. cbn [fst].
  match goal with |- context [putInShard now c sh key ?v] =>
    destruct (putInShard_spec now c sh key v Hc Eg) as (s & (_ & _ & _ & E1 & E2 & E3 & _ & E4 & _) & _) end.
  by rewrite E1, E2, E3, E4.
Qed.

(** [Put] hands back the entry as it was given, or with its header compressed. *)
Lemma Put_entry now c key e : (Put now c key e).2 = e \/ (Put now c key e).2 = stored_form c e.
Proof.
  unfold Put, stored_form. destruct (_ && _); [by left |]. destruct (_ && _); [by left |].
  right. by destruct (getShard c key).
Qed.

Lemma keeps_Get P clk c key : keeps P c ->
  keeps P (Get clk c key).1 /\ forall e, (Get clk c key).2 = Some e -> P key e.
Proof.
  intros [Hc Hd Ha]. pose proof (Get_refines clk c key Hc) as Hr.
  assert (Hde : disk_entry c key = None) by (unfold disk_entry; by rewrite Hd).
  split.
  - split.
    + by destruct Hr as (sh & _ & Hr); destruct (spec_step _ _ _ _); destruct Hr as (_ & _ & ? & _).
    + unfold useDisk in *. by rewrite (proj1 (Get_useDisk clk c key Hc)).
    + intros k e Hk. destruct (refines_holds c (OpGet clk key) key k e Hr Hk) as [| (sh & Hg & Hin)]; [auto |].
      apply Ha. apply (shard_holds c key sh); [done |]. cbn [spec_step] in Hin. unfold spec_get in Hin.
      rewrite Hde in Hin. destruct (lru_find key (shard_abs sh)) as [v |] eqn:Ef; [| done].
      destruct (dead clk v); cbn in Hin.
      * by apply list_elem_of_filter in Hin as [_ ?].
      * unfold lru_use, lru_remove in Hin. apply elem_of_cons in Hin as [[= -> ->] | Hin].
        -- by apply elem_of_lru_find.
        -- by apply list_elem_of_filter in Hin as [_ ?].
  - intros e He. destruct Hr as (sh & Hg & Hr). cbn [spec_step step] in Hr. unfold spec_get in Hr.
    rewrite Hde in Hr. apply Ha, (shard_holds c key sh); [done |]. apply elem_of_lru_find.
    destruct (lru_find key (shard_abs sh)) as [v |]; [destruct (dead clk v) |];
      destruct Hr as (_ & Hr & _); congruence.
Qed.

Lemma keeps_Put P now c key e : keeps P c -> P key (stored_form c e) ->
  keeps P (Put now c key e).1.
Proof.
  intros [Hc Hd Ha] HP. pose proof (Put_refines now c key e Hc) as Hr. split.
  - by destruct Hr as (sh & _ & Hr); destruct (spec_step _ _ _ _); destruct Hr as (_ & _ & ? & _).
  - unfold useDisk in *. by rewrite (proj1 (Put_useDisk now c key e Hc)).
  - intros k v Hk. destruct (refines_holds c (OpPut now key e) key k v Hr Hk) as [| (sh & Hg & Hin)]; [auto |].
    cbn [spec_step fst] in Hin. destruct (acceptable c key e).
    + apply elem_of_lru_put in Hin as [[= -> ->] | Hin]; [done |]. by apply Ha, (shard_holds c key sh).
    + by apply Ha, (shard_holds c key sh).
Qed.

Lemma keeps_impl (P Q : string -> Entry -> Prop) c : (forall k e, P k e -> Q k e) -> keeps P c -> keeps Q c.
Proof. intros HPQ [? ? ?]. split; auto. Qed.

(** Compressing the header does not change what the entry says. *)
Lemma stored_form_facts `{!HeaderCodecLaws} c e :
  Entry_GetHeader (stored_form c e) = Entry_GetHeader e /\ e_Body (stored_form c e) = e_Body e /\
  e_StatusCode (stored_form c e) = e_StatusCode e /\ e_TTL (stored_form c e) = e_TTL e /\
  e_StoredAt (stored_form c e) = e_StoredAt e /\ e_ETag (stored_form c e) = e_ETag e /\
  e_LastMod (stored_form c e) = e_LastMod e /\ e_StaleWhileRevalidate (stored_form c e) = e_StaleWhileRevalidate e.
Proof.
  unfold stored_form. destruct (c_compressHeaders c); [| done].
  destruct (e_Header e) as [h |] eqn:Eh; [| done]. destruct (e_CompressedHeader e); [done |].
  split; [| done]. rewrite compress_header_GetHeader. unfold Entry_GetHeader. by rewrite Eh.
Qed.

(** A [Put] under this key is not refused by the admission policy: the key is present, its
    shard has room, or the newcomer is preferred to the victim. *)
Definition has_room (c : Cache) (key : string) : Prop :=
  exists sh, getShard c key = Some sh /\
    (lru_find key (shard_abs sh) <> None \/ Z.of_nat (length (shard_abs sh)) < sh_maxItems sh \/
     exists victim v, last (shard_abs sh) = Some (victim, v) /\ TinyLFU_Admit (c_lfu c) key victim = true).

Lemma put_then_get now clk c key e :
  cache_wf c -> has_room c key -> acceptable c key e = true -> dead clk (stored_form c e) = false ->
  (Get clk (Put now c key e).1 key).2 = Some (stored_form c e).
Proof.
  intros Hc (sh & Hg & Hroom) Ha Hd. pose proof (Put_get now clk c key e sh Hc Hg Hroom) as Hp.
  rewrite Ha in Hp. by apply Hp.
Qed.

(** What was found in memory can be replaced. *)
Lemma Get_hit_room clk c key e :
  cache_wf c -> useDisk c = false -> (Get clk c key).2 = Some e -> has_room (Get clk c key).1 key.
Proof.
  intros Hc Hd He. destruct (Get_refines clk c key Hc) as (sh & Hg & Hr). cbn [spec_step step] in Hr.
  assert (Hde : disk_entry c key = None) by (unfold disk_entry; by rewrite Hd).
  unfold spec_get in Hr. rewrite Hde in Hr.
  destruct (lru_find key (shard_abs sh)) as [v |]; [destruct (dead clk v) |];
    destruct Hr as (Habs & Hr & Hwf & _); rewrite He in Hr; try done.
  destruct (getShard_total _ key Hwf) as [sh' Hg']. exists sh'. split; [done |]. left.
  pose proof (abs_lookup _ key sh' Hg') as Hl. rewrite Habs in Hl.
  assert (Hi : shard_index (Get clk c key).1 key = shard_index c key).
  { unfold shard_index. enough (c_shardMask (Get clk c key).1 = c_shardMask c) as -> by done.
    unfold Get. change (getShard (with_lfu _ c) key) with (getShard c key). rewrite Hg.
    destruct (shard_lookup sh key) as [[el w] |].
    - destruct (Entry_IsExpired _ w); [destruct (Entry_IsStaleServable _ w) |]; [done | | done].
      unfold disk_remove. by destruct (useDisk _).
    - change (useDisk (with_lfu _ c)) with (useDisk c). by rewrite Hd. }
  rewrite Hi, list_lookup_insert_eq in Hl by (apply lookup_lt_Some with (shard_abs sh), abs_lookup, Hg).
  injection Hl as <-. unfold lru_use. cbn. by rewrite decide_True.
Qed.

Lemma Get_wf clk c key : cache_wf c -> cache_wf (Get clk c key).1.
Proof. intros Hc. apply (step_wf c (OpGet clk key) Hc). Qed.

Lemma Put_wf now c key e : cache_wf c -> cache_wf (Put now c key e).1.
Proof. intros Hc. apply (step_wf c (OpPut now key e) Hc). Qed.

(** A new cache is empty. *)
Lemma New_keeps P mkdir_ok files opts c :
  o_MaxItems opts <= max_i64 -> o_NumShards opts <= max_i64 -> o_DiskDir opts = ""%string ->
  NewWithOptions mkdir_ok files opts = Some c -> keeps P c.
Proof.
  intros Hm Hn Hd E. destruct (NewWithOptions_spec mkdir_ok files opts c Hm Hn E) as [Hwf _].
  unfold NewWithOptions in E. rewrite Hd in E. destruct (shard_count opts) as [numShards mi].
  cbn in E. injection E as <-. split; [done | done |].
  intros k e (l & Hl & Hin). exfalso. unfold abs, make_shards in Hl; cbn [c_shards] in Hl.
  apply list_elem_of_In, in_map_iff in Hl as (sh & <- & Hsh). apply in_map_iff in Hsh as (x & <- & _).
  cbn in Hin. by apply not_elem_of_nil in Hin.
Qed.

End contents.
