(* ===== verification/Predictor.v ===== *)
(** * The uncacheable-URL predictor ([cache/predictor.go])

    Two buckets of saturating counters, swapped by [Rotate]. [hash/fnv] is computed
    as the standard library does. The methods are atomic here; [MarkUncacheable] runs
    concurrently with itself under the read lock, and the last section shows that its
    compare-and-swap loops, interleaved in any way, add up to the sequential
    increments. *)

From S2P Require Import Prelude GoStrings TinyLFU.

Local Open Scope Z_scope.
Local Open Scope go_scope.

Record Predictor := {
  p_bucket0 : list Z;
  p_bucket1 : list Z;
  p_bits : Z;
  p_mask : Z;
  p_active : Z;
  p_size : Z;
  p_decay : Duration;
  p_threshold : Z;
  p_hits : Z;
  p_misses : Z
}.

(** [for bits < target { bits <<= 1 }] on uint32; [None] when the fuel runs out. *)
Fixpoint grow_bits (fuel : nat) (bits target : Z) : option Z :=
  match fuel with
  | O => None
  | S fuel => if bits <? target then grow_bits fuel (u32 (Z.shiftl bits 1)) target else Some bits
  end.

(** The number of counters asked for, [uint32(capacity) * 8]. *)
Definition predictor_target (capacity : Z) : Z :=
  let capacity := if capacity <=? 0 then 1024 else capacity in
  u32 (u32 capacity * 8).

Definition NewPredictor (fuel : nat) (capacity : Z) (decay : Duration) : option Predictor :=
  bits ← grow_bits fuel 1 (predictor_target capacity);
  let bits := if bits <? 1024 then 1024 else bits in
  let capacity := if capacity <=? 0 then 1024 else capacity in
  Some {| p_bucket0 := replicate (Z.to_nat bits) 0; p_bucket1 := replicate (Z.to_nat bits) 0;
          p_bits := bits; p_mask := u32 (bits - 1); p_active := 0; p_size := u32 capacity;
          p_decay := decay; p_threshold := 2; p_hits := 0; p_misses := 0 |}.

(** [hash/fnv], FNV-1a on 64 bits. *)
Fixpoint fnv64a (s : string) (h : Z) : Z :=
  match s with
  | EmptyString => h
  | String c s => fnv64a s (Z.lxor h (code c) *u64 1099511628211)
  end.

Definition hashKey (p : Predictor) (key : string) : Z * Z :=
  let sum := fnv64a key 14695981039346656037 in
  let h1 := Z.land (u32 sum) (p_mask p) in
  let h2 := Z.land (u32 (Z.shiftr sum 32)) (p_mask p) in
  (h1, if h1 =? h2 then Z.land (u32 (h2 + 1)) (p_mask p) else h2).

Definition counterMax : Z := 255.

(** The compare-and-swap loop on one counter, run alone. *)
Definition sat_inc (bucket : list Z) (h : Z) : list Z :=
  let old := at_ bucket h in
  if counterMax <=? old then bucket else <[Z.to_nat h := u32 (old + 1)]> bucket.

(** [p.buckets[i]] and the assignment to it. *)
Definition bucket (p : Predictor) (i : Z) : list Z := if i =? 0 then p_bucket0 p else p_bucket1 p.
Definition set_bucket (p : Predictor) (i : Z) (b : list Z) : Predictor :=
  {| p_bucket0 := if i =? 0 then b else p_bucket0 p; p_bucket1 := if i =? 0 then p_bucket1 p else b;
     p_bits := p_bits p; p_mask := p_mask p; p_active := p_active p; p_size := p_size p;
     p_decay := p_decay p; p_threshold := p_threshold p; p_hits := p_hits p; p_misses := p_misses p |}.

Definition MarkUncacheable (p : Predictor) (key : string) : Predictor :=
  let '(h1, h2) := hashKey p key in
  set_bucket p (p_active p) (sat_inc (sat_inc (bucket p (p_active p)) h1) h2).

Definition IsLikelyUncacheable (p : Predictor) (key : string) : Predictor * bool :=
  let '(h1, h2) := hashKey p key in
  let idx := p_active p in
  let active := bucket p idx in
  let shadow := bucket p (Z.lxor idx 1) in
  let c1a := at_ active h1 in let c1b := at_ shadow h1 in
  let c2a := at_ active h2 in let c2b := at_ shadow h2 in
  let c1 := if c1a <? c1b then c1b else c1a in
  let c2 := if c2a <? c2b then c2b else c2a in
  let b := (p_threshold p <=? c1) && (p_threshold p <=? c2) in
  ({| p_bucket0 := p_bucket0 p; p_bucket1 := p_bucket1 p; p_bits := p_bits p; p_mask := p_mask p;
      p_active := p_active p; p_size := p_size p; p_decay := p_decay p; p_threshold := p_threshold p;
      p_hits := if b then p_hits p +u64 1 else p_hits p;
      p_misses := if b then p_misses p else p_misses p +u64 1 |}, b).

Definition Rotate (p : Predictor) : Predictor :=
  let next := Z.lxor (p_active p) 1 in
  let p := set_bucket p next (map (fun _ => 0) (bucket p next)) in
  {| p_bucket0 := p_bucket0 p; p_bucket1 := p_bucket1 p; p_bits := p_bits p; p_mask := p_mask p;
     p_active := next; p_size := p_size p; p_decay := p_decay p; p_threshold := p_threshold p;
     p_hits := p_hits p; p_misses := p_misses p |}.

(** [StartDecay]; [None] would be the panic of [time.NewTicker], which the guard excludes. *)
Definition StartDecay (events : list (tick unit)) (p : Predictor) : option Predictor :=
  if p_decay p <=? 0 then Some p
  else _ ← NewTicker (p_decay p); Some (ticker_loop (fun _ => Rotate) events p).

(** [Predictor.Stats] *)
Definition Predictor_Stats (p : Predictor) : Z * Z := (p_hits p, p_misses p).

(** ** Construction *)

Lemma grow_bits_pow2 n target fuel :
  0 <= n -> 2 ^ n <= 2 ^ 31 -> target <= 2 ^ 31 -> (31 - Z.to_nat n < fuel)%nat ->
  exists m, n <= m <= 31 /\ grow_bits fuel (2 ^ n) target = Some (2 ^ m) /\ target <= 2 ^ m.
Proof.
  revert n. induction fuel as [| fuel IH]; intros n Hn Hle Ht Hf; [lia |]. cbn [grow_bits].
  assert (Hn31 : n <= 31) by (apply (Z.pow_le_mono_r_iff 2); lia).
  destruct (Z.ltb_spec (2 ^ n) target) as [Hlt | Hge]; [| exists n; split_and!; done || lia].
  assert (n < 31) by (apply (Z.pow_lt_mono_r_iff 2); lia).
  assert (Hnext : u32 (Z.shiftl (2 ^ n) 1) = 2 ^ (n + 1)).
  { rewrite Z.shiftl_mul_pow2, Z.pow_add_r by lia. unfold u32. change (2 ^ 1) with 2.
    apply Z.mod_small. split; [lia |]. change (2 ^ 32) with (2 ^ 31 * 2).
    assert (2 ^ n < 2 ^ 31) by (apply Z.pow_lt_mono_r; lia). lia. }
  rewrite Hnext. destruct (IH (n + 1)) as (m & Hm & -> & Htm); try lia.
  { apply Z.pow_le_mono_r; lia. }
  exists m. split_and!; try lia; done.
Qed.

(** Past [2^31] the doubling wraps to 0 and never reaches the target. *)
Lemma grow_bits_zero fuel target : 0 < target -> grow_bits fuel 0 target = None.
Proof.
  intros Ht. induction fuel as [| fuel IH]; [done |]. cbn [grow_bits].
  rewrite (proj2 (Z.ltb_lt 0 target) Ht). exact IH.
Qed.

Lemma grow_bits_diverges n fuel target :
  0 <= n <= 31 -> 2 ^ 31 < target -> grow_bits fuel (2 ^ n) target = None.
Proof.
  revert n. induction fuel as [| fuel IH]; intros n Hn Ht; [done |]. cbn [grow_bits].
  assert (2 ^ n <= 2 ^ 31) by (apply Z.pow_le_mono_r; lia).
  rewrite (proj2 (Z.ltb_lt (2 ^ n) target)) by lia.
  assert (Hsh : Z.shiftl (2 ^ n) 1 = 2 ^ (n + 1)).
  { rewrite Z.shiftl_mul_pow2 by lia. rewrite Z.pow_add_r by lia. done. }
  rewrite Hsh. destruct (Z.eq_dec n 31) as [-> | Hne].
  - change (u32 (2 ^ (31 + 1))) with 0. apply grow_bits_zero. lia.
  - unfold u32. rewrite Z.mod_small; [apply IH; lia |]. split; [lia | apply Z.pow_lt_mono_r; lia].
Qed.

Record predictor_wf (p : Predictor) : Prop := {
  pw_size : exists k, 10 <= k <= 31 /\ p_bits p = 2 ^ k /\ p_mask p = 2 ^ k - 1;
  pw_len : forall i, length (bucket p i) = Z.to_nat (p_bits p);
  pw_u8 : forall i, Forall in_u8 (bucket p i);
  pw_active : p_active p = 0 \/ p_active p = 1;
  pw_threshold : p_threshold p = 2
}.

Lemma pow2_le k : 10 <= k <= 31 -> 1024 <= 2 ^ k <= 2 ^ 31.
Proof. intros Hk. split; [change 1024 with (2 ^ 10) |]; apply Z.pow_le_mono_r; lia. Qed.

Lemma NewPredictor_wf fuel capacity decay p :
  (32 <= fuel)%nat -> predictor_target capacity <= 2 ^ 31 ->
  NewPredictor fuel capacity decay = Some p ->
  predictor_wf p /\ bucket p 0 = replicate (Z.to_nat (p_bits p)) 0 /\
  bucket p 1 = replicate (Z.to_nat (p_bits p)) 0 /\ predictor_target capacity <= p_bits p.
Proof.
  intros Hf Ht. unfold NewPredictor.
  destruct (grow_bits_pow2 0 (predictor_target capacity) fuel) as (m & Hm & Hg & Hle); try lia.
  change (2 ^ 0) with 1 in Hg. rewrite Hg. cbn [mbind option_bind]. intros [= <-].
  assert (Hk : exists k, 10 <= k <= 31 /\ (if 2 ^ m <? 1024 then 1024 else 2 ^ m) = 2 ^ k /\
    predictor_target capacity <= 2 ^ k).
  { destruct (Z.ltb_spec (2 ^ m) 1024) as [Hlt | Hge].
    - exists 10. split_and!; [lia | lia | done | change (2 ^ 10) with 1024; lia].
    - exists m. split_and!; try done; try lia. change 1024 with (2 ^ 10) in Hge.
      apply (Z.pow_le_mono_r_iff 2) in Hge; lia. }
  destruct Hk as (k & Hk & -> & Htk). pose proof (pow2_le k Hk).
  assert (Hu : Forall in_u8 (replicate (Z.to_nat (2 ^ k)) 0)).
  { apply Forall_replicate. unfold in_u8. lia. }
  split; [split; cbn | done].
  - exists k. split_and!; [lia | lia | done |]. unfold u32. rewrite Z.mod_small; lia.
  - intros i. unfold bucket; cbn. zbool; apply length_replicate.
  - intros i. unfold bucket; cbn. by destruct (i =? 0).
  - by left.
  - done.
Qed.

(** Both positions are inside the buckets, and they differ. *)
Lemma hashKey_bound p key :
  predictor_wf p ->
  0 <= (hashKey p key).1 < p_bits p /\ 0 <= (hashKey p key).2 < p_bits p /\
  (hashKey p key).1 <> (hashKey p key).2.
Proof.
  intros [(k & Hk & Hb & Hm) _ _ _ _]. unfold hashKey; cbn [fst snd]. rewrite Hm, Hb.
  pose proof (pow2_le k Hk) as Hp.
  set (a := Z.land (u32 (fnv64a key _)) (2 ^ k - 1)).
  set (b := Z.land (u32 (Z.shiftr _ 32)) (2 ^ k - 1)).
  assert (Ha : 0 <= a < 2 ^ k) by (apply land_mask_bound; lia).
  assert (Hbb : 0 <= b < 2 ^ k) by (apply land_mask_bound; lia).
  split; [done |]. destruct (Z.eqb_spec a b) as [E | Hne]; [| done].
  split; [apply land_mask_bound; lia |]. rewrite <- E.
  rewrite land_mask by lia. unfold u32. rewrite (Z.mod_small (a + 1)) by lia.
  destruct (Z.eq_dec (a + 1) (2 ^ k)) as [E2 | Hn]; [rewrite E2, Z.mod_same; lia |].
  rewrite Z.mod_small; lia.
Qed.

Lemma sat_inc_bump b h :
  0 <= h < Z.of_nat (length b) -> Forall in_u8 b -> sat_inc b h = bump b h.
Proof.
  intros Hh Hu. pose proof (at_in_u8 b h Hh Hu) as Ha. unfold sat_inc, bump, counterMax, in_u8 in *.
  destruct (Z.leb_spec 255 (at_ b h)); destruct (Z.ltb_spec (at_ b h) 255); try lia; [done |].
  unfold u32. rewrite Z.mod_small; [done | lia].
Qed.

Lemma bucket_set_eq p b : p_active p = 0 \/ p_active p = 1 ->
  bucket (set_bucket p (p_active p) b) (p_active p) = b /\
  bucket (set_bucket p (p_active p) b) (Z.lxor (p_active p) 1) = bucket p (Z.lxor (p_active p) 1).
Proof. by intros [-> | ->]. Qed.

(** What [MarkUncacheable] does to the two buckets. *)
Lemma Mark_spec p key :
  predictor_wf p ->
  let '(h1, h2) := hashKey p key in
  bucket (MarkUncacheable p key) (p_active p) = bump (bump (bucket p (p_active p)) h1) h2 /\
  bucket (MarkUncacheable p key) (Z.lxor (p_active p) 1) = bucket p (Z.lxor (p_active p) 1) /\
  predictor_wf (MarkUncacheable p key) /\ p_active (MarkUncacheable p key) = p_active p /\
  p_mask (MarkUncacheable p key) = p_mask p /\ p_bits (MarkUncacheable p key) = p_bits p.
Proof.
  intros Hwf. pose proof (hashKey_bound p key Hwf) as (H1 & H2 & _). unfold MarkUncacheable.
  destruct (hashKey p key) as [h1 h2]; cbn [fst snd] in *.
  pose proof (pw_u8 p Hwf (p_active p)) as Hu. pose proof (pw_len p Hwf (p_active p)) as Hl.
  destruct (pw_size p Hwf) as (k & Hk & Hb & _). pose proof (pow2_le k Hk).
  rewrite (sat_inc_bump _ h1) by (try done; lia).
  rewrite sat_inc_bump; [| rewrite length_bump; lia | apply bump_u8; [lia | done]].
  destruct (bucket_set_eq p (bump (bump (bucket p (p_active p)) h1) h2) (pw_active p Hwf)) as [-> ->].
  split_and!; try done. split; try by destruct Hwf.
  - intros i. assert (Hbl : length (bump (bump (bucket p (p_active p)) h1) h2) = Z.to_nat (p_bits p)).
    { by rewrite !length_bump. }
    pose proof (pw_len p Hwf i) as Hi. unfold bucket, set_bucket in *; cbn.
    by destruct (i =? 0), (p_active p =? 0).
  - intros i. assert (Hbb : Forall in_u8 (bump (bump (bucket p (p_active p)) h1) h2)).
    { apply bump_u8; [rewrite length_bump; lia |]. apply bump_u8; [lia | done]. }
    pose proof (pw_u8 p Hwf i) as Hi. unfold bucket, set_bucket in *; cbn.
    by destruct (i =? 0), (p_active p =? 0).
Qed.

Lemma Rotate_spec p :
  predictor_wf p ->
  bucket (Rotate p) (p_active (Rotate p)) = map (fun _ => 0) (bucket p (Z.lxor (p_active p) 1)) /\
  bucket (Rotate p) (Z.lxor (p_active (Rotate p)) 1) = bucket p (p_active p) /\
  predictor_wf (Rotate p) /\ p_mask (Rotate p) = p_mask p /\ p_bits (Rotate p) = p_bits p.
Proof.
  intros Hwf. pose proof (pw_len p Hwf) as Hl. pose proof (pw_u8 p Hwf) as Hu.
  assert (Hz : forall b : list Z, Forall in_u8 (map (fun _ => 0) b)).
  { intros b. apply Forall_fmap, Forall_true. intros x. unfold in_u8; cbn. lia. }
  split_and!; try (by destruct (pw_active p Hwf) as [E | E]; unfold Rotate; rewrite E).
  destruct Hwf as [Hs _ _ Ha Ht]. split; try done.
  - intros i. specialize (Hl i). unfold Rotate, bucket, set_bucket in *; cbn.
    destruct Ha as [Ha | Ha]; rewrite Ha; change (Z.lxor 0 1) with 1;
      change (Z.lxor 1 1) with 0; cbn; destruct (i =? 0); by rewrite ?length_map.
  - intros i. specialize (Hu i). unfold Rotate, bucket, set_bucket in *; cbn.
    destruct Ha as [Ha | Ha]; rewrite Ha; change (Z.lxor 0 1) with 1;
      change (Z.lxor 1 1) with 0; cbn; destruct (i =? 0); done || apply Hz.
  - unfold Rotate; cbn. destruct Ha as [-> | ->]; cbn; tauto.
Qed.

(** ** Decay *)

(** Nothing is marked in either bucket. *)
Definition forgotten (p : Predictor) : Prop := forall i, at_ (p_bucket0 p) i = 0 /\ at_ (p_bucket1 p) i = 0.

Lemma at_zeros (b : list Z) i : at_ (map (fun _ => 0) b) i = 0.
Proof.
  unfold at_. change (map ?f b) with (f <$> b). rewrite list_lookup_fmap.
  by destruct (b !! Z.to_nat i).
Qed.

Lemma Rotate_wf p : predictor_wf p -> predictor_wf (Rotate p).
Proof. intros Hwf. apply (Rotate_spec p Hwf). Qed.

Lemma Rotate_Rotate p : predictor_wf p -> forgotten (Rotate (Rotate p)).
Proof.
  intros Hwf i. unfold Rotate, set_bucket, bucket. destruct (pw_active p Hwf) as [E | E]; rewrite E; cbn; split; apply at_zeros.
Qed.

Lemma forgotten_Rotate p : forgotten p -> forgotten (Rotate p).
Proof.
  intros Hf i. destruct (Hf i) as [H0 H1]. unfold Rotate, set_bucket, bucket; cbn.
  destruct (_ =? 0); split; rewrite ?at_zeros; done.
Qed.

Lemma forgotten_answers p key : p_threshold p = 2 -> forgotten p -> (IsLikelyUncacheable p key).2 = false.
Proof.
  intros Ht Hf. unfold IsLikelyUncacheable. destruct (hashKey p key) as [h1 h2]. cbn [snd]. rewrite Ht.
  assert (Hb : forall i j, at_ (bucket p i) j = 0) by (intros i j; unfold bucket; destruct (i =? 0); apply Hf).
  by rewrite !Hb.
Qed.

(** The decay worker forgets: with a positive interval it does not panic, and after two of
    its ticks nothing marked before is reported any more; with an interval of zero or less
    it returns at once and a marked URL stays marked. *)
Theorem StartDecay_forgets events p :
  predictor_wf p ->
  (0 < p_decay p -> (2 <= length (ticks events))%nat ->
     exists p', StartDecay events p = Some p' /\ predictor_wf p' /\ forall key, (IsLikelyUncacheable p' key).2 = false) /\
  (p_decay p <= 0 -> StartDecay events p = Some p).
Proof.
  intros Hwf. unfold StartDecay. split; intros Hd; [| by rewrite (proj2 (Z.leb_le _ _) Hd)].
  intros Ht. rewrite (proj2 (Z.leb_gt _ _) Hd). unfold NewTicker. rewrite (proj2 (Z.ltb_lt _ _) Hd). cbn.
  eexists. split; [done |]. rewrite ticker_loop_ticks. destruct (ticks events) as [| [] [| [] l]]; cbn in Ht; try lia. cbn [foldl].
  destruct (foldl_invariant (fun p => predictor_wf p /\ forgotten p) (fun p _ => Rotate p) l (Rotate (Rotate p))) as [Hw Hf].
  - intros q _ _ [Hw Hf]. split; [by apply Rotate_wf | by apply forgotten_Rotate].
  - split; [by do 2 apply Rotate_wf | by apply Rotate_Rotate].
  - split; [done |]. intros key. apply forgotten_answers; [by apply pw_threshold | done].
Qed.

(** ** The sliding window *)

Inductive POp := PMark (key : string) | PRotate | PQuery (key : string).

Definition p_step (p : Predictor) (op : POp) : Predictor :=
  match op with
  | PMark key => MarkUncacheable p key
  | PRotate => Rotate p
  | PQuery key => (IsLikelyUncacheable p key).1
  end.

(** The exact counts the filter approximates: the marks of one key, and of all keys, in
    the current interval and in the one before it. *)
Record window := { w_cur : Z; w_prev : Z; w_any : Z; w_any_prev : Z }.

Definition win_step (key : string) (w : window) (op : POp) : window :=
  match op with
  | PMark key' =>
      {| w_cur := if String.eqb key' key then w_cur w + 1 else w_cur w; w_prev := w_prev w;
         w_any := w_any w + 1; w_any_prev := w_any_prev w |}
  | PRotate => {| w_cur := 0; w_prev := w_cur w; w_any := 0; w_any_prev := w_any w |}
  | PQuery _ => w
  end.

Definition win_run (key : string) (ops : list POp) : window :=
  foldl (win_step key) {| w_cur := 0; w_prev := 0; w_any := 0; w_any_prev := 0 |} ops.

(** One bucket against its counts. *)
Definition covers (b : list Z) (h1 h2 own any : Z) : Prop :=
  Z.min 255 own <= at_ b h1 /\ Z.min 255 own <= at_ b h2 /\ forall i, at_ b i <= Z.max 0 any.

Definition win_sim (key : string) (p : Predictor) (w : window) : Prop :=
  predictor_wf p /\ 0 <= w_cur w /\ 0 <= w_prev w /\ 0 <= w_any w /\ 0 <= w_any_prev w /\
  let '(h1, h2) := hashKey p key in
  covers (bucket p (p_active p)) h1 h2 (w_cur w) (w_any w) /\
  covers (bucket p (Z.lxor (p_active p) 1)) h1 h2 (w_prev w) (w_any_prev w).

Lemma hashKey_mask p p' key : p_mask p' = p_mask p -> hashKey p' key = hashKey p key.
Proof. intros E. unfold hashKey. by rewrite E. Qed.

Lemma at_bump_le b h i : 0 <= h -> 0 <= i -> at_ (bump b h) i <= if i =? h then at_ b i + 1 else at_ b i.
Proof.
  intros Hh Hi. unfold bump. destruct (_ <? _); [| zbool; lia].
  destruct (Z.eqb_spec i h) as [-> | Hne]; [| rewrite at_insert_ne by lia; lia].
  destruct (Z.lt_ge_cases h (Z.of_nat (length b))); [rewrite at_insert_eq; lia |].
  rewrite list_insert_ge by lia. lia.
Qed.

Lemma at_neg b i : i < 0 -> at_ b i = at_ b 0.
Proof. intros Hi. unfold at_. by replace (Z.to_nat i) with (Z.to_nat 0) by lia. Qed.

(** Two bumps at different positions cover one more mark. *)
Lemma covers_mark b x1 x2 h1 h2 own any own' :
  0 <= x1 < Z.of_nat (length b) -> 0 <= x2 < Z.of_nat (length b) -> x1 <> x2 -> 0 <= h1 -> 0 <= h2 ->
  0 <= any -> (own' = own \/ own' = own + 1 /\ x1 = h1 /\ x2 = h2) ->
  covers b h1 h2 own any -> covers (bump (bump b x1) x2) h1 h2 own' (any + 1).
Proof.
  intros Hx1 Hx2 Hne Hh1 Hh2 Hany Hown (H1 & H2 & Hall).
  assert (Hlen : 0 <= x2 < Z.of_nat (length (bump b x1))) by (rewrite length_bump; lia).
  pose proof (bump_ge b x1 h1 ltac:(lia) Hh1). pose proof (bump_ge b x1 h2 ltac:(lia) Hh2).
  pose proof (bump_ge (bump b x1) x2 h1 ltac:(lia) Hh1).
  pose proof (bump_ge (bump b x1) x2 h2 ltac:(lia) Hh2).
  pose proof (bump_eq b x1 Hx1). pose proof (bump_eq (bump b x1) x2 Hlen).
  split_and!.
  - destruct Hown as [-> | (-> & -> & ->)]; lia.
  - destruct Hown as [-> | (-> & -> & ->)]; lia.
  - assert (Hpos : forall i, 0 <= i -> at_ (bump (bump b x1) x2) i <= Z.max 0 (any + 1)).
    { intros i Hi. pose proof (at_bump_le (bump b x1) x2 i ltac:(lia) Hi) as Ha.
      pose proof (at_bump_le b x1 i ltac:(lia) Hi) as Hb. specialize (Hall i). zbool; lia. }
    intros i. destruct (Z.lt_ge_cases i 0); [rewrite at_neg by done; by apply Hpos | by apply Hpos].
Qed.

Lemma covers_zero (b : list Z) h1 h2 : covers (map (fun _ => 0) b) h1 h2 0 0.
Proof. unfold covers. split_and!; intros; rewrite ?at_zeros; lia. Qed.

Lemma IsLikely_wf p key : predictor_wf p -> predictor_wf (IsLikelyUncacheable p key).1.
Proof. unfold IsLikelyUncacheable. destruct (hashKey p key). by intros [? ? ? ? ?]. Qed.

Lemma win_sim_step key p w op : win_sim key p w -> win_sim key (p_step p op) (win_step key w op).
Proof.
  intros (Hwf & Hc & Hp & Ha & Hap & Hsim). destruct op as [k | | k]; cbn [p_step win_step].
  - pose proof (Mark_spec p k Hwf) as Hm. pose proof (hashKey_bound p k Hwf) as (B1 & B2 & Bne).
    pose proof (hashKey_bound p key Hwf) as (K1 & K2 & _).
    destruct (hashKey p k) as [x1 x2] eqn:Ex. destruct (hashKey p key) as [h1 h2] eqn:Eh.
    destruct Hm as (Hact & Hsh & Hwf' & Hactive & Hmask & Hbits). cbn [fst snd] in *.
    unfold win_sim; cbn [w_cur w_prev w_any w_any_prev]. rewrite (hashKey_mask p) by done.
    rewrite Eh, Hactive, Hact, Hsh. destruct Hsim as [Hs1 Hs2].
    pose proof (pw_len p Hwf (p_active p)) as Hl.
    split_and!; try done; try lia; [destruct (String.eqb k key); lia | ].
    apply (covers_mark _ x1 x2 h1 h2 (w_cur w)); try done; try lia.
    destruct (String.eqb_spec k key) as [-> | _]; [right | by left].
    split; [done |]. rewrite Eh in Ex. by simplify_eq.
  - destruct (Rotate_spec p Hwf) as (Hact & Hsh & Hwf' & Hmask & _).
    unfold win_sim; cbn [w_cur w_prev w_any w_any_prev]. rewrite (hashKey_mask p) by done.
    rewrite Hact, Hsh. destruct (hashKey p key) as [h1 h2]. destruct Hsim as [Hs1 _].
    split_and!; try done; try lia. apply covers_zero.
  - pose proof (IsLikely_wf p k Hwf) as Hwf'. unfold win_sim, IsLikelyUncacheable in *.
    by destruct (hashKey p k).
Qed.

Lemma win_sim_run key ops p w :
  win_sim key p w -> win_sim key (foldl p_step p ops) (foldl (win_step key) w ops).
Proof.
  revert p w. induction ops as [| op ops IH]; intros p w Hs; [done |]. by apply IH, win_sim_step.
Qed.

Lemma win_sim_init key fuel capacity decay p :
  (32 <= fuel)%nat -> predictor_target capacity <= 2 ^ 31 ->
  NewPredictor fuel capacity decay = Some p ->
  win_sim key p {| w_cur := 0; w_prev := 0; w_any := 0; w_any_prev := 0 |}.
Proof.
  intros Hf Ht Hn. destruct (NewPredictor_wf fuel capacity decay p Hf Ht Hn) as (Hwf & H0 & H1 & _).
  unfold NewPredictor in Hn. destruct (grow_bits _ _ _); [| done]. cbn in Hn. injection Hn as <-.
  split; [done |]. cbn [w_cur w_prev w_any w_any_prev]. split_and!; try lia.
  destruct (hashKey _ key) as [h1 h2]. cbn [p_active] in *. change (Z.lxor 0 1) with 1. rewrite H0, H1.
  assert (Hz : forall n, replicate n 0 = map (fun _ => 0) (replicate n 0)).
  { intros n. induction n; cbn; congruence. }
  rewrite Hz. split; apply covers_zero.
Qed.

(** C38: After any sequence of marks, rotations and queries, a URL marked twice since the
    last rotation, or twice in the interval before it, is reported uncacheable; and no
    URL is reported unless one of these two intervals saw at least two marks. *)
Theorem Predictor_sliding_window fuel capacity decay p0 ops key :
  (32 <= fuel)%nat -> predictor_target capacity <= 2 ^ 31 ->
  NewPredictor fuel capacity decay = Some p0 ->
  let w := win_run key ops in
  let likely := (IsLikelyUncacheable (foldl p_step p0 ops) key).2 in
  (2 <= w_cur w \/ 2 <= w_prev w -> likely = true) /\
  (likely = true -> 2 <= w_any w \/ 2 <= w_any_prev w).
Proof.
  intros Hf Ht Hn w likely.
  pose proof (win_sim_run key ops p0 _ (win_sim_init key fuel capacity decay p0 Hf Ht Hn)) as Hs.
  fold (win_run key ops) in Hs. fold w in Hs. subst likely. set (p := foldl p_step p0 ops) in *.
  destruct Hs as (Hwf & Hc & Hp & Ha & Hap & Hsim). unfold IsLikelyUncacheable.
  rewrite (pw_threshold p Hwf). destruct (hashKey p key) as [h1 h2]. cbn [snd].
  destruct Hsim as [(A1 & A2 & A3) (S1 & S2 & S3)].
  pose proof (A3 h1). pose proof (S3 h1). split.
  - intros [Hw | Hw]; zbool; cbn; done || lia.
  - zbool; cbn; intros Hl; done || lia.
Qed.

(** [NewPredictor] returns when the requested size fits, with a power of two of
    counters no smaller than 1024 and the request; past [2^31] counters its doubling loop
    wraps to zero and never ends. *)
Theorem NewPredictor_termination capacity decay :
  (predictor_target capacity <= 2 ^ 31 ->
     exists p, NewPredictor 32 capacity decay = Some p /\ predictor_wf p /\
       Z.max 1024 (predictor_target capacity) <= p_bits p) /\
  (2 ^ 31 < predictor_target capacity -> forall fuel, NewPredictor fuel capacity decay = None).
Proof.
  split.
  - intros Ht. destruct (grow_bits_pow2 0 (predictor_target capacity) 32) as (m & Hm & Hg & _); try lia.
    destruct (NewPredictor 32 capacity decay) as [p |] eqn:Hn.
    + exists p. destruct (NewPredictor_wf 32 capacity decay p ltac:(lia) Ht Hn) as (Hwf & _ & _ & Hle).
      split_and!; try done. destruct (pw_size p Hwf) as (k & Hk & Hb & _).
      pose proof (pow2_le k Hk). lia.
    + unfold NewPredictor in Hn. change 1 with (2 ^ 0) in Hn. rewrite Hg in Hn. discriminate Hn.
  - intros Ht fuel. unfold NewPredictor. change 1 with (2 ^ 0). rewrite grow_bits_diverges; [done | lia | done].
Qed.

(** ** Concurrent marks *)

(** Where a goroutine stands in one of the compare-and-swap loops of [MarkUncacheable]. *)
Inductive cas_pc := AtLoad | AtCas (old : Z) | CasDone.

Inductive cas_step : Z * list cas_pc -> Z * list cas_pc -> Prop :=
  | cas_load_saturated c l i :
      l !! i = Some AtLoad -> counterMax <= c -> cas_step (c, l) (c, <[i := CasDone]> l)
  | cas_load c l i :
      l !! i = Some AtLoad -> c < counterMax -> cas_step (c, l) (c, <[i := AtCas c]> l)
  | cas_ok c l i :
      l !! i = Some (AtCas c) -> cas_step (c, l) (u32 (c + 1), <[i := CasDone]> l)
  | cas_retry c l i old :
      l !! i = Some (AtCas old) -> old <> c -> cas_step (c, l) (c, <[i := AtLoad]> l).

Definition done_count (l : list cas_pc) : Z :=
  foldr (fun pc n => match pc with CasDone => n + 1 | _ => n end) 0 l.

Lemma done_count_insert l i pc pc' :
  l !! i = Some pc ->
  done_count (<[i := pc']> l) = done_count l
    - match pc with CasDone => 1 | _ => 0 end + match pc' with CasDone => 1 | _ => 0 end.
Proof.
  revert i. induction l as [| x l IH]; intros i Hi; [done |]. destruct i as [| i].
  - injection Hi as ->. unfold done_count; cbn. destruct pc, pc'; lia.
  - specialize (IH i Hi). change (<[S i := pc']> (x :: l)) with (x :: <[i := pc']> l).
    unfold done_count in *. cbn [foldr]. destruct x; lia.
Qed.

Lemma cas_invariant c0 s s' :
  0 <= c0 <= counterMax -> 0 <= done_count s.2 ->
  (s.1 = Z.min counterMax (c0 + done_count s.2) /\ Forall (fun pc => forall o, pc = AtCas o -> 0 <= o < counterMax) s.2) ->
  cas_step s s' ->
  0 <= done_count s'.2 /\
  (s'.1 = Z.min counterMax (c0 + done_count s'.2) /\ Forall (fun pc => forall o, pc = AtCas o -> 0 <= o < counterMax) s'.2).
Proof.
  unfold counterMax. intros Hc0 Hd (Hc & Hall) Hs.
  destruct Hs as [c l i Hi Hle | c l i Hi Hlt | c l i Hi | c l i old Hi Hne]; cbn [fst snd] in *;
    rewrite (done_count_insert _ _ _ _ Hi).
  - split_and!; [lia | unfold counterMax in *; lia | by apply Forall_insert].
  - split_and!; [lia | lia |]. apply Forall_insert; [done |]. intros o [= <-].
    unfold counterMax in *. lia.
  - pose proof (Forall_lookup_1 _ _ _ _ Hall Hi c eq_refl).
    split_and!; [lia | unfold u32; rewrite Z.mod_small; lia | by apply Forall_insert].
  - split_and!; [lia | lia | by apply Forall_insert].
Qed.

(** However the compare-and-swap loops of concurrent [MarkUncacheable] calls on one
    counter interleave, no increment is lost and none is counted twice: with [n] calls
    all finished, the counter has grown by [n], up to its cap. *)
Theorem concurrent_marks c0 n c l :
  0 <= c0 <= counterMax ->
  rtc cas_step (c0, replicate n AtLoad) (c, l) ->
  Forall (eq CasDone) l -> length l = n /\ c = Z.min counterMax (c0 + Z.of_nat n).
Proof.
  intros Hc0 Hr Hl.
  set (P := fun s : Z * list cas_pc => length s.2 = n /\ 0 <= done_count s.2 /\
    s.1 = Z.min counterMax (c0 + done_count s.2) /\
    Forall (fun pc => forall o, pc = AtCas o -> 0 <= o < counterMax) s.2).
  assert (Hinv : P (c, l)).
  { apply (rtc_invariant cas_step P (c0, replicate n AtLoad)); [| | done].
    - assert (Hz : forall m, done_count (replicate m AtLoad) = 0).
      { intros m. induction m as [| m IHm]; [done | exact IHm]. }
      unfold P; cbn. rewrite Hz. split_and!; [apply length_replicate | lia | lia | by apply Forall_replicate].
    - intros s1 s2 (Hlen & Hd & Hc & Hall) Hs.
      destruct (cas_invariant c0 s1 s2 Hc0 Hd (conj Hc Hall) Hs) as (? & ? & ?).
      unfold P. split_and!; try done. rewrite <- Hlen. destruct Hs; cbn; apply length_insert. }
  destruct Hinv as (Hlen & _ & Hc & _). cbn in *. split; [done |].
  rewrite Hc. do 2 f_equal. rewrite <- Hlen. clear - Hl.
  induction Hl as [| x l Hx Hl IH]; [done |]. subst x. cbn -[Z.of_nat]. unfold done_count in IH. lia.
Qed.

(** ** Concrete inputs *)

Definition small_predictor : Predictor :=
  {| p_bucket0 := replicate 1024 0; p_bucket1 := replicate 1024 0; p_bits := 1024; p_mask := 1023;
     p_active := 0; p_size := 10; p_decay := 0; p_threshold := 2; p_hits := 0; p_misses := 0 |}.

Lemma Predictor_sliding_window_witness :
  (IsLikelyUncacheable (foldl p_step small_predictor [PMark "/api"; PMark "/api"; PRotate]) "/api").2 = true.
Proof.
  apply (Predictor_sliding_window 32 10 0 small_predictor [PMark "/api"; PMark "/api"; PRotate] "/api");
    [lia | vm_compute; discriminate | vm_compute; reflexivity | right; vm_compute; discriminate].
Defined.

Lemma NewPredictor_termination_witness : NewPredictor 40 300000000 0 = None.
Proof. apply NewPredictor_termination. vm_compute. reflexivity. Defined.

Lemma concurrent_marks_witness :
  exists c l, rtc cas_step (7, replicate 2 AtLoad) (c, l) /\ c = 9.
Proof.
  assert (Hr : rtc cas_step (7, replicate 2 AtLoad) (9, [CasDone; CasDone])).
  { eapply rtc_l; [apply (cas_load 7 [AtLoad; AtLoad] 0); [done | reflexivity] |].
    eapply rtc_l; [apply (cas_load 7 [AtCas 7; AtLoad] 1); [done | reflexivity] |].
    eapply rtc_l; [apply (cas_ok 7 [AtCas 7; AtCas 7] 0); done |].
    eapply rtc_l; [apply (cas_retry 8 [CasDone; AtCas 7] 1 7); [done | discriminate] |].
    eapply rtc_l; [apply (cas_load 8 [CasDone; AtLoad] 1); [done | reflexivity] |].
    eapply rtc_l; [apply (cas_ok 8 [CasDone; AtCas 8] 1); done | apply rtc_refl]. }
  exists 9, [CasDone; CasDone]. split; [exact Hr |].
  apply (concurrent_marks 7 2 9 [CasDone; CasDone]); [unfold counterMax; lia | exact Hr | by repeat constructor].
Defined.
