(* ===== verification/Stampede.v ===== *)
(** * The stampede lock ([cache/stampede.go])

    Each method is cut at the points where another goroutine can run: the critical
    section on [sl.mu], the publication that follows it outside the mutex, the receive
    from a channel. The [*lockEntry] pointers are addresses in a heap, a
    [*StreamingEntry] is its address. The step relation interleaves any number of
    goroutines that use the lock as [handler.fetchAndServe] does: acquire; if not made
    to wait, publish a streaming entry at most once, then release once. *)

From S2P Require Import Prelude Entry.

Local Open Scope Z_scope.

Record lockEntry := {
  le_done : bool;                   (* the channel is closed *)
  le_streamReady : bool;            (* the channel is closed *)
  le_entry : option Entry;
  le_streaming : option nat;
  le_err : option string;
  le_waiters : Z
}.

Record StampedeLock := {
  sl_locks : gmap string nat;
  sl_heap : gmap nat lockEntry;
  sl_next : nat
}.

Definition NewStampedeLock : StampedeLock := {| sl_locks := ∅; sl_heap := ∅; sl_next := 0 |}.

Definition new_lockEntry : lockEntry :=
  {| le_done := false; le_streamReady := false; le_entry := None; le_streaming := None;
     le_err := None; le_waiters := 0 |}.

Definition heap_alter (f : lockEntry -> lockEntry) (e : nat) (sl : StampedeLock) : StampedeLock :=
  {| sl_locks := sl_locks sl; sl_heap := alter f e (sl_heap sl); sl_next := sl_next sl |}.

Definition add_waiter (le : lockEntry) : lockEntry :=
  {| le_done := le_done le; le_streamReady := le_streamReady le; le_entry := le_entry le;
     le_streaming := le_streaming le; le_err := le_err le; le_waiters := i32 (le_waiters le + 1) |}.
Definition set_streaming (se : nat) (le : lockEntry) : lockEntry :=
  {| le_done := le_done le; le_streamReady := true; le_entry := le_entry le;
     le_streaming := Some se; le_err := le_err le; le_waiters := le_waiters le |}.
Definition set_result (entry : option Entry) (err : option string) (le : lockEntry) : lockEntry :=
  {| le_done := le_done le; le_streamReady := le_streamReady le; le_entry := entry;
     le_streaming := le_streaming le; le_err := err; le_waiters := le_waiters le |}.
Definition set_done (le : lockEntry) : lockEntry :=
  {| le_done := true; le_streamReady := le_streamReady le; le_entry := le_entry le;
     le_streaming := le_streaming le; le_err := le_err le; le_waiters := le_waiters le |}.

(** ** The critical sections and the channel operations *)

(** The critical section of [Acquire] and [AcquireStreaming]: [inl e] waits on [e],
    [inr e] is the fetcher, whose new entry is [e]. *)
Definition Acquire_enter (sl : StampedeLock) (key : string) : StampedeLock * (nat + nat) :=
  match sl_locks sl !! key with
  | Some e => (heap_alter add_waiter e sl, inl e)
  | None =>
      let e := sl_next sl in
      ({| sl_locks := <[key := e]> (sl_locks sl); sl_heap := <[e := new_lockEntry]> (sl_heap sl);
          sl_next := S e |}, inr e)
  end.

(** What [Acquire] returns once [<-le.done] has been received; [None] while it blocks. *)
Definition Acquire_wait (le : lockEntry) : list (option Entry * option nat) :=
  if le_done le then [(match le_err le with Some _ => None | None => le_entry le end, None)] else [].

(** What the [select] of [AcquireStreaming] can return: both cases may be ready. *)
Definition AcquireStreaming_wait (le : lockEntry) : list (option Entry * option nat) :=
  (if le_streamReady le then [(None, le_streaming le)] else []) ++
  (if le_done le then
     [match le_err le with
      | Some _ => (None, None)
      | None => match le_streaming le with
                | Some se => (None, Some se)
                | None => (le_entry le, None)
                end
      end]
   else []).

(** The critical section of [Release]: the entry to signal, if the key is locked. *)
Definition Release_enter (sl : StampedeLock) (key : string) (entry : option Entry) (err : option string)
  : StampedeLock * option nat :=
  match sl_locks sl !! key with
  | None => (sl, None)
  | Some e =>
      let sl := heap_alter (set_result entry err) e sl in
      ({| sl_locks := delete key (sl_locks sl); sl_heap := sl_heap sl; sl_next := sl_next sl |}, Some e)
  end.

(** [close(le.done)]; [None] is the panic of closing a closed channel. *)
Definition close_done (sl : StampedeLock) (e : nat) : option StampedeLock :=
  le ← sl_heap sl !! e; if le_done le then None else Some (heap_alter set_done e sl).

(** [le.streaming = se; close(le.streamReady)]. *)
Definition publish_streaming (sl : StampedeLock) (e se : nat) : option StampedeLock :=
  le ← sl_heap sl !! e; if le_streamReady le then None else Some (heap_alter (set_streaming se) e sl).

(** The methods run alone. *)
Definition Release (sl : StampedeLock) (key : string) (entry : option Entry) (err : option string)
  : option StampedeLock :=
  match Release_enter sl key entry err with
  | (sl, None) => Some sl
  | (sl, Some e) => close_done sl e
  end.

Definition SetStreaming (sl : StampedeLock) (key : string) (se : nat) : option StampedeLock :=
  match sl_locks sl !! key with None => Some sl | Some e => publish_streaming sl e se end.

Definition Waiters (sl : StampedeLock) (key : string) : Z :=
  match sl_locks sl !! key with
  | None => 0
  | Some e => default 0 (le_waiters <$> sl_heap sl !! e)
  end.

(** ** Goroutines *)

(** Where a goroutine stands. The entry in [GFetch] is the one it created: the code
    finds it again through the map. *)
Inductive gpc :=
  | GWait (streaming : bool) (key : string) (e : nat)   (* at [<-le.done] or at the [select] *)
  | GFetch (key : string) (e : nat) (streamed : bool)   (* the fetcher, between calls *)
  | GStream (key : string) (e se : nat)                 (* in [SetStreaming], after the mutex *)
  | GClosing (key : string) (e : nat)                   (* in [Release], after the mutex *)
  | GGot (key : string) (e : nat) (r : option Entry * option nat)
  | GDone.

(** [y_key] records for which key an entry was created; no step reads it. *)
Record sys := { y_sl : StampedeLock; y_gs : gmap nat gpc; y_key : gmap nat string }.

Definition sys_init : sys := {| y_sl := NewStampedeLock; y_gs := ∅; y_key := ∅ |}.

Definition wait_results (streaming : bool) (le : lockEntry) : list (option Entry * option nat) :=
  if streaming then AcquireStreaming_wait le else Acquire_wait le.

Inductive sys_step : sys -> sys -> Prop :=
  | step_wait s g streaming key sl e :
      y_gs s !! g = None -> Acquire_enter (y_sl s) key = (sl, inl e) ->
      sys_step s {| y_sl := sl; y_gs := <[g := GWait streaming key e]> (y_gs s); y_key := y_key s |}
  | step_fetch s g key sl e :
      y_gs s !! g = None -> Acquire_enter (y_sl s) key = (sl, inr e) ->
      sys_step s {| y_sl := sl; y_gs := <[g := GFetch key e false]> (y_gs s);
                    y_key := <[e := key]> (y_key s) |}
  | step_set s g key e e' se :
      y_gs s !! g = Some (GFetch key e false) -> sl_locks (y_sl s) !! key = Some e' ->
      sys_step s {| y_sl := y_sl s; y_gs := <[g := GStream key e' se]> (y_gs s); y_key := y_key s |}
  | step_set_close s g key e se sl :
      y_gs s !! g = Some (GStream key e se) -> publish_streaming (y_sl s) e se = Some sl ->
      sys_step s {| y_sl := sl; y_gs := <[g := GFetch key e true]> (y_gs s); y_key := y_key s |}
  | step_release s g key e b entry err sl e' :
      y_gs s !! g = Some (GFetch key e b) -> Release_enter (y_sl s) key entry err = (sl, Some e') ->
      sys_step s {| y_sl := sl; y_gs := <[g := GClosing key e']> (y_gs s); y_key := y_key s |}
  | step_close s g key e sl :
      y_gs s !! g = Some (GClosing key e) -> close_done (y_sl s) e = Some sl ->
      sys_step s {| y_sl := sl; y_gs := <[g := GDone]> (y_gs s); y_key := y_key s |}
  | step_wake s g streaming key e le r :
      y_gs s !! g = Some (GWait streaming key e) -> sl_heap (y_sl s) !! e = Some le ->
      r ∈ wait_results streaming le ->
      sys_step s {| y_sl := y_sl s; y_gs := <[g := GGot key e r]> (y_gs s); y_key := y_key s |}.

(** The entry a goroutine is the fetcher of. *)
Definition fetching (pc : gpc) : option (string * nat) :=
  match pc with GFetch key e _ | GStream key e _ => Some (key, e) | _ => None end.

(** A received result is what was published under that entry. *)
Definition agrees (r : option Entry * option nat) (le : lockEntry) : Prop :=
  match r.2 with
  | Some se => le_streaming le = Some se /\ r.1 = None
  | None => le_done le = true /\ r.1 = match le_err le with Some _ => None | None => le_entry le end
  end.

(** ** The invariant *)

Definition heap_of (s : sys) (e : nat) : option lockEntry := sl_heap (y_sl s) !! e.
Definition lock_of (s : sys) (key : string) : option nat := sl_locks (y_sl s) !! key.

Definition pc_ok (s : sys) (pc : gpc) : Prop :=
  match pc with
  | GFetch key e b => lock_of s key = Some e /\
      forall le, heap_of s e = Some le -> b = false -> le_streamReady le = false
  | GStream key e _ => lock_of s key = Some e /\
      forall le, heap_of s e = Some le -> le_streamReady le = false
  | GClosing key e => y_key s !! e = Some key /\ lock_of s key <> Some e /\
      exists le, heap_of s e = Some le /\ le_done le = false
  | GWait _ key e => y_key s !! e = Some key /\ exists le, heap_of s e = Some le /\
      (le_done le = true \/ lock_of s key = Some e \/ exists g, y_gs s !! g = Some (GClosing key e))
  | GGot key e r => y_key s !! e = Some key /\ exists le, heap_of s e = Some le /\ agrees r le
  | GDone => True
  end.

Record inv (s : sys) : Prop := {
  i_next : forall e le, heap_of s e = Some le -> (e < sl_next (y_sl s))%nat;
  i_ready : forall e le, heap_of s e = Some le -> (le_streamReady le = true <-> is_Some (le_streaming le));
  i_lock : forall k e, lock_of s k = Some e ->
    (exists le, heap_of s e = Some le /\ le_done le = false) /\ y_key s !! e = Some k /\
    exists g pc, y_gs s !! g = Some pc /\ fetching pc = Some (k, e);
  i_fetch1 : forall g g' pc pc' k e e',
    y_gs s !! g = Some pc -> y_gs s !! g' = Some pc' ->
    fetching pc = Some (k, e) -> fetching pc' = Some (k, e') -> g = g';
  i_close1 : forall g g' k k' e,
    y_gs s !! g = Some (GClosing k e) -> y_gs s !! g' = Some (GClosing k' e) -> g = g';
  i_pc : forall g pc, y_gs s !! g = Some pc -> pc_ok s pc
}.

Lemma inv_init : inv sys_init.
Proof. split; unfold heap_of, lock_of; cbn; intros; by simplify_map_eq. Qed.

Lemma heap_alter_lookup f e sl e' le' :
  sl_heap (heap_alter f e sl) !! e' = Some le' <->
  exists le, sl_heap sl !! e' = Some le /\ le' = if decide (e' = e) then f le else le.
Proof.
  cbn. destruct (decide (e' = e)) as [-> | Hne].
  - rewrite lookup_alter_eq, fmap_Some. naive_solver.
  - rewrite lookup_alter_ne by done. naive_solver.
Qed.

Section inv_facts.
Context (s : sys) (Hinv : inv s).

Lemma lock_inj k k' e : lock_of s k = Some e -> lock_of s k' = Some e -> k = k'.
Proof using Hinv.
  intros (_ & Hk & _)%(i_lock s Hinv) (_ & Hk' & _)%(i_lock s Hinv). congruence.
Qed.

Lemma fetching_lock g pc k e : y_gs s !! g = Some pc -> fetching pc = Some (k, e) -> lock_of s k = Some e.
Proof using Hinv.
  intros Hg Hf. pose proof (i_pc s Hinv g pc Hg) as Hpc.
  destruct pc; cbn in *; simplify_eq; by destruct Hpc.
Qed.

Lemma locked_heap k e : lock_of s k = Some e -> exists le, heap_of s e = Some le /\ le_done le = false.
Proof using Hinv. by intros (? & _)%(i_lock s Hinv). Qed.

Lemma fresh_entry : heap_of s (sl_next (y_sl s)) = None.
Proof using Hinv. destruct (heap_of s _) eqn:E; [| done]. apply (i_next s Hinv) in E. lia. Qed.

(** The entries goroutines point to are allocated. *)
Lemma pc_ok_alloc pc : pc_ok s pc ->
  match pc with
  | GFetch _ e _ | GStream _ e _ | GClosing _ e | GWait _ _ e | GGot _ e _ => is_Some (heap_of s e)
  | GDone => True
  end.
Proof using Hinv.
  destruct pc; cbn; intros Hp; try done.
  - destruct Hp as (_ & le & -> & _). by eexists.
  - destruct (locked_heap _ _ (proj1 Hp)) as (le & -> & _). by eexists.
  - destruct (locked_heap _ _ (proj1 Hp)) as (le & -> & _). by eexists.
  - destruct Hp as (_ & _ & le & -> & _). by eexists.
  - destruct Hp as (_ & le & -> & _). by eexists.
Qed.

(** Two fetchers of one entry are one goroutine. *)
Lemma fetching_uniq g g' pc pc' k k' e :
  y_gs s !! g = Some pc -> y_gs s !! g' = Some pc' ->
  fetching pc = Some (k, e) -> fetching pc' = Some (k', e) -> g = g'.
Proof using Hinv.
  intros Hg Hg' Hf Hf'. pose proof (fetching_lock _ _ _ _ Hg Hf) as Hl.
  pose proof (fetching_lock _ _ _ _ Hg' Hf') as Hl'.
  rewrite <- (lock_inj _ _ _ Hl Hl') in Hf'. eapply (i_fetch1 s Hinv); eauto.
Qed.

End inv_facts.

(** A change of an entry that keeps its flags going one way and the results already
    received. *)
Definition safe_update (f : lockEntry -> lockEntry) (le : lockEntry) : Prop :=
  (le_done le = true -> le_done (f le) = true) /\ (forall r, agrees r le -> agrees r (f le)).

Lemma add_waiter_safe le : safe_update add_waiter le.
Proof. split; [done |]. by intros [oe [se |]]. Qed.

Lemma set_streaming_safe se le :
  (le_streamReady le = true <-> is_Some (le_streaming le)) -> le_streamReady le = false ->
  le_done le = false -> safe_update (set_streaming se) le.
Proof.
  intros Hiff Hr Hd. split; [done |]. intros [oe [se' |]]; unfold agrees; cbn.
  - intros [Hs _]. rewrite Hs, Hr in Hiff. destruct Hiff as [_ Hi]. discriminate (Hi ltac:(eauto)).
  - rewrite Hd. by intros [? _].
Qed.

Lemma set_result_safe entry err le : le_done le = false -> safe_update (set_result entry err) le.
Proof.
  intros Hd. split; [done |]. intros [oe [se' |]]; unfold agrees; cbn; [done |].
  rewrite Hd. by intros [? _].
Qed.

Lemma set_done_safe le : le_done le = false -> safe_update set_done le.
Proof.
  intros Hd. split; [done |]. intros [oe [se' |]]; unfold agrees; cbn; [done |].
  rewrite Hd. by intros [? _].
Qed.

(** What a goroutine that does not move keeps, when entries only get safe updates. *)
Lemma pc_ok_frame s s' pc :
  (forall e le, heap_of s e = Some le -> exists le', heap_of s' e = Some le' /\
     (le_done le = true -> le_done le' = true) /\ (forall r, agrees r le -> agrees r le')) ->
  (forall e k, y_key s !! e = Some k -> y_key s' !! e = Some k) ->
  match pc with
  | GFetch k e _ | GStream k e _ => lock_of s' k = Some e /\
      forall le le', heap_of s e = Some le -> heap_of s' e = Some le' ->
        le_streamReady le = false -> le_streamReady le' = false
  | GClosing k e => lock_of s' k <> Some e /\ exists le, heap_of s' e = Some le /\ le_done le = false
  | GWait _ k e =>
      lock_of s k = Some e \/ (exists g, y_gs s !! g = Some (GClosing k e)) ->
      lock_of s' k = Some e \/ (exists g, y_gs s' !! g = Some (GClosing k e)) \/
      (exists le, heap_of s' e = Some le /\ le_done le = true)
  | _ => True
  end ->
  (forall e, heap_of s e = None -> match pc with GFetch _ e' _ | GStream _ e' _ => e <> e' | _ => True end) ->
  pc_ok s pc -> pc_ok s' pc.
Proof.
  intros Hh Hk Hside Hal. destruct pc as [m k e | k e b | k e se | k e | k e r |]; cbn; try done.
  - intros (Hy & le & Hl & Hw). destruct (Hh e le Hl) as (le' & Hl' & Hd & _). split; [auto |].
    exists le'. split; [done |]. destruct Hw as [Hw | Hw]; [by left; apply Hd |].
    destruct (Hside Hw) as [? | [? | (le2 & Hl2 & Hd2)]]; [tauto | tauto |]. left. congruence.
  - intros (Hl & Hr). destruct Hside as [Hl' Hready]. split; [done |]. intros le' Hle' Hb.
    destruct (heap_of s e) as [le |] eqn:E; [| by destruct (Hal e E)]. eapply Hready; eauto.
  - intros (Hl & Hr). destruct Hside as [Hl' Hready]. split; [done |]. intros le' Hle'.
    destruct (heap_of s e) as [le |] eqn:E; [| by destruct (Hal e E)]. eapply Hready; eauto.
  - intros (Hy & _ & _). destruct Hside. split; [auto | done].
  - intros (Hy & le & Hl & Ha). destruct (Hh e le Hl) as (le' & Hl' & _ & Hag). split; [auto |].
    exists le'. auto.
Qed.

(** One goroutine moves while one entry is safely updated. *)
Definition upd (s : sys) (g : nat) (pc' : gpc) (f : lockEntry -> lockEntry) (e0 : nat)
    (locks' : gmap string nat) : sys :=
  {| y_sl := {| sl_locks := locks'; sl_heap := alter f e0 (sl_heap (y_sl s)); sl_next := sl_next (y_sl s) |};
     y_gs := <[g := pc']> (y_gs s); y_key := y_key s |}.

Section one_update.
Context (s : sys) (Hinv : inv s) (g : nat) (pc' : gpc) (f : lockEntry -> lockEntry) (e0 : nat).
Context (locks' : gmap string nat).
Local Abbreviation s' := (upd s g pc' f e0 locks').
Context (Hsafe : forall le, heap_of s e0 = Some le -> safe_update f le).

Lemma upd_heap e le' :
  heap_of s' e = Some le' <-> exists le, heap_of s e = Some le /\ le' = if decide (e = e0) then f le else le.
Proof using All. apply (heap_alter_lookup f e0 (y_sl s)). Qed.

Lemma upd_safe e le : heap_of s e = Some le -> exists le', heap_of s' e = Some le' /\
  (le_done le = true -> le_done le' = true) /\ (forall r, agrees r le -> agrees r le').
Proof using All.
  intros Hl. exists (if decide (e = e0) then f le else le). split; [apply upd_heap; eauto |].
  destruct (decide (e = e0)) as [-> |]; [by apply Hsafe | done].
Qed.

Lemma upd_next e le : heap_of s' e = Some le -> (e < sl_next (y_sl s'))%nat.
Proof using All. intros (le0 & Hl & _)%upd_heap. by apply (i_next s Hinv e le0). Qed.

Lemma upd_ready e le' :
  (forall le, heap_of s e0 = Some le ->
     (le_streamReady le = true <-> is_Some (le_streaming le)) ->
     (le_streamReady (f le) = true <-> is_Some (le_streaming (f le)))) ->
  heap_of s' e = Some le' -> (le_streamReady le' = true <-> is_Some (le_streaming le')).
Proof using All.
  intros Hf (le & Hl & ->)%upd_heap. pose proof (i_ready s Hinv e le Hl) as Hi.
  destruct (decide (e = e0)) as [-> |]; [by apply Hf | done].
Qed.

(** The moving goroutine was, and stays, the fetcher it was or no fetcher. *)
Lemma upd_fetch1 pc0 :
  y_gs s !! g = pc0 ->
  (forall k e, fetching pc' = Some (k, e) ->
     exists pc, pc0 = Some pc /\ fetching pc = Some (k, e)) ->
  forall g1 g2 pc1 pc2 k e e',
    y_gs s' !! g1 = Some pc1 -> y_gs s' !! g2 = Some pc2 ->
    fetching pc1 = Some (k, e) -> fetching pc2 = Some (k, e') -> g1 = g2.
Proof using All.
  intros Hg Hf g1 g2 pc1 pc2 k e e' H1 H2 F1 F2.
  assert (Hold : forall gi pci ki ei, y_gs s' !! gi = Some pci -> fetching pci = Some (ki, ei) ->
    exists pc, y_gs s !! gi = Some pc /\ fetching pc = Some (ki, ei)).
  { cbn. intros gi pci ki ei [[<- <-] | [_ Hi]]%lookup_insert_Some Hfi; [| by exists pci].
    destruct (Hf ki ei Hfi) as (pc & -> & ?). by exists pc. }
  destruct (Hold _ _ _ _ H1 F1) as (? & ? & ?), (Hold _ _ _ _ H2 F2) as (? & ? & ?).
  eapply (i_fetch1 s Hinv); eauto.
Qed.

Lemma upd_close1 :
  (forall k e, pc' <> GClosing k e) ->
  forall g1 g2 k1 k2 e, y_gs s' !! g1 = Some (GClosing k1 e) -> y_gs s' !! g2 = Some (GClosing k2 e) -> g1 = g2.
Proof using All.
  intros Hn g1 g2 k1 k2 e. cbn.
  intros [[_ E] | [_ H1]]%lookup_insert_Some; [by destruct (Hn k1 e) |].
  intros [[_ E] | [_ H2]]%lookup_insert_Some; [by destruct (Hn k2 e) |].
  eapply (i_close1 s Hinv); eauto.
Qed.

(** The locks stay, the moving goroutine keeps its role. *)
Lemma upd_lock pc0 :
  locks' = sl_locks (y_sl s) -> y_gs s !! g = pc0 ->
  (forall le, heap_of s e0 = Some le -> le_done le = false ->
     (exists k, lock_of s k = Some e0) -> le_done (f le) = false) ->
  (forall pc k e, pc0 = Some pc -> fetching pc = Some (k, e) -> fetching pc' = Some (k, e)) ->
  forall k e, lock_of s' k = Some e ->
    (exists le, heap_of s' e = Some le /\ le_done le = false) /\ y_key s' !! e = Some k /\
    exists g' pc, y_gs s' !! g' = Some pc /\ fetching pc = Some (k, e).
Proof using All.
  intros El Hg Hd Hf k e Hl. unfold lock_of in Hl; cbn in Hl. rewrite El in Hl.
  destruct (i_lock s Hinv k e Hl) as ((le & Hle & Hdone) & Hk & g1 & pc1 & Hg1 & Hf1).
  split_and!; [| done |].
  - exists (if decide (e = e0) then f le else le). split; [apply upd_heap; eauto |].
    destruct (decide (e = e0)) as [-> |]; [by eapply Hd; eauto | done].
  - exists g1. cbn. destruct (decide (g = g1)) as [-> | Hne].
    + exists pc'. rewrite lookup_insert_eq. split; [done |]. by apply (Hf pc1); [congruence |].
    + exists pc1. by rewrite lookup_insert_ne.
Qed.

End one_update.

(** What a step asks of its update [f] of the entry [e0], for the others to stay as they are:
    an entry is only marked done by the one that closes it, and only made ready by its
    fetcher. *)
Lemma upd_others s g pc0 pc' f e0 g1 pc1 :
  inv s -> y_gs s !! g = pc0 -> (forall le, heap_of s e0 = Some le -> safe_update f le) ->
  (forall le, le_done le = false -> le_done (f le) = false \/ exists k, pc0 = Some (GClosing k e0)) ->
  (forall le, le_streamReady le = false -> le_streamReady (f le) = false \/ exists pc k, pc0 = Some pc /\ fetching pc = Some (k, e0)) ->
  (forall k e, pc0 = Some (GClosing k e) -> e = e0 /\ forall le, le_done (f le) = true) ->
  g <> g1 -> y_gs s !! g1 = Some pc1 -> pc_ok (upd s g pc' f e0 (sl_locks (y_sl s))) pc1.
Proof.
  intros Hinv Hg Hsafe Hdone Hother Hcl Hne Hg1. pose proof (i_pc s Hinv g1 pc1 Hg1) as Hok.
  apply (pc_ok_frame s); try done.
  - intros e le. apply (upd_safe s Hinv g pc' f e0 (sl_locks (y_sl s)) Hsafe).
  - assert (Hrdy : forall pc k e, y_gs s !! g1 = Some pc -> fetching pc = Some (k, e) ->
      forall le le', heap_of s e = Some le -> heap_of (upd s g pc' f e0 (sl_locks (y_sl s))) e = Some le' ->
        le_streamReady le = false -> le_streamReady le' = false).
    { intros pc k e Hp Hf le le' Hle (le2 & Hle2 & ->)%(upd_heap s Hinv g pc' f e0 _ Hsafe) Hr.
      rewrite Hle in Hle2; injection Hle2 as <-. destruct (decide (e = e0)) as [-> |]; [| done].
      destruct (Hother le Hr) as [| (pcg & kg & -> & Hfg)]; [done |]. destruct Hne. eapply (fetching_uniq s Hinv); eauto. }
    destruct pc1 as [m k e | k e b | k e se | k e | k e r |]; try done.
    + intros [Hw | (g2 & Hg2)]; [by left |]. right. destruct (decide (g = g2)) as [<- | Hne2].
      * right. rewrite Hg2 in Hg. destruct (Hcl k e (eq_sym Hg)) as [-> Hd]. destruct Hok as (_ & le & Hle & _). exists (f le). split; [| done].
        apply (upd_heap s Hinv g pc' f e0 _ Hsafe). exists le. by rewrite decide_True.
      * left. exists g2. cbn. by rewrite lookup_insert_ne.
    + split; [by apply Hok |]. eapply Hrdy; [done | reflexivity].
    + split; [by apply Hok |]. eapply Hrdy; [done | reflexivity].
    + destruct Hok as (Hy & Hn & le & Hle & Hd). split; [done |]. exists (if decide (e = e0) then f le else le).
      split; [apply (upd_heap s Hinv g pc' f e0 _ Hsafe); eauto |]. destruct (decide (e = e0)) as [-> |]; [| done].
      destruct (Hdone le Hd) as [| (k' & Hk')]; [done |]. destruct Hne. rewrite Hk' in Hg. eapply (i_close1 s Hinv); eauto.
  - intros e He. pose proof (pc_ok_alloc s Hinv pc1 Hok) as Ha. destruct pc1; try done; intros ->; rewrite He in Ha; by destruct Ha.
Qed.

(** Every step that leaves the map of locks alone. *)
Lemma inv_upd s g pc0 pc' f e0 :
  inv s -> y_gs s !! g = pc0 ->
  (forall le, heap_of s e0 = Some le -> safe_update f le) ->
  (forall le, (le_streamReady le = true <-> is_Some (le_streaming le)) ->
     (le_streamReady (f le) = true <-> is_Some (le_streaming (f le)))) ->
  (forall le, le_done le = false -> le_done (f le) = false \/ exists k, pc0 = Some (GClosing k e0)) ->
  (forall le, le_streamReady le = false -> le_streamReady (f le) = false \/
     exists pc k, pc0 = Some pc /\ fetching pc = Some (k, e0)) ->
  (forall k e, (exists pc, pc0 = Some pc /\ fetching pc = Some (k, e)) <-> fetching pc' = Some (k, e)) ->
  (forall k e, pc' <> GClosing k e) ->
  (forall k e, pc0 = Some (GClosing k e) -> e = e0 /\ forall le, le_done (f le) = true) ->
  (forall s', s' = upd s g pc' f e0 (sl_locks (y_sl s)) -> pc_ok s' pc') ->
  inv (upd s g pc' f e0 (sl_locks (y_sl s))).
Proof.
  intros Hinv Hg Hsafe Hready Hdone Hother Hrole Hnc Hcl Hpc.
  assert (Hdone' : forall le, heap_of s e0 = Some le -> le_done le = false ->
    (exists k, lock_of s k = Some e0) -> le_done (f le) = false).
  { intros le Hle Hd (k & Hl). destruct (Hdone le Hd) as [| (k' & Hk')]; [done |].
    rewrite Hk' in Hg. destruct (i_pc s Hinv g _ Hg) as (Hy & Hn & _).
    destruct (i_lock s Hinv k e0 Hl) as (_ & Hy' & _). congruence. }
  split.
  - by apply (upd_next s Hinv g pc' f e0 (sl_locks (y_sl s)) Hsafe).
  - intros e le'. apply (upd_ready s Hinv g pc' f e0 (sl_locks (y_sl s)) Hsafe). auto.
  - apply (upd_lock s Hinv g pc' f e0 (sl_locks (y_sl s)) Hsafe pc0); try done.
    intros pc k e Ep Ef. apply Hrole. eauto.
  - apply (upd_fetch1 s Hinv g pc' f e0 (sl_locks (y_sl s)) Hsafe pc0); [done |].
    intros k e. apply Hrole.
  - by apply (upd_close1 s Hinv g pc' f e0 (sl_locks (y_sl s)) Hsafe).
  - intros g1 pc1. cbn. intros [[<- <-] | [Hne Hg1]]%lookup_insert_Some; [by apply Hpc |].
    by apply (upd_others s g pc0 pc' f e0 g1).
Qed.

Lemma upd_id s g pc' :
  {| y_sl := y_sl s; y_gs := <[g := pc']> (y_gs s); y_key := y_key s |}
  = upd s g pc' id 0 (sl_locks (y_sl s)).
Proof.
  unfold upd. f_equal. destruct (y_sl s) as [l h n]; cbn. f_equal.
  apply map_eq. intros i. destruct (decide (i = 0%nat)) as [-> |].
  - rewrite lookup_alter_eq. by destruct (h !! 0%nat).
  - by rewrite lookup_alter_ne.
Qed.

Lemma id_safe le : safe_update id le.
Proof. by split. Qed.

(** ** The steps *)

Lemma inv_wait s g m key sl e :
  inv s -> y_gs s !! g = None -> Acquire_enter (y_sl s) key = (sl, inl e) ->
  inv {| y_sl := sl; y_gs := <[g := GWait m key e]> (y_gs s); y_key := y_key s |}.
Proof.
  intros Hinv Hg. unfold Acquire_enter. destruct (sl_locks (y_sl s) !! key) as [e' |] eqn:El; [| done].
  intros [= <- <-]. apply (inv_upd s g None (GWait m key e') add_waiter e'); try done.
  - intros le Hd. by left.
  - intros le Hr. by left.
  - intros k e. split; [by intros (? & ? & _) | done].
  - intros s' ->. destruct (i_lock s Hinv key e' El) as ((le & Hle & Hd) & Hy & _).
    split; [done |]. exists (add_waiter le). split; [| by right; left].
    apply (upd_heap s Hinv); [intros; apply add_waiter_safe |]. exists le. by rewrite decide_True.
Qed.

Lemma inv_set s g key e e' se :
  inv s -> y_gs s !! g = Some (GFetch key e false) -> sl_locks (y_sl s) !! key = Some e' ->
  inv {| y_sl := y_sl s; y_gs := <[g := GStream key e' se]> (y_gs s); y_key := y_key s |}.
Proof.
  intros Hinv Hg El. destruct (i_pc s Hinv g _ Hg) as [El' Hr].
  assert (e' = e) as -> by (unfold lock_of in El'; congruence). rewrite upd_id.
  apply (inv_upd s g _ (GStream key e se) id 0 Hinv Hg); try done; try (by left).
  - intros k e2. cbn. naive_solver.
  - intros s' ->. split; [done |]. intros le (le0 & Hle & ->)%(upd_heap s Hinv); [| intros; apply id_safe].
    destruct (decide _); by apply (Hr le0).
Qed.

Lemma inv_set_close s g key e se sl :
  inv s -> y_gs s !! g = Some (GStream key e se) -> publish_streaming (y_sl s) e se = Some sl ->
  inv {| y_sl := sl; y_gs := <[g := GFetch key e true]> (y_gs s); y_key := y_key s |}.
Proof.
  intros Hinv Hg. destruct (i_pc s Hinv g _ Hg) as [El Hr]. unfold publish_streaming.
  intros (le & Hle & Hp)%bind_Some. destruct (le_streamReady le) eqn:Er; [done |]. injection Hp as <-.
  apply (inv_upd s g _ (GFetch key e true) (set_streaming se) e Hinv Hg); try done.
  - intros le' Hle'. destruct (locked_heap s Hinv key e El) as (le2 & Hle2 & Hd). simplify_eq.
    apply set_streaming_safe; [by apply (i_ready s Hinv e) | by apply Hr | congruence].
  - intros le' Hd. by left.
  - intros le' _. right. by eexists _, key.
  - intros k e2. cbn. naive_solver.
  - intros s' ->. split; [done |]. by intros ? _ ?.
Qed.

Lemma inv_close s g key e sl :
  inv s -> y_gs s !! g = Some (GClosing key e) -> close_done (y_sl s) e = Some sl ->
  inv {| y_sl := sl; y_gs := <[g := GDone]> (y_gs s); y_key := y_key s |}.
Proof.
  intros Hinv Hg. unfold close_done. intros (le & Hle & Hp)%bind_Some.
  destruct (le_done le) eqn:Ed; [done |]. injection Hp as <-.
  apply (inv_upd s g _ GDone set_done e Hinv Hg); try done.
  - intros le' Hle'. apply set_done_safe. unfold heap_of in Hle'. congruence.
  - intros le' _. right. by exists key.
  - intros le' Hr. by left.
  - intros k e2. split; [| done]. by intros (? & [= <-] & ?).
  - by intros k e2 [= <- <-].
Qed.

Lemma wait_agrees s m e le r :
  inv s -> heap_of s e = Some le -> r ∈ wait_results m le -> agrees r le.
Proof.
  intros Hinv Hle. pose proof (i_ready s Hinv e le Hle) as Hi.
  unfold wait_results, AcquireStreaming_wait, Acquire_wait. destruct m.
  - intros [Hr | Hr]%elem_of_app.
    + destruct (le_streamReady le); [| by apply not_elem_of_nil in Hr].
      apply list_elem_of_singleton in Hr as ->. destruct Hi as [[se Hse] _]; [done |].
      unfold agrees; cbn. by rewrite Hse.
    + destruct (le_done le) eqn:Ed; [| by apply not_elem_of_nil in Hr].
      apply list_elem_of_singleton in Hr as ->. unfold agrees.
      destruct (le_err le) eqn:Ee; cbn; [done |].
      destruct (le_streaming le); cbn; [done |]. done.
  - destruct (le_done le) eqn:Ed; [| by intros ?%not_elem_of_nil].
    intros ->%list_elem_of_singleton. unfold agrees; cbn. by destruct (le_err le).
Qed.

Lemma inv_wake s g m key e le r :
  inv s -> y_gs s !! g = Some (GWait m key e) -> sl_heap (y_sl s) !! e = Some le ->
  r ∈ wait_results m le ->
  inv {| y_sl := y_sl s; y_gs := <[g := GGot key e r]> (y_gs s); y_key := y_key s |}.
Proof.
  intros Hinv Hg Hle Hr. rewrite upd_id.
  apply (inv_upd s g _ (GGot key e r) id 0 Hinv Hg); try done; try (by left).
  - intros k e2. split; [| done]. by intros (? & [= <-] & ?).
  - intros s' ->. destruct (i_pc s Hinv g _ Hg) as (Hy & _). split; [done |]. exists le.
    split; [| by eapply (wait_agrees s)].
    apply (upd_heap s Hinv); [intros; apply id_safe |]. exists le. split; [done |].
    by destruct (decide (e = 0%nat)).
Qed.

Section entering.
Variables (s : sys) (g : nat) (key : string).
Hypothesis Hinv : inv s.
Hypothesis Hg : y_gs s !! g = None.
Hypothesis El : sl_locks (y_sl s) !! key = None.
Abbreviation e := (sl_next (y_sl s)).

(** The state after [g] has entered and becomes the fetcher. *)
Definition entered : sys :=
  {| y_sl := {| sl_locks := <[key := e]> (sl_locks (y_sl s)); sl_heap := <[e := new_lockEntry]> (sl_heap (y_sl s)); sl_next := S e |};
     y_gs := <[g := GFetch key e false]> (y_gs s); y_key := <[e := key]> (y_key s) |}.

Lemma entered_ne e' le : heap_of s e' = Some le -> e' <> e.
Proof using Hinv. intros Hle ->. apply (i_next s Hinv) in Hle. lia. Qed.

Lemma entered_heap e' le : heap_of s e' = Some le -> heap_of entered e' = Some le.
Proof using Hinv. intros Hle. unfold heap_of; cbn. rewrite lookup_insert_ne; [done |]. intros E. by apply (entered_ne e' le). Qed.

Lemma entered_old e' le : heap_of entered e' = Some le -> e' = e /\ le = new_lockEntry \/ heap_of s e' = Some le.
Proof. unfold heap_of; cbn. intros [[<- <-] | [_ Hl]]%lookup_insert_Some; auto. Qed.

Lemma entered_key e' le k : heap_of s e' = Some le -> y_key s !! e' = Some k -> y_key entered !! e' = Some k.
Proof using Hinv. intros Hle Hk. cbn. rewrite lookup_insert_ne; [done |]. intros E. by apply (entered_ne e' le). Qed.

Lemma entered_unlocked e' : lock_of s key <> Some e'.
Proof using El. unfold lock_of; congruence. Qed.

Lemma entered_lock k e' : lock_of s k = Some e' -> lock_of entered k = Some e'.
Proof using El. unfold lock_of; cbn. intros Hl. rewrite lookup_insert_ne; [done |]. intros E. apply (entered_unlocked e'). by rewrite E. Qed.

(** The others are as they were. *)
Lemma entered_pc_ok g1 pc1 : y_gs s !! g1 = Some pc1 -> pc_ok entered pc1.
Proof using All.
  intros Hg1. pose proof (i_pc s Hinv g1 pc1 Hg1) as Hok.
  assert (Hfetch : forall k e1 b, lock_of s k = Some e1 -> (forall le, heap_of s e1 = Some le -> b = false -> le_streamReady le = false) ->
    forall le, heap_of entered e1 = Some le -> b = false -> le_streamReady le = false).
  { intros k e1 b Hl Hr le [[-> _] | Hle]%entered_old; [| by apply Hr].
    destruct (locked_heap s Hinv _ _ Hl) as (? & Hx & _). by destruct (entered_ne _ _ Hx). }
  destruct pc1 as [m k e1 | k e1 b | k e1 se | k e1 | k e1 r |]; cbn in *; try done.
  - destruct Hok as (Hy & le & Hle & Hw). split; [by eapply entered_key |].
    exists le. split; [by apply entered_heap |]. destruct Hw as [? | [? | (g2 & Hg2)]]; [auto | right; left; by apply entered_lock |].
    right; right. exists g2. cbn. rewrite lookup_insert_ne by congruence. done.
  - destruct Hok as [Hl Hr]. split; [by apply entered_lock |]. by apply (Hfetch k e1 b).
  - destruct Hok as [Hl Hr]. split; [by apply entered_lock |]. intros le Hle. by apply (Hfetch k e1 false Hl ltac:(auto) le).
  - destruct Hok as (Hy & Hn & le & Hle & Hd). split_and!; [by eapply entered_key | | exists le; split; [by apply entered_heap | done]].
    unfold lock_of; cbn. intros [[_ E] | [_ Hl]]%lookup_insert_Some; [| done]. by destruct (entered_ne _ _ Hle).
  - destruct Hok as (Hy & le & Hle & Ha). split; [by eapply entered_key | exists le; split; [by apply entered_heap | done]].
Qed.

Lemma inv_entered : inv entered.
Proof using All.
  split.
  - intros e' le [[-> ->] | Hl]%entered_old; cbn; [lia | apply (i_next s Hinv) in Hl; lia].
  - intros e' le [[-> ->] | Hl]%entered_old; [cbn; split; [done | by intros []] | by apply (i_ready s Hinv e')].
  - unfold lock_of; cbn. intros k e' [[<- <-] | [Hk Hl]]%lookup_insert_Some.
    + split_and!; [| by rewrite lookup_insert_eq | exists g; eexists; by rewrite lookup_insert_eq].
      exists new_lockEntry. unfold heap_of; cbn. by rewrite lookup_insert_eq.
    + destruct (i_lock s Hinv k e' Hl) as ((le & Hle & Hd) & Hy & g1 & pc1 & Hg1 & Hf1).
      split_and!; [exists le; split; [by apply entered_heap | done] | by eapply entered_key |].
      exists g1, pc1. rewrite lookup_insert_ne by congruence. done.
  - cbn. intros g1 g2 pc1 pc2 k e1 e2.
    intros [[<- <-] | [Hn1 H1]]%lookup_insert_Some [[<- <-] | [Hn2 H2]]%lookup_insert_Some; try done.
    + intros [= <- <-] Hf. by destruct (entered_unlocked _ (fetching_lock s Hinv _ _ _ _ H2 Hf)).
    + intros Hf [= <- <-]. by destruct (entered_unlocked _ (fetching_lock s Hinv _ _ _ _ H1 Hf)).
    + by eapply (i_fetch1 s Hinv).
  - cbn. intros g1 g2 k1 k2 e1 [[_ E] | [_ H1]]%lookup_insert_Some; [done |].
    intros [[_ E] | [_ H2]]%lookup_insert_Some; [done |]. by eapply (i_close1 s Hinv).
  - intros g1 pc1. cbn. intros [[<- <-] | [Hn1 Hg1]]%lookup_insert_Some; [| by apply (entered_pc_ok g1)].
    cbn. unfold lock_of; cbn. rewrite lookup_insert_eq. split; [done |].
    intros le [[_ ->] | Hl]%entered_old; [done |]. by destruct (entered_ne _ _ Hl).
Qed.

End entering.

Lemma inv_fetch s g key sl e :
  inv s -> y_gs s !! g = None -> Acquire_enter (y_sl s) key = (sl, inr e) ->
  inv {| y_sl := sl; y_gs := <[g := GFetch key e false]> (y_gs s); y_key := <[e := key]> (y_key s) |}.
Proof.
  intros Hinv Hg. unfold Acquire_enter. destruct (sl_locks (y_sl s) !! key) eqn:El; [done |]. intros [= <- <-].
  by apply (inv_entered s g key).
Qed.

(** What the release of [key] leaves of the others; [e] was its entry. *)
Lemma release_others s g key e b entry err le0 g1 pc1 :
  let s' := upd s g (GClosing key e) (set_result entry err) e (delete key (sl_locks (y_sl s))) in
  inv s -> y_gs s !! g = Some (GFetch key e b) -> lock_of s key = Some e -> heap_of s e = Some le0 -> le_done le0 = false ->
  g <> g1 -> y_gs s !! g1 = Some pc1 -> pc_ok s' pc1.
Proof.
  cbv zeta. intros Hinv Hg El Hle0 Hd0 Hne Hg1.
  assert (Hsafe : forall le, heap_of s e = Some le -> safe_update (set_result entry err) le) by (intros le Hle; apply set_result_safe; congruence).
  set (s' := upd _ _ _ _ _ _). pose proof (i_pc s Hinv g1 pc1 Hg1) as Hok.
  assert (Hlk : forall k e1, lock_of s' k = Some e1 <-> k <> key /\ lock_of s k = Some e1)
    by (unfold lock_of; cbn; intros k e1; rewrite lookup_delete_Some; naive_solver).
  assert (Hstay : forall e1 le, e1 <> e -> heap_of s e1 = Some le -> heap_of s' e1 = Some le).
  { intros e1 le He Hle. apply (upd_heap s Hinv _ _ _ _ _ Hsafe). exists le. by rewrite decide_False. }
  assert (Hkeep : forall k e1, fetching pc1 = Some (k, e1) -> lock_of s' k = Some e1 /\
    forall le le', heap_of s e1 = Some le -> heap_of s' e1 = Some le' -> le_streamReady le = false -> le_streamReady le' = false).
  { intros k e1 Hf. pose proof (fetching_lock s Hinv _ _ _ _ Hg1 Hf) as Hl.
    assert (Hk : k <> key) by (intros ->; apply Hne; eapply (i_fetch1 s Hinv); [exact Hg | exact Hg1 | done | exact Hf]).
    assert (He : e1 <> e) by (intros ->; apply Hk; by apply (lock_inj s Hinv k key e)).
    split; [by apply Hlk |]. intros le le' Hle Hle'. rewrite (Hstay e1 le He Hle) in Hle'. congruence. }
  apply (pc_ok_frame s); [by apply (upd_safe s Hinv _ _ _ _ _ Hsafe) | done | | | done].
  - destruct pc1 as [m k e1 | k e1 b1 | k e1 se | k e1 | k e1 r |]; try done; [| by apply Hkeep | by apply Hkeep |].
    + intros [Hw | (g2 & Hg2)].
      * destruct (decide (k = key)) as [-> | Hk]; [| left; by apply Hlk]. right; left. exists g. cbn. rewrite lookup_insert_eq. congruence.
      * right; left. exists g2. cbn. rewrite lookup_insert_ne; [done | congruence].
    + destruct Hok as (Hy & Hn & le & Hle & Hd). split; [by intros [_ ?]%Hlk |]. exists le. split; [| done]. apply Hstay; [| done].
      intros ->. destruct (i_lock s Hinv key e El) as (_ & Hy0 & _). assert (k = key) as -> by congruence. by apply Hn.
  - intros e1 He. pose proof (pc_ok_alloc s Hinv pc1 Hok) as Ha. destruct pc1; try done; intros ->; rewrite He in Ha; by destruct Ha.
Qed.

Lemma inv_release s g key e b entry err sl e' :
  inv s -> y_gs s !! g = Some (GFetch key e b) ->
  Release_enter (y_sl s) key entry err = (sl, Some e') ->
  inv {| y_sl := sl; y_gs := <[g := GClosing key e']> (y_gs s); y_key := y_key s |}.
Proof.
  intros Hinv Hg. destruct (i_pc s Hinv g _ Hg) as [El _]. unfold Release_enter.
  unfold lock_of in El. rewrite El. intros [= <- <-].
  destruct (i_lock s Hinv key e El) as ((le0 & Hle0 & Hd0) & Hy0 & _).
  assert (Hsafe : forall le, heap_of s e = Some le -> safe_update (set_result entry err) le).
  { intros le Hle. apply set_result_safe. congruence. }
  set (s' := {| y_sl := _ |}).
  assert (Hs : s' = upd s g (GClosing key e) (set_result entry err) e (delete key (sl_locks (y_sl s)))) by done.
  assert (Hlk : forall k e1, lock_of s' k = Some e1 <-> k <> key /\ lock_of s k = Some e1).
  { unfold lock_of; cbn. intros k e1. rewrite lookup_delete_Some. naive_solver. }
  assert (Hother : forall k e1, lock_of s k = Some e1 -> k <> key -> e1 <> e).
  { intros k e1 Hl Hk ->. apply Hk. by apply (lock_inj s Hinv k key e). }
  rewrite Hs. clearbody s'. subst s'. split.
  - by apply (upd_next s Hinv _ _ _ _ _ Hsafe).
  - intros e1 le'. by apply (upd_ready s Hinv _ _ _ _ _ Hsafe).
  - intros k e1 [Hk Hl]%Hlk. destruct (i_lock s Hinv k e1 Hl) as ((le & Hle & Hd) & Hy & g1 & pc1 & Hg1 & Hf1).
    split_and!; [| done |].
    + exists le. split; [| done]. apply (upd_heap s Hinv _ _ _ _ _ Hsafe). exists le.
      by rewrite decide_False by (by apply (Hother k)).
    + exists g1, pc1. cbn. rewrite lookup_insert_ne; [done |]. intros ->.
      rewrite Hg in Hg1. injection Hg1 as <-. cbn in Hf1. congruence.
  - by apply (upd_fetch1 s Hinv _ _ _ _ _ Hsafe (Some (GFetch key e b))).
  - assert (Hno : forall g2 k2, y_gs s !! g2 = Some (GClosing k2 e) -> False).
    { intros g2 k2 H2. destruct (i_pc s Hinv g2 _ H2) as (Hy & Hn & _).
      assert (k2 = key) as -> by congruence. by apply Hn. }
    cbn. intros g1 g2 k1 k2 e1 [[<- E1] | [_ H1]]%lookup_insert_Some [[<- E2] | [_ H2]]%lookup_insert_Some; try done.
    + injection E1 as <- <-. by destruct (Hno _ _ H2).
    + injection E2 as <- <-. by destruct (Hno _ _ H1).
    + by eapply (i_close1 s Hinv).
  - intros g1 pc1. cbn. intros [[<- <-] | [Hne Hg1]]%lookup_insert_Some.
    + split_and!; [done | by intros [? _]%Hlk |]. exists (set_result entry err le0).
      split; [| done]. apply (upd_heap s Hinv _ _ _ _ _ Hsafe). exists le0. by rewrite decide_True.
    + by apply (release_others s g key e b entry err le0 g1).
Qed.

Lemma inv_step s s' : inv s -> sys_step s s' -> inv s'.
Proof.
  intros Hinv Hs. destruct Hs.
  - by eapply inv_wait.
  - by eapply inv_fetch.
  - by eapply inv_set.
  - by eapply inv_set_close.
  - by eapply inv_release.
  - by eapply inv_close.
  - by eapply inv_wake.
Qed.

Lemma inv_reachable s : rtc sys_step sys_init s -> inv s.
Proof. apply (rtc_invariant sys_step inv); [apply inv_init | apply inv_step]. Qed.

(** ** What the lock guarantees *)

(** C8: In every interleaving, at most one goroutine fetches a key at a time; the lock
    never closes a channel twice; and a goroutine that waits is either able to go on, or
    waits for an entry whose fetcher is still at work. *)
Theorem Stampede_safety s :
  rtc sys_step sys_init s ->
  (forall g g' pc pc' key e e',
     y_gs s !! g = Some pc -> y_gs s !! g' = Some pc' ->
     fetching pc = Some (key, e) -> fetching pc' = Some (key, e') -> g = g') /\
  (forall g key e se, y_gs s !! g = Some (GStream key e se) -> is_Some (publish_streaming (y_sl s) e se)) /\
  (forall g key e, y_gs s !! g = Some (GClosing key e) -> is_Some (close_done (y_sl s) e)) /\
  (forall g streaming key e, y_gs s !! g = Some (GWait streaming key e) ->
     (exists le, sl_heap (y_sl s) !! e = Some le /\ wait_results streaming le <> []) \/
     (exists g' pc, y_gs s !! g' = Some pc /\ fetching pc = Some (key, e)) \/
     (exists g', y_gs s !! g' = Some (GClosing key e))).
Proof.
  intros Hinv%inv_reachable. split_and!.
  - intros g g' pc pc' key e e'. by apply (i_fetch1 s Hinv).
  - intros g key e se Hg. destruct (i_pc s Hinv g _ Hg) as [Hl Hr].
    destruct (locked_heap s Hinv _ _ Hl) as (le & Hle & _). unfold publish_streaming.
    unfold heap_of in *. rewrite Hle; cbn. rewrite (Hr le Hle). by eexists.
  - intros g key e Hg. destruct (i_pc s Hinv g _ Hg) as (_ & _ & le & Hle & Hd).
    unfold close_done, heap_of in *. rewrite Hle; cbn. rewrite Hd. by eexists.
  - intros g m key e Hg. destruct (i_pc s Hinv g _ Hg) as (_ & le & Hle & [Hd | [Hl | Hc]]).
    + left. exists le. split; [done |]. unfold wait_results, AcquireStreaming_wait, Acquire_wait.
      rewrite Hd. destruct m; [| done]. by destruct (if le_streamReady le then _ else _).
    + right; left. by destruct (i_lock s Hinv _ _ Hl) as (_ & _ & ?).
    + by right; right.
Qed.

(** C16: What a waiter receives is what the fetcher of its own key published: the
    streaming entry if there is one, else the released entry, else nothing when the
    release carried an error. *)
Theorem Stampede_agreement s g key e r :
  rtc sys_step sys_init s -> y_gs s !! g = Some (GGot key e r) ->
  y_key s !! e = Some key /\ exists le, sl_heap (y_sl s) !! e = Some le /\
    match r with
    | (oe, Some se) => le_streaming le = Some se /\ oe = None
    | (oe, None) => le_done le = true /\ (le_err le <> None -> oe = None) /\
                    (le_err le = None -> oe = le_entry le)
    end.
Proof.
  intros Hinv%inv_reachable Hg. destruct (i_pc s Hinv g _ Hg) as (Hy & le & Hle & Ha).
  split; [done |]. exists le. split; [done |]. unfold agrees in Ha. destruct r as [oe [se |]]; [done |].
  destruct Ha as [Hd Hoe]. split; [done |]. cbn in Hoe. by destruct (le_err le).
Qed.

(** Publishing a streaming entry a second time before the release panics: it closes a
    closed channel. *)
Theorem SetStreaming_twice_panics sl key se se' sl1 :
  sl_locks sl !! key <> None -> SetStreaming sl key se = Some sl1 -> SetStreaming sl1 key se' = None.
Proof.
  intros Hl. unfold SetStreaming. destruct (sl_locks sl !! key) as [e |] eqn:El; [| done].
  unfold publish_streaming. intros (le & Hle & Hp)%bind_Some.
  destruct (le_streamReady le); [done |]. injection Hp as <-. cbn. rewrite El, lookup_alter_eq, Hle. done.
Qed.

(** ** A run: one fetcher, one waiter *)

Definition run_two : sys :=
  {| y_sl := {| sl_locks := {["k" := 0%nat]};
                sl_heap := {[0%nat := set_streaming 7 (add_waiter new_lockEntry)]}; sl_next := 1 |};
     y_gs := {[0%nat := GFetch "k" 0 true; 1%nat := GGot "k" 0 (None, Some 7%nat)]};
     y_key := {[0%nat := "k"]} |}.

Lemma run_two_reachable : rtc sys_step sys_init run_two.
Proof.
  eapply rtc_l; [eapply (step_fetch sys_init 0 "k"); reflexivity |].
  eapply rtc_l; [eapply (step_wait _ 1 true "k"); reflexivity |].
  eapply rtc_l; [eapply (step_set _ 0 "k" 0 0 7); reflexivity |].
  eapply rtc_l; [eapply (step_set_close _ 0 "k" 0 7); reflexivity |].
  eapply rtc_l; [eapply (step_wake _ 1 true "k" 0 _ (None, Some 7%nat)); [reflexivity | reflexivity | by left] |].
  match goal with |- rtc _ ?s _ => assert (E : s = run_two) by (vm_compute; reflexivity) end.
  rewrite E. apply rtc_refl.
Qed.

(** A fetcher about to close [done]. *)
Definition run_one : sys :=
  {| y_sl := {| sl_locks := ∅; sl_heap := {[0%nat := new_lockEntry]}; sl_next := 1 |};
     y_gs := {[0%nat := GClosing "k" 0]}; y_key := {[0%nat := "k"]} |}.

Lemma run_one_reachable : rtc sys_step sys_init run_one.
Proof.
  eapply rtc_l; [eapply (step_fetch sys_init 0 "k"); reflexivity |].
  eapply rtc_l; [eapply (step_release _ 0 "k" 0 false None None); reflexivity |].
  match goal with |- rtc _ ?s _ => assert (E : s = run_one) by (vm_compute; reflexivity) end.
  rewrite E. apply rtc_refl.
Qed.

Lemma Stampede_safety_witness : is_Some (close_done (y_sl run_one) 0).
Proof.
  apply (proj1 (proj2 (proj2 (Stampede_safety run_one run_one_reachable))) 0%nat "k" 0%nat). reflexivity.
Defined.

Lemma Stampede_agreement_witness : y_key run_two !! 0%nat = Some "k".
Proof.
  apply (Stampede_agreement run_two 1 "k" 0 (None, Some 7%nat) run_two_reachable). reflexivity.
Defined.

Lemma SetStreaming_twice_panics_witness :
  SetStreaming (y_sl run_two) "k" 8 = None.
Proof.
  apply (SetStreaming_twice_panics
    {| sl_locks := {["k" := 0%nat]}; sl_heap := {[0%nat := add_waiter new_lockEntry]}; sl_next := 1 |}
    "k" 7 8); [discriminate | vm_compute; reflexivity].
Defined.
