(* ===== verification/Streaming.v ===== *)
(** * Streaming entries ([cache/streaming.go]) and their delivery
    ([serveStreamingEntry] of [handler/handler.go])

    A writer appends to the buffer while readers follow it. Every method runs under
    [se.mu], so it is one step; a [Read] that reaches [cond.Wait] has not happened yet
    and is tried again after the next broadcast, which is the outcome [RBlock]. *)

From S2P Require Import Prelude GoStrings Entry.

Local Open Scope Z_scope.

Record StreamingEntry := {
  se_buf : string;
  se_err : option string;
  se_header : Header;
  se_status : Z;
  se_complete : bool          (* and the channel [done] is closed *)
}.

Definition NewStreamingEntry (header : Header) (status : Z) : StreamingEntry :=
  {| se_buf := ""; se_err := None; se_header := header; se_status := status; se_complete := false |}.

(** [Write]: [None] is the error "write after close". *)
Definition Write (se : StreamingEntry) (p : string) : StreamingEntry * option Z :=
  if se_complete se then (se, None)
  else ({| se_buf := se_buf se +:+ p; se_err := se_err se; se_header := se_header se;
           se_status := se_status se; se_complete := se_complete se |}, Some (str_len p)).

Definition Close (se : StreamingEntry) (err : option string) : StreamingEntry :=
  if se_complete se then se
  else {| se_buf := se_buf se; se_err := err; se_header := se_header se; se_status := se_status se;
          se_complete := true |}.

Definition IsComplete (se : StreamingEntry) : bool := se_complete se.
Definition Err (se : StreamingEntry) : option string := se_err se.
Definition StreamLen (se : StreamingEntry) : Z := str_len (se_buf se).

(** [ToEntry]: the outer [None] is the panic before [Close]. *)
Definition ToEntry (now : Z) (se : StreamingEntry) (ttl swr : Duration) (etag lastMod varyKey : string)
  : option (option Entry) :=
  if negb (se_complete se) then None
  else
    match se_err se with
    | Some _ => Some None
    | None =>
        Some (Some {| e_Body := se_buf se; e_Header := Some (se_header se); e_CompressedHeader := None;
                      e_StatusCode := se_status se; e_StoredAt := now; e_TTL := ttl; e_ETag := etag;
                      e_LastMod := lastMod; e_VaryKey := varyKey; e_StaleWhileRevalidate := swr |})
    end.

(** ** Readers *)

Record StreamingReader := { sr_offset : Z }.
Definition NewReader (offset : Z) : StreamingReader := {| sr_offset := offset |}.

Inductive read_result :=
  | ROk (data : string)      (* n = len(data), nil *)
  | REof
  | RErr (err : string)
  | RBlock                   (* at cond.Wait *)
  | RPanic.                  (* slice bounds out of range *)

(** [Read] with a buffer of [len] bytes. *)
Definition Read (se : StreamingEntry) (sr : StreamingReader) (len : nat) : StreamingReader * read_result :=
  if sr_offset sr <? str_len (se_buf se) then
    if sr_offset sr <? 0 then (sr, RPanic)
    else
      let data := take_bytes len (drop_bytes (Z.to_nat (sr_offset sr)) (se_buf se)) in
      ({| sr_offset := sr_offset sr + str_len data |}, ROk data)
  else if se_complete se then
    match se_err se with Some e => (sr, RErr e) | None => (sr, REof) end
  else (sr, RBlock).

(** The writing loop of [fetchAndServeStreaming]: the body in chunks; [None] when the
    fuel runs out. One unit per byte is enough ([write_chunks_all]). *)
Fixpoint write_chunks (fuel : nat) (chunkSize : nat) (se : StreamingEntry) (body : string)
  : option StreamingEntry :=
  match body, fuel with
  | EmptyString, _ => Some se
  | String _ _, O => None
  | String _ _, S fuel =>
      write_chunks fuel chunkSize (Write se (take_bytes chunkSize body)).1 (drop_bytes chunkSize body)
  end.

(** The reading loop of [serveStreamingEntry] on an entry nobody writes to any more: what
    is written to the client; [None] when the loop blocks or the fuel runs out. *)
Fixpoint drain (fuel : nat) (bufSize : nat) (se : StreamingEntry) (sr : StreamingReader) (out : string)
  : option string :=
  match fuel with
  | O => None
  | S fuel =>
      match Read se sr bufSize with
      | (sr, ROk data) => drain fuel bufSize se sr (out +:+ data)
      | (_, REof) | (_, RErr _) => Some out
      | (_, (RBlock | RPanic)) => None
      end
  end.

(** ** Writers and readers together *)

(** A reader and what it has received so far; [rd_end] is the outcome that ended it. *)
Record reader := { rd_sr : StreamingReader; rd_got : string; rd_end : option (option string) }.

Record stream_sys := { ss_entry : StreamingEntry; ss_readers : gmap nat reader }.

Inductive stream_step : stream_sys -> stream_sys -> Prop :=
  | stream_write se rs p :
      stream_step {| ss_entry := se; ss_readers := rs |} {| ss_entry := (Write se p).1; ss_readers := rs |}
  | stream_close se rs err :
      stream_step {| ss_entry := se; ss_readers := rs |} {| ss_entry := Close se err; ss_readers := rs |}
  | stream_open se rs i :
      rs !! i = None ->
      stream_step {| ss_entry := se; ss_readers := rs |}
        {| ss_entry := se; ss_readers := <[i := {| rd_sr := NewReader 0; rd_got := ""; rd_end := None |}]> rs |}
  | stream_read se rs i r len sr data :
      rs !! i = Some r -> rd_end r = None -> Read se (rd_sr r) len = (sr, ROk data) ->
      stream_step {| ss_entry := se; ss_readers := rs |}
        {| ss_entry := se; ss_readers := <[i := {| rd_sr := sr; rd_got := rd_got r +:+ data; rd_end := None |}]> rs |}
  | stream_eof se rs i r len sr :
      rs !! i = Some r -> rd_end r = None -> Read se (rd_sr r) len = (sr, REof) ->
      stream_step {| ss_entry := se; ss_readers := rs |}
        {| ss_entry := se; ss_readers := <[i := {| rd_sr := sr; rd_got := rd_got r; rd_end := Some None |}]> rs |}
  | stream_err se rs i r len sr e :
      rs !! i = Some r -> rd_end r = None -> Read se (rd_sr r) len = (sr, RErr e) ->
      stream_step {| ss_entry := se; ss_readers := rs |}
        {| ss_entry := se; ss_readers := <[i := {| rd_sr := sr; rd_got := rd_got r; rd_end := Some (Some e) |}]> rs |}.

Definition stream_init (header : Header) (status : Z) : stream_sys :=
  {| ss_entry := NewStreamingEntry header status; ss_readers := ∅ |}.


(** ** The invariant of a reader *)

Definition rd_ok (se : StreamingEntry) (r : reader) : Prop :=
  0 <= sr_offset (rd_sr r) <= str_len (se_buf se) /\
  rd_got r = take_bytes (Z.to_nat (sr_offset (rd_sr r))) (se_buf se) /\
  forall x, rd_end r = Some x -> se_complete se = true /\ se_err se = x /\ rd_got r = se_buf se.

Lemma Read_Ok se sr len sr' data :
  0 <= sr_offset sr <= str_len (se_buf se) -> Read se sr len = (sr', ROk data) ->
  sr_offset sr' = sr_offset sr + str_len data /\ sr_offset sr' <= str_len (se_buf se) /\
  take_bytes (Z.to_nat (sr_offset sr')) (se_buf se)
  = take_bytes (Z.to_nat (sr_offset sr)) (se_buf se) +:+ data.
Proof.
  intros Ho. unfold Read. destruct (Z.ltb_spec (sr_offset sr) (str_len (se_buf se))).
  2: { destruct (se_complete se); [destruct (se_err se) |]; intros [= ]. }
  rewrite (proj2 (Z.ltb_ge (sr_offset sr) 0)) by lia. intros [= <- <-]. cbn [sr_offset].
  set (rest := drop_bytes (Z.to_nat (sr_offset sr)) (se_buf se)).
  assert (Hrest : str_len rest = str_len (se_buf se) - sr_offset sr).
  { unfold rest. rewrite str_len_drop. lia. }
  pose proof (str_len_take len rest) as Hl. split; [done |]. split; [lia |].
  rewrite Hl, Z2Nat.inj_add, take_bytes_add by lia. fold rest. f_equal.
  destruct (Nat.le_ge_cases len (Z.to_nat (str_len rest))).
  - by replace (Z.to_nat (Z.min (Z.of_nat len) (str_len rest))) with len by lia.
  - rewrite !take_bytes_all by lia. done.
Qed.

Lemma Read_end se sr len sr' :
  0 <= sr_offset sr <= str_len (se_buf se) ->
  (Read se sr len = (sr', REof) -> sr' = sr /\ se_complete se = true /\ se_err se = None /\ sr_offset sr = str_len (se_buf se)) /\
  (forall e, Read se sr len = (sr', RErr e) ->
     sr' = sr /\ se_complete se = true /\ se_err se = Some e /\ sr_offset sr = str_len (se_buf se)).
Proof.
  intros Ho. unfold Read. destruct (Z.ltb_spec (sr_offset sr) (str_len (se_buf se))).
  { destruct (sr_offset sr <? 0); split; intros; congruence. }
  destruct (se_complete se); [destruct (se_err se) |]; split; intros; simplify_eq; split_and!; done || lia.
Qed.

Lemma Write_facts se p :
  (exists t, se_buf (Write se p).1 = se_buf se +:+ t /\ (se_complete se = true -> t = "")) /\
  se_complete (Write se p).1 = se_complete se /\ se_err (Write se p).1 = se_err se.
Proof.
  unfold Write. destruct (se_complete se) eqn:E; cbn.
  - rewrite E. split; [| done]. exists ""%string. by rewrite str_app_nil_r.
  - split; [| done]. exists p. by split.
Qed.

Lemma rd_ok_write se p r : rd_ok se r -> rd_ok (Write se p).1 r.
Proof.
  intros (Ho & Hg & He). destruct (Write_facts se p) as ((t & Hb & Ht) & Hc & Herr).
  unfold rd_ok. rewrite Hb, Hc, Herr, str_len_app. pose proof (str_len_nonneg t). split_and!; [lia | lia | |].
  - rewrite take_bytes_app by lia. done.
  - intros x Hx. destruct (He x Hx) as (Hcc & Hee & ->). split_and!; try done.
    by rewrite (Ht Hcc), str_app_nil_r.
Qed.

Lemma rd_ok_close se err r : rd_ok se r -> rd_ok (Close se err) r.
Proof.
  intros Hok. unfold Close. destruct (se_complete se) eqn:E; [done |]. destruct Hok as (Ho & Hg & He).
  unfold rd_ok; cbn. split_and!; [lia | lia | done |]. intros x Hx. destruct (He x Hx). congruence.
Qed.

Lemma stream_inv_step s s' :
  map_Forall (fun _ r => rd_ok (ss_entry s) r) (ss_readers s) -> stream_step s s' ->
  map_Forall (fun _ r => rd_ok (ss_entry s') r) (ss_readers s').
Proof.
  intros Hall Hs. destruct Hs as [se rs p | se rs err | se rs i Hi | se rs i r len sr data Hi He Hr
    | se rs i r len sr Hi He Hr | se rs i r len sr e Hi He Hr]; cbn [ss_entry ss_readers] in *.
  - intros i r Hi. by apply rd_ok_write, (Hall i).
  - intros i r Hi. by apply rd_ok_close, (Hall i).
  - apply map_Forall_insert_2; [| done]. split_and!; cbn; [lia | apply str_len_nonneg | done | done].
  - apply map_Forall_insert_2; [| done]. destruct (Hall i r Hi) as (Ho & Hg & _).
    destruct (Read_Ok _ _ _ _ _ Ho Hr) as (H1 & H2 & H3). pose proof (str_len_nonneg data).
    split_and!; cbn; [lia | lia | by rewrite H3, Hg | done].
  - apply map_Forall_insert_2; [| done]. destruct (Hall i r Hi) as (Ho & Hg & _).
    destruct (proj1 (Read_end se (rd_sr r) len sr Ho) Hr) as (-> & Hc & Hn & Hoff).
    split_and!; cbn; [lia | lia | done |]. intros x [= <-]. split_and!; try done.
    rewrite Hg. apply take_bytes_all. lia.
  - apply map_Forall_insert_2; [| done]. destruct (Hall i r Hi) as (Ho & Hg & _).
    destruct (proj2 (Read_end se (rd_sr r) len sr Ho) e Hr) as (-> & Hc & Hn & Hoff).
    split_and!; cbn; [lia | lia | done |]. intros x [= <-]. split_and!; try done.
    rewrite Hg. apply take_bytes_all. lia.
Qed.

(** C28: However writes, the close and any number of readers interleave, each reader has
    received exactly the first bytes of the body up to its position; one that has seen
    the end has received the whole body, which is final, and was told the writer's
    error; and a reader blocks only when it has caught up with a writer still at work. *)
Theorem stream_readers_prefix header status s i r :
  rtc stream_step (stream_init header status) s -> ss_readers s !! i = Some r ->
  let se := ss_entry s in
  rd_got r = take_bytes (Z.to_nat (sr_offset (rd_sr r))) (se_buf se) /\
  (forall err, rd_end r = Some err -> rd_got r = se_buf se /\ se_complete se = true /\ se_err se = err) /\
  (forall len, (Read se (rd_sr r) len).2 <> RPanic /\
     ((Read se (rd_sr r) len).2 = RBlock <-> rd_got r = se_buf se /\ se_complete se = false)).
Proof.
  intros Hr Hi se.
  assert (Hall : map_Forall (fun _ r => rd_ok (ss_entry s) r) (ss_readers s)).
  { apply (rtc_invariant stream_step (fun s => map_Forall (fun _ r => rd_ok (ss_entry s) r) (ss_readers s))
      (stream_init header status) s); [apply map_Forall_empty | apply stream_inv_step | done]. }
  destruct (Hall i r Hi) as (Ho & Hg & He). fold se in Ho, Hg, He. split_and!; [done | by intros err (? & ? & ?)%He |].
  intros len. unfold Read. rewrite Hg. destruct (Z.ltb_spec (sr_offset (rd_sr r)) (str_len (se_buf se))) as [Hlt | Hge].
  - rewrite (proj2 (Z.ltb_ge (sr_offset (rd_sr r)) 0)) by lia. split; [done |]. split; [done |].
    intros [E _]. apply (f_equal str_len) in E. rewrite str_len_take in E. lia.
  - rewrite take_bytes_all by lia. destruct (se_complete se); [destruct (se_err se) |]; (split; [done |]); first [by split; [| intros []] | tauto].
Qed.

(** ** The loops of the handler *)

Lemma write_chunks_all n se body fuel :
  (0 < n)%nat -> se_complete se = false -> (String.length body <= fuel)%nat ->
  exists se', write_chunks fuel n se body = Some se' /\ se_buf se' = se_buf se +:+ body /\
    se_complete se' = false /\ se_err se' = se_err se /\ se_header se' = se_header se /\ se_status se' = se_status se.
Proof.
  intros Hn. revert se body. induction fuel as [| fuel IH]; intros se body Hc Hl.
  - destruct body; cbn in Hl; [| lia]. exists se. rewrite str_app_nil_r. by split_and!.
  - destruct body as [| c body]; [exists se; rewrite str_app_nil_r; by split_and! |].
    cbn [write_chunks]. unfold Write. rewrite Hc. cbn [fst].
    set (b := String c body) in *. pose proof (take_drop_bytes n b) as Htd.
    destruct (IH {| se_buf := se_buf se +:+ take_bytes n b; se_err := se_err se; se_header := se_header se;
                    se_status := se_status se; se_complete := false |} (drop_bytes n b) eq_refl)
      as (se' & Hw & Hb & Hc' & Her & Hh & Hst).
    + pose proof (str_len_drop n b) as Hd. unfold str_len, b in Hd, Hl. cbn in Hd, Hl. unfold b. lia.
    + exists se'. rewrite Hw. cbn [se_buf se_err se_header se_status] in *. split_and!; try done.
      by rewrite Hb, str_app_assoc, Htd.
Qed.

Lemma drain_all n se sr fuel out :
  (0 < n)%nat -> se_complete se = true -> 0 <= sr_offset sr <= str_len (se_buf se) ->
  str_len (se_buf se) - sr_offset sr < Z.of_nat fuel ->
  drain fuel n se sr out = Some (out +:+ drop_bytes (Z.to_nat (sr_offset sr)) (se_buf se)).
Proof.
  intros Hn Hc. revert sr out. induction fuel as [| fuel IH]; intros sr out Ho Hf; [lia |]. cbn [drain].
  set (rest := drop_bytes (Z.to_nat (sr_offset sr)) (se_buf se)).
  assert (Hrest : str_len rest = str_len (se_buf se) - sr_offset sr).
  { unfold rest. rewrite str_len_drop. lia. }
  unfold Read. destruct (Z.ltb_spec (sr_offset sr) (str_len (se_buf se))).
  - rewrite (proj2 (Z.ltb_ge (sr_offset sr) 0)) by lia. fold rest.
    pose proof (str_len_take n rest). rewrite IH; cbn [sr_offset]; [| lia | lia].
    f_equal. rewrite str_app_assoc. f_equal. rewrite Z2Nat.inj_add, <- drop_drop_bytes by lia. fold rest.
    destruct (Nat.le_ge_cases n (Z.to_nat (str_len rest))).
    + replace (Z.to_nat (str_len (take_bytes n rest))) with n by lia. apply take_drop_bytes.
    + by rewrite (take_bytes_all n), (drop_bytes_all (Z.to_nat _)), str_app_nil_r by lia.
  - rewrite Hc. assert (rest = "") as ->.
    { destruct rest; [done |]. unfold str_len in Hrest; cbn in Hrest. unfold str_len in *. lia. }
    rewrite str_app_nil_r. by destruct (se_err se).
Qed.

(** C29: The body written in chunks and closed without error is the body of the cache
    entry, and the body every later reader is served, whatever the chunk and buffer
    sizes; both loops end. *)
Theorem stream_delivers header status body chunk buf now ttl swr etag lastMod varyKey :
  (0 < chunk)%nat -> (0 < buf)%nat ->
  exists se, write_chunks (String.length body) chunk (NewStreamingEntry header status) body = Some se /\
    let se := Close se None in
    drain (S (String.length body)) buf se (NewReader 0) "" = Some body /\
    exists e, ToEntry now se ttl swr etag lastMod varyKey = Some (Some e) /\
      e_Body e = body /\ e_StatusCode e = status /\ e_Header e = Some header /\
      e_StoredAt e = now /\ e_TTL e = ttl.
Proof.
  intros Hch Hb. destruct (write_chunks_all chunk (NewStreamingEntry header status) body (String.length body) Hch eq_refl (le_n _))
    as (se & Hw & Hbuf & Hc & He & Hh & Hst).
  exists se. split; [done |]. unfold Close. rewrite Hc. cbn in Hbuf. split.
  - rewrite drain_all; cbn [se_complete se_buf sr_offset NewReader]; rewrite ?Hbuf; try done.
    + split; [lia | apply str_len_nonneg].
    + unfold str_len. lia.
  - eexists. split; [reflexivity |]. cbn. by rewrite Hbuf, Hst, Hh.
Qed.

(** ** Concrete inputs *)

(** One chunk written, one reader that has read two bytes of it. *)
Definition run_read : stream_sys :=
  {| ss_entry := {| se_buf := "abc"; se_err := None; se_header := ∅; se_status := 200; se_complete := false |};
     ss_readers := {[0%nat := {| rd_sr := {| sr_offset := 2 |}; rd_got := "ab"; rd_end := None |}]} |}.

Lemma run_read_reachable : rtc stream_step (stream_init ∅ 200) run_read.
Proof.
  eapply rtc_l; [apply (stream_open _ _ 0); reflexivity |].
  eapply rtc_l; [apply (stream_write _ _ "abc") |].
  eapply rtc_l; [eapply (stream_read _ _ 0 _ 2); reflexivity |].
  match goal with |- rtc _ ?s _ => assert (E : s = run_read) by (vm_compute; reflexivity) end.
  rewrite E. apply rtc_refl.
Qed.

Lemma stream_readers_prefix_witness :
  (Read (ss_entry run_read) {| sr_offset := 2 |} 5).2 <> RPanic.
Proof.
  apply (stream_readers_prefix ∅ 200 run_read 0 {| rd_sr := {| sr_offset := 2 |}; rd_got := "ab"; rd_end := None |}
    run_read_reachable ltac:(reflexivity)).
Defined.

Lemma stream_delivers_witness :
  exists se, write_chunks 5 2 (NewStreamingEntry ∅ 200) "hello" = Some se /\
    drain 6 3 (Close se None) (NewReader 0) "" = Some "hello"%string.
Proof.
  destruct (stream_delivers ∅ 200 "hello" 2 3 0 0 0 "" "" "") as (se & Hw & Hd & _); [lia | lia |].
  exists se. split; [exact Hw | exact Hd].
Defined.
