(* ===== verification/Http.v ===== *)
(** * Requests and responses ([net/http], as the handlers use it)

    A request with the fields the handlers read, and a response writer that keeps what
    is sent: the first [WriteHeader] fixes the status and the header, [Write] sends a
    200 first when nothing was sent. The server drops the body of a HEAD response; that
    is below this model. *)

From S2P Require Import Prelude GoStrings.

Local Open Scope Z_scope.

(** [r_RequestURI] is what [URL.RequestURI] returns: the escaped path and query. *)
Record Request := {
  r_Method : string;
  r_Host : string;
  r_Path : string;
  r_RawQuery : string;
  r_RequestURI : string;
  r_Header : Header
}.

(** [http.ResponseWriter]: what a handler may do with the writer it is given. The map that
    [Header()] returns is shared: changing it is [w_set_header]. Every writer of the
    program is an instance: the server's below, and the wrapper of each middleware. *)
Class Writer (W : Type) := {
  w_header : W -> Header;
  w_set_header : Header -> W -> W;
  WriteHeader : Z -> W -> W;
  w_Write : string -> W -> W
}.
#[export] Hint Mode Writer ! : typeclass_instances.

(** [http.Handler] over what the program shares: a handler runs on any writer. *)
Definition HttpHandler (S : Type) : Type := forall W : Type, Writer W -> S -> W -> Request -> S * W.

(** The server's writer. *)
Record ResponseWriter := {
  srv_header : Header;
  w_status : Z;           (* 0 until [WriteHeader] *)
  w_sent : Header;        (* the header at the time of [WriteHeader] *)
  w_body : string
}.

Definition new_writer : ResponseWriter := {| srv_header := ∅; w_status := 0; w_sent := ∅; w_body := "" |}.

Definition srv_set_header (h : Header) (w : ResponseWriter) : ResponseWriter :=
  {| srv_header := h; w_status := w_status w; w_sent := w_sent w; w_body := w_body w |}.

Definition srv_WriteHeader (code : Z) (w : ResponseWriter) : ResponseWriter :=
  if w_status w =? 0
  then {| srv_header := srv_header w; w_status := code; w_sent := srv_header w; w_body := w_body w |}
  else w.

Definition srv_Write (data : string) (w : ResponseWriter) : ResponseWriter :=
  let w := if w_status w =? 0 then srv_WriteHeader 200 w else w in
  {| srv_header := srv_header w; w_status := w_status w; w_sent := w_sent w; w_body := w_body w +:+ data |}.

#[export] Instance server_writer : Writer ResponseWriter :=
  {| w_header := srv_header; w_set_header := srv_set_header; WriteHeader := srv_WriteHeader; w_Write := srv_Write |}.

(** Down to the server's writer. *)
Ltac server :=
  cbn [w_header w_set_header WriteHeader w_Write server_writer];
  unfold srv_set_header, srv_Write, srv_WriteHeader; cbn [srv_header w_status w_sent w_body].

Definition nl : string := String (chr 10) "".
Definition dquote : string := String (chr 34) "".

(** What a handler does with its writer, as a list. *)
Inductive wop :=
  | OpHeader (f : Header -> Header)     (* changes of [w.Header()] *)
  | OpWriteHeader (code : Z)
  | OpWrite (data : string).

Section writer.
Context {W : Type} `{Writer W}.

(** [http.Error] *)
Definition http_Error (msg : string) (code : Z) (w : W) : W :=
  let h := Header_Del (w_header w) "Content-Length" in
  let h := Header_Set h "Content-Type" "text/plain; charset=utf-8" in
  let h := Header_Set h "X-Content-Type-Options" "nosniff" in
  w_Write (msg +:+ nl) (WriteHeader code (w_set_header h w)).

(** [for k, vals := range h { for _, v := range vals { w.Header().Add(k, v) } }] *)
Definition copied_header (h : Header) (acc : Header) : Header :=
  foldl (fun acc kv => foldl (fun acc v => Header_Add acc kv.1 v) acc kv.2) acc (map_to_list h).
Definition copy_header (h : Header) (w : W) : W := w_set_header (copied_header h (w_header w)) w.

Definition run_op (w : W) (op : wop) : W :=
  match op with
  | OpHeader f => w_set_header (f (w_header w)) w
  | OpWriteHeader code => WriteHeader code w
  | OpWrite data => w_Write data w
  end.

Definition run_ops (ops : list wop) (w : W) : W := foldl run_op w ops.

End writer.

(** [r.URL.Query().Get(name)] on the raw query. *)
Class UrlQuery := { query_get : string -> string -> string }.

(** A header as [net/http] builds it: canonical keys, at least one value each. *)
Definition header_canonical (h : Header) : Prop :=
  map_Forall (fun k vs => CanonicalHeaderKey k = k /\ vs <> []) h.

(** ** Lemmas *)

Lemma foldl_Header_Add acc k vs :
  vs <> [] ->
  foldl (fun acc v => Header_Add acc k v) acc vs
  = <[CanonicalHeaderKey k := default [] (acc !! CanonicalHeaderKey k) ++ vs]> acc.
Proof.
  revert acc. induction vs as [| v vs IH]; intros acc Hne; [done |]. cbn [foldl].
  destruct vs as [| v' vs].
  - done.
  - rewrite IH by done. unfold Header_Add. rewrite lookup_insert_eq, insert_insert_eq. unfold default, id.
    by rewrite <- app_assoc.
Qed.

(** Into an empty header the copy is the header itself. *)
Lemma copied_header_fresh h : header_canonical h -> copied_header h ∅ = h.
Proof.
  intros Hc. unfold copied_header.
  assert (Hg : forall l acc, NoDup l.*1 -> (forall k vs, (k, vs) ∈ l -> CanonicalHeaderKey k = k /\ vs <> []) ->
    (forall k, k ∈ l.*1 -> acc !! k = None) ->
    foldl (fun acc kv => foldl (fun acc v => Header_Add acc kv.1 v) acc kv.2) acc l
    = list_to_map l ∪ acc).
  { induction l as [| [k vs] l IH]; intros acc Hnd Hk Hacc; cbn [foldl].
    - by rewrite list_to_map_nil, (left_id_L ∅ (∪)).
    - rewrite list_to_map_cons. destruct (Hk k vs ltac:(left)) as [Hck Hvs]. cbn [fst snd].
      apply NoDup_cons in Hnd as [Hkn Hnd].
      rewrite foldl_Header_Add, Hck, (Hacc k ltac:(left)) by done. unfold default. cbn [app].
      rewrite IH; [| done | intros; apply Hk; by right |].
      + rewrite <- insert_union_l. apply map_eq. intros i. destruct (decide (k = i)) as [-> | Hne].
        * rewrite lookup_insert_eq, lookup_union, lookup_insert_eq.
          rewrite not_elem_of_list_to_map_1 by done. done.
        * by rewrite lookup_insert_ne, !lookup_union, lookup_insert_ne by done.
      + intros k' Hk'. rewrite lookup_insert_ne by (intros ->; done). apply Hacc. by right. }
  rewrite Hg.
  - by rewrite (right_id_L ∅ (∪)), list_to_map_to_list.
  - apply NoDup_fst_map_to_list.
  - intros k vs Hin%elem_of_map_to_list. by apply (Hc k vs).
  - intros k _. apply lookup_empty.
Qed.

Lemma copy_header_fresh h (w : ResponseWriter) :
  header_canonical h -> w_header w = ∅ -> w_header (copy_header h w) = h.
Proof. intros Hc Hw. unfold copy_header. rewrite Hw. by apply copied_header_fresh. Qed.

(** Every writer keeps the header map it is given... *)
Class HeaderLaws (W : Type) `{Writer W} : Prop := {
  header_set : forall h (w : W), w_header (w_set_header h w) = h;
  set_header_set : forall h h' (w : W), w_set_header h (w_set_header h' w) = w_set_header h w
}.

(** ...and all but the compressing one leave the map alone when they write. *)
Class WriterLaws (W : Type) `{Writer W} : Prop := {
  writer_header : HeaderLaws W;
  header_WriteHeader : forall code (w : W), w_header (WriteHeader code w) = w_header w;
  header_Write : forall data (w : W), w_header (w_Write data w) = w_header w
}.
#[export] Existing Instance writer_header.

#[export] Instance server_laws : WriterLaws ResponseWriter.
Proof.
  split; [by split | |]; intros; server; [by destruct (_ =? _) |].
  destruct (w_status w =? 0) eqn:E; rewrite ?E; done.
Qed.

Lemma run_ops_app `{Writer W} ops ops' (w : W) : run_ops (ops ++ ops') w = run_ops ops' (run_ops ops w).
Proof. apply foldl_app. Qed.

Lemma http_Error_sends msg code (w : ResponseWriter) :
  w_status w = 0 -> code <> 0 ->
  w_status (http_Error msg code w) = code /\ w_body (http_Error msg code w) = w_body w +:+ (msg +:+ nl).
Proof. intros Hw Hc. unfold http_Error. server. rewrite Hw. cbn. by rewrite (proj2 (Z.eqb_neq _ _) Hc). Qed.

Lemma run_ops_cons `{Writer W} op ops (w : W) : run_ops (op :: ops) w = run_ops ops (run_op w op).
Proof. done. Qed.

(** Two changes of the header are one. *)
Lemma run_header_header `{HeaderLaws W} f g ops (w : W) :
  run_ops (OpHeader f :: OpHeader g :: ops) w = run_ops (OpHeader (fun h => g (f h)) :: ops) w.
Proof. rewrite !run_ops_cons. cbn [run_op]. by rewrite header_set, set_header_set. Qed.

(** ** Handlers as scripts

    What a handler does for a request, in a state, does not depend on the writer: it is a
    list of operations, the same on every writer. *)
Definition runs {S} (h : HttpHandler S) (s : S) (r : Request) (s' : S) (ops : list wop) : Prop :=
  forall W (HW : Writer W) (HL : HeaderLaws W) (w : W), h W HW s w r = (s', run_ops ops w).

(** The same where the list depends on the header the writer starts with. *)
Definition runs_from {S} (hd : Header) (h : HttpHandler S) (s : S) (r : Request) (s' : S) (ops : list wop) : Prop :=
  forall W (HW : Writer W) (HL : WriterLaws W) (w : W), w_header w = hd -> h W HW s w r = (s', run_ops ops w).

Lemma runs_runs_from {S} hd (h : HttpHandler S) s r s' ops : runs h s r s' ops -> runs_from hd h s r s' ops.
Proof. intros Hr W HW HL w _. apply Hr, _. Qed.

(** The usual script: the header, the status if it is set, the pieces of the body. *)
Record answer := { an_set : Header -> Header; an_code : option Z; an_data : list string }.
Definition answer_ops (a : answer) : list wop :=
  OpHeader (an_set a) :: option_list (OpWriteHeader <$> an_code a) ++ map OpWrite (an_data a).

(** The script of a handler that does what a list says. *)
Definition ops_handler {S} (f : Request -> list wop) : HttpHandler S := fun W _ s w r => (s, run_ops (f r) w).
Lemma ops_handler_runs {S} f (s : S) r : runs (ops_handler f) s r s (f r).
Proof. by intros W HW HL w. Qed.

Lemma server_writes datas (w : ResponseWriter) :
  w_status w <> 0 ->
  let w' := run_ops (map OpWrite datas) w in
  w_status w' = w_status w /\ w_sent w' = w_sent w /\ w_header w' = w_header w /\ w_body w' = w_body w +:+ String.concat "" datas.
Proof.
  revert w. induction datas as [| d datas IH]; intros w Hw; cbn [map].
  { cbn. by rewrite str_app_nil_r. }
  rewrite run_ops_cons. cbn [run_op]. assert (Hd : w_Write d w = {| srv_header := srv_header w; w_status := w_status w; w_sent := w_sent w; w_body := w_body w +:+ d |}).
  { server. by rewrite (proj2 (Z.eqb_neq _ _) Hw). }
  rewrite Hd. destruct (IH {| srv_header := srv_header w; w_status := w_status w; w_sent := w_sent w; w_body := w_body w +:+ d |} Hw) as (-> & -> & -> & ->).
  cbn [w_status w_sent w_body]. split_and!; try done. rewrite str_app_assoc. by destruct datas; cbn [String.concat]; rewrite ?str_app_nil_r.
Qed.

(** What the client gets of an answer. *)
Lemma server_answer a code (w : ResponseWriter) :
  w_status w = 0 -> w_body w = ""%string -> an_code a = Some code -> code <> 0 ->
  let w' := run_ops (answer_ops a) w in
  w_status w' = code /\ w_sent w' = an_set a (w_header w) /\ w_header w' = an_set a (w_header w) /\ w_body w' = String.concat "" (an_data a).
Proof.
  intros Hw Hb Hc Hn. unfold answer_ops. rewrite Hc. cbn [fmap option_fmap option_map option_list option_rect app].
  rewrite !run_ops_cons. cbn [run_op].
  match goal with |- context [run_ops _ ?w1] => destruct (server_writes (an_data a) w1) as (-> & -> & -> & ->) end; server; rewrite Hw; cbn; try done.
  by rewrite Hb.
Qed.
