(* ===== verification/CacheControl.v ===== *)
(** * Cache-Control and the lifetime of a response ([handler/handler.go], lines 340-357 and 427-478) *)

From S2P Require Import Prelude GoStrings.

Local Open Scope Z_scope.
Local Open Scope go_scope.

Definition isCacheableStatus (code : Z) : bool :=
  existsb (Z.eqb code) [200; 203; 204; 206; 300; 301; 308; 404; 410].

Section unicode.
Context `{Unicode}.

(** The head of both loops: the part before the next comma, and what is left. *)
Definition next_part (cc : string) : string * string :=
  match cut_byte "," cc with
  | (part, Some rest) => (part, rest)
  | (part, None) => (part, EmptyString)
  end.

(** [for cc != ""]; [None] when the fuel runs out. Each round drops a byte at least, so
    one unit per byte and one for the last test are enough ([directive_loop_spec]). *)
Fixpoint directive_loop (fuel : nat) (cc directive : string) : option bool :=
  match fuel with
  | O => None
  | S fuel =>
      match cc with
      | EmptyString => Some false
      | _ =>
          let '(part, cc) := next_part cc in
          let part := TrimSpace part in
          let key := TrimSpace (cut_byte "=" part).1 in
          if EqualFold key directive then Some true else directive_loop fuel cc directive
      end
  end.

Definition hasCacheDirective (cc directive : string) : bool :=
  default false (directive_loop (S (String.length cc)) cc directive).

Fixpoint value_loop (fuel : nat) (cc directive : string) : option Duration :=
  match fuel with
  | O => None
  | S fuel =>
      match cc with
      | EmptyString => Some 0
      | _ =>
          let '(part, cc) := next_part cc in
          let part := TrimSpace part in
          match cut_byte "=" part with
          | (key, Some val) =>
              if EqualFold (TrimSpace key) directive then
                match Atoi (TrimSpace val) with
                | Some secs => Some (secs *i64 Second)
                | None => value_loop fuel cc directive
                end
              else value_loop fuel cc directive
          | (_, None) => value_loop fuel cc directive
          end
      end
  end.

Definition getCacheDirectiveValue (cc directive : string) : Duration :=
  default 0 (value_loop (S (String.length cc)) cc directive).

(** [determineTTL]: the time to live and the stale-while-revalidate window. *)
Definition determineTTL (defaultTTL : Duration) (respHeader : Header) : Duration * Duration :=
  let cc := Header_Get respHeader "Cache-Control" in
  if hasCacheDirective cc "no-store" || hasCacheDirective cc "private" then (0, 0)
  else
    let swr := getCacheDirectiveValue cc "stale-while-revalidate" in
    let sma := getCacheDirectiveValue cc "s-maxage" in
    if 0 <? sma then (sma, swr)
    else
      let ma := getCacheDirectiveValue cc "max-age" in
      if 0 <? ma then (ma, swr) else (defaultTTL, swr).

(** ** The loops against the list of parts *)

(** The name and the value, if any, of one comma-separated part. *)
Definition part_name (part : string) : string := TrimSpace (cut_byte "=" (TrimSpace part)).1.
Definition part_value (part : string) : option Z :=
  match cut_byte "=" (TrimSpace part) with (_, Some val) => Atoi (TrimSpace val) | (_, None) => None end.

Definition names (directive part : string) : bool := EqualFold (part_name part) directive.

Lemma next_part_Split cc :
  cc <> EmptyString ->
  exists part rest, next_part cc = (part, rest) /\ (String.length rest < String.length cc)%nat /\
    (Split "," cc = [part] /\ rest = EmptyString \/ Split "," cc = part :: Split "," rest).
Proof using.
  intros Hne. unfold next_part.
  assert (Hc : forall s, match cut_byte "," s with
    | (p, Some r) => Split "," s = p :: Split "," r /\ (String.length r < String.length s)%nat
    | (p, None) => Split "," s = [p]
    end).
  { induction s as [| c s IH]; [done |]. cbn [cut_byte Split]. destruct (Ascii.eqb c ","); [cbn; split; [done | lia] |].
    destruct (cut_byte "," s) as [p [r |]].
    - destruct IH as [-> Hl]. split; [done | cbn; lia].
    - by rewrite IH. }
  specialize (Hc cc). destruct (cut_byte "," cc) as [p [r |]].
  - destruct Hc as [Hs Hl]. exists p, r. split_and!; [done | done | by right].
  - exists p, EmptyString. split_and!; [done | | by left]. destruct cc; [done | cbn; lia].
Qed.

Lemma directive_loop_spec fuel cc d :
  (String.length cc < fuel)%nat -> EqualFold (part_name EmptyString) d = false ->
  directive_loop fuel cc d = Some (existsb (names d) (Split "," cc)).
Proof using.
  intros Hf Hd. revert cc Hf. induction fuel as [| fuel IH]; intros cc Hf; [lia |]. cbn [directive_loop].
  destruct cc as [| c cc]; [cbn; unfold names; by rewrite Hd |].
  destruct (next_part_Split (String c cc)) as (part & rest & Hn & Hl & Hs); [done |]. rewrite Hn.
  fold (part_name part). fold (names d part).
  assert (Hrec : directive_loop fuel rest d = Some (existsb (names d) (Split "," rest))) by (apply IH; lia).
  destruct Hs as [[Hs Hr] | Hs]; rewrite Hs; cbn [existsb]; destruct (names d part); cbn [orb]; try done.
  rewrite Hrec, Hr. cbn. unfold names. by rewrite Hd.
Qed.

(** The first part that has the name and a number. *)
Fixpoint first_value (d : string) (parts : list string) : Duration :=
  match parts with
  | [] => 0
  | p :: ps =>
      match names d p, part_value p with
      | true, Some secs => secs *i64 Second
      | _, _ => first_value d ps
      end
  end.

Lemma value_loop_spec fuel cc d :
  (String.length cc < fuel)%nat -> part_value EmptyString = None ->
  value_loop fuel cc d = Some (first_value d (Split "," cc)).
Proof using.
  intros Hf Hv. revert cc Hf. induction fuel as [| fuel IH]; intros cc Hf; [lia |]. cbn [value_loop].
  destruct cc as [| c cc]; [cbn [Split first_value]; rewrite Hv; by destruct (names d EmptyString) |].
  destruct (next_part_Split (String c cc)) as (part & rest & Hn & Hl & Hs); [done |]. rewrite Hn.
  assert (Hrec : value_loop fuel rest d = Some (first_value d (Split "," rest))) by (apply IH; lia).
  assert (Hcont : Some (first_value d (Split "," (String c cc))) =
    match names d part, part_value part with
    | true, Some secs => Some (secs *i64 Second)
    | _, _ => value_loop fuel rest d
    end).
  { rewrite Hrec. destruct Hs as [[Hs ->] | Hs]; rewrite Hs; cbn [first_value Split].
    - rewrite Hv. destruct (names d part), (part_value part), (names d EmptyString); done.
    - by destruct (names d part), (part_value part). }
  rewrite Hcont. unfold names, part_name, part_value.
  destruct (cut_byte "=" (TrimSpace part)) as [k [v |]]; cbn [fst].
  - destruct (EqualFold (TrimSpace k) d); [by destruct (Atoi (TrimSpace v)) | done].
  - by destruct (EqualFold (TrimSpace k) d).
Qed.

Lemma trim_empty : TrimSpace EmptyString = EmptyString.
Proof using. done. Qed.

Lemma hasCacheDirective_spec cc d :
  EqualFold EmptyString d = false -> hasCacheDirective cc d = existsb (names d) (Split "," cc).
Proof using. intros Hd. unfold hasCacheDirective. by rewrite directive_loop_spec by (done || lia). Qed.

Lemma getCacheDirectiveValue_spec cc d : getCacheDirectiveValue cc d = first_value d (Split "," cc).
Proof using. unfold getCacheDirectiveValue. by rewrite value_loop_spec by (done || lia). Qed.

(** Reading a Cache-Control header without splitting it finds what splitting it at the
    commas finds: a directive is present when some part, trimmed, has its name up to
    case; its value is that of the first such part with a number. *)
Theorem directives_of_parts cc d :
  EqualFold EmptyString d = false ->
  hasCacheDirective cc d = existsb (names d) (Split "," cc) /\
  getCacheDirectiveValue cc d = first_value d (Split "," cc).
Proof using.
  intros Hd. split; [by apply hasCacheDirective_spec | apply getCacheDirectiveValue_spec].
Qed.


(** Only the first [Cache-Control] line counts: a directive on a later line, which HTTP
    reads as part of the same list, changes nothing. *)
Theorem determineTTL_first_line default h cc later :
  determineTTL default (<["Cache-Control" := cc :: later]> h) = determineTTL default (<["Cache-Control" := [cc]]> h).
Proof.
  unfold determineTTL, Header_Get. replace (CanonicalHeaderKey "Cache-Control") with "Cache-Control"%string by reflexivity.
  by rewrite !lookup_insert_eq.
Qed.

(** A response that says it is already stale ([max-age=0]), or that it must not be
    reused without revalidation ([no-cache]), is given the default lifetime. *)
Theorem determineTTL_stale_cached default :
  determineTTL default {["Cache-Control" := ["max-age=0"]]} = (default, 0) /\
  determineTTL default {["Cache-Control" := ["s-maxage=0"]]} = (default, 0) /\
  determineTTL default {["Cache-Control" := ["no-cache"]]} = (default, 0).
Proof using. split_and!; reflexivity. Qed.

End unicode.

(** ** Concrete inputs *)

#[local] Existing Instance ascii_unicode.

Lemma directives_of_parts_witness :
  hasCacheDirective "public, No-Store , max-age=60" "no-store" = true /\
  getCacheDirectiveValue "public, No-Store , max-age=60" "max-age" = 60 * Second.
Proof.
  split.
  - rewrite (proj1 (directives_of_parts "public, No-Store , max-age=60" "no-store" eq_refl)). reflexivity.
  - rewrite (proj2 (directives_of_parts "public, No-Store , max-age=60" "max-age" eq_refl)). reflexivity.
Defined.
