(* ===== verification/Range.v ===== *)
(** * Byte ranges ([handler/range.go])

    [parseRange] and [serveRange], and what a range header denotes ([reads_range],
    [satisfiable], [denotes]), written without them. *)

From S2P Require Import Prelude GoStrings Entry Http.

Local Open Scope Z_scope.

Section unicode.
Context `{Unicode}.

(** [None] is [ok = false]. *)
Definition parseRange (rangeHeader : string) (contentLength : Z) : option (Z * Z) :=
  if contentLength <=? 0 then None
  else if negb (HasPrefix rangeHeader "bytes=") then None
  else
    let spec := TrimPrefix rangeHeader "bytes=" in
    if Contains spec "," then None
    else
      let spec := TrimSpace spec in
      if String.eqb spec "" then None
      else
        match cut_byte "-" spec with
        | (_, None) => None
        | (before, Some after) =>
            let startStr := TrimSpace before in
            let endStr := TrimSpace after in
            if String.eqb startStr "" then
              match Atoi endStr with
              | None => None
              | Some suffix =>
                  if suffix <=? 0 then None
                  else
                    let start := i64 (contentLength - suffix) in
                    Some (if start <? 0 then 0 else start, contentLength - 1)
              end
            else
              match Atoi startStr with
              | None => None
              | Some start =>
                  if start <? 0 then None
                  else if contentLength <=? start then None
                  else if String.eqb endStr "" then Some (start, contentLength - 1)
                  else
                    match Atoi endStr with
                    | None => None
                    | Some e =>
                        if e <? start then None
                        else Some (start, if contentLength <=? e then contentLength - 1 else e)
                    end
              end
        end.

Section codec.
Context `{HeaderCodec}.

Definition range_value (s e total : Z) : string :=
  "bytes " +:+ Itoa s +:+ "-" +:+ Itoa e +:+ "/" +:+ Itoa total.

(** [entry.Body[start : end+1]]; the bounds are those of [parseRange], so the slice
    expression does not panic ([parseRange_bounds]). *)
Definition serveRange {W} `{Writer W} (w : W) (entry : Entry) (s e : Z) : W :=
  let total := str_len (e_Body entry) in
  let w := copy_header (Entry_GetHeader entry) w in
  let w := w_set_header (Header_Set (w_header w) "Content-Range" (range_value s e total)) w in
  let w := w_set_header (Header_Set (w_header w) "Content-Length" (Itoa (e - s + 1))) w in
  let w := w_set_header (Header_Set (w_header w) "X-Cache" "HIT") w in
  let w := WriteHeader 206 w in
  w_Write (take_bytes (Z.to_nat (e + 1 - s)) (drop_bytes (Z.to_nat s) (e_Body entry))) w.

End codec.

(** ** What a header asks for *)

(** The numbers before and after the first dash of [bytes=first-last], with any white
    space around them; either may be missing. *)
Definition number_text (txt : string) (n : option Z) : Prop :=
  match n with None => TrimSpace txt = EmptyString | Some n => Atoi (TrimSpace txt) = Some n end.

Definition reads_range (hdr : string) (first last : option Z) : Prop :=
  exists spec a b, hdr = "bytes=" +:+ spec /\ Contains spec "," = false /\
    TrimSpace spec = a +:+ String "-" b /\ no_byte "-" a = true /\ number_text a first /\ number_text b last.

(** Whether the range selects a byte of a body of [len] bytes. *)
Definition satisfiable (len : Z) (first last : option Z) : Prop :=
  match first, last with
  | Some s, Some e => 0 <= s < len /\ s <= e
  | Some s, None => 0 <= s < len
  | None, Some n => 0 < n
  | None, None => False
  end.

(** The piece of the body it denotes: [bytes=s-e] from the byte [s] to the byte [e] or the
    last, [bytes=s-] from [s] on, [bytes=-n] the last [n] bytes, or all of them. *)
Definition denotes (first last : option Z) (before piece after : string) : Prop :=
  match first, last with
  | Some s, Some e => str_len before = s /\ (str_len piece = e - s + 1 \/ (str_len piece <= e - s + 1 /\ after = EmptyString))
  | Some s, None => str_len before = s /\ after = EmptyString
  | None, Some n => after = EmptyString /\ (str_len piece = n \/ (str_len piece <= n /\ before = EmptyString))
  | None, None => False
  end.

(** ** Bounds *)

Lemma Atoi_range txt n : Atoi txt = Some n -> n <= max_i64.
Proof using.
  unfold Atoi. destruct (match txt with String _ _ => _ | _ => _ end); [| done].
  destruct (_ && _) eqn:Eb; [| done]. intros [= <-]. apply andb_true_iff in Eb as [_ Eb]. by apply Z.leb_le in Eb.
Qed.

Lemma parseRange_range hdr len s e :
  len <= max_i64 -> parseRange hdr len = Some (s, e) -> 0 <= s <= e /\ e < len.
Proof using.
  intros Hlen. unfold parseRange. destruct (Z.leb_spec len 0); [done |].
  destruct (negb _); [done |]. destruct (Contains _ _); [done |].
  destruct (String.eqb (TrimSpace _) ""); [done |].
  destruct (cut_byte _ _) as [before [after |]]; [| done].
  destruct (String.eqb (TrimSpace before) "").
  - destruct (Atoi (TrimSpace after)) as [n |] eqn:Ea; [| done].
    pose proof (Atoi_range _ _ Ea) as Hn.
    destruct (Z.leb_spec n 0); [done |]. intros [= <- <-].
    rewrite i64_small by (unfold in_i64, min_i64, max_i64 in *; lia). zbool; lia.
  - destruct (Atoi (TrimSpace before)) as [st |]; [| done].
    destruct (Z.ltb_spec st 0); [done |]. destruct (Z.leb_spec len st); [done |].
    destruct (String.eqb (TrimSpace after) ""); [intros [= <- <-]; lia |].
    destruct (Atoi (TrimSpace after)) as [en |]; [| done].
    destruct (Z.ltb_spec en st); [done |]. intros [= <- <-]. zbool; lia.
Qed.

(** A range specification made of digits and one dash. *)
Lemma parseRange_digits a b len :
  0 < len -> str_forall is_digit a = true -> str_forall is_digit b = true ->
  parseRange ("bytes=" +:+ a +:+ "-" +:+ b) len
  = if String.eqb a "" then
      match Atoi b with
      | None => None
      | Some suffix =>
          if suffix <=? 0 then None
          else Some (if i64 (len - suffix) <? 0 then 0 else i64 (len - suffix), len - 1)
      end
    else
      match Atoi a with
      | None => None
      | Some start =>
          if start <? 0 then None
          else if len <=? start then None
          else if String.eqb b "" then Some (start, len - 1)
          else match Atoi b with
               | None => None
               | Some e => if e <? start then None else Some (start, if len <=? e then len - 1 else e)
               end
      end.
Proof using.
  intros Hlen Ha Hb. unfold parseRange. rewrite (proj2 (Z.leb_gt len 0)) by done.
  set (spec := a +:+ "-" +:+ b). set (f := fun c => is_digit c || Ascii.eqb c "-").
  assert (Hf : str_forall f spec = true).
  { unfold spec. change ("-" +:+ b) with (String "-" b). rewrite str_forall_app. cbn [str_forall].
    assert (Hd : forall s, str_forall is_digit s = true -> str_forall f s = true).
    { intros s. apply str_forall_impl. intros c Hc. unfold f. by rewrite Hc. }
    by rewrite (Hd a), (Hd b). }
  assert (Hall : forall g, (forall c, is_digit c = true -> g c = true) -> g "-"%char = true ->
    str_forall g spec = true).
  { intros g Hg Hdash. revert Hf. apply str_forall_impl. intros c. unfold f.
    intros [Hc | Hc]%orb_true_iff; [by apply Hg |]. by apply Ascii.eqb_eq in Hc as ->. }
  assert (Htrim : forall s, str_forall is_digit s = true -> TrimSpace s = s).
  { intros s Hs. unfold TrimSpace, is_ascii.
    rewrite (str_forall_impl is_digit) by (done || (intros c Hc; apply (digit_facts c Hc))).
    apply trim_space_id. revert Hs. apply str_forall_impl. intros c Hc. apply (digit_facts c Hc). }
  change (HasPrefix ("bytes=" +:+ spec) "bytes=") with (HasPrefix spec "").
  replace (HasPrefix spec "") with true by (by destruct spec). cbn [negb].
  assert (Hpre : TrimPrefix ("bytes=" +:+ spec) "bytes=" = spec).
  { unfold TrimPrefix. change (HasPrefix ("bytes=" +:+ spec) "bytes=") with (HasPrefix spec "").
    replace (HasPrefix spec "") with true by (by destruct spec). done. }
  rewrite Hpre. rewrite Contains_no_byte by (apply Hall; [intros c Hc; apply (digit_facts c Hc) | done]).
  assert (Hts : TrimSpace spec = spec).
  { unfold TrimSpace, is_ascii. rewrite Hall by (done || (intros c Hc; apply (digit_facts c Hc))).
    apply trim_space_id. apply Hall; [intros c Hc; apply (digit_facts c Hc) | done]. }
  rewrite Hts. replace (String.eqb spec "") with false by (symmetry; by destruct a).
  unfold spec. change ("-" +:+ b) with (String "-" b).
  rewrite cut_byte_app by (revert Ha; apply str_forall_impl; intros c Hc; apply (digit_facts c Hc)).
  rewrite (Htrim a Ha), (Htrim b Hb). done.
Qed.

(** The three forms of a byte range on a body of [len] bytes: [bytes=s-e] is the
    bytes from [s] to [e] or to the last one, [bytes=s-] those from [s] on, [bytes=-n]
    the last [n]; a range that starts past the end, or ends before it starts, is refused. *)
Theorem parseRange_forms len s e n :
  0 < len <= max_i64 -> 0 <= s <= max_i64 -> 0 <= e <= max_i64 -> 0 < n <= max_i64 ->
  parseRange ("bytes=" +:+ Itoa s +:+ "-" +:+ Itoa e) len
    = (if (s <? len) && (s <=? e) then Some (s, Z.min e (len - 1)) else None) /\
  parseRange ("bytes=" +:+ Itoa s +:+ "-") len = (if s <? len then Some (s, len - 1) else None) /\
  parseRange ("bytes=-" +:+ Itoa n) len = Some (Z.max 0 (len - n), len - 1).
Proof using.
  intros Hlen Hs He Hn.
  assert (Hne : forall m, String.eqb (Itoa m) "" = false).
  { intros m. apply String.eqb_neq, Itoa_nonempty. }
  assert (Hat : forall m, 0 <= m <= max_i64 -> Atoi (Itoa m) = Some m).
  { intros m Hm. apply Atoi_Itoa. unfold in_i64, min_i64, max_i64 in *. lia. }
  split_and!.
  - rewrite parseRange_digits by (try apply Itoa_digits; lia).
    rewrite !Hne, !Hat by lia. zbool; cbn; try lia; try done; do 2 f_equal; lia.
  - pose proof (parseRange_digits (Itoa s) "" len ltac:(lia) (Itoa_digits s ltac:(lia)) eq_refl) as Hp.
    change ("-" +:+ "") with "-" in Hp. rewrite Hp, Hne, Hat by lia.
    change (String.eqb "" "") with true. zbool; cbn; try lia; done.
  - pose proof (parseRange_digits "" (Itoa n) len ltac:(lia) eq_refl (Itoa_digits n ltac:(lia))) as Hp.
    change ("bytes=" +:+ "" +:+ "-" +:+ Itoa n) with ("bytes=-" +:+ Itoa n) in Hp. rewrite Hp, Hat by lia.
    change (String.eqb "" "") with true. cbn iota.
    rewrite i64_small by (unfold in_i64, min_i64, max_i64 in *; lia). zbool; try lia; do 2 f_equal; lia.
Qed.

(** An accepted header reads as a satisfiable range, whose ends are those returned. *)
Lemma parseRange_reads hdr len s e :
  0 < len <= max_i64 -> parseRange hdr len = Some (s, e) ->
  exists first last, reads_range hdr first last /\ satisfiable len first last /\
    match first, last with
    | Some s', Some e' => s = s' /\ e = Z.min e' (len - 1)
    | Some s', None => s = s' /\ e = len - 1
    | None, Some n => s = Z.max 0 (len - n) /\ e = len - 1
    | None, None => False
    end.
Proof using.
  intros Hlen. unfold parseRange. rewrite (proj2 (Z.leb_gt len 0)) by lia.
  destruct (HasPrefix hdr "bytes=") eqn:Hp; cbn [negb]; [| done]. apply TrimPrefix_spec in Hp.
  destruct (Contains _ ",") eqn:Hc; [done |]. destruct (String.eqb (TrimSpace _) ""); [done |].
  destruct (cut_byte "-" _) as [a [b |]] eqn:Ecut; [| done]. apply cut_byte_Some in Ecut as [Es Ha].
  assert (Hreads : forall f l, number_text a f -> number_text b l -> reads_range hdr f l)
    by (intros f l Hf Hl; exists (TrimPrefix hdr "bytes="), a, b; done).
  destruct (String.eqb_spec (TrimSpace a) "") as [E1 | E1].
  - destruct (Atoi (TrimSpace b)) as [n |] eqn:En; [| done]. pose proof (Atoi_range _ _ En) as Hn.
    destruct (Z.leb_spec n 0); [done |]. intros [= <- <-]. exists None, (Some n). split; [by apply Hreads |]. split; [done |].
    rewrite i64_small by (unfold in_i64, min_i64, max_i64 in *; lia). split; [zbool; lia | done].
  - destruct (Atoi (TrimSpace a)) as [st |] eqn:Est; [| done].
    destruct (Z.ltb_spec st 0); [done |]. destruct (Z.leb_spec len st); [done |].
    destruct (String.eqb_spec (TrimSpace b) "") as [E2 | E2].
    { intros [= <- <-]. exists (Some st), None. split; [by apply Hreads |]. split; [cbn; lia | done]. }
    destruct (Atoi (TrimSpace b)) as [en |] eqn:Een; [| done]. destruct (Z.ltb_spec en st); [done |]. intros [= <- <-].
    exists (Some st), (Some en). split; [by apply Hreads |]. split; [cbn; lia | split; [done | zbool; lia]].
Qed.

(** A header that reads as a satisfiable range is accepted. *)
Lemma parseRange_refuses hdr len first last :
  0 < len -> parseRange hdr len = None -> reads_range hdr first last -> ~ satisfiable len first last.
Proof using.
  intros Hlen Hp (spec & a & b & -> & Hc & Es & Ha & Hf & Hl) Hsat. unfold parseRange in Hp.
  rewrite (proj2 (Z.leb_gt len 0)), HasPrefix_app in Hp by lia. cbn [negb] in Hp.
  assert (Ht : TrimPrefix ("bytes=" +:+ spec) "bytes=" = spec) by (unfold TrimPrefix; rewrite HasPrefix_app; apply drop_app_len).
  rewrite Ht, Hc, Es, cut_byte_app in Hp by done. replace (String.eqb (a +:+ String "-" b) "") with false in Hp by (by destruct a).
  assert (Hne : forall txt n, Atoi txt = Some n -> String.eqb txt "" = false) by (by intros [| c txt] n).
  destruct first as [s |], last as [e |]; cbn [number_text satisfiable] in *; [| | | done].
  - rewrite (Hne _ _ Hf), Hf, (Hne _ _ Hl), Hl in Hp. destruct (Z.ltb_spec s 0), (Z.leb_spec len s), (Z.ltb_spec e s); try lia; done.
  - rewrite (Hne _ _ Hf), Hf, Hl in Hp. destruct (Z.ltb_spec s 0), (Z.leb_spec len s); try lia; done.
  - rewrite Hf, Hl in Hp. destruct (Z.leb_spec e 0); [lia | done].
Qed.

(** The slice between the ends is the piece denoted. *)
Lemma denoted_slice body s e first last piece :
  0 <= s <= e -> e < str_len body -> piece = take_bytes (Z.to_nat (e + 1 - s)) (drop_bytes (Z.to_nat s) body) ->
  satisfiable (str_len body) first last ->
  match first, last with
  | Some s', Some e' => s = s' /\ e = Z.min e' (str_len body - 1)
  | Some s', None => s = s' /\ e = str_len body - 1
  | None, Some n => s = Z.max 0 (str_len body - n) /\ e = str_len body - 1
  | None, None => False
  end ->
  denotes first last (take_bytes (Z.to_nat s) body) piece (drop_bytes (Z.to_nat (e + 1 - s)) (drop_bytes (Z.to_nat s) body)).
Proof using.
  intros Hse He -> Hsat Hends. unfold denotes.
  assert (H1 : str_len (take_bytes (Z.to_nat s) body) = s) by (rewrite str_len_take; lia).
  assert (H2 : str_len (take_bytes (Z.to_nat (e + 1 - s)) (drop_bytes (Z.to_nat s) body)) = e - s + 1)
    by (rewrite str_len_take, str_len_drop; lia).
  assert (H3 : e = str_len body - 1 -> drop_bytes (Z.to_nat (e + 1 - s)) (drop_bytes (Z.to_nat s) body) = EmptyString)
    by (intros E; apply str_len_0; rewrite !str_len_drop; lia).
  rewrite H1, H2. destruct first as [s' |], last as [e' |]; cbn [satisfiable] in Hsat; [| | | done].
  - destruct Hends as [<- Ee]. split; [done |]. destruct (decide (e' < str_len body)); [left; lia | right]. split; [lia | apply H3; lia].
  - destruct Hends as [<- Ee]. by split; [| apply H3].
  - destruct Hends as [Es Ee]. split; [by apply H3 |]. destruct (decide (e' <= str_len body)); [left; lia | right]. split; [lia |].
    apply str_len_0. rewrite H1. lia.
Qed.

Section serve.
Context `{HeaderCodec}.

Lemma serveRange_sends entry s e :
  0 <= s <= e -> e < str_len (e_Body entry) ->
  let w := serveRange new_writer entry s e in
  w_status w = 206 /\ w_body w = take_bytes (Z.to_nat (e + 1 - s)) (drop_bytes (Z.to_nat s) (e_Body entry)) /\
  Header_Get (w_sent w) "Content-Length" = Itoa (e - s + 1) /\
  Header_Get (w_sent w) "Content-Range" = range_value s e (str_len (e_Body entry)).
Proof using.
  intros Hse He w. split_and!; [done | done | |]; unfold w, serveRange, Header_Get, Header_Set; cbn.
  - rewrite lookup_insert_ne by (vm_compute; discriminate). by rewrite lookup_insert_eq.
  - rewrite !lookup_insert_ne by (vm_compute; discriminate). by rewrite lookup_insert_eq.
Qed.



End serve.
End unicode.

(** ** Concrete inputs *)

#[local] Existing Instances ascii_unicode bits_codec.

Lemma parseRange_forms_witness :
  parseRange "bytes=2-9" 5 = Some (2, 4) /\ parseRange "bytes=-3" 5 = Some (2, 4).
Proof.
  destruct (parseRange_forms 5 2 9 3) as (H1 & _ & H3); [unfold max_i64; lia.. |].
  split; [exact H1 | exact H3].
Defined.

(** The last two bytes of a body of five. *)
Definition five_bytes : Entry :=
  {| e_Body := "abcde"; e_Header := Some ∅; e_CompressedHeader := None; e_StatusCode := 200; e_StoredAt := 0; e_TTL := 10; e_ETag := "t";
     e_LastMod := ""; e_VaryKey := ""; e_StaleWhileRevalidate := 0 |}.

