(* ===== verification/Paths.v ===== *)
(** * Paths, hosts and globs of the handlers ([handler/handler.go] lines 563-577,
    [handler/multitenant.go] lines 378-416)

    [path.Clean] is written on the segments between slashes: the loop of the standard
    library drops empty and "." segments and lets ".." remove the segment before it. *)

From S2P Require Import Prelude GoStrings.

Local Open Scope Z_scope.

(** The segments kept so far, last first. *)
Definition clean_step (rooted : bool) (acc : list string) (seg : string) : list string :=
  if String.eqb seg "" || String.eqb seg "." then acc
  else if String.eqb seg ".." then
    match acc with
    | [] => if rooted then [] else [".."%string]
    | top :: rest => if String.eqb top ".." then ".."%string :: acc else rest
    end
  else seg :: acc.

(** [path.Clean] *)
Definition Clean (p : string) : string :=
  if String.eqb p "" then "."
  else
    let rooted := HasPrefix p "/" in
    let out := Join "/" (rev (foldl (clean_step rooted) [] (Split "/" p))) in
    if rooted then "/" +:+ out else if String.eqb out "" then "." else out.

(** [filepath.Join] on a Unix system. *)
Fixpoint filepath_Join (elem : list string) : string :=
  match elem with
  | [] => ""
  | e :: rest => if String.eqb e "" then filepath_Join rest else Clean (Join "/" elem)
  end.

Definition isValidPath (p : string) : bool :=
  if negb (HasPrefix p "/") then false
  else if Contains p ".." then false
  else if Contains (Clean p) ".." then false
  else true.

Definition mtIsValidPath (p : string) : bool :=
  if negb (HasPrefix p "/") then false
  else if Contains p ".." then false
  else if Contains (Clean p) ".." then false
  else true.

Definition stripPort (host : string) : string :=
  let i := LastIndexByte host ":" in
  if 0 <? i then take_bytes (Z.to_nat i) host else host.

Definition matchGlob (urlPath pattern : string) : bool :=
  if String.eqb pattern "" then false
  else if String.eqb pattern "*" || String.eqb pattern "/*" then true
  else if HasSuffix pattern "/*" then
    let prefix := TrimSuffix pattern "/*" in
    HasPrefix urlPath (prefix +:+ "/") || String.eqb urlPath prefix
  else if HasSuffix pattern "*" then HasPrefix urlPath (TrimSuffix pattern "*")
  else String.eqb urlPath pattern.

(** ** Two dots and slashes *)

Lemma HasPrefix_app_dd a b : Contains (a +:+ String "/" b) ".." = Contains a ".." || Contains b "..".
Proof.
  induction a as [| c a IH]; [done |].
  change (Contains (String c a +:+ String "/" b) "..")
    with (HasPrefix (String c (a +:+ String "/" b)) ".." || Contains (a +:+ String "/" b) "..").
  change (Contains (String c a) "..") with (HasPrefix (String c a) ".." || Contains a "..").
  rewrite IH, orb_assoc. f_equal. f_equal. cbn.
  destruct a as [| c' a]; cbn; [by rewrite andb_false_r | by rewrite !HasPrefix_nil].
Qed.

Lemma Contains_dd_Split p : Contains p ".." = existsb (fun s => Contains s "..") (Split "/" p).
Proof.
  rewrite <- (Join_Split "/" p) at 1. induction (Split "/" p) as [| s l IH]; [done |].
  destruct l as [| s' l]; [cbn; by rewrite orb_false_r |].
  change (Join (String "/" "") (s :: s' :: l)) with (s +:+ String "/" (Join (String "/" "") (s' :: l))).
  rewrite HasPrefix_app_dd, IH. done.
Qed.

Lemma Contains_dd_Join l : existsb (fun s => Contains s "..") l = false -> Contains (Join "/" l) ".." = false.
Proof.
  induction l as [| s l IH]; [done |]. destruct l as [| s' l]; [cbn; by rewrite orb_false_r |].
  intros Hl. change (Join "/" (s :: s' :: l)) with (s +:+ String "/" (Join "/" (s' :: l))).
  rewrite HasPrefix_app_dd. cbn [existsb] in *. apply orb_false_iff in Hl as [-> Hl]. by rewrite IH.
Qed.

(** Without "..", cleaning keeps a sublist of the segments. *)
Lemma clean_no_dd rooted l acc :
  Forall (fun s => Contains s ".." = false) l -> Forall (fun s => Contains s ".." = false) acc ->
  Forall (fun s => Contains s ".." = false) (foldl (clean_step rooted) acc l).
Proof.
  intros Hl. revert acc. induction Hl as [| s l Hs Hl IH]; intros acc Hacc; [done |]. cbn [foldl].
  apply IH. unfold clean_step. destruct (String.eqb s "" || String.eqb s "."); [done |].
  destruct (String.eqb_spec s "..") as [-> |]; [by cbn in Hs | by constructor].
Qed.

Lemma Clean_no_dd p : Contains p ".." = false -> Contains (Clean p) ".." = false.
Proof.
  intros Hp. unfold Clean. destruct (String.eqb p ""); [done |].
  assert (Hf : Forall (fun s => Contains s ".." = false) (Split "/" p)).
  { rewrite Contains_dd_Split in Hp. induction (Split "/" p) as [| s l IH]; [done |].
    cbn in Hp. apply orb_false_iff in Hp as [? ?]. constructor; auto. }
  pose proof (clean_no_dd (HasPrefix p "/") _ [] Hf (Forall_nil_2 _)) as Hc.
  set (acc := foldl _ _ _) in *.
  assert (Hj : Contains (Join "/" (rev acc)) ".." = false).
  { apply Contains_dd_Join. apply Forall_rev in Hc. induction Hc as [| s l Hs Hc IH]; [done |]. cbn. by rewrite Hs. }
  destruct (HasPrefix p "/"); [| by destruct (String.eqb _ "")].
  change ("/" +:+ Join "/" (rev acc)) with ("" +:+ String "/" (Join "/" (rev acc))).
  rewrite HasPrefix_app_dd. by rewrite Hj.
Qed.

(** The path check accepts exactly the paths that start with a slash and nowhere hold
    two dots in a row; the second test, on the cleaned path, never decides. So no
    segment of an accepted path is "..". *)
Theorem isValidPath_spec p :
  isValidPath p = HasPrefix p "/" && negb (Contains p "..") /\ mtIsValidPath p = isValidPath p /\
  (isValidPath p = true -> ".."%string ∉ Split "/" p).
Proof.
  assert (Heq : isValidPath p = HasPrefix p "/" && negb (Contains p "..")).
  { unfold isValidPath. destruct (HasPrefix p "/"); [cbn [negb andb] | done].
    destruct (Contains p "..") eqn:E; [done |]. by rewrite Clean_no_dd. }
  split_and!; [done | done |]. rewrite Heq. intros [_ Hd]%andb_true_iff Hin.
  apply negb_true_iff in Hd. rewrite Contains_dd_Split in Hd.
  apply not_true_iff_false in Hd. apply Hd, existsb_exists. exists ".."%string.
  split; [by apply list_elem_of_In | done].
Qed.

(** ** Globs and ports *)

Lemma take_app_len a b : take_bytes (String.length a) (a +:+ b) = a.
Proof. induction a as [| c a IH]; cbn; [by destruct b | by rewrite IH]. Qed.

Lemma length_app_str a b : String.length (a +:+ b) = (String.length a + String.length b)%nat.
Proof. induction a as [| c a IH]; cbn; [done | by rewrite IH]. Qed.

Lemma suffix_app a b : HasSuffix (a +:+ b) b = true /\ TrimSuffix (a +:+ b) b = a.
Proof.
  assert (Hs : HasSuffix (a +:+ b) b = true).
  { unfold HasSuffix. rewrite length_app_str. apply andb_true_iff. split; [apply Nat.leb_le; lia |].
    replace (String.length a + String.length b - String.length b)%nat with (String.length a) by lia.
    rewrite drop_app_len. apply String.eqb_refl. }
  split; [done |]. unfold TrimSuffix. rewrite Hs, length_app_str.
  replace (String.length a + String.length b - String.length b)%nat with (String.length a) by lia.
  apply take_app_len.
Qed.

(** A rule for a directory, [dir/*], covers the directory itself and what is below
    it, and nothing that merely shares its name as a prefix. *)
Theorem matchGlob_directory dir urlPath :
  dir <> ""%string ->
  matchGlob urlPath (dir +:+ "/*") = true <-> urlPath = dir \/ exists rest, urlPath = dir +:+ "/" +:+ rest.
Proof.
  intros Hd. unfold matchGlob. destruct (suffix_app dir "/*") as [Hs Ht].
  assert (Hn : forall s, (String.length s < 3)%nat -> (dir +:+ "/*") <> s).
  { intros s Hl E. apply (f_equal String.length) in E. rewrite length_app_str in E.
    destruct dir; [done |]. cbn in E. lia. }
  rewrite (proj2 (String.eqb_neq _ ""%string)), (proj2 (String.eqb_neq _ "*"%string)),
    (proj2 (String.eqb_neq _ "/*"%string)) by (apply Hn; cbn; lia).
  cbn [orb]. rewrite Hs, Ht, orb_true_iff, HasPrefix_spec, String.eqb_eq. split.
  - intros [[t ->] | ->]; [right; exists t; apply str_app_assoc | by left].
  - intros [-> | [t ->]]; [by right | left; exists t; by rewrite str_app_assoc].
Qed.

Lemma matchGlob_directory_witness : matchGlob "/static/app.js" "/static/*" = true /\ matchGlob "/statics" "/static/*" = false.
Proof.
  split.
  - apply (matchGlob_directory "/static" "/static/app.js"); [discriminate |]. right. by exists "app.js"%string.
  - reflexivity.
Defined.
