(* ===== verification/Circuit.v ===== *)
(** * The circuit breaker of an origin ([proxy/circuit.go])

    The mutex makes each method atomic; [now] is what [time.Now] returns in it. *)

From S2P Require Import Prelude.

Local Open Scope Z_scope.
Local Open Scope go_scope.

Definition StateClosed : Z := 0.
Definition StateOpen : Z := 1.
Definition StateHalfOpen : Z := 2.

Record CircuitBreaker := {
  cb_state : Z;
  cb_failures : Z;
  cb_successes : Z;
  cb_failureThreshold : Z;
  cb_successThreshold : Z;
  cb_openTimeout : Duration;
  cb_lastFailure : Z
}.

Definition NewCircuitBreaker (failureThreshold successThreshold : Z) (openTimeout : Duration) : CircuitBreaker :=
  {| cb_state := StateClosed; cb_failures := 0; cb_successes := 0; cb_failureThreshold := failureThreshold;
     cb_successThreshold := successThreshold; cb_openTimeout := openTimeout; cb_lastFailure := zero_time |}.

Definition cb_set (cb : CircuitBreaker) (state failures successes lastFailure : Z) : CircuitBreaker :=
  {| cb_state := state; cb_failures := failures; cb_successes := successes;
     cb_failureThreshold := cb_failureThreshold cb; cb_successThreshold := cb_successThreshold cb;
     cb_openTimeout := cb_openTimeout cb; cb_lastFailure := lastFailure |}.

Definition Allow (now : Z) (cb : CircuitBreaker) : CircuitBreaker * bool :=
  if cb_state cb =? StateClosed then (cb, true)
  else if cb_state cb =? StateOpen then
    if cb_openTimeout cb <? time_sub now (cb_lastFailure cb)
    then (cb_set cb StateHalfOpen (cb_failures cb) 0 (cb_lastFailure cb), true)
    else (cb, false)
  else (cb, true).

Definition RecordSuccess (cb : CircuitBreaker) : CircuitBreaker :=
  if cb_state cb =? StateHalfOpen then
    let successes := cb_successes cb +i64 1 in
    cb_set cb (if cb_successThreshold cb <=? successes then StateClosed else cb_state cb) 0 successes
      (cb_lastFailure cb)
  else cb_set cb (cb_state cb) 0 (cb_successes cb) (cb_lastFailure cb).

Definition RecordFailure (now : Z) (cb : CircuitBreaker) : CircuitBreaker :=
  let failures := cb_failures cb +i64 1 in
  if (cb_state cb =? StateHalfOpen) || (cb_failureThreshold cb <=? failures)
  then cb_set cb StateOpen failures 0 now
  else cb_set cb (cb_state cb) failures (cb_successes cb) now.

(** [State] *)
Definition State_name (cb : CircuitBreaker) : string :=
  if cb_state cb =? StateClosed then "closed"
  else if cb_state cb =? StateOpen then "open"
  else if cb_state cb =? StateHalfOpen then "half-open"
  else "unknown".

(** ** The abstract state machine *)

Inductive phase :=
  | Closed (failures : Z)                    (* consecutive failures, below the threshold *)
  | Open (since : Z)                         (* the time of the last failure *)
  | HalfOpen (successes : Z).                (* successes since the probe began *)

Inductive event := EAllow (now : Z) | ESuccess | EFailure (now : Z).

(** [F] and [S] are the thresholds, [T] the timeout. *)
Definition phase_step (F S T : Z) (p : phase) (ev : event) : phase * bool :=
  match ev, p with
  | EAllow now, Open since => if T <? time_sub now since then (HalfOpen 0, true) else (p, false)
  | EAllow _, _ => (p, true)
  | ESuccess, Closed _ => (Closed 0, true)
  | ESuccess, Open _ => (p, true)
  | ESuccess, HalfOpen n => (if S <=? n + 1 then Closed 0 else HalfOpen (n + 1), true)
  | EFailure now, Closed n => (if F <=? n + 1 then Open now else Closed (n + 1), true)
  | EFailure now, _ => (Open now, true)
  end.

Definition cb_step (cb : CircuitBreaker) (ev : event) : CircuitBreaker * bool :=
  match ev with
  | EAllow now => Allow now cb
  | ESuccess => (RecordSuccess cb, true)
  | EFailure now => (RecordFailure now cb, true)
  end.

(** The results of [Allow] along a run (the other methods return nothing). *)
Definition cb_run (cb : CircuitBreaker) (evs : list event) : CircuitBreaker * list bool :=
  foldl (fun s ev => let '(cb, b) := cb_step s.1 ev in (cb, s.2 ++ [b])) (cb, []) evs.
Definition phase_run (F S T : Z) (p : phase) (evs : list event) : phase * list bool :=
  foldl (fun s ev => let '(p, b) := phase_step F S T s.1 ev in (p, s.2 ++ [b])) (p, []) evs.

(** ** The breaker implements the machine *)

Definition phase_name (p : phase) : string :=
  match p with Closed _ => "closed" | Open _ => "open" | HalfOpen _ => "half-open" end.

Definition cb_sim (F S T : Z) (cb : CircuitBreaker) (p : phase) : Prop :=
  cb_failureThreshold cb = F /\ cb_successThreshold cb = S /\ cb_openTimeout cb = T /\
  match p with
  | Closed n => cb_state cb = StateClosed /\ cb_failures cb = n /\ 0 <= n <= Z.max 0 (F - 1)
  | Open t => cb_state cb = StateOpen /\ cb_lastFailure cb = t
  | HalfOpen n => cb_state cb = StateHalfOpen /\ cb_successes cb = n /\ 0 <= n <= Z.max 0 (S - 1)
  end.

Lemma cb_sim_step F S T cb p ev :
  F <= max_i64 -> S <= max_i64 -> cb_sim F S T cb p ->
  cb_sim F S T (cb_step cb ev).1 (phase_step F S T p ev).1 /\
  (cb_step cb ev).2 = (phase_step F S T p ev).2.
Proof.
  intros HF HS (EF & ES & ET & Hp). unfold max_i64 in *.
  assert (Hinc : forall n m, 0 <= n <= Z.max 0 (m - 1) -> m <= 2 ^ 63 - 1 -> i64 (n + 1) = n + 1).
  { intros n m Hn Hm. apply i64_small. unfold in_i64, min_i64, max_i64. lia. }
  destruct ev as [now | | now], p as [n | t | n]; destruct Hp as (E1 & Hp); cbn [cb_step phase_step];
    unfold Allow, RecordSuccess, RecordFailure; rewrite E1, ?EF, ?ES, ?ET;
    change (StateClosed =? StateClosed) with true; change (StateOpen =? StateClosed) with false;
    change (StateHalfOpen =? StateClosed) with false; change (StateOpen =? StateOpen) with true;
    change (StateHalfOpen =? StateOpen) with false; change (StateClosed =? StateHalfOpen) with false;
    change (StateOpen =? StateHalfOpen) with false; change (StateHalfOpen =? StateHalfOpen) with true;
    cbn [orb fst snd]; try destruct Hp as (E2 & Hr); rewrite ?E2, ?Hp.
  - by split_and!; cbn.
  - destruct (_ <? _); split; try done; unfold cb_sim; cbn; split_and!; done || lia.
  - by split_and!; cbn.
  - split; [| done]. unfold cb_sim; cbn. split_and!; done || lia.
  - split; [| done]. by unfold cb_sim; cbn.
  - rewrite (Hinc n S) by lia. destruct (Z.leb_spec S (n + 1)); (split; [| done]); unfold cb_sim; cbn;
      split_and!; done || lia.
  - rewrite (Hinc n F) by lia. destruct (Z.leb_spec F (n + 1)); (split; [| done]); unfold cb_sim; cbn;
      split_and!; done || lia.
  - destruct (_ <=? _); (split; [| done]); unfold cb_sim; cbn; by split_and!.
  - split; [| done]. by unfold cb_sim; cbn.
Qed.

Lemma cb_sim_run F S T cb p evs out :
  F <= max_i64 -> S <= max_i64 -> cb_sim F S T cb p ->
  let r := foldl (fun s ev => let '(cb, b) := cb_step s.1 ev in (cb, s.2 ++ [b])) (cb, out) evs in
  let q := foldl (fun s ev => let '(p, b) := phase_step F S T s.1 ev in (p, s.2 ++ [b])) (p, out) evs in
  cb_sim F S T r.1 q.1 /\ r.2 = q.2.
Proof.
  intros HF HS. revert cb p out. induction evs as [| ev evs IH]; intros cb p out Hs; [done |].
  cbn [foldl]. destruct (cb_sim_step F S T cb p ev HF HS Hs) as [Hs' Hb]. cbn [fst snd].
  destruct (cb_step cb ev) as [cb' b], (phase_step F S T p ev) as [p' b']; cbn [fst snd] in *. subst b'.
  by apply IH.
Qed.

Lemma cb_sim_init F S T : cb_sim F S T (NewCircuitBreaker F S T) (Closed 0).
Proof. unfold cb_sim; cbn. split_and!; done || lia. Qed.

Lemma cb_sim_name F S T cb p : cb_sim F S T cb p -> State_name cb = phase_name p.
Proof. intros (_ & _ & _ & Hp). unfold State_name. by destruct p; destruct Hp as [-> _]. Qed.

(** C13: For every sequence of calls the breaker lets through and refuses the same requests
    as the three-phase machine, and is in the same phase: closed with fewer consecutive
    failures than the threshold, open since the last failure, or half-open counting
    successes; no counter overflows along the way. *)
Theorem circuit_refines F S T evs :
  F <= max_i64 -> S <= max_i64 ->
  let '(cb, allowed) := cb_run (NewCircuitBreaker F S T) evs in
  let '(p, allowed') := phase_run F S T (Closed 0) evs in
  allowed = allowed' /\ cb_sim F S T cb p /\ State_name cb = phase_name p.
Proof.
  intros HF HS. pose proof (cb_sim_run F S T _ _ evs [] HF HS (cb_sim_init F S T)) as Hr.
  unfold cb_run, phase_run. destruct (foldl _ (NewCircuitBreaker F S T, []) evs) as [cb a].
  destruct (foldl _ (Closed 0, []) evs) as [p a']. cbn in Hr. destruct Hr as [Hs ->].
  split_and!; [done | done | by eapply cb_sim_name].
Qed.

(** ** Opening and recovery *)

Lemma phase_failures F S T p ts t :
  (forall n, p = Closed n -> F <= n + Z.of_nat (length ts) + 1) ->
  foldl (fun p ev => (phase_step F S T p ev).1) p (map EFailure (ts ++ [t])) = Open t.
Proof.
  revert p. induction ts as [| u ts IH]; intros p Hp; cbn [app map foldl].
  - destruct p as [n | u | n]; cbn; try done. specialize (Hp n eq_refl). cbn in Hp.
    by rewrite (proj2 (Z.leb_le F (n + 1))) by lia.
  - apply IH. intros n Hn. destruct p as [m | v | m]; cbn in Hn; try done.
    specialize (Hp m eq_refl). cbn [length] in Hp. destruct (F <=? m + 1); [done |].
    injection Hn as <-. lia.
Qed.

Lemma cb_sim_foldl F S T cb p evs :
  F <= max_i64 -> S <= max_i64 -> cb_sim F S T cb p ->
  cb_sim F S T (foldl (fun cb ev => (cb_step cb ev).1) cb evs)
    (foldl (fun p ev => (phase_step F S T p ev).1) p evs).
Proof.
  intros HF HS. revert cb p. induction evs as [| ev evs IH]; intros cb p Hs; [done |].
  cbn [foldl]. apply IH. by apply cb_sim_step.
Qed.

Lemma phase_nonneg F S T cb p n : cb_sim F S T cb p -> p = Closed n -> 0 <= n.
Proof. intros (_ & _ & _ & Hp) ->. lia. Qed.

Lemma phase_successes F S T n k :
  0 <= n -> n + Z.of_nat k <= S - 1 ->
  foldl (fun p ev => (phase_step F S T p ev).1) (HalfOpen n) (replicate k ESuccess) = HalfOpen (n + Z.of_nat k).
Proof.
  revert n. induction k as [| k IH]; intros n Hn Hk; cbn [replicate foldl]; [f_equal; lia |].
  cbn [phase_step]. rewrite (proj2 (Z.leb_gt S (n + 1))) by lia. cbn [fst]. rewrite IH by lia. f_equal; lia.
Qed.

(** Whatever happened before, as many failures in a row as the threshold open the
    breaker: it refuses every request until the timeout has passed since the last
    failure, lets one through after it, and closes again after as many successes as the
    success threshold. *)
Theorem circuit_opens_and_recovers F S T evs ts t now :
  F <= max_i64 -> 1 <= S <= max_i64 -> F <= Z.of_nat (length ts) + 1 ->
  let go := foldl (fun cb ev => (cb_step cb ev).1) in
  let opened := go (NewCircuitBreaker F S T) (evs ++ map EFailure (ts ++ [t])) in
  State_name opened = "open" /\
  (time_sub now t <= T -> Allow now opened = (opened, false)) /\
  (T < time_sub now t ->
     (Allow now opened).2 = true /\ State_name (Allow now opened).1 = "half-open" /\
     State_name (go (Allow now opened).1 (replicate (Z.to_nat S) ESuccess)) = "closed").
Proof.
  intros HF HS Hlen go opened.
  assert (Hsim : cb_sim F S T opened (Open t)).
  { unfold opened, go. rewrite foldl_app.
    pose proof (cb_sim_foldl F S T _ _ evs HF (proj2 HS) (cb_sim_init F S T)) as H0.
    pose proof (cb_sim_foldl F S T _ _ (map EFailure (ts ++ [t])) HF (proj2 HS) H0) as H1.
    rewrite phase_failures in H1; [done |]. intros n Hn. pose proof (phase_nonneg _ _ _ _ _ n H0 Hn). lia. }
  split; [by apply (cb_sim_name F S T _ (Open t)) |].
  pose proof (cb_sim_step F S T opened (Open t) (EAllow now) HF (proj2 HS) Hsim) as [Ha Hb].
  cbn [cb_step phase_step] in Ha, Hb. split.
  - intros Hle. destruct Hsim as (_ & _ & HT & Hst & Hlast). unfold Allow. rewrite Hst, HT, Hlast.
    change (StateOpen =? StateClosed) with false. change (StateOpen =? StateOpen) with true. cbn iota.
    by rewrite (proj2 (Z.ltb_ge T (time_sub now t))).
  - intros Hgt. rewrite (proj2 (Z.ltb_lt T (time_sub now t))) in Ha, Hb by done. cbn [fst snd] in Ha, Hb.
    split; [done |]. split; [by apply (cb_sim_name F S T _ (HalfOpen 0)) |].
    apply (cb_sim_name F S T _ (Closed 0)).
    replace (Z.to_nat S) with (Z.to_nat (S - 1) + 1)%nat by lia. rewrite replicate_add. unfold go. rewrite foldl_app.
    pose proof (cb_sim_foldl F S T _ _ (replicate (Z.to_nat (S - 1)) ESuccess) HF (proj2 HS) Ha) as H2.
    rewrite phase_successes in H2 by lia.
    pose proof (cb_sim_step F S T _ _ ESuccess HF (proj2 HS) H2) as [H3 _]. cbn [phase_step] in H3.
    rewrite (proj2 (Z.leb_le S _)) in H3 by lia. exact H3.
Qed.

(** ** Concrete inputs *)

Lemma circuit_refines_witness :
  (cb_run (NewCircuitBreaker 2 1 10) [EFailure 1; EFailure 2; EAllow 5; EAllow 13; ESuccess]).2
  = [true; true; false; true; true].
Proof.
  pose proof (circuit_refines 2 1 10 [EFailure 1; EFailure 2; EAllow 5; EAllow 13; ESuccess]
    ltac:(unfold max_i64; lia) ltac:(unfold max_i64; lia)) as Hr.
  destruct (cb_run _ _) as [cb a]. cbn in Hr. destruct Hr as [-> _]. reflexivity.
Defined.

Lemma circuit_opens_and_recovers_witness :
  State_name (foldl (fun cb ev => (cb_step cb ev).1) (NewCircuitBreaker 2 1 10)
    ([ESuccess] ++ map EFailure ([1] ++ [2]))) = "open".
Proof.
  apply (circuit_opens_and_recovers 2 1 10 [ESuccess] [1] 2 0); [unfold max_i64; lia | unfold max_i64; lia | cbn; lia].
Defined.
