(* ===== verification/Balancer.v ===== *)
(** * The load balancer and its health checker ([proxy/balancer.go], [proxy/healthcheck.go])

    Backends are shared by pointer between the balancer's two lists and the checker's
    maps: a [*Backend] is an address in [bl_heap]. The counters are atomic and the
    checker has a mutex, so each method is one step. The HTTP client is the parameter
    [probe], [None] being a request that could not be built or did not complete. *)

From S2P Require Import Prelude GoStrings.

Local Open Scope Z_scope.
Local Open Scope go_scope.

Record Backend := {
  b_URL : string;
  b_Weight : Z;
  b_healthy : bool;
  b_activeConns : Z
}.

Inductive Strategy := RoundRobin | Random | LeastConn.

Record Balancer := {
  bl_heap : gmap nat Backend;
  bl_backends : list nat;
  bl_counter : Z;
  bl_strategy : Strategy;
  bl_expanded : list nat
}.

Definition with_heap (h : gmap nat Backend) (bl : Balancer) : Balancer :=
  {| bl_heap := h; bl_backends := bl_backends bl; bl_counter := bl_counter bl;
     bl_strategy := bl_strategy bl; bl_expanded := bl_expanded bl |}.
Definition with_counter (c : Z) (bl : Balancer) : Balancer :=
  {| bl_heap := bl_heap bl; bl_backends := bl_backends bl; bl_counter := c;
     bl_strategy := bl_strategy bl; bl_expanded := bl_expanded bl |}.

Definition set_healthy (v : bool) (b : Backend) : Backend :=
  {| b_URL := b_URL b; b_Weight := b_Weight b; b_healthy := v; b_activeConns := b_activeConns b |}.

Definition IsHealthy (h : gmap nat Backend) (b : nat) : bool := default false (b_healthy <$> h !! b).

(** The loop of [NewBalancer] over one backend. *)
Definition init_backend (b : Backend) : Backend :=
  {| b_URL := b_URL b; b_Weight := if b_Weight b <=? 0 then 1 else b_Weight b; b_healthy := true;
     b_activeConns := b_activeConns b |}.

Definition weight (h : gmap nat Backend) (b : nat) : Z := default 0 (b_Weight <$> h !! b).

Definition buildWeightedList (h : gmap nat Backend) (backends : list nat) : list nat :=
  flat_map (fun b => replicate (Z.to_nat (weight h b)) b) backends.

Definition NewBalancer (h : gmap nat Backend) (backends : list nat) (strategy : Strategy) : Balancer :=
  let h := foldl (fun h b => alter init_backend b h) h backends in
  {| bl_heap := h; bl_backends := backends; bl_counter := 0; bl_strategy := strategy;
     bl_expanded := buildWeightedList h backends |}.

(** [Healthy] *)
Definition Healthy (bl : Balancer) : list nat := filter (fun b => IsHealthy (bl_heap bl) b = true) (bl_backends bl).

(** [for i := 0; i < n; i++], [k] being [n - i]. *)
Fixpoint rr_loop (k : nat) (bl : Balancer) : Balancer * option nat :=
  match k with
  | O => (bl, None)
  | S k =>
      let c := bl_counter bl +u64 1 in
      let idx := u64 (c - 1) in
      let bl := with_counter c bl in
      match bl_expanded bl !! Z.to_nat (idx mod Z.of_nat (length (bl_expanded bl))) with
      | Some b => if IsHealthy (bl_heap bl) b then (bl, Some b) else rr_loop k bl
      | None => rr_loop k bl   (* out of range, excluded by [idx mod n < n] *)
      end
  end.

(** [None] is [ErrNoHealthyBackends]. *)
Definition nextRoundRobin (bl : Balancer) : Balancer * option nat := rr_loop (length (bl_expanded bl)) bl.

(** [rnd n] is what [rand.Intn(n)] returns. *)
Definition nextRandom (rnd : Z -> Z) (bl : Balancer) : Balancer * option nat :=
  let healthy := Healthy bl in
  if Z.of_nat (length healthy) =? 0 then (bl, None)
  else (bl, healthy !! Z.to_nat (rnd (Z.of_nat (length healthy)))).

Definition Next (rnd : Z -> Z) (bl : Balancer) : Balancer * option nat :=
  match bl_strategy bl with
  | Random => nextRandom rnd bl
  | LeastConn | RoundRobin => nextRoundRobin bl
  end.

Definition MarkDown (bl : Balancer) (b : nat) : Balancer := with_heap (alter (set_healthy false) b (bl_heap bl)) bl.
Definition MarkUp (bl : Balancer) (b : nat) : Balancer := with_heap (alter (set_healthy true) b (bl_heap bl)) bl.
Definition Backends (bl : Balancer) : list nat := bl_backends bl.

(** ** The health checker *)

Record HealthChecker := {
  hc_balancer : Balancer;
  hc_interval : Duration;
  hc_timeout : Duration;
  hc_path : string;
  hc_threshold : Z;
  hc_failureCounts : gmap nat Z;
  hc_successCounts : gmap nat Z;
  hc_recovThreshold : Z
}.

Definition NewHealthChecker (bl : Balancer) (interval timeout : Duration) (path : string) (threshold : Z) : HealthChecker :=
  {| hc_balancer := bl; hc_interval := interval; hc_timeout := timeout; hc_path := path; hc_threshold := if threshold <=? 0 then 3 else threshold;
     hc_failureCounts := ∅; hc_successCounts := ∅; hc_recovThreshold := 1 |}.

(** A missing key of a Go map reads as 0. *)
Definition get_count (m : gmap nat Z) (b : nat) : Z := default 0 (m !! b).

Definition recordFailure (hc : HealthChecker) (be : nat) : HealthChecker :=
  let n := get_count (hc_failureCounts hc) be +i64 1 in
  {| hc_balancer := if hc_threshold hc <=? n then MarkDown (hc_balancer hc) be else hc_balancer hc;
     hc_interval := hc_interval hc; hc_timeout := hc_timeout hc; hc_path := hc_path hc; hc_threshold := hc_threshold hc;
     hc_failureCounts := <[be := n]> (hc_failureCounts hc);
     hc_successCounts := <[be := 0]> (hc_successCounts hc);
     hc_recovThreshold := hc_recovThreshold hc |}.

Definition recordSuccess (hc : HealthChecker) (be : nat) : HealthChecker :=
  let n := get_count (hc_successCounts hc) be +i64 1 in
  {| hc_balancer := if hc_recovThreshold hc <=? n then MarkUp (hc_balancer hc) be else hc_balancer hc;
     hc_interval := hc_interval hc; hc_timeout := hc_timeout hc; hc_path := hc_path hc; hc_threshold := hc_threshold hc;
     hc_failureCounts := <[be := 0]> (hc_failureCounts hc);
     hc_successCounts := <[be := n]> (hc_successCounts hc);
     hc_recovThreshold := hc_recovThreshold hc |}.

Definition healthy_status (status : Z) : bool := (200 <=? status) && (status <? 400).

(** What the GET of a URL with the client's timeout comes to. *)
Inductive get_result := BadURL (err : string) | NoAnswer (err : string) | Answered (status : Z).

Definition probe_url (hc : HealthChecker) (be : nat) : string :=
  (default ""%string (b_URL <$> bl_heap (hc_balancer hc) !! be) +:+ hc_path hc)%string.

Definition check (probe : string -> get_result) (hc : HealthChecker) (be : nat) : HealthChecker :=
  match probe (probe_url hc be) with
  | BadURL _ | NoAnswer _ => recordFailure hc be
  | Answered status => if healthy_status status then recordSuccess hc be else recordFailure hc be
  end.

(** [checkAll]: one goroutine per backend, whose recordings happen in some order. *)
Definition checkAll (probe : string -> get_result) (order : list nat) (hc : HealthChecker) : HealthChecker :=
  foldl (fun hc be => check probe hc be) hc order.

(** [HealthChecker.Start]: the ticker is made first, then there is a round at once and one
    at each tick; a round is its answers and the order its goroutines record them in. *)
Definition round : Type := (string -> get_result) * list nat.
Definition Start (first : round) (events : list (tick round)) (hc : HealthChecker) : option HealthChecker :=
  _ ← NewTicker (hc_interval hc);
  Some (ticker_loop (fun rd => checkAll rd.1 rd.2) events (checkAll first.1 first.2 hc)).

Record CheckResult := { cr_Backend : nat; cr_Healthy : bool; cr_Latency : Duration; cr_Error : option string }.

(** [CheckOnce]: a result per backend, nothing recorded; [latency i] is the [i]-th goroutine's. *)
Definition CheckOnce (probe : string -> get_result) (latency : nat -> Duration) (hc : HealthChecker) : list CheckResult :=
  imap (fun i be =>
    match probe (probe_url hc be) with
    | BadURL err => {| cr_Backend := be; cr_Healthy := false; cr_Latency := 0; cr_Error := Some err |}
    | NoAnswer err => {| cr_Backend := be; cr_Healthy := false; cr_Latency := latency i; cr_Error := Some err |}
    | Answered status =>
        let healthy := healthy_status status in
        {| cr_Backend := be; cr_Healthy := healthy; cr_Latency := latency i;
           cr_Error := if healthy then None else Some ("unhealthy status: " +:+ Itoa status)%string |}
    end) (Backends (hc_balancer hc)).

(** ** Well-formed balancers *)

Record balancer_wf (bl : Balancer) : Prop := {
  bw_alloc : forall b, b ∈ bl_backends bl -> is_Some (bl_heap bl !! b) /\ 1 <= weight (bl_heap bl) b;
  bw_expanded : bl_expanded bl = buildWeightedList (bl_heap bl) (bl_backends bl);
  bw_counter : in_u64 (bl_counter bl)
}.

Lemma init_weight h bs b :
  is_Some (h !! b) -> (b ∈ bs \/ 1 <= weight h b) ->
  is_Some (foldl (fun h b => alter init_backend b h) h bs !! b) /\
  1 <= weight (foldl (fun h b => alter init_backend b h) h bs) b.
Proof.
  revert h. induction bs as [| x bs IH]; intros h Ha Hb; cbn [foldl].
  { split; [done |]. destruct Hb as [Hb | Hb]; [by apply not_elem_of_nil in Hb | done]. }
  assert (Hal : is_Some (alter init_backend x h !! b)).
  { destruct (decide (x = b)) as [-> | Hne]; [rewrite lookup_alter_eq; by apply fmap_is_Some |].
    by rewrite lookup_alter_ne. }
  apply IH; [done |]. destruct (decide (x = b)) as [-> | Hne].
  - right. unfold weight. rewrite lookup_alter_eq. destruct Ha as [v ->]. cbn. zbool; lia.
  - destruct Hb as [Hb | Hb].
    + left. apply elem_of_cons in Hb as [-> |]; [by destruct Hne | done].
    + right. unfold weight in *. by rewrite lookup_alter_ne.
Qed.

Lemma NewBalancer_wf h bs s : (forall b, b ∈ bs -> is_Some (h !! b)) -> balancer_wf (NewBalancer h bs s).
Proof.
  intros Ha. split; cbn; [| done | unfold in_u64; lia].
  intros b Hb. apply init_weight; auto.
Qed.

Lemma weight_set_healthy h b v x : weight (alter (set_healthy v) b h) x = weight h x.
Proof.
  unfold weight. destruct (decide (b = x)) as [-> | Hne]; [| by rewrite lookup_alter_ne].
  rewrite lookup_alter_eq. by destruct (h !! x).
Qed.

Lemma Mark_wf bl b v : balancer_wf bl -> balancer_wf (with_heap (alter (set_healthy v) b (bl_heap bl)) bl).
Proof.
  intros [Ha He Hc]. split; cbn; [| | done].
  - intros x Hx. rewrite weight_set_healthy. destruct (Ha x Hx) as [Hs Hw]. split; [| done].
    destruct (decide (b = x)) as [-> | Hne]; [rewrite lookup_alter_eq; by apply fmap_is_Some |].
    by rewrite lookup_alter_ne.
  - rewrite He. unfold buildWeightedList. apply flat_map_ext. intros x. by rewrite weight_set_healthy.
Qed.

Lemma expanded_elem bl b : balancer_wf bl -> b ∈ bl_expanded bl <-> b ∈ bl_backends bl.
Proof.
  intros [Ha He _]. rewrite He. unfold buildWeightedList. rewrite list_elem_of_In, in_flat_map.
  split.
  - intros (x & Hx%list_elem_of_In & Hb%list_elem_of_In). by apply elem_of_replicate in Hb as [-> _].
  - intros Hb. exists b. rewrite <- !list_elem_of_In. split; [done |]. apply elem_of_replicate. split; [done |].
    destruct (Ha b Hb) as [_ Hw]. lia.
Qed.

(** ** Round robin *)

(** The loop inspects the [k] slots that follow the counter. *)
Lemma rr_loop_spec k bl :
  0 <= bl_counter bl -> bl_counter bl + Z.of_nat k < 2 ^ 64 -> (0 < length (bl_expanded bl))%nat ->
  let n := Z.of_nat (length (bl_expanded bl)) in
  let slot i := bl_expanded bl !! Z.to_nat ((bl_counter bl + Z.of_nat i) mod n) in
  match rr_loop k bl with
  | (bl', Some b) => exists i, (i < k)%nat /\ slot i = Some b /\ IsHealthy (bl_heap bl) b = true /\
      (forall j x, (j < i)%nat -> slot j = Some x -> IsHealthy (bl_heap bl) x = false) /\
      bl' = with_counter (bl_counter bl + Z.of_nat i + 1) bl
  | (bl', None) => (forall j x, (j < k)%nat -> slot j = Some x -> IsHealthy (bl_heap bl) x = false) /\
      bl' = with_counter (bl_counter bl + Z.of_nat k) bl
  end.
Proof.
  revert bl. induction k as [| k IH]; intros bl Hc Hk Hn n slot; cbn [rr_loop].
  - split; [intros; lia |]. rewrite Z.add_0_r. by destruct bl.
  - rewrite (u64_small (bl_counter bl + 1)) by (unfold in_u64; lia).
    replace (bl_counter bl + 1 - 1) with (bl_counter bl) by lia.
    rewrite (u64_small (bl_counter bl)) by (unfold in_u64; lia). cbn [with_counter bl_expanded bl_heap].
    set (bl1 := with_counter (bl_counter bl + 1) bl).
    assert (Hslot : forall i, slot (S i) = bl_expanded bl1 !! Z.to_nat ((bl_counter bl1 + Z.of_nat i) mod Z.of_nat (length (bl_expanded bl1)))).
    { intros i. unfold slot, bl1, n; cbn. do 3 f_equal. lia. }
    assert (Hs0 : slot 0%nat = bl_expanded bl !! Z.to_nat (bl_counter bl mod n)).
    { unfold slot. do 3 f_equal. lia. }
    specialize (IH bl1). cbn [bl1 with_counter bl_counter bl_expanded bl_heap] in IH.
    specialize (IH ltac:(lia) ltac:(lia) Hn). fold n in IH. fold bl1 in IH.
    destruct (lookup_lt_is_Some_2 (bl_expanded bl) (Z.to_nat (bl_counter bl mod n))) as [b Hb].
    { pose proof (Z.mod_pos_bound (bl_counter bl) n ltac:(unfold n; lia)). unfold n in *. lia. }
    fold n. fold bl1. rewrite Hb. rewrite Hb in Hs0. destruct (IsHealthy (bl_heap bl) b) eqn:Eh.
    + exists 0%nat. split_and!; [lia | done | done | intros; lia |]. unfold bl1. f_equal. lia.
    + assert (Hex : forall i, slot (S i) = bl_expanded bl !! Z.to_nat ((bl_counter bl + 1 + Z.of_nat i) mod n)).
      { intros i. by rewrite Hslot. }
      destruct (rr_loop k bl1) as [bl' [b' |]].
      * destruct IH as (i & Hi & Hsi & Hhi & Hbefore & ->). exists (S i).
        rewrite Hex. split_and!; [lia | done | done | | unfold bl1, with_counter; cbn; f_equal; lia].
        intros [| j] x Hj; [congruence |]. rewrite Hex. apply Hbefore. lia.
      * destruct IH as [Hall ->]. split; [| unfold bl1, with_counter; cbn; f_equal; lia].
        intros [| j] x Hj; [congruence |]. rewrite Hex. apply Hall. lia.
Qed.

(** A full turn from any position meets every slot. *)
Lemma turn_covers (c n x : Z) :
  0 <= c -> 0 <= x < n -> exists i, 0 <= i < n /\ (c + i) mod n = x.
Proof.
  intros Hc Hx. exists ((x - c) mod n). split; [apply Z.mod_pos_bound; lia |].
  rewrite Zplus_mod_idemp_r. replace (c + (x - c)) with x by lia. by apply Z.mod_small.
Qed.

(** A balancer never hands out a backend that is down, nor one it does not have, and
    reports that none is available exactly when every backend is down, whatever the
    strategy (below the wrap-around of the round-robin counter). *)
Theorem Next_healthy rnd bl :
  balancer_wf bl -> bl_counter bl + Z.of_nat (length (bl_expanded bl)) < 2 ^ 64 ->
  (forall n, 0 < n -> 0 <= rnd n < n) ->
  let '(bl', r) := Next rnd bl in
  bl_heap bl' = bl_heap bl /\ bl_backends bl' = bl_backends bl /\
  match r with
  | Some b => b ∈ bl_backends bl /\ IsHealthy (bl_heap bl) b = true
  | None => forall b, b ∈ bl_backends bl -> IsHealthy (bl_heap bl) b = false
  end.
Proof.
  intros Hwf Hc Hrnd. pose proof (bw_counter bl Hwf) as Hc0. unfold in_u64 in Hc0.
  assert (Hrr : let '(bl', r) := nextRoundRobin bl in
    bl_heap bl' = bl_heap bl /\ bl_backends bl' = bl_backends bl /\
    match r with
    | Some b => b ∈ bl_backends bl /\ IsHealthy (bl_heap bl) b = true
    | None => forall b, b ∈ bl_backends bl -> IsHealthy (bl_heap bl) b = false
    end).
  { unfold nextRoundRobin. set (n := length (bl_expanded bl)) in *.
    destruct (Nat.eq_dec n 0) as [En | Hn].
    - rewrite En. cbn [rr_loop]. split_and!; [done | done |]. intros b Hb.
      apply (expanded_elem bl b Hwf) in Hb. unfold n in En. apply length_zero_iff_nil in En.
      rewrite En in Hb. by apply not_elem_of_nil in Hb.
    - pose proof (rr_loop_spec n bl ltac:(lia) Hc ltac:(unfold n in *; lia)) as Hs.
      destruct (rr_loop n bl) as [bl' [b |]].
      + destruct Hs as (i & _ & Hb & Hh & _ & ->). split_and!; [done | done | | done].
        apply (expanded_elem bl b Hwf). by eapply list_elem_of_lookup_2.
      + destruct Hs as [Hall ->]. split_and!; [done | done |]. intros b Hb.
        apply (expanded_elem bl b Hwf) in Hb. apply list_elem_of_lookup in Hb as [x Hx].
        pose proof (lookup_lt_Some _ _ _ Hx) as Hlt. fold n in Hlt.
        destruct (turn_covers (bl_counter bl) (Z.of_nat n) (Z.of_nat x)) as (i & Hi & Ei); [lia | lia |].
        apply (Hall (Z.to_nat i) b); [lia |]. rewrite Z2Nat.id by lia. unfold n in Ei. rewrite Ei.
        by rewrite Nat2Z.id. }
  unfold Next. destruct (bl_strategy bl); [done | | done]. unfold nextRandom.
  assert (Helem : forall b, b ∈ Healthy bl <-> IsHealthy (bl_heap bl) b = true /\ b ∈ bl_backends bl).
  { intros b. unfold Healthy. by rewrite list_elem_of_filter. }
  destruct (Z.eqb_spec (Z.of_nat (length (Healthy bl))) 0) as [E | Hn].
  - split_and!; [done | done |]. intros b Hb. destruct (IsHealthy (bl_heap bl) b) eqn:Eh; [| done].
    assert (Hin : b ∈ Healthy bl) by (by apply Helem).
    destruct (Healthy bl); [by apply not_elem_of_nil in Hin | cbn in E; lia].
  - split_and!; [done | done |]. specialize (Hrnd (Z.of_nat (length (Healthy bl))) ltac:(lia)).
    destruct (lookup_lt_is_Some_2 (Healthy bl) (Z.to_nat (rnd (Z.of_nat (length (Healthy bl)))))) as [b Hb]; [lia |].
    rewrite Hb. apply list_elem_of_lookup_2, Helem in Hb. tauto.
Qed.

(** ** Fairness of the weights *)

(** [k] calls in a row. *)
Fixpoint calls (k : nat) (bl : Balancer) : Balancer * list (option nat) :=
  match k with
  | O => (bl, [])
  | S k => let '(bl, r) := nextRoundRobin bl in let '(bl, rs) := calls k bl in (bl, r :: rs)
  end.

Lemma calls_healthy k bl :
  (forall b, b ∈ bl_expanded bl -> IsHealthy (bl_heap bl) b = true) ->
  0 <= bl_counter bl -> bl_counter bl + Z.of_nat k + Z.of_nat (length (bl_expanded bl)) < 2 ^ 64 ->
  (0 < length (bl_expanded bl))%nat ->
  (calls k bl).2 = map (fun i => bl_expanded bl !! Z.to_nat ((bl_counter bl + Z.of_nat i) mod Z.of_nat (length (bl_expanded bl)))) (seq 0 k).
Proof.
  revert bl. induction k as [| k IH]; intros bl Hall Hc Hk Hn; [done |]. cbn [calls].
  pose proof (rr_loop_spec (length (bl_expanded bl)) bl Hc ltac:(lia) Hn) as Hs.
  unfold nextRoundRobin. set (n := Z.of_nat (length (bl_expanded bl))) in *.
  destruct (lookup_lt_is_Some_2 (bl_expanded bl) (Z.to_nat ((bl_counter bl + Z.of_nat 0) mod n))) as [b0 Hb0].
  { pose proof (Z.mod_pos_bound (bl_counter bl + Z.of_nat 0) n ltac:(unfold n; lia)). unfold n in *. lia. }
  pose proof (Hall b0 (list_elem_of_lookup_2 _ _ _ Hb0)) as Hh0.
  destruct (rr_loop _ bl) as [bl' [b |]].
  2: { destruct Hs as [Hf _]. rewrite (Hf 0%nat b0 ltac:(lia) Hb0) in Hh0. done. }
  destruct Hs as (i & Hi & Hb & _ & Hbefore & ->).
  assert (i = 0%nat) as -> by (destruct i; [done |]; rewrite (Hbefore 0%nat b0 ltac:(lia) Hb0) in Hh0; done).
  specialize (IH (with_counter (bl_counter bl + Z.of_nat 0 + 1) bl) Hall). cbn [with_counter bl_counter bl_expanded] in IH.
  destruct (calls k (with_counter _ bl)) as [bl2 rs] eqn:Ec. cbn [snd] in *.
  rewrite IH by (unfold n in *; lia). cbn [seq map]. f_equal; [congruence |].
  rewrite <- seq_shift, map_map. apply map_ext. intros i. fold n. do 3 f_equal. lia.
Qed.

Lemma rotation_perm (c n : Z) :
  0 <= c -> 0 < n ->
  map (fun i => Z.to_nat ((c + Z.of_nat i) mod n)) (seq 0 (Z.to_nat n)) ≡ₚ seq 0 (Z.to_nat n).
Proof.
  intros Hc Hn. apply NoDup_Permutation.
  - apply NoDup_fmap_2_strong; [| apply NoDup_seq].
    intros x y Hx%elem_of_seq Hy%elem_of_seq E.
    pose proof (Z.mod_pos_bound (c + Z.of_nat x) n Hn). pose proof (Z.mod_pos_bound (c + Z.of_nat y) n Hn).
    apply Z2Nat.inj in E; try lia.
    pose proof (Z.div_mod (c + Z.of_nat x) n ltac:(lia)) as Ex.
    pose proof (Z.div_mod (c + Z.of_nat y) n ltac:(lia)) as Ey. rewrite E in Ex.
    set (q1 := (c + Z.of_nat x) / n) in *. set (q2 := (c + Z.of_nat y) / n) in *.
    destruct (Z.lt_trichotomy q1 q2) as [Hq | [Hq | Hq]]; [nia | rewrite Hq in Ex; lia | nia].
  - apply NoDup_seq.
  - intros x. rewrite list_elem_of_fmap. setoid_rewrite elem_of_seq. split.
    + intros (i & -> & Hi). pose proof (Z.mod_pos_bound (c + Z.of_nat i) n Hn). lia.
    + intros Hx. destruct (turn_covers c n (Z.of_nat x)) as (i & Hi & Ei); [lia | lia |].
      exists (Z.to_nat i). rewrite Z2Nat.id by lia. rewrite Ei. lia.
Qed.

Lemma map_lookup_seq {A} (l : list A) : map (fun i => l !! i) (seq 0 (length l)) = map Some l.
Proof.
  induction l as [| x l IH]; [done |]. cbn [length seq map]. f_equal.
  rewrite <- seq_shift, map_map. exact IH.
Qed.

Lemma count_weighted h bs b :
  NoDup bs -> b ∈ bs -> length (filter (eq b) (buildWeightedList h bs)) = Z.to_nat (weight h b).
Proof.
  intros Hnd. assert (Hother : forall bs x, x ∉ bs -> filter (eq x) (buildWeightedList h bs) = []).
  { clear. intros bs x Hx. induction bs as [| y bs IH]; [done |].
    change (buildWeightedList h (y :: bs)) with (replicate (Z.to_nat (weight h y)) y ++ buildWeightedList h bs).
    rewrite filter_app.
    apply not_elem_of_cons in Hx as [Hxy Hx]. rewrite IH by done. rewrite app_nil_r.
    induction (Z.to_nat (weight h y)) as [| n IHn]; [done |]. cbn [replicate app]. rewrite filter_cons, decide_False by congruence. done. }
  induction Hnd as [| y bs Hy Hnd IH]; intros Hb; [by apply not_elem_of_nil in Hb |].
  change (buildWeightedList h (y :: bs)) with (replicate (Z.to_nat (weight h y)) y ++ buildWeightedList h bs).
  rewrite filter_app, length_app. destruct (decide (b = y)) as [-> | Hne].
  - rewrite Hother by done. cbn [length]. rewrite filter_all; [rewrite length_replicate; lia |].
    intros x Hx. by apply elem_of_replicate in Hx as [-> _].
  - apply elem_of_cons in Hb as [-> | Hb]; [done |]. rewrite <- IH by done.
    assert (Hz : forall n, filter (eq b) (replicate n y) = []).
    { intros n. induction n as [| n IHn]; [done |]. cbn [replicate]. rewrite filter_cons, decide_False by congruence. done. }
    by rewrite Hz.
Qed.

(** With every backend up, each turn of as many calls as the sum of the weights hands
    out every backend exactly as often as its weight says, wherever the turn starts. *)
Theorem round_robin_fair bl :
  balancer_wf bl -> NoDup (bl_backends bl) ->
  (forall b, b ∈ bl_backends bl -> IsHealthy (bl_heap bl) b = true) ->
  bl_counter bl + 2 * Z.of_nat (length (bl_expanded bl)) < 2 ^ 64 ->
  let rs := (calls (length (bl_expanded bl)) bl).2 in
  rs ≡ₚ map Some (bl_expanded bl) /\
  forall b, b ∈ bl_backends bl -> Z.of_nat (length (filter (eq (Some b)) rs)) = weight (bl_heap bl) b.
Proof.
  intros Hwf Hnd Hup Hc rs. pose proof (bw_counter bl Hwf) as Hc0. unfold in_u64 in Hc0.
  assert (Hperm : rs ≡ₚ map Some (bl_expanded bl)).
  { unfold rs. destruct (Nat.eq_dec (length (bl_expanded bl)) 0) as [En | Hn].
    - apply length_zero_iff_nil in En. by rewrite En.
    - rewrite calls_healthy; [| | lia | lia | lia].
      2: { intros b Hb. apply Hup. by apply (expanded_elem bl b Hwf). }
      rewrite <- map_lookup_seq. rewrite <- (map_map _ (fun i => bl_expanded bl !! i)).
      apply Permutation_map. pose proof (rotation_perm (bl_counter bl) (Z.of_nat (length (bl_expanded bl)))) as Hr.
      rewrite Nat2Z.id in Hr. apply Hr; lia. }
  split; [done |]. intros b Hb. rewrite Hperm.
  assert (Hf : forall l, length (filter (eq (Some b)) (map Some l)) = length (filter (eq b) l)).
  { intros l. induction l as [| x l IH]; [done |]. cbn [map]. rewrite !filter_cons.
    destruct (decide (Some b = Some x)), (decide (b = x)); try congruence; cbn [length]; by rewrite IH. }
  rewrite Hf, (bw_expanded bl Hwf), (count_weighted _ _ b Hnd Hb).
  destruct (bw_alloc bl Hwf b Hb) as [_ Hw]. lia.
Qed.

(** ** Health *)

(** The abstract history of one backend: up or down, and its failures in a row. *)
Record health := { h_up : bool; h_fails : Z }.

Definition health_step (T : Z) (s : health) (ok : bool) : health :=
  if ok then {| h_up := true; h_fails := 0 |}
  else {| h_up := if T <=? h_fails s + 1 then false else h_up s; h_fails := h_fails s + 1 |}.

(** Recorded outcomes, in the order the mutex serialises them. *)
Definition record (hc : HealthChecker) (ev : nat * bool) : HealthChecker :=
  if ev.2 then recordSuccess hc ev.1 else recordFailure hc ev.1.

Definition health_run (T : Z) (b : nat) (s : health) (evs : list (nat * bool)) : health :=
  foldl (fun s ev => if decide (ev.1 = b) then health_step T s ev.2 else s) s evs.

(** [k] bounds the number of outcomes recorded so far. *)
Definition health_sim (b : nat) (k : Z) (hc : HealthChecker) (s : health) : Prop :=
  is_Some (bl_heap (hc_balancer hc) !! b) /\ hc_recovThreshold hc = 1 /\
  IsHealthy (bl_heap (hc_balancer hc)) b = h_up s /\
  get_count (hc_failureCounts hc) b = h_fails s /\ 0 <= h_fails s <= k /\
  0 <= get_count (hc_successCounts hc) b <= k.

Lemma IsHealthy_alter h b v x :
  is_Some (h !! x) -> IsHealthy (alter (set_healthy v) b h) x = if decide (b = x) then v else IsHealthy h x.
Proof.
  intros [y Hy]. unfold IsHealthy. destruct (decide (b = x)) as [-> | Hne].
  - by rewrite lookup_alter_eq, Hy.
  - by rewrite lookup_alter_ne.
Qed.

Lemma alter_is_Some (h : gmap nat Backend) f b x : is_Some (h !! x) -> is_Some (alter f b h !! x).
Proof.
  intros Hs. destruct (decide (b = x)) as [-> | Hne]; [rewrite lookup_alter_eq; by apply fmap_is_Some |].
  by rewrite lookup_alter_ne.
Qed.

Lemma get_count_insert m b n x : get_count (<[b := n]> m) x = if decide (b = x) then n else get_count m x.
Proof.
  unfold get_count. destruct (decide (b = x)) as [-> | Hne];
    [by rewrite lookup_insert_eq | by rewrite lookup_insert_ne].
Qed.

Lemma record_threshold hc ev : hc_threshold (record hc ev) = hc_threshold hc.
Proof. unfold record. by destruct ev.2. Qed.

Lemma health_sim_step b k hc s ev :
  k < max_i64 -> health_sim b k hc s ->
  health_sim b (k + 1) (record hc ev)
    (if decide (ev.1 = b) then health_step (hc_threshold hc) s ev.2 else s).
Proof.
  intros Hk (Ha & Hr & Hh & Hf & Hfk & Hs). destruct ev as [x ok]; cbn [fst snd].
  unfold record, recordSuccess, recordFailure, health_sim; cbn [fst snd].
  unfold max_i64 in Hk.
  destruct ok; cbn [hc_balancer hc_recovThreshold hc_failureCounts hc_successCounts]; rewrite !get_count_insert.
  - destruct (decide (x = b)) as [-> | Hne].
    + rewrite i64_small by (unfold in_i64, min_i64, max_i64; lia).
      rewrite Hr, (proj2 (Z.leb_le 1 _)) by lia. cbn [MarkUp with_heap bl_heap health_step h_up h_fails].
      rewrite IsHealthy_alter, decide_True by done.
      split_and!; try done; try lia. by apply alter_is_Some.
    + destruct (_ <=? _); cbn [MarkUp with_heap bl_heap]; rewrite ?IsHealthy_alter, ?decide_False by done;
        split_and!; try done; try lia; by apply alter_is_Some.
  - destruct (decide (x = b)) as [-> | Hne].
    + rewrite Hf, i64_small by (unfold in_i64, min_i64, max_i64; lia).
      cbn [health_step h_up h_fails].
      destruct (_ <=? _); cbn [MarkDown with_heap bl_heap]; rewrite ?IsHealthy_alter, ?decide_True by done;
        split_and!; try done; try lia; by apply alter_is_Some.
    + destruct (_ <=? _); cbn [MarkDown with_heap bl_heap]; rewrite ?IsHealthy_alter, ?decide_False by done;
        split_and!; try done; try lia; by apply alter_is_Some.
Qed.

Lemma health_sim_run b k hc s evs :
  k + Z.of_nat (length evs) <= max_i64 -> health_sim b k hc s ->
  health_sim b (k + Z.of_nat (length evs)) (foldl record hc evs) (health_run (hc_threshold hc) b s evs).
Proof.
  revert k hc s. induction evs as [| ev evs IH]; intros k hc s Hk Hs; [by rewrite Z.add_0_r |].
  unfold health_run. cbn [foldl length] in *.
  pose proof (health_sim_step b k hc s ev ltac:(lia) Hs) as Hs'.
  replace (k + Z.of_nat (S (length evs))) with (k + 1 + Z.of_nat (length evs)) by lia.
  rewrite <- (record_threshold hc ev). apply IH; [lia |]. by rewrite record_threshold.
Qed.

(** However the probes of the backends interleave, a backend's state depends on its
    own outcomes only: it goes down at the [threshold]-th failure in a row and comes back
    at the first success. *)
Theorem health_of_backend bl interval timeout path threshold evs b :
  is_Some (bl_heap bl !! b) -> Z.of_nat (length evs) <= max_i64 ->
  let hc := foldl record (NewHealthChecker bl interval timeout path threshold) evs in
  let T := if threshold <=? 0 then 3 else threshold in
  IsHealthy (bl_heap (hc_balancer hc)) b
  = h_up (foldl (health_step T) {| h_up := IsHealthy (bl_heap bl) b; h_fails := 0 |}
           (map snd (filter (fun ev => ev.1 = b) evs))).
Proof.
  intros Ha Hlen hc T.
  assert (Hs : health_sim b 0 (NewHealthChecker bl interval timeout path threshold)
                 {| h_up := IsHealthy (bl_heap bl) b; h_fails := 0 |}).
  { unfold health_sim; cbn. split_and!; try done; lia. }
  pose proof (health_sim_run b 0 _ _ evs ltac:(lia) Hs) as (_ & _ & Hh & _). fold hc in Hh. rewrite Hh. f_equal.
  cbn [NewHealthChecker hc_threshold]. fold T. unfold health_run. clear.
  generalize {| h_up := IsHealthy (bl_heap bl) b; h_fails := 0 |}.
  induction evs as [| ev evs IH]; intros s; [done |]. cbn [foldl]. rewrite filter_cons.
  destruct (decide (ev.1 = b)); cbn [map foldl]; apply IH.
Qed.

(** The outcome of a probe, and [check] as the recording of it. *)
Definition probe_ok (probe : string -> get_result) (hc : HealthChecker) (be : nat) : bool :=
  match probe (probe_url hc be) with
  | Answered status => healthy_status status
  | _ => false
  end.

Lemma check_record probe hc be : check probe hc be = record hc (be, probe_ok probe hc be).
Proof. unfold check, probe_ok, record. cbn [fst snd]. destruct (probe _) as [| | status]; [done | done | by destruct (healthy_status status)]. Qed.

Lemma url_record hc ev be :
  b_URL <$> bl_heap (hc_balancer (record hc ev)) !! be = b_URL <$> bl_heap (hc_balancer hc) !! be.
Proof.
  assert (Hal : forall v x (h : gmap nat Backend), b_URL <$> alter (set_healthy v) x h !! be = b_URL <$> h !! be).
  { intros v x h. destruct (decide (x = be)) as [-> | Hne]; [| by rewrite lookup_alter_ne].
    rewrite lookup_alter_eq. by destruct (h !! be). }
  unfold record. destruct ev as [x [|]]; unfold recordSuccess, recordFailure; cbn;
    destruct (_ <=? _); cbn; rewrite ?Hal; done.
Qed.

Lemma probe_ok_record probe hc ev be : probe_ok probe (record hc ev) be = probe_ok probe hc be.
Proof.
  unfold probe_ok, probe_url. rewrite url_record. unfold record. by destruct ev.2.
Qed.

Lemma probe_ok_records probe hc evs be : probe_ok probe (foldl record hc evs) be = probe_ok probe hc be.
Proof. revert hc. induction evs as [| ev evs IH]; intros hc; [done |]. cbn [foldl]. by rewrite IH, probe_ok_record. Qed.

(** A round of probes is the recording of its outcomes. *)
Lemma checkAll_records probe order hc : checkAll probe order hc = foldl record hc (map (fun be => (be, probe_ok probe hc be)) order).
Proof.
  unfold checkAll. assert (Hg : forall h, (forall be, probe_ok probe h be = probe_ok probe hc be) ->
    foldl (fun hc be => check probe hc be) h order = foldl record h (map (fun be => (be, probe_ok probe hc be)) order)); [| by apply Hg].
  induction order as [| be order IH]; intros h Hh; [done |]. cbn [map foldl]. rewrite check_record, Hh. apply IH.
  intros be'. by rewrite probe_ok_record.
Qed.

Lemma record_comm hc x y a b : x <> y -> record (record hc (x, a)) (y, b) = record (record hc (y, b)) (x, a).
Proof.
  intros Hne. destruct a, b; unfold record, recordSuccess, recordFailure, MarkUp, MarkDown, with_heap; cbn;
    rewrite !get_count_insert, !decide_False by congruence;
    rewrite (insert_insert_ne (hc_failureCounts hc) x y), (insert_insert_ne (hc_successCounts hc) x y) by done;
    do 2 destruct (_ <=? _); cbn; rewrite ?(alter_commute _ _ _ x y) by done; try done.
  all: by rewrite alter_alter_ne.
Qed.

(** The result of a round of probes does not depend on the order in which the
    goroutines record their outcomes. *)
Theorem checkAll_order probe hc order order' :
  NoDup order -> order ≡ₚ order' -> checkAll probe order hc = checkAll probe order' hc.
Proof.
  intros Hnd Hp. revert hc Hnd. unfold checkAll.
  induction Hp as [| x l l' Hp IH | x y l | l1 l2 l3 Hp1 IH1 Hp2 IH2]; intros hc Hnd; cbn [foldl]; [done | | |].
  - apply IH. by inversion Hnd.
  - assert (x <> y) by (intros ->; inversion Hnd; set_solver).
    rewrite !check_record, !probe_ok_record. by rewrite record_comm.
  - rewrite IH1 by done. apply IH2. by rewrite <- Hp1.
Qed.

(** The outcomes a list of rounds records. *)
Definition round_events (hc : HealthChecker) (rounds : list round) : list (nat * bool) :=
  flat_map (fun rd : round => map (fun be => (be, probe_ok rd.1 hc be)) rd.2) rounds.

Lemma rounds_records hc0 hc rounds :
  (forall probe be, probe_ok probe hc be = probe_ok probe hc0 be) ->
  foldl (fun hc (rd : round) => checkAll rd.1 rd.2 hc) hc rounds = foldl record hc (round_events hc0 rounds).
Proof.
  revert hc. induction rounds as [| [probe order] rounds IH]; intros hc Hp; [done |].
  cbn [foldl round_events flat_map fst snd]. fold (round_events hc0 rounds). rewrite foldl_app.
  assert (E : map (fun be => (be, probe_ok probe hc be)) order = map (fun be => (be, probe_ok probe hc0 be)) order)
    by (apply map_ext; intros; by rewrite Hp).
  rewrite checkAll_records, E. apply IH. intros probe' be. by rewrite probe_ok_records.
Qed.

Lemma one_outcome hc probe order b :
  NoDup order -> b ∈ order ->
  filter (fun ev : nat * bool => ev.1 = b) (map (fun be => (be, probe_ok probe hc be)) order) = [(b, probe_ok probe hc b)].
Proof.
  intros Hnd Hb. induction order as [| x order IH]; [by apply not_elem_of_nil in Hb |].
  apply NoDup_cons in Hnd as [Hx Hnd]. cbn [map]. rewrite filter_cons. cbn [fst].
  destruct (decide (x = b)) as [-> | Hne].
  - f_equal. clear IH Hnd Hb. induction order as [| y order IH]; [done |]. cbn [map]. rewrite filter_cons. cbn [fst].
    apply not_elem_of_cons in Hx as [Hy Hx]. rewrite decide_False by congruence. by apply IH.
  - apply IH; [done |]. by apply elem_of_cons in Hb as [-> | ?].
Qed.

(** C39: The checker's rounds decide: [Start] panics when the interval is not positive, before
    any backend is probed; otherwise, whatever the order in which the goroutines of a
    round record, a backend goes down exactly at its [threshold]-th failed round in a row
    and comes back at the first round it answers, the first round being made at once. *)
Theorem Start_health bl interval timeout path threshold first events b :
  is_Some (bl_heap bl !! b) ->
  let hc := NewHealthChecker bl interval timeout path threshold in
  let rounds := first :: ticks events in
  (forall rd, rd ∈ rounds -> NoDup rd.2 /\ b ∈ rd.2) ->
  Z.of_nat (length (round_events hc rounds)) <= max_i64 ->
  match Start first events hc with
  | None => interval <= 0
  | Some hc' => 0 < interval /\
      IsHealthy (bl_heap (hc_balancer hc')) b
      = h_up (foldl (health_step (if threshold <=? 0 then 3 else threshold)) {| h_up := IsHealthy (bl_heap bl) b; h_fails := 0 |}
               (map (fun rd : round => probe_ok rd.1 hc b) rounds))
  end.
Proof.
  intros Ha hc rounds Hrd Hlen. unfold Start. cbn [hc_interval hc NewHealthChecker].
  destruct (NewTicker interval) eqn:Et; cbn; [| by apply NewTicker_panics in Et].
  split; [unfold NewTicker in Et; by destruct (Z.ltb_spec 0 interval) |].
  rewrite ticker_loop_ticks. fold hc.
  change (foldl _ _ (ticks events)) with (foldl (fun hc (rd : round) => checkAll rd.1 rd.2 hc) hc rounds).
  rewrite (rounds_records hc) by done. pose proof (health_of_backend bl interval timeout path threshold _ b Ha Hlen) as Hb. cbv zeta in Hb. fold hc in Hb. rewrite Hb.
  enough (E : map snd (filter (fun ev : nat * bool => ev.1 = b) (round_events hc rounds)) = map (fun rd : round => probe_ok rd.1 hc b) rounds) by (by rewrite E).
  clear Hlen Hb. induction rounds as [| rd rounds IH]; [done |].
  cbn [round_events flat_map map]. fold (round_events hc rounds). rewrite filter_app.
  destruct (Hrd rd ltac:(left)) as [Hnd Hb]. rewrite one_outcome by done. cbn [map app snd]. f_equal. apply IH. intros; apply Hrd; by right.
Qed.

(** [CheckOnce] reports what a round would record. *)
Lemma CheckOnce_reports probe latency hc :
  map (fun cr => (cr_Backend cr, cr_Healthy cr)) (CheckOnce probe latency hc)
  = map (fun be => (be, probe_ok probe hc be)) (Backends (hc_balancer hc)).
Proof.
  unfold CheckOnce. generalize (Backends (hc_balancer hc)) as l. intros l. revert latency.
  induction l as [| be l IH]; intros latency; [done |]. cbn [imap map]. f_equal.
  - unfold probe_ok. by destruct (probe _).
  - exact (IH (latency ∘ S)).
Qed.

(** ** Concrete inputs *)

Definition two_backends : Balancer :=
  NewBalancer {[0%nat := {| b_URL := "http://a"; b_Weight := 2; b_healthy := false; b_activeConns := 0 |};
                1%nat := {| b_URL := "http://b"; b_Weight := 0; b_healthy := false; b_activeConns := 0 |}]}
    [0%nat; 1%nat] RoundRobin.

Lemma two_backends_wf : balancer_wf two_backends.
Proof. apply NewBalancer_wf. intros b [-> | [-> | []%not_elem_of_nil]%elem_of_cons]%elem_of_cons; by eexists. Qed.

Lemma Next_healthy_witness :
  let '(_, r) := Next (fun _ => 0) (MarkDown two_backends 0) in r = Some 1%nat.
Proof.
  pose proof (Next_healthy (fun _ => 0) (MarkDown two_backends 0) (Mark_wf _ 0 false two_backends_wf)
    ltac:(vm_compute; reflexivity) ltac:(intros; lia)) as Hn.
  destruct (Next (fun _ => 0) (MarkDown two_backends 0)) as [bl' r] eqn:E.
  vm_compute in E. injection E as _ <-. exact (proj1 (conj eq_refl (proj2 (proj2 Hn)))).
Defined.

Lemma round_robin_fair_witness :
  Z.of_nat (length (filter (eq (Some 0%nat)) (calls 3 two_backends).2)) = 2.
Proof.
  refine (proj2 (round_robin_fair two_backends two_backends_wf _ _ _) 0%nat _).
  - repeat constructor; set_solver.
  - intros b [-> | [-> | []%not_elem_of_nil]%elem_of_cons]%elem_of_cons; reflexivity.
  - vm_compute. reflexivity.
  - left.
Defined.

Lemma health_of_backend_witness :
  IsHealthy (bl_heap (hc_balancer (foldl record (NewHealthChecker two_backends 10 5 "/h" 2)
    [(0%nat, false); (1%nat, true); (0%nat, false)]))) 0 = false.
Proof. apply (health_of_backend two_backends 10 5 "/h" 2); [by eexists | unfold max_i64; cbn; lia]. Defined.

Lemma checkAll_order_witness :
  checkAll (fun _ => Answered 500) [0; 1]%nat (NewHealthChecker two_backends 10 5 "/h" 1)
  = checkAll (fun _ => Answered 500) [1; 0]%nat (NewHealthChecker two_backends 10 5 "/h" 1).
Proof. apply checkAll_order; [repeat constructor; set_solver | apply perm_swap]. Defined.

Lemma Start_health_witness :
  match Start (fun _ => NoAnswer "timeout", [1; 0]%nat) [Tick (fun _ => Answered 503, [0; 1]%nat); CtxDone]
          (NewHealthChecker two_backends 10 5 "/h" 2) with
  | None => 10 <= 0
  | Some hc' => 0 < 10 /\ IsHealthy (bl_heap (hc_balancer hc')) 0 = false
  end.
Proof.
  refine (Start_health two_backends 10 5 "/h" 2 (fun _ => NoAnswer "timeout", [1; 0]%nat)
    [Tick (fun _ => Answered 503, [0; 1]%nat); CtxDone] 0 _ _ _);
    [by eexists | | unfold max_i64; cbn; lia].
  intros rd [-> | [-> | []%not_elem_of_nil]%elem_of_cons]%elem_of_cons; split; repeat constructor; set_solver.
Defined.
