(* ===== verification/Origin.v ===== *)
(** * Origin fetches ([proxy/origin.go])

    [doFetch] builds the request and reads a bounded body; [Fetch] adds the circuit
    breaker and the coalescing of concurrent requests for one cache key. The HTTP
    client is the parameter [client_Do]: [None] when it reports an error, otherwise the
    status, the header, and the body with a flag telling that it was read to its end.
    [Fetch] is cut where other goroutines can run, and the last section interleaves any
    number of calls. *)

From S2P Require Import Prelude GoStrings Circuit.

Local Open Scope Z_scope.

Record Response := { rs_StatusCode : Z; rs_Header : Header; rs_Body : string }.

(** [oq_Host] is [req.Host] when it is set: [None] stands for the URL's own host. *)
Record OriginRequest := { oq_URL : string; oq_Header : Header; oq_Host : option string }.

Inductive fetch_err := ErrCircuitOpen | ErrBuild | ErrFetch | ErrRead | ErrCtx | ErrCoalesceTimeout.

Definition result : Type := fetch_err + Response.

Record flight := { fl_done : bool; fl_res : option result }.

Record Origin := {
  og_cb : CircuitBreaker;
  og_maxBodyBytes : Z;
  og_hostOverride : string;
  og_flights : gmap string nat;
  og_heap : gmap nat flight;     (* where the [*flight] pointers go *)
  og_next : nat
}.

(** [New]; the transport's limits are not modelled. *)
Definition NewOrigin (maxBodyBytes : Z) (hostOverride : string) : Origin :=
  {| og_cb := NewCircuitBreaker 5 3 (30 * Second); og_maxBodyBytes := maxBodyBytes;
     og_hostOverride := hostOverride; og_flights := ∅; og_heap := ∅; og_next := 0 |}.

Definition CircuitState (o : Origin) : string := State_name (og_cb o).

Class HttpClient := {
  url_valid : string -> bool;                       (* [http.NewRequestWithContext] succeeds *)
  client_Do : OriginRequest -> option (Z * Header * (string * bool))
}.

Definition forwardHeaders : list string := ["Accept"; "Accept-Encoding"; "Accept-Language"; "Range"].

(** The header and the host of the request sent to the origin. *)
Definition build_request (hostOverride originURL : string) (reqHeader : Header) : OriginRequest :=
  let h := foldl (fun h name => if String.eqb (Header_Get reqHeader name) "" then h
                                else Header_Set h name (Header_Get reqHeader name)) ∅ forwardHeaders in
  let xff := Header_Get reqHeader "X-Forwarded-For" in
  let h := if String.eqb xff "" then h else Header_Set h "X-Forwarded-For" xff in
  let h := Header_Set h "User-Agent" "CDN-Edge/1.0" in
  let host := if negb (String.eqb hostOverride "") then Some hostOverride
              else let hh := Header_Get reqHeader "Host" in
                   if String.eqb hh "" then None else Some hh in
  {| oq_URL := originURL; oq_Header := h; oq_Host := host |}.

(** [io.ReadAll(io.LimitReader(body, maxBody))]; [None] is a read error. *)
Definition read_limited (maxBody : Z) (body : string * bool) : option string :=
  let '(data, complete) := body in
  if maxBody <=? str_len data then Some (take_bytes (Z.to_nat maxBody) data)
  else if complete then Some data else None.

Definition doFetch `{HttpClient} (o : Origin) (originURL : string) (reqHeader : Header) : result :=
  if negb (url_valid originURL) then inl ErrBuild
  else
    match client_Do (build_request (og_hostOverride o) originURL reqHeader) with
    | None => inl ErrFetch
    | Some (status, header, body) =>
        let maxBody := if og_maxBodyBytes o <=? 0 then Z.shiftl 100 20 else og_maxBodyBytes o in
        match read_limited maxBody body with
        | None => inl ErrRead
        | Some data => inr {| rs_StatusCode := status; rs_Header := header; rs_Body := data |}
        end
    end.

(** ** The pieces of [Fetch] *)

Definition og_set (o : Origin) (cb : CircuitBreaker) (flights : gmap string nat) (heap : gmap nat flight) (next : nat) : Origin :=
  {| og_cb := cb; og_maxBodyBytes := og_maxBodyBytes o; og_hostOverride := og_hostOverride o;
     og_flights := flights; og_heap := heap; og_next := next |}.

(** [o.cb.Allow()], then the critical section: [None] is [ErrCircuitOpen], [inl f] joins
    the flight [f], [inr f] leads the new flight [f]. *)
Definition Fetch_enter (now : Z) (o : Origin) (cacheKey : string) : Origin * option (nat + nat) :=
  let '(cb, ok) := Allow now (og_cb o) in
  if negb ok then (og_set o cb (og_flights o) (og_heap o) (og_next o), None)
  else
    match og_flights o !! cacheKey with
    | Some f => (og_set o cb (og_flights o) (og_heap o) (og_next o), Some (inl f))
    | None =>
        let f := og_next o in
        (og_set o cb (<[cacheKey := f]> (og_flights o))
           (<[f := {| fl_done := false; fl_res := None |}]> (og_heap o)) (S f), Some (inr f))
    end.

(** The breaker is told of errors and of answers from 500 on. *)
Definition record_result (now : Z) (res : result) (cb : CircuitBreaker) : CircuitBreaker :=
  match res with
  | inl _ => RecordFailure now cb
  | inr r => if 500 <=? rs_StatusCode r then RecordFailure now cb else RecordSuccess cb
  end.

(** [f.res, f.err = o.doFetch(...)] and the recording of the result. *)
Definition Fetch_record (now : Z) (o : Origin) (f : nat) (res : result) : Origin :=
  og_set o (record_result now res (og_cb o)) (og_flights o)
    (alter (fun fl => {| fl_done := fl_done fl; fl_res := Some res |}) f (og_heap o)) (og_next o).

(** [close(f.done)] *)
Definition Fetch_close (o : Origin) (f : nat) : Origin :=
  og_set o (og_cb o) (og_flights o)
    (alter (fun fl => {| fl_done := true; fl_res := fl_res fl |}) f (og_heap o)) (og_next o).

(** [delete(o.flights, cacheKey)] *)
Definition Fetch_delete (o : Origin) (cacheKey : string) : Origin :=
  og_set o (og_cb o) (delete cacheKey (og_flights o)) (og_heap o) (og_next o).

(** [Fetch]. A call that joins a flight returns [joined], what its [select] received:
    the flight's result, the context's error or the timeout. *)
Definition Fetch `{HttpClient} (now now' : Z) (o : Origin) (cacheKey originURL : string) (reqHeader : Header)
    (joined : result) : Origin * result :=
  match Fetch_enter now o cacheKey with
  | (o, None) => (o, inl ErrCircuitOpen)
  | (o, Some (inl _)) => (o, joined)
  | (o, Some (inr f)) =>
      let res := doFetch o originURL reqHeader in
      let o := Fetch_record now' o f res in
      let o := Fetch_close o f in
      (Fetch_delete o cacheKey, res)
  end.

(** ** What a single call does *)

(** A body longer than the limit is cut at the limit and returned as a complete,
    successful response. *)
Theorem doFetch_truncates `{HttpClient} o url hdr status header data complete :
  url_valid url = true ->
  client_Do (build_request (og_hostOverride o) url hdr) = Some (status, header, (data, complete)) ->
  0 < og_maxBodyBytes o -> og_maxBodyBytes o < str_len data ->
  exists r, doFetch o url hdr = inr r /\ rs_StatusCode r = status /\ rs_Header r = header /\
    str_len (rs_Body r) = og_maxBodyBytes o /\ rs_Body r <> data.
Proof.
  intros Hu Hd Hm Hl. unfold doFetch. rewrite Hu, Hd. cbn [negb].
  rewrite (proj2 (Z.leb_gt (og_maxBodyBytes o) 0)) by done. unfold read_limited.
  rewrite (proj2 (Z.leb_le (og_maxBodyBytes o) (str_len data))) by lia.
  eexists. split; [reflexivity |]. cbn [rs_StatusCode rs_Header rs_Body].
  assert (Hlen : str_len (take_bytes (Z.to_nat (og_maxBodyBytes o)) data) = og_maxBodyBytes o)
    by (rewrite str_len_take; lia).
  split_and!; [done | done | done |]. intros E. rewrite E in Hlen. lia.
Qed.

Lemma Fetch_lead `{HttpClient} now now' o key url hdr joined :
  og_flights o !! key = None -> (Allow now (og_cb o)).2 = true ->
  let '(o', r) := Fetch now now' o key url hdr joined in
  r = doFetch o url hdr /\ og_flights o' = og_flights o /\
  og_cb o' = record_result now' r (Allow now (og_cb o)).1 /\
  og_maxBodyBytes o' = og_maxBodyBytes o /\ og_hostOverride o' = og_hostOverride o.
Proof.
  intros Hn Ha. unfold Fetch, Fetch_enter. destruct (Allow now (og_cb o)) as [cb ok]. cbn in Ha. subst ok.
  cbn [negb]. rewrite Hn. cbn. split_and!; try done. by apply delete_insert_id.
Qed.

(** ** Concurrent calls *)

Inductive opc :=
  | OLead (key : string) (f : nat)                       (* in [doFetch] *)
  | ORecorded (key : string) (f : nat) (r : result)      (* before [close(f.done)] *)
  | OClosed (key : string) (f : nat) (r : result)        (* before the [delete] *)
  | OWait (key : string) (f : nat)                       (* at the [select] *)
  | OReturned (key : string) (f : option nat) (r : result).

(** [os_key] records for which cache key a flight was created; no step reads it. *)
Record osys := { os_o : Origin; os_gs : gmap nat opc; os_key : gmap nat string }.

Definition os_init (maxBodyBytes : Z) (hostOverride : string) : osys :=
  {| os_o := NewOrigin maxBodyBytes hostOverride; os_gs := ∅; os_key := ∅ |}.

Inductive os_step : osys -> osys -> Prop :=
  | os_refused s g now key o :
      os_gs s !! g = None -> Fetch_enter now (os_o s) key = (o, None) ->
      os_step s {| os_o := o; os_gs := <[g := OReturned key None (inl ErrCircuitOpen)]> (os_gs s); os_key := os_key s |}
  | os_join s g now key o f :
      os_gs s !! g = None -> Fetch_enter now (os_o s) key = (o, Some (inl f)) ->
      os_step s {| os_o := o; os_gs := <[g := OWait key f]> (os_gs s); os_key := os_key s |}
  | os_lead s g now key o f :
      os_gs s !! g = None -> Fetch_enter now (os_o s) key = (o, Some (inr f)) ->
      os_step s {| os_o := o; os_gs := <[g := OLead key f]> (os_gs s); os_key := <[f := key]> (os_key s) |}
  | os_record s g now key f r :
      os_gs s !! g = Some (OLead key f) ->
      os_step s {| os_o := Fetch_record now (os_o s) f r; os_gs := <[g := ORecorded key f r]> (os_gs s); os_key := os_key s |}
  | os_close s g key f r :
      os_gs s !! g = Some (ORecorded key f r) ->
      os_step s {| os_o := Fetch_close (os_o s) f; os_gs := <[g := OClosed key f r]> (os_gs s); os_key := os_key s |}
  | os_delete s g key f r :
      os_gs s !! g = Some (OClosed key f r) ->
      os_step s {| os_o := Fetch_delete (os_o s) key; os_gs := <[g := OReturned key (Some f) r]> (os_gs s); os_key := os_key s |}
  | os_wake s g key f fl r :
      os_gs s !! g = Some (OWait key f) -> og_heap (os_o s) !! f = Some fl -> fl_done fl = true -> fl_res fl = Some r ->
      os_step s {| os_o := os_o s; os_gs := <[g := OReturned key (Some f) r]> (os_gs s); os_key := os_key s |}
  | os_giveup s g key f e :
      os_gs s !! g = Some (OWait key f) -> e = ErrCtx \/ e = ErrCoalesceTimeout ->
      os_step s {| os_o := os_o s; os_gs := <[g := OReturned key None (inl e)]> (os_gs s); os_key := os_key s |}.

Definition leading (pc : opc) : option (string * nat) :=
  match pc with OLead k f | ORecorded k f _ | OClosed k f _ => Some (k, f) | _ => None end.

(** What the flight of a leader holds at each point. *)
Definition flight_at (pc : opc) (fl : flight) : Prop :=
  match pc with
  | OLead _ _ => fl = {| fl_done := false; fl_res := None |}
  | ORecorded _ _ r => fl = {| fl_done := false; fl_res := Some r |}
  | OClosed _ _ r => fl = {| fl_done := true; fl_res := Some r |}
  | _ => True
  end.

Definition opc_ok (s : osys) (pc : opc) : Prop :=
  match pc with
  | OLead k f | ORecorded k f _ | OClosed k f _ =>
      og_flights (os_o s) !! k = Some f /\ os_key s !! f = Some k /\
      exists fl, og_heap (os_o s) !! f = Some fl /\ flight_at pc fl
  | OWait k f => os_key s !! f = Some k /\ exists fl, og_heap (os_o s) !! f = Some fl /\
      ((fl_done fl = true /\ is_Some (fl_res fl)) \/ exists g' pc', os_gs s !! g' = Some pc' /\ leading pc' = Some (k, f))
  | OReturned k (Some f) r => os_key s !! f = Some k /\
      og_heap (os_o s) !! f = Some {| fl_done := true; fl_res := Some r |}
  | OReturned _ None r => exists e, r = inl e
  end.

Record oinv (s : osys) : Prop := {
  oi_next : forall f fl, og_heap (os_o s) !! f = Some fl -> (f < og_next (os_o s))%nat;
  oi_lock : forall k f, og_flights (os_o s) !! k = Some f ->
    exists g pc, os_gs s !! g = Some pc /\ leading pc = Some (k, f);
  oi_one : forall g g' pc pc' k f f', os_gs s !! g = Some pc -> os_gs s !! g' = Some pc' ->
    leading pc = Some (k, f) -> leading pc' = Some (k, f') -> g = g';
  oi_pc : forall g pc, os_gs s !! g = Some pc -> opc_ok s pc
}.

Lemma oinv_init m h : oinv (os_init m h).
Proof. split; cbn; intros; by simplify_map_eq. Qed.

Lemma leading_ok s pc k f : opc_ok s pc -> leading pc = Some (k, f) ->
  og_flights (os_o s) !! k = Some f /\ os_key s !! f = Some k.
Proof. destruct pc; cbn; intros Hp [= <- <-]; tauto. Qed.

(** A goroutine that only waits or has returned moves, the origin untouched but for the
    breaker. *)
Lemma oinv_quiet s g pc0 pc' o :
  oinv s -> os_gs s !! g = pc0 -> (forall pc, pc0 = Some pc -> leading pc = None) -> leading pc' = None ->
  og_flights o = og_flights (os_o s) -> og_heap o = og_heap (os_o s) -> og_next o = og_next (os_o s) ->
  (forall s', os_o s' = o -> os_key s' = os_key s ->
     (forall g1 pc1, os_gs s !! g1 = Some pc1 -> leading pc1 <> None -> os_gs s' !! g1 = Some pc1) -> opc_ok s' pc') ->
  oinv {| os_o := o; os_gs := <[g := pc']> (os_gs s); os_key := os_key s |}.
Proof.
  intros Hi Hg Hnl Hnl' Hf Hh Hn Hpc.
  assert (Hkeep : forall g1 pc1, os_gs s !! g1 = Some pc1 -> leading pc1 <> None -> <[g := pc']> (os_gs s) !! g1 = Some pc1).
  { intros g1 pc1 H1 Hl. rewrite lookup_insert_ne; [done |]. intros ->. rewrite H1 in Hg.
    by apply Hl, Hnl. }
  split; cbn [os_o os_gs os_key].
  - rewrite Hh, Hn. apply (oi_next s Hi).
  - intros k f. rewrite Hf. intros (g1 & pc1 & H1 & Hl)%(oi_lock s Hi). exists g1, pc1.
    split; [apply Hkeep; congruence | done].
  - intros g1 g2 pc1 pc2 k f f' [[<- <-] | [_ H1]]%lookup_insert_Some [[<- <-] | [_ H2]]%lookup_insert_Some;
      try congruence. by apply (oi_one s Hi).
  - intros g1 pc1 [[<- <-] | [_ H1]]%lookup_insert_Some; [by apply Hpc |].
    pose proof (oi_pc s Hi g1 pc1 H1) as Hok. destruct pc1 as [k f | k f r | k f r | k f | k [f |] r]; cbn in *;
      rewrite ?Hf, ?Hh; try done.
    destruct Hok as (Hk & fl & Hfl & Hw). split; [done |]. exists fl. split; [done |].
    destruct Hw as [Hw | (g2 & pc2 & H2 & Hl)]; [by left |]. right. exists g2, pc2.
    split; [apply Hkeep; congruence | done].
Qed.

(** The leader of a flight moves on, its flight changes. *)
Lemma oinv_leader s g pc0 pc' k f (up : flight -> flight) cb :
  oinv s -> os_gs s !! g = Some pc0 -> leading pc0 = Some (k, f) -> leading pc' = Some (k, f) ->
  (forall fl, flight_at pc0 fl -> flight_at pc' (up fl)) ->
  (forall fl, flight_at pc0 fl -> fl_done fl = false) ->
  oinv {| os_o := og_set (os_o s) cb (og_flights (os_o s)) (alter up f (og_heap (os_o s))) (og_next (os_o s));
          os_gs := <[g := pc']> (os_gs s); os_key := os_key s |}.
Proof.
  intros Hi Hg Hl Hl' Hup Hnd.
  pose proof (oi_pc s Hi g pc0 Hg) as Hok0. destruct (leading_ok s pc0 k f Hok0 Hl) as [Hfk Hkf].
  assert (Hfl0 : exists fl, og_heap (os_o s) !! f = Some fl /\ flight_at pc0 fl).
  { destruct pc0; cbn in Hl; simplify_eq; by destruct Hok0 as (_ & _ & ?). }
  destruct Hfl0 as (fl0 & Hfl0 & Hat0).
  split; cbn [os_o os_gs os_key og_set og_flights og_heap og_next].
  - intros f1 fl1. destruct (decide (f = f1)) as [<- | Hne].
    + rewrite lookup_alter_eq, Hfl0. intros _. by apply (oi_next s Hi f fl0).
    + rewrite lookup_alter_ne by done. apply (oi_next s Hi).
  - intros k1 f1 (g1 & pc1 & H1 & Hl1)%(oi_lock s Hi).
    destruct (decide (g = g1)) as [<- | Hne].
    + exists g, pc'. rewrite lookup_insert_eq. split; [done | congruence].
    + exists g1, pc1. by rewrite lookup_insert_ne.
  - assert (Hold : forall gi pci ki fi, <[g := pc']> (os_gs s) !! gi = Some pci -> leading pci = Some (ki, fi) ->
      exists pc, os_gs s !! gi = Some pc /\ leading pc = Some (ki, fi)).
    { intros gi pci ki fi [[<- <-] | [_ H1]]%lookup_insert_Some Hli; [exists pc0 | by exists pci].
      split; [done | congruence]. }
    intros g1 g2 pc1 pc2 k1 f1 f2 H1 H2 L1 L2.
    destruct (Hold _ _ _ _ H1 L1) as (? & ? & ?), (Hold _ _ _ _ H2 L2) as (? & ? & ?). by eapply (oi_one s Hi).
  - intros g1 pc1 [[<- <-] | [Hne H1]]%lookup_insert_Some.
    + destruct pc'; cbn in Hl'; simplify_eq; cbn; rewrite lookup_alter_eq, Hfl0; cbn; (split_and!; [done | done |]);
        eexists; (split; [reflexivity |]); exact (Hup fl0 Hat0).
    + pose proof (oi_pc s Hi g1 pc1 H1) as Hok.
      assert (Hother : forall k1 f1, leading pc1 = Some (k1, f1) -> f1 <> f).
      { intros k1 f1 L1 ->. destruct (leading_ok s pc1 k1 f Hok L1) as [_ Hk1].
        assert (k1 = k) as -> by congruence. apply Hne. by eapply (oi_one s Hi). }
      destruct pc1 as [k1 f1 | k1 f1 r | k1 f1 r | k1 f1 | k1 [f1 |] r]; cbn in *; try done;
        try (by rewrite lookup_alter_ne by (intros E; by eapply Hother; [reflexivity | symmetry])).
      * destruct Hok as (Hk & fl & Hfl & Hw). split; [done |]. destruct (decide (f = f1)) as [<- | Hnf].
        -- rewrite lookup_alter_eq, Hfl. eexists. split; [reflexivity |]. right. exists g, pc'.
           rewrite lookup_insert_eq. split; [done |]. congruence.
        -- rewrite lookup_alter_ne by done. exists fl. split; [done |].
           destruct Hw as [Hw | (g2 & pc2 & H2 & L2)]; [by left |]. right.
           exists g2, pc2. rewrite lookup_insert_ne; [done |]. intros ->. congruence.
      * destruct Hok as [Hk Hfl]. split; [done |]. rewrite lookup_alter_ne; [done |]. intros ->.
        apply Hnd in Hat0. by simplify_eq.
Qed.

(** A new flight. *)
Lemma oinv_lead s g key cb :
  oinv s -> os_gs s !! g = None -> og_flights (os_o s) !! key = None ->
  let f := og_next (os_o s) in
  oinv {| os_o := og_set (os_o s) cb (<[key := f]> (og_flights (os_o s)))
                    (<[f := {| fl_done := false; fl_res := None |}]> (og_heap (os_o s))) (S f);
          os_gs := <[g := OLead key f]> (os_gs s); os_key := <[f := key]> (os_key s) |}.
Proof.
  intros Hi Hg Hn f. assert (Ef : f = og_next (os_o s)) by done. clearbody f.
  assert (Hfr : forall f1 fl1, og_heap (os_o s) !! f1 = Some fl1 -> f <> f1).
  { intros f1 fl1 H1%(oi_next s Hi) E. lia. }
  assert (Hnl : forall g1 pc1 f1, os_gs s !! g1 = Some pc1 -> leading pc1 = Some (key, f1) -> False).
  { intros g1 pc1 f1 H1 L1. destruct (leading_ok s pc1 key f1 (oi_pc s Hi g1 pc1 H1) L1). congruence. }
  split; cbn [os_o os_gs os_key og_set og_flights og_heap og_next].
  - intros f1 fl1 [[E _] | [_ H1]]%lookup_insert_Some; [lia |].
    apply (oi_next s Hi) in H1. lia.
  - intros k1 f1 [[<- <-] | [_ H1]]%lookup_insert_Some.
    + exists g, (OLead key f). by rewrite lookup_insert_eq.
    + destruct (oi_lock s Hi k1 f1 H1) as (g1 & pc1 & Hg1 & L1). exists g1, pc1.
      rewrite lookup_insert_ne; [done | congruence].
  - intros g1 g2 pc1 pc2 k1 f1 f2 [[<- <-] | [_ H1]]%lookup_insert_Some [[<- <-] | [_ H2]]%lookup_insert_Some L1 L2;
      [done | | | by eapply (oi_one s Hi)].
    + cbn in L1. injection L1 as <- <-. by destruct (Hnl _ _ _ H2 L2).
    + cbn in L2. injection L2 as <- <-. by destruct (Hnl _ _ _ H1 L1).
  - intros g1 pc1 [[<- <-] | [Hne H1]]%lookup_insert_Some.
    + cbn. rewrite !lookup_insert_eq. split_and!; [done | done |]. by eexists.
    + pose proof (oi_pc s Hi g1 pc1 H1) as Hok.
      destruct pc1 as [k1 f1 | k1 f1 r | k1 f1 r | k1 f1 | k1 [f1 |] r]; cbn in *; try done.
      1-3: destruct Hok as (Hfk & Hk & fl & Hfl & Hat);
        rewrite !(lookup_insert_ne _ f f1) by (by eapply Hfr);
        rewrite lookup_insert_ne by congruence; eauto.
      * destruct Hok as (Hk & fl & Hfl & Hw). rewrite !(lookup_insert_ne _ f f1) by (by eapply Hfr).
        split; [done |]. exists fl. split; [done |]. destruct Hw as [Hw | (g2 & pc2 & H2 & L2)]; [by left |].
        right. exists g2, pc2. rewrite lookup_insert_ne; [done | congruence].
      * destruct Hok as [Hk Hfl]. by rewrite !(lookup_insert_ne _ f f1) by (by eapply Hfr).
Qed.

(** The leader forgets its flight and returns. *)
Lemma oinv_delete s g key f r :
  oinv s -> os_gs s !! g = Some (OClosed key f r) ->
  oinv {| os_o := Fetch_delete (os_o s) key; os_gs := <[g := OReturned key (Some f) r]> (os_gs s); os_key := os_key s |}.
Proof.
  intros Hi Hg. destruct (oi_pc s Hi g _ Hg) as (Hfk & Hkf & fl & Hfl & Hat). cbn in Hat.
  assert (Hother : forall g1 pc1 k1 f1, g <> g1 -> os_gs s !! g1 = Some pc1 -> leading pc1 = Some (k1, f1) -> k1 <> key).
  { intros g1 pc1 k1 f1 Hne H1 L1 ->. apply Hne. by eapply (oi_one s Hi). }
  split; cbn [os_o os_gs os_key Fetch_delete og_set og_flights og_heap og_next].
  - apply (oi_next s Hi).
  - intros k1 f1 [Hk1 H1]%lookup_delete_Some. destruct (oi_lock s Hi k1 f1 H1) as (g1 & pc1 & Hg1 & L1).
    exists g1, pc1. rewrite lookup_insert_ne; [done |]. intros ->. rewrite Hg in Hg1. injection Hg1 as <-.
    cbn in L1. congruence.
  - intros g1 g2 pc1 pc2 k1 f1 f2 [[<- <-] | [_ H1]]%lookup_insert_Some [[<- <-] | [_ H2]]%lookup_insert_Some L1 L2;
      try done. by eapply (oi_one s Hi).
  - intros g1 pc1 [[<- <-] | [Hne H1]]%lookup_insert_Some; [cbn; split; [done | congruence] |].
    pose proof (oi_pc s Hi g1 pc1 H1) as Hok. pose proof (Hother g1 pc1) as Ho.
    destruct pc1 as [k1 f1 | k1 f1 r1 | k1 f1 r1 | k1 f1 | k1 [f1 |] r1]; cbn in *; try done.
    1-3: destruct Hok as (Hfk1 & Hk1 & Hex);
      rewrite lookup_delete_ne by (intros E; symmetry in E; by eapply (Ho k1 f1)); done.
    destruct Hok as (Hk1 & fl1 & Hfl1 & Hw). split; [done |]. exists fl1. split; [done |].
    destruct Hw as [Hw | (g2 & pc2 & H2 & L2)]; [by left |]. destruct (decide (g = g2)) as [<- | Hn2].
    + left. rewrite Hg in H2. injection H2 as <-. cbn in L2. injection L2 as <- <-. simplify_eq. by split; [| eexists].
    + right. exists g2, pc2. by rewrite lookup_insert_ne.
Qed.

Lemma Fetch_enter_cases now o key :
  let cb := (Allow now (og_cb o)).1 in
  Fetch_enter now o key =
    if (Allow now (og_cb o)).2 then
      match og_flights o !! key with
      | Some f => (og_set o cb (og_flights o) (og_heap o) (og_next o), Some (inl f))
      | None => (og_set o cb (<[key := og_next o]> (og_flights o))
                   (<[og_next o := {| fl_done := false; fl_res := None |}]> (og_heap o)) (S (og_next o)), Some (inr (og_next o)))
      end
    else (og_set o cb (og_flights o) (og_heap o) (og_next o), None).
Proof. unfold Fetch_enter. destruct (Allow now (og_cb o)) as [cb [|]]; cbn [fst snd negb]; done. Qed.

Lemma oinv_step s s' : oinv s -> os_step s s' -> oinv s'.
Proof.
  intros Hi Hs. destruct Hs as [s g now key o Hg He | s g now key o f Hg He | s g now key o f Hg He
    | s g now key f r Hg | s g key f r Hg | s g key f r Hg | s g key f fl r Hg Hfl Hd Hr | s g key f e Hg He];
    try rewrite Fetch_enter_cases in He.
  - destruct (Allow _ _).2; [destruct (og_flights (os_o s) !! key); done |]. injection He as <-.
    apply (oinv_quiet s g None); try done. intros s' _ _ _. cbn. by eexists.
  - destruct (Allow _ _).2; [| done]. destruct (og_flights (os_o s) !! key) as [f' |] eqn:El; [| done].
    injection He as <- <-. apply (oinv_quiet s g None); try done. intros s' Ho Hk Hkeep. cbn.
    destruct (oi_lock s Hi key f' El) as (g1 & pc1 & Hg1 & L1).
    destruct (leading_ok s pc1 key f' (oi_pc s Hi g1 pc1 Hg1) L1) as [_ Hkf]. rewrite Hk, Ho. split; [done |].
    assert (Hh : exists fl, og_heap (os_o s) !! f' = Some fl).
    { pose proof (oi_pc s Hi g1 pc1 Hg1) as Hok. destruct pc1; cbn in L1; simplify_eq;
        destruct Hok as (_ & _ & fl & ? & _); by exists fl. }
    destruct Hh as [fl Hfl]. exists fl. split; [done |]. right. exists g1, pc1. split; [apply Hkeep; congruence | done].
  - destruct (Allow _ _).2; [| done]. destruct (og_flights (os_o s) !! key) eqn:El; [done |].
    injection He as <- <-. by apply oinv_lead.
  - apply (oinv_leader s g (OLead key f) (ORecorded key f r) key f); try done; by intros fl ->.
  - apply (oinv_leader s g (ORecorded key f r) (OClosed key f r) key f); try done; by intros fl ->.
  - by apply oinv_delete.
  - apply (oinv_quiet s g (Some (OWait key f))); try done; [by intros pc [= <-] |].
    intros s' Ho Hk _. cbn. destruct (oi_pc s Hi g _ Hg) as [Hkf _]. rewrite Hk, Ho, Hfl. split; [done |].
    destruct fl; cbn in *; by subst.
  - apply (oinv_quiet s g (Some (OWait key f))); try done; [by intros pc [= <-] |].
    intros s' _ _ _. cbn. by eexists.
Qed.

Lemma oinv_reachable m h s : rtc os_step (os_init m h) s -> oinv s.
Proof. apply (rtc_invariant os_step oinv); [apply oinv_init | apply oinv_step]. Qed.

(** C9: In every interleaving of [Fetch] calls, at most one origin request per cache key
    is under way; every call that waits has a leader at work or a result ready; two calls
    that return a response of the same flight return the same one, for the same key. *)
Theorem single_flight m h s :
  rtc os_step (os_init m h) s ->
  (forall g g' pc pc' key f f', os_gs s !! g = Some pc -> os_gs s !! g' = Some pc' ->
     leading pc = Some (key, f) -> leading pc' = Some (key, f') -> g = g') /\
  (forall g key f, os_gs s !! g = Some (OWait key f) ->
     (exists fl, og_heap (os_o s) !! f = Some fl /\ fl_done fl = true /\ is_Some (fl_res fl)) \/
     exists g' pc', os_gs s !! g' = Some pc' /\ leading pc' = Some (key, f)) /\
  (forall g g' key key' f r r', os_gs s !! g = Some (OReturned key (Some f) r) ->
     os_gs s !! g' = Some (OReturned key' (Some f) r') -> key = key' /\ r = r') /\
  (forall g key resp, os_gs s !! g <> Some (OReturned key None (inr resp))).
Proof.
  intros Hi%oinv_reachable. split_and!.
  - apply (oi_one s Hi).
  - intros g key f Hg. destruct (oi_pc s Hi g _ Hg) as (_ & fl & Hfl & [Hw | Hw]); [left; eauto | by right].
  - intros g g' key key' f r r' Hg Hg'. destruct (oi_pc s Hi g _ Hg) as [Hk Hf], (oi_pc s Hi g' _ Hg') as [Hk' Hf'].
    split; congruence.
  - intros g key resp Hg. by destruct (oi_pc s Hi g _ Hg).
Qed.

(** ** Concrete inputs *)

Definition echo_client : HttpClient :=
  {| url_valid _ := true; client_Do rq := Some (200, {["Content-Type" := ["text/plain"]]}, (oq_URL rq, true)) |}.

Lemma doFetch_truncates_witness :
  exists r, @doFetch echo_client (NewOrigin 4 "") "http://o/index.html" ∅ = inr r /\ str_len (rs_Body r) = 4.
Proof.
  destruct (@doFetch_truncates echo_client (NewOrigin 4 "") "http://o/index.html" ∅ 200
    {["Content-Type" := ["text/plain"]]} "http://o/index.html" true) as (r & Hr & _ & _ & Hl & _);
    [reflexivity | reflexivity | cbn; lia | cbn; unfold str_len; cbn; lia |].
  exists r. split; [exact Hr | exact Hl].
Defined.

(** One call leads, one joins, both return. *)
Definition resp_a : Response := {| rs_StatusCode := 200; rs_Header := ∅; rs_Body := "a" |}.

Lemma run_flight :
  exists s, rtc os_step (os_init 0 "") s /\ os_gs s !! 0%nat = Some (OReturned "k" (Some 0%nat) (inr resp_a)) /\
    os_gs s !! 1%nat = Some (OReturned "k" (Some 0%nat) (inr resp_a)).
Proof.
  eexists. split_and!.
  - eapply rtc_l; [eapply (os_lead (os_init 0 "") 0 5 "k"); reflexivity |].
    eapply rtc_l; [eapply (os_join _ 1 6 "k"); reflexivity |].
    eapply rtc_l; [eapply (os_record _ 0 7 "k" 0 (inr resp_a)); reflexivity |].
    eapply rtc_l; [eapply (os_close _ 0 "k" 0 (inr resp_a)); reflexivity |].
    eapply rtc_l; [eapply (os_delete _ 0 "k" 0 (inr resp_a)); reflexivity |].
    eapply rtc_l; [eapply (os_wake _ 1 "k" 0 _ (inr resp_a)); reflexivity |]. apply rtc_refl.
  - reflexivity.
  - reflexivity.
Defined.

Lemma single_flight_witness : exists s, rtc os_step (os_init 0 "") s /\
  forall r r', os_gs s !! 0%nat = Some (OReturned "k" (Some 0%nat) r) ->
    os_gs s !! 1%nat = Some (OReturned "k" (Some 0%nat) r') -> r = r'.
Proof.
  destruct run_flight as (s & Hr & _). exists s. split; [exact Hr |]. intros r r' H0 H1.
  apply (proj1 (proj2 (proj2 (single_flight 0 "" s Hr))) 0%nat 1%nat "k" "k" 0%nat r r' H0 H1).
Defined.
