(* ===== verification/Handler.v ===== *)
(** * The single-tenant handler ([handler/handler.go]) and the warming handler
    ([handler/warm.go])

    [ServeHTTP] and everything it calls, as functions from the handler's state and a
    request to the new state, the response and what is handed to other goroutines. The
    environment of a request gives the instants it reads ([ev_now n] is the [n]-th), what
    the stampede lock made it wait for ([ev_acquired], [None] when it is the fetcher: what
    the values can be is the matter of [Stampede.v]) and what a joined origin flight
    returned ([ev_joined], [Origin.v]). Events on the lock are listed in [o_lock], spawned
    revalidations in [o_async]. Logging is not modelled. *)

From S2P Require Import Prelude GoStrings CacheKey TinyLFU Entry Shard Disk Cache Contents Predictor Stampede Streaming Http CacheControl Range Paths Circuit Origin.

Local Open Scope Z_scope.

(** [http.ParseTime]: seconds since the epoch, [None] for an unparsable date. *)
Class HttpTime := { ParseTime : string -> option Z }.

Record Config := { cfg_OriginURL : string; cfg_DefaultTTL : Duration }.

Record CDN := {
  h_cache : Cache;
  h_origin : Origin;
  h_cfg : Config;
  h_predictor : option Predictor
}.

(** [New]; [fuel] is for the loop of [NewPredictor], which does not end for some capacities. *)
Definition New (fuel : nat) (c : Cache) (o : Origin) (cfg : Config) (PredictorEnabled : bool) (capacity : Z) (decay : Duration)
  : option CDN :=
  if PredictorEnabled then
    p ← NewPredictor fuel capacity decay;
    Some {| h_cache := c; h_origin := o; h_cfg := cfg; h_predictor := Some p |}
  else Some {| h_cache := c; h_origin := o; h_cfg := cfg; h_predictor := None |}.

(** [CDN.Start] runs the predictor's decay, if there is one. *)
Definition Start (events : list (tick unit)) (h : CDN) : option CDN :=
  match h_predictor h with
  | None => Some h
  | Some p => p ← StartDecay events p; Some {| h_cache := h_cache h; h_origin := h_origin h; h_cfg := h_cfg h; h_predictor := Some p |}
  end.

Record env := {
  ev_now : nat -> Z;
  ev_acquired : option (option Entry * option StreamingEntry);
  ev_joined : result
}.

Inductive lock_event :=
  | LSetStreaming (key : string) (se : StreamingEntry)
  | LRelease (key : string) (entry : option Entry) (failed : bool).

Record revalidation := { rv_host : string; rv_requestURI : string; rv_path : string; rv_rawQuery : string;
                         rv_header : Header; rv_key : string }.

Record outcome (W : Type) := {
  o_cdn : CDN;
  o_w : W;
  o_lock : list lock_event;
  o_async : list revalidation
}.
Arguments o_cdn {W}.
Arguments o_w {W}.
Arguments o_lock {W}.
Arguments o_async {W}.

Definition with_cache (c : Cache) (h : CDN) : CDN :=
  {| h_cache := c; h_origin := h_origin h; h_cfg := h_cfg h; h_predictor := h_predictor h |}.
Definition with_origin (o : Origin) (h : CDN) : CDN :=
  {| h_cache := h_cache h; h_origin := o; h_cfg := h_cfg h; h_predictor := h_predictor h |}.
Definition with_predictor (p : option Predictor) (h : CDN) : CDN :=
  {| h_cache := h_cache h; h_origin := h_origin h; h_cfg := h_cfg h; h_predictor := p |}.
Definition done_with {W} (h : CDN) (w : W) : outcome W :=
  {| o_cdn := h; o_w := w; o_lock := []; o_async := [] |}.

(** The clock of a call made after [k] instants have been read. *)
Definition after (k : nat) (ev : env) : nat -> Z := fun n => ev_now ev (k + n)%nat.

Section handler.
Context `{Hash64} `{HeaderCodec} `{DiskWorld} `{Unicode} `{HttpClient} `{HttpTime}.
Context {W : Type} `{Writer W}.

(** ** Writing responses *)

(** The values common statuses share, and a fresh one for any other. *)
Definition cacheStatusSlice (status : string) : list string :=
  if String.eqb status "HIT" then ["HIT"]
  else if String.eqb status "MISS" then ["MISS"]
  else if String.eqb status "STALE" then ["STALE"]
  else if String.eqb status "STALE-ERROR" then ["STALE-ERROR"]
  else if String.eqb status "BYPASS" then ["BYPASS"]
  else [status].

Lemma cacheStatusSlice_eq status : cacheStatusSlice status = [status].
Proof. unfold cacheStatusSlice. by repeat (case_match eqn:E; [apply String.eqb_eq in E as ->; done | clear E]). Qed.

(** The Age is the number of whole seconds; the code goes through a float64, which is
    exact below [2^24] seconds. *)
Definition serveEntry (now : Z) (w : W) (entry : Entry) (cacheStatus : string) : W :=
  let h := Entry_GetHeader entry ∪ w_header w in
  let h := <["X-Cache" := cacheStatusSlice cacheStatus]> h in
  let h := if String.eqb (e_ETag entry) "" then h else <["Etag" := [e_ETag entry]]> h in
  let age := Z.quot (time_sub now (e_StoredAt entry)) Second in
  let h := <["Age" := [Itoa age]]> h in
  w_Write (e_Body entry) (WriteHeader (e_StatusCode entry) (w_set_header h w)).

Definition serveResponse (w : W) (resp : Response) (cacheStatus : string) : W :=
  let w := copy_header (rs_Header resp) w in
  let w := w_set_header (Header_Set (w_header w) "X-Cache" cacheStatus) w in
  w_Write (rs_Body resp) (WriteHeader (rs_StatusCode resp) w).

(** On a stream that is complete; the loop is [drain]. *)
Definition serveStreamingEntry (w : W) (se : StreamingEntry) (cacheStatus : string) : W :=
  let w := copy_header (se_header se) w in
  let w := w_set_header (Header_Set (w_header w) "X-Cache" cacheStatus) w in
  let w := WriteHeader (se_status se) w in
  w_Write (default "" (drain (S (String.length (se_buf se))) (32 * 1024) se (NewReader 0) ""))%string w.

Definition not_modified (name value : string) (w : W) : W :=
  let w := w_set_header (Header_Set (w_header w) name value) w in
  let w := w_set_header (Header_Set (w_header w) "X-Cache" "HIT") w in
  WriteHeader 304 w.

(** The ETag of a response that has none: 8 bytes of the body's hash, in quotes. *)
Definition body_etag (body : string) : string := dquote +:+ take_bytes 16 (sha256_hex body) +:+ dquote.

Definition response_etag (resp : Response) : string :=
  let etag := Header_Get (rs_Header resp) "ETag" in
  if String.eqb etag "" then body_etag (rs_Body resp) else etag.

Definition response_entry (now : Z) (resp : Response) (ttl swr : Duration) (cacheKey : string) : Entry :=
  {| e_Body := rs_Body resp; e_Header := Some (rs_Header resp); e_CompressedHeader := None;
     e_StatusCode := rs_StatusCode resp; e_StoredAt := now; e_TTL := ttl; e_ETag := response_etag resp;
     e_LastMod := Header_Get (rs_Header resp) "Last-Modified"; e_VaryKey := cacheKey;
     e_StaleWhileRevalidate := swr |}.

(** [h.cache.Put(primaryKey, entry); if cacheKey != primaryKey { h.cache.Put(cacheKey, entry) }]:
    both keys share the entry the first [Put] may have rewritten. *)
Definition put_both (now now' : Z) (c : Cache) (primaryKey cacheKey : string) (entry : Entry) : Cache * Entry :=
  let '(c, entry) := Put now c primaryKey entry in
  if String.eqb cacheKey primaryKey then (c, entry) else Put now' c cacheKey entry.

Definition cacheable (ttl : Duration) (status : Z) : bool := (0 <? ttl) && isCacheableStatus status.

(** ** The fetcher's path *)

Definition stale_or_502 (ev : env) (k : nat) (h : CDN) (w : W) (primaryKey : string) : CDN * W :=
  let '(c, stale) := Get (after k ev) (h_cache h) primaryKey in
  (with_cache c h,
   match stale with
   | Some e => serveEntry (ev_now ev (k + 4)) w e "STALE-ERROR"
   | None => http_Error "Bad Gateway" 502 w
   end).

Definition fetchAndServeStreaming (ev : env) (h : CDN) (w : W) (r : Request) (primaryKey : string) : outcome W :=
  let originURL := cfg_OriginURL (h_cfg h) +:+ r_RequestURI r in
  let '(o, res) := Fetch (ev_now ev 20) (ev_now ev 21) (h_origin h) primaryKey originURL (r_Header r) (ev_joined ev) in
  let h := with_origin o h in
  match res with
  | inl _ =>
      let '(h, w) := stale_or_502 ev 30 h w primaryKey in
      {| o_cdn := h; o_w := w; o_lock := [LRelease primaryKey None true]; o_async := [] |}
  | inr resp =>
      let '(ttl, swr) := determineTTL (cfg_DefaultTTL (h_cfg h)) (rs_Header resp) in
      if cacheable ttl (rs_StatusCode resp) then
        let se0 := NewStreamingEntry (rs_Header resp) (rs_StatusCode resp) in
        match write_chunks (String.length (rs_Body resp)) (32 * 1024) se0 (rs_Body resp) with
        | None => done_with h w   (* excluded by [write_chunks_all] *)
        | Some se =>
            let se := Close se None in
            let etag := response_etag resp in
            let vary := Header_Get (rs_Header resp) "Vary" in
            let cacheKey := NormalizeKey (r_Host r) (r_Path r) (r_RawQuery r) vary (r_Header r) in
            match ToEntry (ev_now ev 40) se ttl swr etag (Header_Get (rs_Header resp) "Last-Modified") cacheKey with
            | Some (Some cacheEntry) =>
                let '(c, cacheEntry) := put_both (ev_now ev 41) (ev_now ev 42) (h_cache h) primaryKey cacheKey cacheEntry in
                {| o_cdn := with_cache c h;
                   o_w := serveEntry (ev_now ev 43) w cacheEntry "MISS";
                   o_lock := [LSetStreaming primaryKey se; LRelease primaryKey (Some cacheEntry) false];
                   o_async := [] |}
            | _ => done_with h w   (* the stream is closed without error *)
            end
        end
      else
        let p := match h_predictor h with Some p => Some (MarkUncacheable p primaryKey) | None => None end in
        {| o_cdn := with_predictor p h; o_w := serveResponse w resp "BYPASS";
           o_lock := [LRelease primaryKey None true]; o_async := [] |}
  end.

Definition fetchAndServe (ev : env) (h : CDN) (w : W) (r : Request) (primaryKey : string) : outcome W :=
  match ev_acquired ev with
  | Some (entry, se) =>
      match se with
      | Some se => done_with h (serveStreamingEntry w se "HIT")
      | None =>
          match entry with
          | Some entry => done_with h (serveEntry (ev_now ev 22) w entry "HIT")
          | None => let '(h, w) := stale_or_502 ev 30 h w primaryKey in done_with h w
          end
      end
  | None => fetchAndServeStreaming ev h w r primaryKey
  end.

(** ** Byte ranges *)

Definition proxyPassthrough (ev : env) (h : CDN) (w : W) (r : Request) : outcome W :=
  let originURL := cfg_OriginURL (h_cfg h) +:+ r_RequestURI r in
  let '(o, res) := Fetch (ev_now ev 20) (ev_now ev 21) (h_origin h) ("passthrough:" +:+ r_RequestURI r) originURL
                     (r_Header r) (ev_joined ev) in
  let h := with_origin o h in
  match res with
  | inl _ => done_with h (http_Error "Bad Gateway" 502 w)
  | inr resp => done_with h (serveResponse w resp "BYPASS")
  end.

Definition serveByteRange (ev : env) (h : CDN) (w : W) (r : Request) (rangeHeader : string) : outcome W :=
  let primaryKey := NormalizeKey (r_Host r) (r_Path r) (r_RawQuery r) "" ∅ in
  let '(c, entry) := Get (after 0 ev) (h_cache h) primaryKey in
  let h := with_cache c h in
  match entry with
  | Some entry =>
      match parseRange rangeHeader (str_len (e_Body entry)) with
      | None => proxyPassthrough ev h w r
      | Some (s, e) => done_with h (serveRange w entry s e)
      end
  | None =>
      let originURL := cfg_OriginURL (h_cfg h) +:+ r_RequestURI r in
      let cleanHeader := Header_Del (r_Header r) "Range" in
      let '(o, res) := Fetch (ev_now ev 20) (ev_now ev 21) (h_origin h) primaryKey originURL cleanHeader (ev_joined ev) in
      let h := with_origin o h in
      match res with
      | inl _ => done_with h (http_Error "Bad Gateway" 502 w)
      | inr resp =>
          let '(ttl, swr) := determineTTL (cfg_DefaultTTL (h_cfg h)) (rs_Header resp) in
          if cacheable ttl (rs_StatusCode resp) then
            let vary := Header_Get (rs_Header resp) "Vary" in
            let cacheKey := NormalizeKey (r_Host r) (r_Path r) (r_RawQuery r) vary (r_Header r) in
            let entry := response_entry (ev_now ev 40) resp ttl swr cacheKey in
            let '(c, entry) := put_both (ev_now ev 41) (ev_now ev 42) (h_cache h) primaryKey cacheKey entry in
            let h := with_cache c h in
            match parseRange rangeHeader (str_len (e_Body entry)) with
            | None => done_with h (serveEntry (ev_now ev 43) w entry "MISS")
            | Some (s, e) => done_with h (serveRange w entry s e)
            end
          else done_with h (serveResponse w resp "BYPASS")
      end
  end.

(** ** Revalidation *)

Definition revalidateAsync (ev : env) (h : CDN) (rv : revalidation) : CDN :=
  let originURL := cfg_OriginURL (h_cfg h) +:+ rv_requestURI rv in
  let '(o, res) := Fetch (ev_now ev 0) (ev_now ev 1) (h_origin h) ("revalidate:" +:+ rv_key rv) originURL
                     (rv_header rv) (ev_joined ev) in
  let h := with_origin o h in
  match res with
  | inl _ => h
  | inr resp =>
      if 500 <=? rs_StatusCode resp then h
      else
        let '(ttl, swr) := determineTTL (cfg_DefaultTTL (h_cfg h)) (rs_Header resp) in
        if (ttl <=? 0) || negb (isCacheableStatus (rs_StatusCode resp)) then h
        else
          let vary := Header_Get (rs_Header resp) "Vary" in
          let cacheKey := NormalizeKey (rv_host rv) (rv_path rv) (rv_rawQuery rv) vary (rv_header rv) in
          let entry := response_entry (ev_now ev 2) resp ttl swr cacheKey in
          with_cache (put_both (ev_now ev 3) (ev_now ev 4) (h_cache h) (rv_key rv) cacheKey entry).1 h
  end.

(** ** [ServeHTTP] *)

(** An entry found in the cache: stale with a revalidation, 304, or a hit. *)
Definition serve_cached (ev : env) (h : CDN) (w : W) (r : Request) (primaryKey : string) (entry : Entry) : outcome W :=
  if Entry_IsExpired (ev_now ev 10) entry && Entry_IsStaleServable (ev_now ev 11) entry then
    {| o_cdn := h; o_w := serveEntry (ev_now ev 12) w entry "STALE"; o_lock := [];
       o_async := [{| rv_host := r_Host r; rv_requestURI := r_RequestURI r; rv_path := r_Path r;
                      rv_rawQuery := r_RawQuery r; rv_header := r_Header r; rv_key := primaryKey |}] |}
  else
    let inm := Header_Get (r_Header r) "If-None-Match" in
    if negb (String.eqb inm "") && String.eqb inm (e_ETag entry) then
      done_with h (not_modified "ETag" (e_ETag entry) w)
    else
      let ims := Header_Get (r_Header r) "If-Modified-Since" in
      if negb (String.eqb ims "") && negb (String.eqb (e_LastMod entry) "") &&
         match ParseTime ims, ParseTime (e_LastMod entry) with
         | Some imsTime, Some lastMod => negb (imsTime <? lastMod)
         | _, _ => false
         end
      then done_with h (not_modified "Last-Modified" (e_LastMod entry) w)
      else done_with h (serveEntry (ev_now ev 12) w entry "HIT").

(** The two-step lookup: by the primary key, then by the key of the request's variant. *)
Inductive lookup_result := LkNone | LkEntry (e : Entry) | LkVaryStar.

Definition cache_lookup (ev : env) (c : Cache) (r : Request) (primaryKey : string) : Cache * lookup_result :=
  let '(c, entry) := Get (after 0 ev) c primaryKey in
  match entry with
  | None => (c, LkNone)
  | Some entry =>
      let vary := Header_Get (Entry_GetHeader entry) "Vary" in
      if String.eqb vary "" then (c, LkEntry entry)
      else if String.eqb vary "*" then (c, LkVaryStar)
      else
        let varyKey := NormalizeKey (r_Host r) (r_Path r) (r_RawQuery r) vary (r_Header r) in
        if String.eqb varyKey primaryKey then (c, LkEntry entry)
        else
          let '(c, entry) := Get (after 5 ev) c varyKey in
          (c, match entry with Some e => LkEntry e | None => LkNone end)
  end.

Definition ServeHTTP (ev : env) (h : CDN) (w : W) (r : Request) : outcome W :=
  if negb (String.eqb (r_Method r) "GET") && negb (String.eqb (r_Method r) "HEAD") then
    done_with h (http_Error "Method Not Allowed" 405 (w_set_header (Header_Set (w_header w) "Allow" "GET, HEAD") w))
  else if negb (isValidPath (r_Path r)) then done_with h (http_Error "Bad Request" 400 w)
  else if String.eqb (r_Host r) "" then done_with h (http_Error "Bad Request: missing Host header" 400 w)
  else
    let rangeHeader := Header_Get (r_Header r) "Range" in
    if negb (String.eqb rangeHeader "") then serveByteRange ev h w r rangeHeader
    else
      let primaryKey := NormalizeKey (r_Host r) (r_Path r) (r_RawQuery r) "" ∅ in
      let '(p, likely) := match h_predictor h with
                          | Some p => let '(p, b) := IsLikelyUncacheable p primaryKey in (Some p, b)
                          | None => (None, false)
                          end in
      let h := with_predictor p h in
      if likely then fetchAndServe ev h w r primaryKey
      else if hasCacheDirective (Header_Get (r_Header r) "Cache-Control") "no-cache" then
        fetchAndServe ev h w r primaryKey
      else
        let '(c, found) := cache_lookup ev (h_cache h) r primaryKey in
        let h := with_cache c h in
        match found with
        | LkVaryStar | LkNone => fetchAndServe ev h w r primaryKey
        | LkEntry entry => serve_cached ev h w r primaryKey entry
        end.

(** ** Warming *)

Inductive warm_status := WarmOk | WarmSkipped | WarmError.

(** [warmURL]; [now_etag] is [time.Now().UnixNano()] in hexadecimal. *)
Definition warmURL (ev : env) (now_etag : string) (c : Cache) (o : Origin) (cfg : Config) (urlPath : string)
  : Cache * Origin * warm_status :=
  let originURL := cfg_OriginURL cfg +:+ urlPath in
  let cacheKey := NormalizeKey "" urlPath "" "" ∅ in
  let '(o, res) := Fetch (ev_now ev 0) (ev_now ev 1) o ("warm:" +:+ cacheKey) originURL ∅ (ev_joined ev) in
  match res with
  | inl _ => (c, o, WarmError)
  | inr resp =>
      if 400 <=? rs_StatusCode resp then (c, o, WarmError)
      else
        let cc := Header_Get (rs_Header resp) "Cache-Control" in
        if hasCacheDirective cc "no-store" || hasCacheDirective cc "private" then (c, o, WarmSkipped)
        else
          let ttl := getCacheDirectiveValue cc "s-maxage" in
          let ttl := if ttl =? 0 then getCacheDirectiveValue cc "max-age" else ttl in
          let ttl := if ttl =? 0 then cfg_DefaultTTL cfg else ttl in
          let etag := Header_Get (rs_Header resp) "ETag" in
          let etag := if String.eqb etag "" then dquote +:+ now_etag +:+ dquote else etag in
          let entry := {| e_Body := rs_Body resp; e_Header := Some (rs_Header resp); e_CompressedHeader := None;
                          e_StatusCode := rs_StatusCode resp; e_StoredAt := ev_now ev 2; e_TTL := ttl; e_ETag := etag;
                          e_LastMod := Header_Get (rs_Header resp) "Last-Modified"; e_VaryKey := "";
                          e_StaleWhileRevalidate := 0 |} in
          ((Put (ev_now ev 3) c cacheKey entry).1, o, WarmOk)
  end.

(** [WarmHandler.ServeHTTP]: [urls] is the decoded request, [None] when the JSON is
    invalid. At most ten goroutines run [warmURL]; they are run here one after the
    other, [clk i] being the environment of the [i]-th. *)
Fixpoint warm_all (clk : nat -> env * string) (i : nat) (c : Cache) (o : Origin) (cfg : Config) (urls : list string)
  : Cache * Origin * list warm_status :=
  match urls with
  | [] => (c, o, [])
  | u :: urls =>
      let '(c, o, st) := warmURL (clk i).1 (clk i).2 c o cfg u in
      let '(c, o, sts) := warm_all clk (S i) c o cfg urls in
      (c, o, st :: sts)
  end.

Definition Warm_ServeHTTP (clk : nat -> env * string) (c : Cache) (o : Origin) (cfg : Config)
    (w : W) (method : string) (urls : option (list string)) (encode : list warm_status -> string) : Cache * Origin * W :=
  if negb (String.eqb method "POST") then (c, o, http_Error "Method Not Allowed" 405 w)
  else
    match urls with
    | None => (c, o, http_Error "invalid JSON" 400 w)
    | Some [] => (c, o, http_Error ("{" +:+ dquote +:+ "error" +:+ dquote +:+ ":" +:+ dquote +:+ "no urls provided" +:+ dquote +:+ "}") 400 w)
    | Some urls =>
        if (1000 <? Z.of_nat (length urls)) then
          (c, o, http_Error ("{" +:+ dquote +:+ "error" +:+ dquote +:+ ":" +:+ dquote +:+ "max 1000 urls per request" +:+ dquote +:+ "}") 400 w)
        else
          let '(c, o, sts) := warm_all clk 0 c o cfg urls in
          (c, o, w_Write (encode sts) (w_set_header (Header_Set (w_header w) "Content-Type" "application/json") w))
    end.

End handler.

(** ** Lemmas *)

Section lemmas.
Context `{Hash64} `{HeaderCodec} `{!HeaderCodecLaws} `{DiskWorld} `{Unicode} `{HttpClient} `{HttpTime}.
Context {W : Type} `{Writer W}.
Implicit Types w : W.

Definition primary_key (r : Request) : string := NormalizeKey (r_Host r) (r_Path r) (r_RawQuery r) "" ∅.

(** The guards of [ServeHTTP], in its order. *)
Definition accepted (r : Request) : bool :=
  (String.eqb (r_Method r) "GET" || String.eqb (r_Method r) "HEAD") && isValidPath (r_Path r) &&
  negb (String.eqb (r_Host r) "").

(** A request for the whole resource that may be served from the cache. *)
Definition plain (r : Request) : bool :=
  accepted r && String.eqb (Header_Get (r_Header r) "Range") "" &&
  negb (hasCacheDirective (Header_Get (r_Header r) "Cache-Control") "no-cache").

Definition unconditional (r : Request) : bool :=
  String.eqb (Header_Get (r_Header r) "If-None-Match") "" &&
  String.eqb (Header_Get (r_Header r) "If-Modified-Since") "".

Lemma accepted_guards r : accepted r = true ->
  negb (String.eqb (r_Method r) "GET") && negb (String.eqb (r_Method r) "HEAD") = false /\
  negb (isValidPath (r_Path r)) = false /\ String.eqb (r_Host r) "" = false.
Proof.
  unfold accepted. destruct (String.eqb (r_Method r) "GET"), (String.eqb (r_Method r) "HEAD"),
    (isValidPath (r_Path r)), (String.eqb (r_Host r) ""); done.
Qed.

(** The predictor, if there is one, does not hold the request for uncacheable... *)
Definition unpredicted (h : CDN) (r : Request) : Prop :=
  forall p, h_predictor h = Some p -> (IsLikelyUncacheable p (primary_key r)).2 = false.
(** ...and has counted the question. *)
Definition queried (h : CDN) (r : Request) : CDN :=
  with_predictor ((fun p => (IsLikelyUncacheable p (primary_key r)).1) <$> h_predictor h) h.

(** Asking changes no answer. *)
Lemma query_same p k k' : (IsLikelyUncacheable (IsLikelyUncacheable p k).1 k').2 = (IsLikelyUncacheable p k').2.
Proof.
  unfold IsLikelyUncacheable. destruct (hashKey p k) as [a b]. cbn [fst].
  match goal with |- context [hashKey ?q k'] => rewrite (hashKey_mask p q k') by done end.
  by destruct (hashKey p k') as [a' b'].
Qed.

Lemma unpredicted_queried h r : unpredicted h r -> unpredicted (queried h r) r.
Proof.
  intros Hu p Hp. unfold queried in Hp. cbn [h_predictor with_predictor] in Hp.
  destruct (h_predictor h) as [q |] eqn:E; cbn [fmap option_fmap option_map] in Hp; [| done].
  assert (E' : p = (IsLikelyUncacheable q (primary_key r)).1) by congruence. rewrite E', query_same. by apply Hu.
Qed.

(** Past the guards. *)
Lemma ServeHTTP_plain ev h w r :
  plain r = true -> unpredicted h r ->
  ServeHTTP ev h w r
  = let '(c, found) := cache_lookup ev (h_cache h) r (primary_key r) in
    match found with
    | LkVaryStar | LkNone => fetchAndServe ev (with_cache c (queried h r)) w r (primary_key r)
    | LkEntry entry => serve_cached ev (with_cache c (queried h r)) w r (primary_key r) entry
    end.
Proof.
  unfold plain. intros [[Ha Hr]%andb_true_iff Hcc]%andb_true_iff Hp.
  destruct (accepted_guards r Ha) as (Hm & Hv & Hh). unfold ServeHTTP. rewrite Hm, Hv, Hh, Hr. cbn [negb].
  apply negb_true_iff in Hcc. fold (primary_key r). unfold unpredicted in Hp.
  unfold queried. destruct (h_predictor h) as [p |] eqn:E; cbn [fmap option_fmap option_map].
  - specialize (Hp p eq_refl). destruct (IsLikelyUncacheable p (primary_key r)) as [p' b]. cbn in Hp. subst b. by rewrite Hcc.
  - by rewrite Hcc.
Qed.

(** Without [Vary] one lookup decides. *)
Lemma cache_lookup_novary ev c r key e :
  (Get (after 0 ev) c key).2 = Some e -> Header_Get (Entry_GetHeader e) "Vary" = ""%string ->
  cache_lookup ev c r key = ((Get (after 0 ev) c key).1, LkEntry e).
Proof.
  intros He Hv. unfold cache_lookup. destruct (Get (after 0 ev) c key) as [c' f]. cbn in He. subst f.
  by rewrite Hv.
Qed.

Lemma cache_lookup_none ev c r key :
  (Get (after 0 ev) c key).2 = None -> cache_lookup ev c r key = ((Get (after 0 ev) c key).1, LkNone).
Proof. intros He. unfold cache_lookup. destruct (Get (after 0 ev) c key) as [c' f]. cbn in He. by subst f. Qed.

Lemma ServeHTTP_hit ev h w r e :
  plain r = true -> unconditional r = true -> unpredicted h r ->
  (Get (after 0 ev) (h_cache h) (primary_key r)).2 = Some e ->
  Header_Get (Entry_GetHeader e) "Vary" = ""%string -> Entry_IsExpired (ev_now ev 10) e = false ->
  ServeHTTP ev h w r
  = done_with (with_cache (Get (after 0 ev) (h_cache h) (primary_key r)).1 (queried h r))
      (serveEntry (ev_now ev 12) w e "HIT").
Proof.
  intros Hp Hu Hpr Hg Hv He. rewrite ServeHTTP_plain by done.
  rewrite (cache_lookup_novary _ _ _ _ e Hg Hv). unfold serve_cached. rewrite He. cbn [andb].
  apply andb_true_iff in Hu as [Hi Hm]. by rewrite Hi, Hm.
Qed.

(** What [serveEntry] sends on a writer nothing was sent on. *)
Definition unused (w : ResponseWriter) : Prop := w_status w = 0 /\ w_body w = ""%string.
Lemma serveEntry_sends now (w0 : ResponseWriter) e status :
  unused w0 -> e_StatusCode e <> 0 ->
  let w := serveEntry now w0 e status in
  w_status w = e_StatusCode e /\ w_body w = e_Body e /\ w_sent w !! "X-Cache" = Some [status].
Proof.
  intros [Hst Hb] Hs. unfold serveEntry; server. rewrite Hst, Hb, cacheStatusSlice_eq. cbn.
  destruct (Z.eqb_spec (e_StatusCode e) 0) as [| _]; [done |].
  split_and!; [done | done |]. cbn. rewrite lookup_insert_ne by done.
  destruct (String.eqb (e_ETag e) ""); [| rewrite lookup_insert_ne by done]; apply lookup_insert_eq.
Qed.

Lemma serveResponse_sends (w0 : ResponseWriter) resp status :
  unused w0 -> rs_StatusCode resp <> 0 ->
  let w := serveResponse w0 resp status in
  w_status w = rs_StatusCode resp /\ w_body w = rs_Body resp /\ w_sent w !! "X-Cache" = Some [status].
Proof.
  intros [Hst Hb] Hs. unfold serveResponse, copy_header; server. rewrite Hst, Hb. cbn.
  destruct (Z.eqb_spec (rs_StatusCode resp) 0) as [| _]; [done |].
  split_and!; [done | done |]. cbn. apply lookup_insert_eq.
Qed.

Lemma cacheable_facts default resp ttl swr :
  determineTTL default (rs_Header resp) = (ttl, swr) -> cacheable ttl (rs_StatusCode resp) = true ->
  0 < ttl /\ isCacheableStatus (rs_StatusCode resp) = true /\
  hasCacheDirective (Header_Get (rs_Header resp) "Cache-Control") "no-store" = false /\
  hasCacheDirective (Header_Get (rs_Header resp) "Cache-Control") "private" = false.
Proof.
  intros Hd [Ht%Z.ltb_lt Hs]%andb_true_iff. unfold determineTTL in Hd.
  destruct (hasCacheDirective _ "no-store"); [cbn in Hd; injection Hd as <- <-; lia |].
  destruct (hasCacheDirective _ "private"); [cbn in Hd; injection Hd as <- <-; lia | done].
Qed.

Lemma cacheable_status_nonzero s : isCacheableStatus s = true -> s <> 0.
Proof. intros Hs ->. done. Qed.

(** The fetcher's path when the origin answered with a cacheable response. *)
Lemma fetchAndServeStreaming_cacheable ev h w r key o resp ttl swr :
  Fetch (ev_now ev 20) (ev_now ev 21) (h_origin h) key (cfg_OriginURL (h_cfg h) +:+ r_RequestURI r)
    (r_Header r) (ev_joined ev) = (o, inr resp) ->
  determineTTL (cfg_DefaultTTL (h_cfg h)) (rs_Header resp) = (ttl, swr) ->
  cacheable ttl (rs_StatusCode resp) = true ->
  let cacheKey := NormalizeKey (r_Host r) (r_Path r) (r_RawQuery r) (Header_Get (rs_Header resp) "Vary") (r_Header r) in
  exists se, se_buf se = rs_Body resp /\ se_complete se = true /\
    fetchAndServeStreaming ev h w r key
    = let '(c, e) := put_both (ev_now ev 41) (ev_now ev 42) (h_cache h) key cacheKey
                       (response_entry (ev_now ev 40) resp ttl swr cacheKey) in
      {| o_cdn := with_cache c (with_origin o h); o_w := serveEntry (ev_now ev 43) w e "MISS";
         o_lock := [LSetStreaming key se; LRelease key (Some e) false]; o_async := [] |}.
Proof.
  intros Hf Hd Hc. cbv zeta. unfold fetchAndServeStreaming. rewrite Hf.
  change (h_cfg (with_origin o h)) with (h_cfg h). rewrite Hd, Hc.
  destruct (write_chunks_all (Z.to_nat (32 * 1024)) (NewStreamingEntry (rs_Header resp) (rs_StatusCode resp))
    (rs_Body resp) (String.length (rs_Body resp)) ltac:(lia) eq_refl (le_n _))
    as ([buf err hd st compl] & Hw & Hb & Hcm & Herr & Hhd & Hst).
  cbn in Hb, Hcm, Herr, Hhd, Hst. subst.
  change (Z.to_nat (32 * 1024)) with (32 * 1024)%nat in Hw. rewrite Hw.
  eexists. split; [| split; [| reflexivity]]; reflexivity.
Qed.

Lemma fetchAndServeStreaming_uncacheable ev h w r key o resp ttl swr :
  Fetch (ev_now ev 20) (ev_now ev 21) (h_origin h) key (cfg_OriginURL (h_cfg h) +:+ r_RequestURI r)
    (r_Header r) (ev_joined ev) = (o, inr resp) ->
  determineTTL (cfg_DefaultTTL (h_cfg h)) (rs_Header resp) = (ttl, swr) ->
  cacheable ttl (rs_StatusCode resp) = false ->
  exists p, fetchAndServeStreaming ev h w r key
    = {| o_cdn := with_predictor p (with_origin o h); o_w := serveResponse w resp "BYPASS";
         o_lock := [LRelease key None true]; o_async := [] |}.
Proof.
  intros Hf Hd Hc. unfold fetchAndServeStreaming. rewrite Hf.
  change (h_cfg (with_origin o h)) with (h_cfg h). rewrite Hd, Hc. eexists. reflexivity.
Qed.

(** The key of a response without [Vary] is the primary key. *)
Lemma NormalizeKey_novary host path query hdr :
  NormalizeKey host path query "" hdr = NormalizeKey host path query "" ∅.
Proof. unfold NormalizeKey. by rewrite andb_true_r. Qed.

End lemmas.

(** ** What the handler stores *)

Section stores.
Context `{Hash64} `{HeaderCodec} `{!HeaderCodecLaws} `{DiskWorld} `{Unicode} `{HttpClient} `{HttpTime}.
Context {W : Type} `{Writer W}.
Implicit Types w : W.

(** An entry a shared cache may keep, as far as the code looks: a positive lifetime, a
    cacheable status and no [no-store] or [private] on the first [Cache-Control] line
    ([second_line_private] is about the others); and it has a validator. *)
Definition storable (_ : string) (e : Entry) : Prop :=
  let cc := Header_Get (Entry_GetHeader e) "Cache-Control" in
  0 < e_TTL e /\ isCacheableStatus (e_StatusCode e) = true /\
  hasCacheDirective cc "no-store" = false /\ hasCacheDirective cc "private" = false /\ e_ETag e <> ""%string.

Lemma storable_stored_form k c e : storable k e -> storable k (stored_form c e).
Proof.
  unfold storable. destruct (stored_form_facts c e) as (-> & _ & -> & -> & _ & -> & _). done.
Qed.

Lemma response_etag_nonempty resp : response_etag resp <> ""%string.
Proof.
  unfold response_etag, body_etag. destruct (String.eqb_spec (Header_Get (rs_Header resp) "ETag") ""); done.
Qed.

Lemma response_entry_storable default now resp ttl swr key cacheKey :
  determineTTL default (rs_Header resp) = (ttl, swr) -> cacheable ttl (rs_StatusCode resp) = true ->
  storable key (response_entry now resp ttl swr cacheKey).
Proof.
  intros Hd Hc. destruct (cacheable_facts _ _ _ _ Hd Hc) as (? & ? & ? & ?).
  unfold storable; cbn. split_and!; try done. apply response_etag_nonempty.
Qed.

Lemma put_both_keeps (P : string -> Entry -> Prop) now now' c k k' e :
  (forall c, P k (stored_form c e)) -> (forall c c', P k' (stored_form c' (stored_form c e))) ->
  (forall c, P k' (stored_form c e)) ->
  keeps P c -> keeps P (put_both now now' c k k' e).1.
Proof.
  intros Hk Hk2 Hk' Hc. unfold put_both. pose proof (Put_entry now c k e) as He.
  pose proof (keeps_Put P now c k e Hc (Hk c)) as Hp.
  destruct (Put now c k e) as [c1 e1]. cbn [fst snd] in *. destruct (String.eqb k' k); [done |].
  apply keeps_Put; [done |]. destruct He as [-> | ->]; auto.
Qed.

Lemma put_both_storable now now' c k k' e :
  (forall key, storable key e) -> keeps storable c -> keeps storable (put_both now now' c k k' e).1.
Proof. intros He. apply put_both_keeps; intros; by repeat apply storable_stored_form. Qed.

Lemma stale_or_502_keeps P ev k h w key :
  keeps P (h_cache h) -> keeps P (h_cache (stale_or_502 ev k h w key).1).
Proof.
  intros Hk. unfold stale_or_502. pose proof (keeps_Get P (after k ev) (h_cache h) key Hk) as [Hg _].
  by destruct (Get _ _ _).
Qed.

Lemma fetchAndServe_keeps ev h w r key :
  keeps storable (h_cache h) -> keeps storable (h_cache (o_cdn (fetchAndServe ev h w r key))).
Proof.
  intros Hk. unfold fetchAndServe. destruct (ev_acquired ev) as [[entry se] |].
  { destruct se; [done |]. destruct entry; [done |].
    pose proof (stale_or_502_keeps storable ev 30 h w key Hk) as Hs. by destruct (stale_or_502 _ _ _ _ _). }
  destruct (Fetch (ev_now ev 20) (ev_now ev 21) (h_origin h) key (cfg_OriginURL (h_cfg h) +:+ r_RequestURI r)
    (r_Header r) (ev_joined ev)) as [o [err | resp]] eqn:Ef.
  { unfold fetchAndServeStreaming. rewrite Ef.
    pose proof (stale_or_502_keeps storable ev 30 (with_origin o h) w key Hk) as Hs.
    by destruct (stale_or_502 _ _ _ _ _). }
  destruct (determineTTL (cfg_DefaultTTL (h_cfg h)) (rs_Header resp)) as [ttl swr] eqn:Ed.
  destruct (cacheable ttl (rs_StatusCode resp)) eqn:Ec.
  - destruct (fetchAndServeStreaming_cacheable ev h w r key o resp ttl swr Ef Ed Ec) as (se & _ & _ & ->).
    match goal with |- context [put_both ?n ?n' ?c ?k ?k' ?e] =>
      pose proof (put_both_storable n n' c k k' e) as Hp; destruct (put_both n n' c k k' e) end.
    apply Hp; [| done]. intros. by eapply response_entry_storable.
  - destruct (fetchAndServeStreaming_uncacheable ev h w r key o resp ttl swr Ef Ed Ec) as (p & ->). done.
Qed.

Lemma proxyPassthrough_cache ev h w r : h_cache (o_cdn (proxyPassthrough ev h w r)) = h_cache h.
Proof. unfold proxyPassthrough. by destruct (Fetch _ _ _ _ _ _ _) as [o [err | resp]]. Qed.

Lemma serveByteRange_keeps ev h w r rh :
  keeps storable (h_cache h) -> keeps storable (h_cache (o_cdn (serveByteRange ev h w r rh))).
Proof.
  intros Hk. unfold serveByteRange.
  pose proof (keeps_Get storable (after 0 ev) (h_cache h) (NormalizeKey (r_Host r) (r_Path r) (r_RawQuery r) "" ∅) Hk) as [Hg _].
  destruct (Get _ _ _) as [c [entry |]]; cbn [fst] in Hg.
  { destruct (parseRange _ _) as [[s e] |]; [done |]. by rewrite proxyPassthrough_cache. }
  destruct (Fetch _ _ _ _ _ _ _) as [o [err | resp]]; [done |]. cbn [with_origin with_cache h_cfg h_cache].
  destruct (determineTTL _ _) as [ttl swr] eqn:Ed. destruct (cacheable ttl (rs_StatusCode resp)) eqn:Ec; [| done].
  match goal with |- context [put_both ?n ?n' ?c ?k ?k' ?e] =>
    pose proof (put_both_storable n n' c k k' e) as Hp; destruct (put_both n n' c k k' e) as [c1 e1] end.
  assert (keeps storable c1).
  { apply Hp; [| done]. intros. by eapply response_entry_storable. }
  by destruct (parseRange _ _) as [[s e] |].
Qed.

Lemma cache_lookup_keeps P ev c r key : keeps P c -> keeps P (cache_lookup ev c r key).1.
Proof.
  intros Hk. unfold cache_lookup. pose proof (keeps_Get P (after 0 ev) c key Hk) as [Hg _].
  destruct (Get (after 0 ev) c key) as [c1 [e |]]; [| done]. cbn [fst] in Hg.
  destruct (String.eqb _ ""); [done |]. destruct (String.eqb _ "*"); [done |].
  destruct (String.eqb _ key); [done |].
  match goal with |- context [Get (after 5 ev) c1 ?k] => pose proof (keeps_Get P (after 5 ev) c1 k Hg) as [Hg' _];
    by destruct (Get (after 5 ev) c1 k) end.
Qed.

Lemma serve_cached_cdn ev h w r key e : o_cdn (serve_cached ev h w r key e) = h.
Proof. unfold serve_cached. destruct (_ && _); [done |]. destruct (_ && _); [done |]. by destruct (_ && _). Qed.

Lemma ServeHTTP_keeps ev h w r :
  keeps storable (h_cache h) -> keeps storable (h_cache (o_cdn (ServeHTTP ev h w r))).
Proof.
  intros Hk. unfold ServeHTTP. destruct (_ && _); [done |]. destruct (negb (isValidPath _)); [done |].
  destruct (String.eqb (r_Host r) ""); [done |]. destruct (negb (String.eqb (Header_Get _ "Range") "")).
  { by apply serveByteRange_keeps. }
  destruct (match h_predictor h with Some p => _ | None => _ end) as [p likely].
  destruct likely; [by apply fetchAndServe_keeps |].
  destruct (hasCacheDirective _ "no-cache"); [by apply fetchAndServe_keeps |].
  pose proof (cache_lookup_keeps storable ev (h_cache h) r (primary_key r) Hk) as Hl. unfold primary_key in Hl.
  cbn [with_predictor h_cache]. destruct (cache_lookup _ _ _ _) as [c found]. cbn [fst] in Hl.
  destruct found; [by apply fetchAndServe_keeps | by rewrite serve_cached_cdn | by apply fetchAndServe_keeps].
Qed.

Lemma revalidateAsync_keeps ev h rv :
  keeps storable (h_cache h) -> keeps storable (h_cache (revalidateAsync ev h rv)).
Proof.
  intros Hk. unfold revalidateAsync. destruct (Fetch _ _ _ _ _ _ _) as [o [err | resp]]; [done |].
  destruct (500 <=? _); [done |]. cbn [with_origin h_cfg h_cache].
  destruct (determineTTL _ _) as [ttl swr] eqn:Ed.
  destruct ((ttl <=? 0) || negb (isCacheableStatus (rs_StatusCode resp))) eqn:Ec; [done |].
  apply orb_false_iff in Ec as [Ht Hs]. apply put_both_storable; [| done].
  intros. eapply response_entry_storable; [done |]. unfold cacheable.
  apply Z.leb_gt in Ht. apply negb_false_iff in Hs. rewrite Hs. by apply andb_true_iff; split; [apply Z.ltb_lt |].
Qed.

End stores.

Section life.
Context `{Hash64} `{HeaderCodec} `{!HeaderCodecLaws} `{DiskWorld} `{Unicode} `{HttpClient} `{HttpTime}.

(** The handler's life: requests, and revalidations at any time. *)
Inductive event :=
  | EvRequest (ev : env) (r : Request)
  | EvRevalidate (ev : env) (rv : revalidation).

Definition handle (h : CDN) (e : event) : CDN :=
  match e with
  | EvRequest ev r => o_cdn (ServeHTTP ev h new_writer r)
  | EvRevalidate ev rv => revalidateAsync ev h rv
  end.

(** C4: Starting from a new cache without disk tier, whatever requests and revalidations
    come, in whatever order and whatever the origin answers, every entry in memory has a
    positive lifetime, a cacheable status, a validator, and comes from a response whose
    first [Cache-Control] line, the only one the code reads, says neither [no-store] nor
    [private]. *)
Theorem only_storable_stored mkdir_ok files opts c0 o cfg p events k e :
  o_MaxItems opts <= max_i64 -> o_NumShards opts <= max_i64 -> o_DiskDir opts = ""%string ->
  NewWithOptions mkdir_ok files opts = Some c0 ->
  let h0 := {| h_cache := c0; h_origin := o; h_cfg := cfg; h_predictor := p |} in
  holds (h_cache (foldl handle h0 events)) k e -> storable k e.
Proof.
  intros Hm Hn Hd E h0. apply kp_all. cut (keeps storable (h_cache h0)).
  - generalize h0. induction events as [| ev events IH]; intros h Hk; cbn [foldl]; [done |].
    apply IH. destruct ev; [by apply ServeHTTP_keeps | by apply revalidateAsync_keeps].
  - by apply (New_keeps storable mkdir_ok files opts).
Qed.

(** A request with a method other than GET and HEAD, an invalid path or no host is
    answered 405, 400 and 400, in that order, and nothing else happens: no cache, origin
    or predictor operation, no lock, no revalidation. *)
Theorem ServeHTTP_rejects ev h r :
  accepted r = false ->
  let out := ServeHTTP ev h new_writer r in
  o_cdn out = h /\ o_lock out = [] /\ o_async out = [] /\
  w_status (o_w out) = (if String.eqb (r_Method r) "GET" || String.eqb (r_Method r) "HEAD" then 400 else 405) /\
  (w_status (o_w out) = 405 -> w_sent (o_w out) !! "Allow" = Some ["GET, HEAD"%string]).
Proof.
  unfold accepted, ServeHTTP. intros Ha.
  destruct (String.eqb (r_Method r) "GET"), (String.eqb (r_Method r) "HEAD"); cbn [orb andb negb] in *;
    try (by split_and!);
    (destruct (isValidPath (r_Path r)); cbn [negb andb] in *; [| by split_and!]);
    (destruct (String.eqb (r_Host r) ""); [by split_and! | done]).
Qed.

End life.

(** ** From request to request *)

Section histories.
Context `{Hash64} `{HeaderCodec} `{!HeaderCodecLaws} `{DiskWorld} `{Unicode} `{HttpClient} `{HttpTime}.

(** [e] is fresh, without [Vary], and stored in [c] under [key]. *)
Definition fresh_at (ev : env) (c : Cache) (key : string) (e : Entry) : Prop :=
  (Get (after 0 ev) c key).2 = Some e /\ Header_Get (Entry_GetHeader e) "Vary" = ""%string /\
  Entry_IsExpired (ev_now ev 10) e = false /\ e_StatusCode e <> 0.
Definition fresh_in (ev : env) (c : Cache) (r : Request) (e : Entry) : Prop := fresh_at ev c (primary_key r) e.

Lemma serves_fresh ev h (w : ResponseWriter) r e :
  unused w -> plain r = true -> unconditional r = true -> unpredicted h r -> fresh_in ev (h_cache h) r e ->
  let out := ServeHTTP ev h w r in
  w_status (o_w out) = e_StatusCode e /\ w_body (o_w out) = e_Body e /\
  w_sent (o_w out) !! "X-Cache" = Some ["HIT"%string] /\
  h_origin (o_cdn out) = h_origin h /\ o_lock out = [] /\ o_async out = [].
Proof.
  intros Hw Hp Hu Hpr (Hg & Hv & He & Hs). cbv zeta. rewrite (ServeHTTP_hit ev h w r e Hp Hu Hpr Hg Hv He).
  cbn [o_w o_cdn o_lock o_async done_with with_cache h_origin queried with_predictor].
  destruct (serveEntry_sends (ev_now ev 12) w e "HIT" Hw Hs) as (? & ? & ?). by split_and!.
Qed.

(** What is stored for a response without [Vary] is found fresh by the next request. *)
Lemma stored_is_fresh ev c key now now' resp ttl swr stored :
  cache_wf c -> has_room c key ->
  isCacheableStatus (rs_StatusCode resp) = true -> Header_Get (rs_Header resp) "Vary" = ""%string ->
  let e := response_entry stored resp ttl swr key in
  acceptable c key e = true -> (forall n, Entry_IsExpired (ev_now ev n) e = false) ->
  fresh_at ev (put_both now now' c key key e).1 key (stored_form c e).
Proof.
  intros Hc Hroom Hs Hv e Ha He. unfold put_both. rewrite String.eqb_refl.
  destruct (stored_form_facts c e) as (Fh & Fb & Fs & Ft & Fa & _ & _ & Fw).
  assert (Hexp : forall n, Entry_IsExpired n (stored_form c e) = Entry_IsExpired n e).
  { intros n. unfold Entry_IsExpired. by rewrite Ft, Fa. }
  pose proof (put_then_get now (after 0 ev) c key e Hc Hroom Ha) as Hg.
  unfold dead in Hg. rewrite Hexp in Hg. unfold after in Hg at 1. rewrite He in Hg. specialize (Hg eq_refl).
  unfold fresh_at. destruct (Put _ _ _ _) as [c1 e1]; cbn [fst] in *. rewrite Hexp, He, Fh, Fs.
  split_and!; [done | done | done | by apply cacheable_status_nonzero].
Qed.

Definition fetches (ev : env) (h : CDN) (r : Request) (o : Origin) (resp : Response) : Prop :=
  Fetch (ev_now ev 20) (ev_now ev 21) (h_origin h) (primary_key r) (cfg_OriginURL (h_cfg h) +:+ r_RequestURI r)
    (r_Header r) (ev_joined ev) = (o, inr resp).

(** A miss, on any writer. *)
Lemma ServeHTTP_miss {W} `{Writer W} ev h (w : W) r o resp ttl swr :
  plain r = true -> unpredicted h r -> ev_acquired ev = None ->
  (Get (after 0 ev) (h_cache h) (primary_key r)).2 = None ->
  fetches ev h r o resp -> determineTTL (cfg_DefaultTTL (h_cfg h)) (rs_Header resp) = (ttl, swr) ->
  cacheable ttl (rs_StatusCode resp) = true -> Header_Get (rs_Header resp) "Vary" = ""%string ->
  let c := (Get (after 0 ev) (h_cache h) (primary_key r)).1 in
  let e := response_entry (ev_now ev 40) resp ttl swr (primary_key r) in
  exists se, ServeHTTP ev h w r
    = let '(c1, e1) := put_both (ev_now ev 41) (ev_now ev 42) c (primary_key r) (primary_key r) e in
      {| o_cdn := with_cache c1 (with_origin o (with_cache c (queried h r))); o_w := serveEntry (ev_now ev 43) w e1 "MISS";
         o_lock := [LSetStreaming (primary_key r) se; LRelease (primary_key r) (Some e1) false]; o_async := [] |}.
Proof.
  intros Hp Hpr Hacq Hmiss Hf Hd Hc Hv c e. rewrite (ServeHTTP_plain ev h w r Hp Hpr), (cache_lookup_none _ _ _ _ Hmiss). fold c.
  unfold fetchAndServe. rewrite Hacq.
  destruct (fetchAndServeStreaming_cacheable ev (with_cache c (queried h r)) w r (primary_key r) o resp ttl swr Hf Hd Hc)
    as (se & _ & _ & E). exists se. rewrite E, Hv, NormalizeKey_novary. done.
Qed.

(** What was stored has the status and the body of the response. *)
Lemma put_both_same now now' c key e :
  let e1 := (put_both now now' c key key e).2 in e_StatusCode e1 = e_StatusCode e /\ e_Body e1 = e_Body e.
Proof.
  cbv zeta. unfold put_both. rewrite String.eqb_refl. destruct (stored_form_facts c e) as (_ & Fb & Fs & _).
  pose proof (Put_entry now c key e) as He. destruct (Put _ _ _ _) as [c1 e1]. cbn [snd] in *. destruct He as [-> | ->]; [done |]. by rewrite Fb, Fs.
Qed.

Lemma put_both_content now now' c k k' e :
  let e1 := (put_both now now' c k k' e).2 in e_StatusCode e1 = e_StatusCode e /\ e_Body e1 = e_Body e.
Proof.
  cbv zeta. unfold put_both. destruct (stored_form_facts c e) as (_ & Fb & Fs & _).
  pose proof (Put_entry now c k e) as He. destruct (Put now c k e) as [c1 e1]. cbn [snd] in He.
  assert (Hc1 : e_StatusCode e1 = e_StatusCode e /\ e_Body e1 = e_Body e) by (destruct He as [-> | ->]; [done | by rewrite Fb, Fs]).
  destruct (String.eqb k' k); [done |]. destruct (stored_form_facts c1 e1) as (_ & Fb1 & Fs1 & _).
  pose proof (Put_entry now' c1 k' e1) as He1. destruct (Put now' c1 k' e1) as [c2 e2]. cbn [snd] in *.
  destruct He1 as [-> | ->]; [done |]. by rewrite Fb1, Fs1.
Qed.

(** After a miss the next request finds what was stored. *)
Lemma miss_leaves_fresh {W} `{Writer W} ev ev' h (w : W) r o resp ttl swr :
  plain r = true -> unpredicted h r -> ev_acquired ev = None -> cache_wf (h_cache h) ->
  let c := (Get (after 0 ev) (h_cache h) (primary_key r)).1 in
  (Get (after 0 ev) (h_cache h) (primary_key r)).2 = None ->
  fetches ev h r o resp -> determineTTL (cfg_DefaultTTL (h_cfg h)) (rs_Header resp) = (ttl, swr) ->
  cacheable ttl (rs_StatusCode resp) = true -> Header_Get (rs_Header resp) "Vary" = ""%string ->
  let e := response_entry (ev_now ev 40) resp ttl swr (primary_key r) in
  has_room c (primary_key r) -> acceptable c (primary_key r) e = true ->
  (forall n, Entry_IsExpired (ev_now ev' n) e = false) ->
  let first := ServeHTTP ev h w r in
  fresh_in ev' (h_cache (o_cdn first)) r (stored_form c e) /\ unpredicted (o_cdn first) r /\ h_origin (o_cdn first) = o.
Proof.
  intros Hp Hpr Hacq Hwf c Hmiss Hf Hd Hc Hv e Hroom Ha Hexp. cbv zeta.
  pose proof (cacheable_facts _ _ _ _ Hd Hc) as (_ & Hst & _). assert (Hwfc : cache_wf c) by by apply Get_wf.
  pose proof (stored_is_fresh ev' c (primary_key r) (ev_now ev 41) (ev_now ev 42) resp ttl swr (ev_now ev 40)
    Hwfc Hroom Hst Hv Ha Hexp) as Hfresh. fold e in Hfresh.
  destruct (ServeHTTP_miss ev h w r o resp ttl swr Hp Hpr Hacq Hmiss Hf Hd Hc Hv) as (se & ->). fold c e.
  destruct (put_both _ _ _ _ _ _) as [c1 e1]. split; [exact Hfresh | split; [exact (unpredicted_queried h r Hpr) | done]].
Qed.

(** A request that misses fetches the response, serves it as a MISS and stores it; the
    next request for the resource gets the same status and body as a HIT, without
    touching the origin, while the entry is fresh and there was room for it. *)
Theorem miss_then_hit ev ev' h (w w' : ResponseWriter) r o resp ttl swr :
  unused w -> unused w' -> plain r = true -> unconditional r = true -> unpredicted h r -> ev_acquired ev = None ->
  cache_wf (h_cache h) ->
  let c := (Get (after 0 ev) (h_cache h) (primary_key r)).1 in
  (Get (after 0 ev) (h_cache h) (primary_key r)).2 = None ->
  fetches ev h r o resp -> determineTTL (cfg_DefaultTTL (h_cfg h)) (rs_Header resp) = (ttl, swr) ->
  cacheable ttl (rs_StatusCode resp) = true -> Header_Get (rs_Header resp) "Vary" = ""%string ->
  let e := response_entry (ev_now ev 40) resp ttl swr (primary_key r) in
  has_room c (primary_key r) -> acceptable c (primary_key r) e = true ->
  (forall n, Entry_IsExpired (ev_now ev' n) e = false) ->
  let first := ServeHTTP ev h w r in
  let second := ServeHTTP ev' (o_cdn first) w' r in
  w_status (o_w first) = rs_StatusCode resp /\ w_body (o_w first) = rs_Body resp /\
  w_sent (o_w first) !! "X-Cache" = Some ["MISS"%string] /\
  w_status (o_w second) = rs_StatusCode resp /\ w_body (o_w second) = rs_Body resp /\
  w_sent (o_w second) !! "X-Cache" = Some ["HIT"%string] /\
  h_origin (o_cdn second) = h_origin (o_cdn first) /\ o_lock second = [].
Proof.
  intros Hw Hw' Hp Hu Hpr Hacq Hwf c Hmiss Hf Hd Hc Hv e Hroom Ha Hexp. cbv zeta.
  pose proof (cacheable_facts _ _ _ _ Hd Hc) as (_ & Hst & _).
  destruct (miss_leaves_fresh ev ev' h w r o resp ttl swr Hp Hpr Hacq Hwf Hmiss Hf Hd Hc Hv Hroom Ha Hexp) as (Hfresh & Hpr' & _).
  destruct (serves_fresh ev' (o_cdn (ServeHTTP ev h w r)) w' r _ Hw' Hp Hu Hpr' Hfresh) as (-> & -> & -> & -> & -> & _).
  destruct (ServeHTTP_miss ev h w r o resp ttl swr Hp Hpr Hacq Hmiss Hf Hd Hc Hv) as (se & ->). fold c e.
  pose proof (put_both_same (ev_now ev 41) (ev_now ev 42) c (primary_key r) e) as [Hs1 Hb1].
  destruct (put_both _ _ _ _ _ _) as [c1 e1]; cbn [fst snd] in *. cbn [o_w o_cdn].
  destruct (serveEntry_sends (ev_now ev 43) w e1 "MISS" Hw) as (-> & -> & ->).
  { rewrite Hs1. by apply cacheable_status_nonzero. }
  destruct (stored_form_facts c e) as (_ & Fb & Fs & _). rewrite Fb, Fs, Hs1, Hb1. by split_and!.
Qed.


End histories.

(** ** What goes wrong *)

Section flaws.
Context `{Hash64} `{HeaderCodec} `{!HeaderCodecLaws} `{DiskWorld} `{Unicode} `{HttpClient} `{HttpTime}.

(** When the response is not cacheable its fetcher serves it, but releases the lock
    with an error: whoever waited for the same key receives nothing and, with nothing in
    the cache, answers 502 although the fetch succeeded. *)
Theorem uncacheable_starves_waiters ev ev' h h' (w w' : ResponseWriter) r r' key o resp ttl swr le :
  ev_acquired ev = None -> ev_acquired ev' = Some (None, None) ->
  Fetch (ev_now ev 20) (ev_now ev 21) (h_origin h) key (cfg_OriginURL (h_cfg h) +:+ r_RequestURI r)
    (r_Header r) (ev_joined ev) = (o, inr resp) ->
  determineTTL (cfg_DefaultTTL (h_cfg h)) (rs_Header resp) = (ttl, swr) ->
  cacheable ttl (rs_StatusCode resp) = false ->
  le_streamReady le = false -> w_status w' = 0 ->
  (Get (after 30 ev') (h_cache h') key).2 = None ->
  let leader := fetchAndServe ev h w r key in
  o_w leader = serveResponse w resp "BYPASS" /\ o_lock leader = [LRelease key None true] /\
  AcquireStreaming_wait (set_done (set_result None (Some "not cacheable"%string) le)) = [(None, None)] /\
  w_status (o_w (fetchAndServe ev' h' w' r' key)) = 502.
Proof.
  intros Hacq Hacq' Hf Hd Hc Hsr Hw' Hmiss. cbv zeta. unfold fetchAndServe at 1 2. rewrite Hacq.
  destruct (fetchAndServeStreaming_uncacheable ev h w r key o resp ttl swr Hf Hd Hc) as (p & ->).
  split_and!; [done | done | |].
  - unfold AcquireStreaming_wait; cbn. by rewrite Hsr.
  - unfold fetchAndServe. rewrite Hacq'. unfold stale_or_502.
    destruct (Get _ _ _) as [c found]. cbn in Hmiss. subst found.
    unfold http_Error; server. by rewrite Hw'.
Qed.

(** A range request is answered from whatever entry the primary key has: as a 206 with
    a slice of its body, whether the entry is a variant for other request headers, is
    marked [Vary: *] (which a plain request is never served from the cache) or is an
    error page. *)
Theorem range_ignores_vary ev h r e s t :
  accepted r = true -> Header_Get (r_Header r) "Range" <> ""%string ->
  (Get (after 0 ev) (h_cache h) (primary_key r)).2 = Some e -> str_len (e_Body e) <= max_i64 ->
  parseRange (Header_Get (r_Header r) "Range") (str_len (e_Body e)) = Some (s, t) ->
  (let out := ServeHTTP ev h new_writer r in
   w_status (o_w out) = 206 /\ h_origin (o_cdn out) = h_origin h /\
   w_body (o_w out) = take_bytes (Z.to_nat (t + 1 - s)) (drop_bytes (Z.to_nat s) (e_Body e))) /\
  (forall r', plain r' = true -> unpredicted h r' -> primary_key r' = primary_key r ->
     Header_Get (Entry_GetHeader e) "Vary" = "*"%string ->
     ServeHTTP ev h new_writer r' = fetchAndServe ev (with_cache (Get (after 0 ev) (h_cache h) (primary_key r)).1 (queried h r'))
                           new_writer r' (primary_key r)).
Proof.
  intros Ha Hr Hg Hl Hp. split.
  - destruct (accepted_guards r Ha) as (Hm & Hv & Hh). cbv zeta. unfold ServeHTTP. rewrite Hm, Hv, Hh.
    rewrite (proj2 (String.eqb_neq _ _) Hr). cbn [negb]. unfold serveByteRange. fold (primary_key r).
    destruct (Get _ _ _) as [c f]. cbn in Hg. subst f. rewrite Hp.
    by split_and!.
  - intros r' Hr' Hpr Hk Hv. rewrite (ServeHTTP_plain ev h new_writer r' Hr' Hpr), Hk. unfold cache_lookup.
    destruct (Get _ _ _) as [c f]. cbn in Hg. subst f. by rewrite Hv.
Qed.

(** [POST /warm] stores under a key without host, which no request the handler
    accepts looks up: warming never produces a hit. *)
Theorem warm_never_hit rest r :
  accepted r = true -> is_ascii (r_Host r) = true -> no_byte "/" (r_Host r) = true ->
  primary_key r <> NormalizeKey "" (String "/" rest) "" "" ∅.
Proof.
  intros Ha Hasc Hh E. destruct (accepted_guards r Ha) as (_ & _ & Hne).
  unfold primary_key in E. rewrite !NormalizeKey_base in E by done. unfold base_key in E.
  pose proof (no_byte_lower "/" (r_Host r) eq_refl Hh) as Hlow.
  destruct (r_Host r) as [| b host]; [done |]. cbn in E, Hlow. injection E as E _. by rewrite E in Hlow.
Qed.

End flaws.

(** ** Concrete requests *)

#[local] Existing Instances poly_hash64 bits_codec bits_codec_laws plain_disk ascii_unicode.
#[local] Instance no_time : HttpTime := {| ParseTime _ := None |}.

(** An origin that serves the URL, with the given [Cache-Control]. *)
#[local] Instance cc_client : HttpClient :=
  {| url_valid _ := true;
     client_Do rq := Some (200, {["Cache-Control" := [if String.eqb (oq_URL rq) "http://o/private" then "private" else "max-age=60"]]},
                           (oq_URL rq, true)) |}.

Definition get_of (path : string) (hdr : Header) : Request :=
  {| r_Method := "GET"; r_Host := "example.com"; r_Path := path; r_RawQuery := ""; r_RequestURI := path; r_Header := hdr |}.
Definition ev_at (t : Z) : env := {| ev_now _ := t; ev_acquired := None; ev_joined := inl ErrCtx |}.
Definition tiny_cdn : CDN :=
  {| h_cache := tiny_cache; h_origin := NewOrigin 0 ""; h_cfg := {| cfg_OriginURL := "http://o"; cfg_DefaultTTL := Second |};
     h_predictor := None |}.

Lemma ServeHTTP_rejects_witness :
  o_cdn (ServeHTTP (ev_at 0) tiny_cdn new_writer (get_of "/../etc/passwd" ∅)) = tiny_cdn.
Proof. apply (ServeHTTP_rejects (ev_at 0) tiny_cdn (get_of "/../etc/passwd" ∅)). reflexivity. Defined.

Definition life : list event := [EvRequest (ev_at 0) (get_of "/a" ∅); EvRequest (ev_at 0) (get_of "/private" ∅)].

Definition mem_opts : Options :=
  {| o_MaxItems := 2; o_MaxEntryBytes := 0; o_MaxKeyLen := 0; o_DiskDir := ""; o_DiskMaxBytes := 0;
     o_NumShards := 0; o_CompressHeaders := false |}.

(** An origin that sends two lines, [max-age=60] and [private]. *)
Definition two_lines : HttpClient :=
  {| url_valid _ := true;
     client_Do rq := Some (200, {["Cache-Control" := ["max-age=60"; "private"]]}, (oq_URL rq, true)) |}.

Section second_line.
#[local] Existing Instance two_lines.

(** What was marked private on the second line is stored, and a later client gets it. *)
Theorem second_line_private :
  let first := ServeHTTP (ev_at 0) tiny_cdn new_writer (get_of "/me" ∅) in
  let second := ServeHTTP (ev_at Second) (o_cdn first) new_writer (get_of "/me" ∅) in
  w_body (o_w second) = "http://o/me"%string /\ w_sent (o_w second) !! "X-Cache" = Some ["HIT"%string] /\
  w_sent (o_w second) !! "Cache-Control" = Some ["max-age=60"; "private"]%string.
Proof. vm_compute. split_and!; reflexivity. Qed.

End second_line.

Lemma only_storable_stored_witness :
  exists c0, NewWithOptions true ∅ mem_opts = Some c0 /\
    forall k e, holds (h_cache (foldl handle {| h_cache := c0; h_origin := NewOrigin 0 ""; h_cfg := h_cfg tiny_cdn;
                                  h_predictor := None |} life)) k e -> storable k e.
Proof.
  eexists. split; [reflexivity |]. intros k e.
  apply (only_storable_stored true ∅ mem_opts); cbn; unfold max_i64; lia || reflexivity.
Defined.

Definition cc_resp (url cc : string) : Response :=
  {| rs_StatusCode := 200; rs_Header := {["Cache-Control" := [cc]]}; rs_Body := url |}.

Lemma miss_then_hit_witness :
  let first := ServeHTTP (ev_at 0) tiny_cdn new_writer (get_of "/a" ∅) in
  w_body (o_w (ServeHTTP (ev_at Second) (o_cdn first) new_writer (get_of "/a" ∅))) = "http://o/a".
Proof.
  apply (miss_then_hit (ev_at 0) (ev_at Second) tiny_cdn new_writer new_writer (get_of "/a" ∅)
    (Fetch 0 0 (NewOrigin 0 "") "example.com/a" "http://o/a" ∅ (inl ErrCtx)).1 (cc_resp "http://o/a" "max-age=60") (60 * Second) 0);
    [split; reflexivity | split; reflexivity | | | by intros p | | apply tiny_cache_wf | | | | | | eexists; split; [| right; left] | | intros n];
    vm_compute; reflexivity.
Defined.

(** An entry stored at time 0, fresh for a minute and servable stale for another. *)
Definition old_entry (vary : string) : Entry :=
  {| e_Body := "old body"; e_Header := Some (if String.eqb vary "" then ∅ else {["Vary" := [vary]]}); e_CompressedHeader := None;
     e_StatusCode := 200; e_StoredAt := 0; e_TTL := 60 * Second; e_ETag := "v1"; e_LastMod := ""; e_VaryKey := "";
     e_StaleWhileRevalidate := 60 * Second |}.
Definition warm_cdn (vary : string) : CDN := with_cache (Put 0 tiny_cache "example.com/a" (old_entry vary)).1 tiny_cdn.


Lemma uncacheable_starves_waiters_witness :
  w_status (o_w (fetchAndServe {| ev_now _ := 0; ev_acquired := Some (None, None); ev_joined := inl ErrCtx |}
    tiny_cdn new_writer (get_of "/private" ∅) "example.com/private")) = 502.
Proof.
  apply (uncacheable_starves_waiters (ev_at 0) {| ev_now _ := 0; ev_acquired := Some (None, None); ev_joined := inl ErrCtx |}
    tiny_cdn tiny_cdn new_writer new_writer (get_of "/private" ∅) (get_of "/private" ∅) "example.com/private"
    (Fetch 0 0 (NewOrigin 0 "") "example.com/private" "http://o/private" ∅ (inl ErrCtx)).1
    (cc_resp "http://o/private" "private") 0 0 new_lockEntry); vm_compute; reflexivity.
Defined.

Lemma range_ignores_vary_witness :
  w_body (o_w (ServeHTTP (ev_at 0) (warm_cdn "*") new_writer (get_of "/a" {["Range" := ["bytes=4-"]]}))) = "body".
Proof.
  apply (range_ignores_vary (ev_at 0) (warm_cdn "*") (get_of "/a" {["Range" := ["bytes=4-"]]})
    (stored_form tiny_cache (old_entry "*")) 4 7);
    (vm_compute; reflexivity) || (vm_compute; discriminate).
Defined.

Lemma warm_never_hit_witness :
  primary_key (get_of "/a" ∅) <> NormalizeKey "" "/a" "" "" ∅.
Proof. apply (warm_never_hit "a" (get_of "/a" ∅)); reflexivity. Defined.
