(* ===== verification/Tenant.v ===== *)
(** * The shared data model ([tenant/tenant.go])

    Tenants, their domains and cache rules, edge nodes, and the configuration snapshot
    the control plane builds for the edges. Times are instants; the one float64 is kept
    as its bits, no operation computes on it. A nil [*Domain] in a map reads like an
    absent one, so the maps hold values. *)

From S2P Require Import Prelude GoStrings.

Local Open Scope Z_scope.

Record Tenant := {
  t_ID : string;
  t_Name : string;
  t_CreatedAt : Z;
  t_UpdatedAt : Z;
  t_Active : bool;
  t_APIKey : string
}.

Record Domain := {
  d_ID : string;
  d_TenantID : string;
  d_Hostname : string;
  d_OriginURL : string;
  d_OriginHost : string;
  d_OriginTimeout : Z;
  d_DefaultTTLSec : Z;
  d_MaxCacheEntryBytes : Z;
  d_RespectOriginHeaders : bool;
  d_CORSOrigins : string;
  d_CORSMaxAge : Z;
  d_TLSMode : string;
  d_TLSCert : string;
  d_TLSKey : string;
  d_TLSAcmeDNS : bool;
  d_RateLimitRPS : Z;         (* the bits of the float64 *)
  d_RateLimitBurst : Z;
  d_Active : bool;
  d_CreatedAt : Z;
  d_UpdatedAt : Z
}.

Record CacheRule := {
  cr_ID : string;
  cr_DomainID : string;
  cr_PathGlob : string;
  cr_TTLSec : Z;
  cr_Bypass : bool
}.

Record EdgeConfig := {
  ec_Version : Z;
  ec_Timestamp : Z;
  ec_Domains : gmap string Domain;             (* by hostname *)
  ec_Rules : gmap string (list CacheRule)      (* by domain ID *)
}.

Record EdgeNode := {
  en_ID : string;
  en_Name : string;
  en_Addr : string;
  en_Region : string;
  en_LastSeen : Z;
  en_Active : bool
}.

(** ** Concrete data *)

Definition sample_tenant (id : string) : Tenant :=
  {| t_ID := id; t_Name := "acme"; t_CreatedAt := 0; t_UpdatedAt := 0; t_Active := true; t_APIKey := "cdnk_" +:+ id |}.

Definition sample_domain (id tenantID hostname originURL : string) : Domain :=
  {| d_ID := id; d_TenantID := tenantID; d_Hostname := hostname; d_OriginURL := originURL; d_OriginHost := "";
     d_OriginTimeout := 0; d_DefaultTTLSec := 300; d_MaxCacheEntryBytes := 0; d_RespectOriginHeaders := true;
     d_CORSOrigins := ""; d_CORSMaxAge := 0; d_TLSMode := "managed"; d_TLSCert := ""; d_TLSKey := "";
     d_TLSAcmeDNS := false; d_RateLimitRPS := 0; d_RateLimitBurst := 0; d_Active := true;
     d_CreatedAt := 0; d_UpdatedAt := 0 |}.
