(* ===== verification/Codec.v ===== *)
(** * A concrete codec

    The wire format is a parameter of the development (the interfaces [StoreJson],
    [ConfigMarshal] and [ConfigJson]). Concrete runs need one that can be computed: here the
    records of [Tenant.v] are written as bits with an end mark, so that what was written
    reads back, and what was cut off does not read at all, as with JSON. *)

From S2P Require Import Prelude GoStrings Tenant.
From stdpp Require Import countable.

Local Open Scope Z_scope.

(** ** Records as lists of numbers *)

#[export] Instance Tenant_eq_dec : EqDecision Tenant.
Proof. solve_decision. Defined.
#[export] Instance Domain_eq_dec : EqDecision Domain.
Proof. solve_decision. Defined.
#[export] Instance CacheRule_eq_dec : EqDecision CacheRule.
Proof. solve_decision. Defined.
#[export] Instance EdgeNode_eq_dec : EqDecision EdgeNode.
Proof. solve_decision. Defined.
#[export] Instance EdgeConfig_eq_dec : EqDecision EdgeConfig.
Proof. solve_decision. Defined.

#[export] Instance Tenant_countable : Countable Tenant.
Proof.
  refine (inj_countable
    (fun t => [encode (t_ID t); encode (t_Name t); encode (t_CreatedAt t); encode (t_UpdatedAt t); encode (t_Active t); encode (t_APIKey t)])
    (fun l => match l with
              | [a; b; c; d; e; f] =>
                  a ← decode a; b ← decode b; c ← decode c; d ← decode d; e ← decode e; f ← decode f;
                  Some {| t_ID := a; t_Name := b; t_CreatedAt := c; t_UpdatedAt := d; t_Active := e; t_APIKey := f |}
              | _ => None
              end) _).
  intros []. cbn. repeat (rewrite decode_encode; cbn). done.
Defined.

#[export] Instance Domain_countable : Countable Domain.
Proof.
  refine (inj_countable
    (fun d => [encode (d_ID d); encode (d_TenantID d); encode (d_Hostname d); encode (d_OriginURL d); encode (d_OriginHost d);
               encode (d_OriginTimeout d); encode (d_DefaultTTLSec d); encode (d_MaxCacheEntryBytes d); encode (d_RespectOriginHeaders d);
               encode (d_CORSOrigins d); encode (d_CORSMaxAge d); encode (d_TLSMode d); encode (d_TLSCert d); encode (d_TLSKey d);
               encode (d_TLSAcmeDNS d); encode (d_RateLimitRPS d); encode (d_RateLimitBurst d); encode (d_Active d);
               encode (d_CreatedAt d); encode (d_UpdatedAt d)])
    (fun l => match l with
              | [a; b; c; d; e; f; g; h; i; j; k; m; n; o; p; q; r; s; t; u] =>
                  a ← decode a; b ← decode b; c ← decode c; d ← decode d; e ← decode e; f ← decode f; g ← decode g; h ← decode h;
                  i ← decode i; j ← decode j; k ← decode k; m ← decode m; n ← decode n; o ← decode o; p ← decode p; q ← decode q;
                  r ← decode r; s ← decode s; t ← decode t; u ← decode u;
                  Some {| d_ID := a; d_TenantID := b; d_Hostname := c; d_OriginURL := d; d_OriginHost := e; d_OriginTimeout := f;
                          d_DefaultTTLSec := g; d_MaxCacheEntryBytes := h; d_RespectOriginHeaders := i; d_CORSOrigins := j;
                          d_CORSMaxAge := k; d_TLSMode := m; d_TLSCert := n; d_TLSKey := o; d_TLSAcmeDNS := p; d_RateLimitRPS := q;
                          d_RateLimitBurst := r; d_Active := s; d_CreatedAt := t; d_UpdatedAt := u |}
              | _ => None
              end) _).
  intros []. cbn. repeat (rewrite decode_encode; cbn). done.
Defined.

#[export] Instance CacheRule_countable : Countable CacheRule.
Proof.
  refine (inj_countable
    (fun r => [encode (cr_ID r); encode (cr_DomainID r); encode (cr_PathGlob r); encode (cr_TTLSec r); encode (cr_Bypass r)])
    (fun l => match l with
              | [a; b; c; d; e] =>
                  a ← decode a; b ← decode b; c ← decode c; d ← decode d; e ← decode e;
                  Some {| cr_ID := a; cr_DomainID := b; cr_PathGlob := c; cr_TTLSec := d; cr_Bypass := e |}
              | _ => None
              end) _).
  intros []. cbn. repeat (rewrite decode_encode; cbn). done.
Defined.

#[export] Instance EdgeNode_countable : Countable EdgeNode.
Proof.
  refine (inj_countable
    (fun n => [encode (en_ID n); encode (en_Name n); encode (en_Addr n); encode (en_Region n); encode (en_LastSeen n); encode (en_Active n)])
    (fun l => match l with
              | [a; b; c; d; e; f] =>
                  a ← decode a; b ← decode b; c ← decode c; d ← decode d; e ← decode e; f ← decode f;
                  Some {| en_ID := a; en_Name := b; en_Addr := c; en_Region := d; en_LastSeen := e; en_Active := f |}
              | _ => None
              end) _).
  intros []. cbn. repeat (rewrite decode_encode; cbn). done.
Defined.

#[export] Instance EdgeConfig_countable : Countable EdgeConfig.
Proof.
  refine (inj_countable
    (fun c => [encode (ec_Version c); encode (ec_Timestamp c); encode (ec_Domains c); encode (ec_Rules c)])
    (fun l => match l with
              | [a; b; c; d] =>
                  a ← decode a; b ← decode b; c ← decode c; d ← decode d;
                  Some {| ec_Version := a; ec_Timestamp := b; ec_Domains := c; ec_Rules := d |}
              | _ => None
              end) _).
  intros []. cbn. repeat (rewrite decode_encode; cbn). done.
Defined.

(** ** Numbers as text *)

Fixpoint pos_text (p : positive) : string :=
  match p with xO p => String "0" (pos_text p) | xI p => String "1" (pos_text p) | xH => "." end.

(** The text ends at its mark, and nothing follows. *)
Fixpoint text_pos (s : string) : option positive :=
  match s with
  | String "." EmptyString => Some xH
  | String "0" s => xO <$> text_pos s
  | String "1" s => xI <$> text_pos s
  | _ => None
  end.

Lemma text_pos_text p : text_pos (pos_text p) = Some p.
Proof. induction p as [p IH | p IH |]; cbn; by rewrite ?IH. Qed.

(** A text that is cut off does not read as another one. *)
Lemma text_pos_take n p q : text_pos (take_bytes n (pos_text p)) = Some q -> q = p.
Proof.
  revert n q. induction p as [p IH | p IH |]; intros [| n] q; cbn; try done.
  - intros (q' & Hq & ->)%fmap_Some. by rewrite (IH n q' Hq).
  - intros (q' & Hq & ->)%fmap_Some. by rewrite (IH n q' Hq).
  - destruct n; cbn; by intros [= <-].
Qed.

Section text.
Context {A} `{Countable A}.

Definition write_text (x : A) : string := pos_text (encode x).
Definition read_text (s : string) : option A := text_pos s ≫= decode.

Lemma read_write x : read_text (write_text x) = Some x.
Proof. unfold read_text, write_text. rewrite text_pos_text. apply decode_encode. Qed.

Lemma read_cut n x y : read_text (take_bytes n (write_text x)) = Some y -> y = x.
Proof.
  unfold read_text, write_text. intros (p & Hp & Hd)%bind_Some. apply text_pos_take in Hp as ->.
  rewrite decode_encode in Hd. by injection Hd.
Qed.

End text.
