(* ===== verification/MultiTenant.v ===== *)
(** * The multi-tenant handler and its configuration ([handler/multitenant.go])

    One cache, one origin client and one predictor serve every tenant; the configuration
    is a pointer that a push or a poll replaces. A request reads the pointer several
    times and other goroutines may replace it in between, so a request gets the
    configurations it reads: [me_config 0] for the domain, [1] for the rules, [2] for the
    rules again after a range request has fetched. A request is told what a flight it
    joined gave; [Flights.v] has the flights be those of the other requests. The pieces
    shared with the single-tenant handler are those of [Handler.v]. *)

From S2P Require Import Prelude GoStrings CacheKey TinyLFU Entry Shard Disk Cache Contents Predictor Stampede Streaming Http CacheControl Range Paths Circuit Origin Handler Tenant.

Local Open Scope Z_scope.
Local Open Scope go_scope.

Record MultiTenantCDN := {
  mt_config : option EdgeConfig;
  mt_cache : Cache;
  mt_origin : Origin;
  mt_defaultTTL : Duration;
  mt_predictor : option Predictor
}.

Record mt_env := { me_env : env; me_config : nat -> option EdgeConfig }.

Definition NewMultiTenant (c : Cache) (o : Origin) (defaultTTL : Duration) : MultiTenantCDN :=
  {| mt_config := None; mt_cache := c; mt_origin := o; mt_defaultTTL := defaultTTL; mt_predictor := None |}.

Definition EnablePredictor (h : MultiTenantCDN) (p : option Predictor) : MultiTenantCDN :=
  {| mt_config := mt_config h; mt_cache := mt_cache h; mt_origin := mt_origin h;
     mt_defaultTTL := mt_defaultTTL h; mt_predictor := p |}.

Definition UpdateConfig (h : MultiTenantCDN) (cfg : EdgeConfig) : MultiTenantCDN :=
  {| mt_config := Some cfg; mt_cache := mt_cache h; mt_origin := mt_origin h;
     mt_defaultTTL := mt_defaultTTL h; mt_predictor := mt_predictor h |}.

Definition mt_with_cache (c : Cache) (h : MultiTenantCDN) : MultiTenantCDN :=
  {| mt_config := mt_config h; mt_cache := c; mt_origin := mt_origin h;
     mt_defaultTTL := mt_defaultTTL h; mt_predictor := mt_predictor h |}.
Definition mt_with_origin (o : Origin) (h : MultiTenantCDN) : MultiTenantCDN :=
  {| mt_config := mt_config h; mt_cache := mt_cache h; mt_origin := o;
     mt_defaultTTL := mt_defaultTTL h; mt_predictor := mt_predictor h |}.

(** [json.Unmarshal] into an [EdgeConfig]; [None] for an error. *)
Class ConfigJson := { Unmarshal_EdgeConfig : string -> option EdgeConfig }.

(** [HandleConfigPush]; [body] is [None] when reading it failed. *)
Definition HandleConfigPush `{ConfigJson} {W} `{Writer W} (h : MultiTenantCDN) (w : W) (method : string) (body : option string)
  : MultiTenantCDN * W :=
  if negb (String.eqb method "POST") then (h, http_Error "Method Not Allowed" 405 w)
  else
    match body with
    | None => (h, http_Error "read error" 400 w)
    | Some body =>
        match Unmarshal_EdgeConfig (take_bytes (Z.to_nat (Z.shiftl 10 20)) body) with
        | None => (h, http_Error "invalid JSON" 400 w)
        | Some cfg =>
            let w := w_set_header (Header_Set (w_header w) "Content-Type" "application/json") w in
            (UpdateConfig h cfg,
             w_Write ("{" +:+ dquote +:+ "status" +:+ dquote +:+ ":" +:+ dquote +:+ "ok" +:+ dquote +:+ "," +:+
                      dquote +:+ "version" +:+ dquote +:+ ":" +:+ Itoa (ec_Version cfg) +:+ "}") w)
        end
    end.

(** ** [ConfigPoller] *)

Record ConfigPoller := { cp_handler : MultiTenantCDN; cp_lastVersion : Z }.

(** [poll]: [resp] is [None] when no answer could be had, otherwise the status and the
    body, [None] when reading it failed. *)
Definition poll `{ConfigJson} (p : ConfigPoller) (resp : option (Z * option string)) : ConfigPoller :=
  match resp with
  | None => p
  | Some (status, body) =>
      if negb (status =? 200) then p
      else
        match body with
        | None => p
        | Some body =>
            match Unmarshal_EdgeConfig (take_bytes (Z.to_nat (Z.shiftl 10 20)) body) with
            | None => p
            | Some cfg =>
                if cp_lastVersion p <? ec_Version cfg
                then {| cp_handler := UpdateConfig (cp_handler p) cfg; cp_lastVersion := ec_Version cfg |}
                else p
            end
        end
  end.

(** [NewConfigPoller] for the handler; the address and the key are the request's. *)
Definition NewConfigPoller (h : MultiTenantCDN) : ConfigPoller := {| cp_handler := h; cp_lastVersion := 0 |}.

(** The URL [poll] asks. *)
Definition poll_url (cpURL : string) : string := TrimRightByte cpURL "/" +:+ "/api/v1/config".

(** [ConfigPoller.Start]: a poll at once, then the ticker: [None] is the panic of
    [time.NewTicker], and the first poll is done by then. *)
Definition Poller_Start `{ConfigJson} (interval : Duration) (first : option (Z * option string))
    (events : list (tick (option (Z * option string)))) (p : ConfigPoller) : ConfigPoller * option unit :=
  let p := poll p first in
  match NewTicker interval with
  | None => (p, None)
  | Some _ => (ticker_loop (fun resp p => poll p resp) events p, Some tt)
  end.

(** [MultiTenantCDN.Start] runs the predictor's decay, if there is one. *)
Definition mt_Start (events : list (tick unit)) (h : MultiTenantCDN) : option MultiTenantCDN :=
  match mt_predictor h with
  | None => Some h
  | Some p => p ← StartDecay events p; Some (EnablePredictor h (Some p))
  end.

Definition GetConfig (h : MultiTenantCDN) : option EdgeConfig := mt_config h.

(** ** Lookups *)

Definition lookupDomain (cfg : option EdgeConfig) (hostname : string) : option Domain :=
  match cfg with None => None | Some cfg => ec_Domains cfg !! hostname end.

Definition lookupRules (cfg : option EdgeConfig) (domainID : string) : list CacheRule :=
  match cfg with None => [] | Some cfg => default [] (ec_Rules cfg !! domainID) end.

Definition mt_originURL (domain : Domain) (r : Request) : string :=
  TrimRightByte (d_OriginURL domain) "/" +:+ r_RequestURI r.

Definition set_host (domain : Domain) (reqHeader : Header) : Header :=
  if String.eqb (d_OriginHost domain) "" then reqHeader else Header_Set reqHeader "Host" (d_OriginHost domain).

Section handler.
Context `{Hash64} `{HeaderCodec} `{DiskWorld} `{Unicode} `{HttpClient}.
Context {W : Type} `{Writer W}.

(** The first rule for the path that sets a lifetime. *)
Fixpoint rule_ttl (urlPath : string) (rules : list CacheRule) : option Duration :=
  match rules with
  | [] => None
  | rule :: rules =>
      if matchGlob urlPath (cr_PathGlob rule) && (0 <? cr_TTLSec rule) then Some (cr_TTLSec rule *i64 Second)
      else rule_ttl urlPath rules
  end.

Definition mtDetermineTTL (h : MultiTenantCDN) (respHeader : Header) (domain : Domain) (rules : list CacheRule)
    (urlPath : string) : Duration * Duration :=
  let cc := Header_Get respHeader "Cache-Control" in
  if hasCacheDirective cc "no-store" || hasCacheDirective cc "private" then (0, 0)
  else
    let swr := getCacheDirectiveValue cc "stale-while-revalidate" in
    let sma := getCacheDirectiveValue cc "s-maxage" in
    let ma := getCacheDirectiveValue cc "max-age" in
    if d_RespectOriginHeaders domain && (0 <? sma) then (sma, swr)
    else if d_RespectOriginHeaders domain && (0 <? ma) then (ma, swr)
    else
      match rule_ttl urlPath rules with
      | Some ttl => (ttl, swr)
      | None =>
          if 0 <? d_DefaultTTLSec domain then (d_DefaultTTLSec domain *i64 Second, swr)
          else (mt_defaultTTL h, swr)
      end.

(** Each function that fetches is in two parts: what it does with the answer of [Fetch]
    ([_fetched]), and the whole, which calls [Fetch] first. [Flights.v] lets other requests
    run in between. *)
Definition mtProxyPassthrough_fetched (h : MultiTenantCDN) (w : W) (res : result) : MultiTenantCDN * W :=
  match res with
  | inl _ => (h, http_Error "Bad Gateway" 502 w)
  | inr resp => (h, serveResponse w resp "BYPASS")
  end.

Definition mtProxyPassthrough (ev : mt_env) (h : MultiTenantCDN) (w : W) (r : Request) (domain : Domain)
  : MultiTenantCDN * W :=
  let ev := me_env ev in
  let '(o, res) := Fetch (ev_now ev 20) (ev_now ev 21) (mt_origin h) ("passthrough:" +:+ r_RequestURI r)
                     (mt_originURL domain r) (r_Header r) (ev_joined ev) in
  mtProxyPassthrough_fetched (mt_with_origin o h) w res.

Definition mtFetchAndServe_fetched (ev : mt_env) (h : MultiTenantCDN) (w : W) (r : Request) (domain : Domain)
    (primaryKey : string) (rules : list CacheRule) (res : result) : MultiTenantCDN * W :=
  let ev := me_env ev in
  match res with
  | inl _ =>
      let '(c, stale) := Get (after 30 ev) (mt_cache h) primaryKey in
      (mt_with_cache c h,
       match stale with
       | Some e => serveEntry (ev_now ev 34) w e "STALE-ERROR"
       | None => http_Error "Bad Gateway" 502 w
       end)
  | inr resp =>
      let '(ttl, swr) := mtDetermineTTL h (rs_Header resp) domain rules (r_Path r) in
      if cacheable ttl (rs_StatusCode resp) then
        let vary := Header_Get (rs_Header resp) "Vary" in
        let cacheKey := NormalizeKey (stripPort (r_Host r)) (r_Path r) (r_RawQuery r) vary (r_Header r) in
        let entry := response_entry (ev_now ev 40) resp ttl swr cacheKey in
        let '(c, entry) := put_both (ev_now ev 41) (ev_now ev 42) (mt_cache h) primaryKey cacheKey entry in
        (mt_with_cache c h, serveEntry (ev_now ev 43) w entry "MISS")
      else
        let p := match mt_predictor h with Some p => Some (MarkUncacheable p primaryKey) | None => None end in
        (EnablePredictor h p, serveResponse w resp "BYPASS")
  end.

Definition mtFetchAndServe (ev : mt_env) (h : MultiTenantCDN) (w : W) (r : Request) (domain : Domain)
    (primaryKey : string) (rules : list CacheRule) : MultiTenantCDN * W :=
  let reqHeader := set_host domain (r_Header r) in
  let '(o, res) := Fetch (ev_now (me_env ev) 20) (ev_now (me_env ev) 21) (mt_origin h) primaryKey (mt_originURL domain r) reqHeader
                     (ev_joined (me_env ev)) in
  mtFetchAndServe_fetched ev (mt_with_origin o h) w r domain primaryKey rules res.

Definition mtServeByteRange_fetched (ev : mt_env) (h : MultiTenantCDN) (w : W) (r : Request) (domain : Domain)
    (rangeHeader primaryKey : string) (rules : list CacheRule) (res : result) : MultiTenantCDN * W :=
  let hostname := stripPort (r_Host r) in
  let ev := me_env ev in
  match res with
  | inl _ => (h, http_Error "Bad Gateway" 502 w)
  | inr resp =>
      let '(ttl, swr) := mtDetermineTTL h (rs_Header resp) domain rules (r_Path r) in
      if cacheable ttl (rs_StatusCode resp) then
        let vary := Header_Get (rs_Header resp) "Vary" in
        let cacheKey := NormalizeKey hostname (r_Path r) (r_RawQuery r) vary (r_Header r) in
        let entry := response_entry (ev_now ev 40) resp ttl swr cacheKey in
        let '(c, entry) := put_both (ev_now ev 41) (ev_now ev 42) (mt_cache h) primaryKey cacheKey entry in
        let h := mt_with_cache c h in
        match parseRange rangeHeader (str_len (e_Body entry)) with
        | None => (h, serveEntry (ev_now ev 43) w entry "MISS")
        | Some (s, e) => (h, serveRange w entry s e)
        end
      else (h, serveResponse w resp "BYPASS")
  end.

Definition mtServeByteRange (ev : mt_env) (h : MultiTenantCDN) (w : W) (r : Request) (domain : Domain)
    (rangeHeader : string) : MultiTenantCDN * W :=
  let hostname := stripPort (r_Host r) in
  let primaryKey := NormalizeKey hostname (r_Path r) (r_RawQuery r) "" ∅ in
  let '(c, entry) := Get (after 0 (me_env ev)) (mt_cache h) primaryKey in
  let h := mt_with_cache c h in
  match entry with
  | Some entry =>
      match parseRange rangeHeader (str_len (e_Body entry)) with
      | None => mtProxyPassthrough ev h w r domain
      | Some (s, e) => (h, serveRange w entry s e)
      end
  | None =>
      let cleanHeader := set_host domain (Header_Del (r_Header r) "Range") in
      let rules := lookupRules (me_config ev 2) (d_ID domain) in
      let '(o, res) := Fetch (ev_now (me_env ev) 20) (ev_now (me_env ev) 21) (mt_origin h) primaryKey (mt_originURL domain r) cleanHeader
                         (ev_joined (me_env ev)) in
      mtServeByteRange_fetched ev (mt_with_origin o h) w r domain rangeHeader primaryKey rules res
  end.

(** The two-step lookup: unlike the single-tenant handler, [Vary: *] is a hit. *)
Definition mt_lookup (ev : mt_env) (c : Cache) (r : Request) (primaryKey : string) : Cache * option Entry :=
  let '(c, entry) := Get (after 0 (me_env ev)) c primaryKey in
  match entry with
  | None => (c, None)
  | Some entry =>
      let vary := Header_Get (Entry_GetHeader entry) "Vary" in
      if negb (String.eqb vary "") && negb (String.eqb vary "*") then
        let varyKey := NormalizeKey (stripPort (r_Host r)) (r_Path r) (r_RawQuery r) vary (r_Header r) in
        if negb (String.eqb varyKey primaryKey) then Get (after 5 (me_env ev)) c varyKey else (c, Some entry)
      else (c, Some entry)
  end.

Definition mt_serve_cached (ev : mt_env) (w : W) (r : Request) (entry : Entry) : W :=
  let ev := me_env ev in
  if Entry_IsExpired (ev_now ev 10) entry && Entry_IsStaleServable (ev_now ev 11) entry then
    serveEntry (ev_now ev 12) w entry "STALE"
  else
    let etag := Header_Get (r_Header r) "If-None-Match" in
    if negb (String.eqb etag "") && String.eqb etag (e_ETag entry) then not_modified "ETag" (e_ETag entry) w
    else serveEntry (ev_now ev 12) w entry "HIT".

(** Whether a rule for the path says to bypass the cache. *)
Definition bypassed (urlPath : string) (rules : list CacheRule) : bool :=
  existsb (fun rule => matchGlob urlPath (cr_PathGlob rule) && cr_Bypass rule) rules.

Definition mt_ServeHTTP (ev : mt_env) (h : MultiTenantCDN) (w : W) (r : Request) : MultiTenantCDN * W :=
  if negb (String.eqb (r_Method r) "GET") && negb (String.eqb (r_Method r) "HEAD") then
    (h, http_Error "Method Not Allowed" 405 (w_set_header (Header_Set (w_header w) "Allow" "GET, HEAD") w))
  else if negb (mtIsValidPath (r_Path r)) then (h, http_Error "Bad Request" 400 w)
  else
    let hostname := stripPort (r_Host r) in
    if String.eqb hostname "" then (h, http_Error "Bad Request: missing Host" 400 w)
    else
      match lookupDomain (me_config ev 0) hostname with
      | None => (h, http_Error "Unknown domain" 403 w)
      | Some domain =>
          if negb (d_Active domain) then (h, http_Error "Domain inactive" 403 w)
          else
            let rangeHeader := Header_Get (r_Header r) "Range" in
            if negb (String.eqb rangeHeader "") then mtServeByteRange ev h w r domain rangeHeader
            else
              let primaryKey := NormalizeKey hostname (r_Path r) (r_RawQuery r) "" ∅ in
              let rules := lookupRules (me_config ev 1) (d_ID domain) in
              if bypassed (r_Path r) rules then mtProxyPassthrough ev h w r domain
              else
                let '(p, likely) := match mt_predictor h with
                                    | Some p => let '(p, b) := IsLikelyUncacheable p primaryKey in (Some p, b)
                                    | None => (None, false)
                                    end in
                let h := EnablePredictor h p in
                if likely then mtFetchAndServe ev h w r domain primaryKey rules
                else if hasCacheDirective (Header_Get (r_Header r) "Cache-Control") "no-cache" then
                  mtFetchAndServe ev h w r domain primaryKey rules
                else
                  let '(c, entry) := mt_lookup ev (mt_cache h) r primaryKey in
                  let h := mt_with_cache c h in
                  match entry with
                  | Some entry => (h, mt_serve_cached ev w r entry)
                  | None => mtFetchAndServe ev h w r domain primaryKey rules
                  end
      end.

End handler.

(** ** Lemmas *)

Section lemmas.
Context `{Hash64} `{HeaderCodec} `{!HeaderCodecLaws} `{DiskWorld} `{Unicode} `{HttpClient}.
Context {W : Type} `{Writer W}.
Implicit Types w : W.

(** The key starts with the host, in lower case, and the path's slash. *)
Lemma NormalizeKey_host host path query vary hdr rest :
  is_ascii host = true -> path = String "/" rest ->
  exists rest', NormalizeKey host path query vary hdr = lower_ascii host +:+ String "/" rest'.
Proof.
  intros Ha ->. assert (Hl : (if isLowerASCII host then host else write_lower "" host) = lower_ascii host).
  { rewrite write_lower_eq. unfold isLowerASCII. destruct (str_forall _ _) eqn:E; [| done]. by rewrite lower_ascii_id. }
  destruct (String.eqb_spec vary "") as [-> | Hv].
  - rewrite NormalizeKey_base by done. unfold base_key. cbn [String.append]. eauto.
  - unfold NormalizeKey. apply String.eqb_neq in Hv. rewrite Hv, andb_false_r, Hl.
    assert (Hw : forall vs sb b, exists t, write_vary sb b hdr vs = sb +:+ t).
    { induction vs as [| v vs IH]; intros sb b; cbn [write_vary]; [exists ""%string; by rewrite str_app_nil_r |].
      destruct (IH ((if b then sb else sb +:+ "&") +:+ v +:+ "=" +:+ Header_Get hdr v) false) as [t ->].
      destruct b; rewrite ?str_app_assoc; eauto. }
    assert (Hq : exists t, (if negb (String.eqb query "") then writeSortedQuery ((lower_ascii host +:+ String "/" rest) +:+ "?") query
                            else lower_ascii host +:+ String "/" rest) = lower_ascii host +:+ String "/" t).
    { destruct (negb _); [| eauto]. rewrite writeSortedQuery_eq, !str_app_assoc. cbn [String.append]. eauto. }
    destruct Hq as [t ->]. destruct (0 <? _); [| eauto].
    destruct (Hw (parseVary vary) ((lower_ascii host +:+ String "/" t) +:+ "|vary:") true) as [t' ->].
    rewrite !str_app_assoc. cbn [String.append]. eauto.
Qed.

Lemma slash_path p : HasPrefix p "/" = true -> exists t, p = String "/" t.
Proof.
  destruct p as [| b p]; cbn; [done |]. rewrite HasPrefix_nil, andb_true_r. intros Hb.
  destruct (Ascii.eqb_spec b "/") as [-> |]; [eauto |]. destruct (Ascii.eqb_spec "/" b); [subst; eauto | done].
Qed.

Lemma same_key_same_host host host' path path' q q' v v' hdr hdr' :
  is_ascii host = true -> is_ascii host' = true -> no_byte "/" host = true -> no_byte "/" host' = true ->
  HasPrefix path "/" = true -> HasPrefix path' "/" = true ->
  NormalizeKey host path q v hdr = NormalizeKey host' path' q' v' hdr' -> lower_ascii host = lower_ascii host'.
Proof.
  intros Ha Ha' Hn Hn' Hp Hp' E.
  destruct (slash_path path Hp) as [t Ht], (slash_path path' Hp') as [t' Ht'].
  destruct (NormalizeKey_host host path q v hdr t Ha Ht) as [u Eu].
  destruct (NormalizeKey_host host' path' q' v' hdr' t' Ha' Ht') as [u' Eu'].
  rewrite Eu, Eu' in E. apply (f_equal (cut_byte "/")) in E.
  rewrite !cut_byte_app in E by (by apply no_byte_lower). by injection E.
Qed.

Definition mt_accepted (ev : mt_env) (r : Request) (domain : Domain) : Prop :=
  (r_Method r = "GET"%string \/ r_Method r = "HEAD"%string) /\ mtIsValidPath (r_Path r) = true /\
  stripPort (r_Host r) <> ""%string /\ lookupDomain (me_config ev 0) (stripPort (r_Host r)) = Some domain /\
  d_Active domain = true.

(** Either the guards answer, or the request is accepted for a domain. *)
Lemma mt_ServeHTTP_guards ev h w r :
  (exists set msg code, mt_ServeHTTP ev h w r = (h, http_Error msg code (run_ops (option_list (OpHeader <$> set)) w)) /\ code ∈ [405; 400; 403])
  \/ exists domain, mt_accepted ev r domain.
Proof.
  unfold mt_ServeHTTP, mt_accepted. destruct (String.eqb_spec (r_Method r) "GET"), (String.eqb_spec (r_Method r) "HEAD");
    cbn [negb andb]; try (left; eexists (Some _), _, _; split; [done | set_solver]);
    (destruct (mtIsValidPath (r_Path r)); cbn [negb]; [| left; eexists None, _, _; split; [done | set_solver]];
     destruct (String.eqb_spec (stripPort (r_Host r)) ""); [left; eexists None, _, _; split; [done | set_solver] |];
     destruct (lookupDomain _ _) as [d |]; [| left; eexists None, _, _; split; [done | set_solver]];
     destruct (d_Active d) eqn:Ed; cbn [negb]; [| left; eexists None, _, _; split; [done | set_solver]];
     right; exists d; split_and!; auto).
Qed.

Lemma mt_accepted_guards ev r domain : mt_accepted ev r domain ->
  negb (String.eqb (r_Method r) "GET") && negb (String.eqb (r_Method r) "HEAD") = false /\
  negb (mtIsValidPath (r_Path r)) = false /\ String.eqb (stripPort (r_Host r)) "" = false /\
  lookupDomain (me_config ev 0) (stripPort (r_Host r)) = Some domain /\ negb (d_Active domain) = false.
Proof.
  intros (Hm & -> & Hh & -> & ->). split_and!; try done; [| by apply String.eqb_neq].
  destruct Hm as [-> | ->]; done.
Qed.

End lemmas.

(** ** What the handler guarantees *)

Section theorems.
Context `{Hash64} `{HeaderCodec} `{!HeaderCodecLaws} `{DiskWorld} `{Unicode} `{HttpClient}.

(** A request for an unknown or inactive host, or with a bad method, path or host, is
    answered with an error and changes nothing; an accepted one belongs to an active
    domain registered under exactly the host of the request without its port. *)
Theorem mt_guards ev h r :
  (forall domain, ~ mt_accepted ev r domain) ->
  (mt_ServeHTTP ev h new_writer r).1 = h /\ w_status (mt_ServeHTTP ev h new_writer r).2 ∈ [405; 400; 403].
Proof.
  intros Hno. destruct (mt_ServeHTTP_guards ev h new_writer r) as [(f & msg & code & -> & Hc) | (d & Ha)]; [| by destruct (Hno d)].
  split; [done |]. cbn [snd]. destruct (http_Error_sends msg code (run_ops (option_list (OpHeader <$> f)) new_writer)) as [-> _]; [by destruct f | set_solver | done].
Qed.

Lemma rule_ttl_app path l l' :
  rule_ttl path (l ++ l') = match rule_ttl path l with Some t => Some t | None => rule_ttl path l' end.
Proof. induction l as [| x l IH]; cbn; [done |]. by destruct (_ && _). Qed.

(** A rule with [ttl_sec] 0 ("don't cache") or negative ("use domain default") has no
    effect at all on the lifetime: later rules and defaults apply as if it were not there. *)
Theorem rule_without_ttl_ignored h hdr domain rules rules' rule urlPath :
  cr_TTLSec rule <= 0 ->
  mtDetermineTTL h hdr domain (rules ++ rule :: rules') urlPath
  = mtDetermineTTL h hdr domain (rules ++ rules') urlPath.
Proof.
  intros Ht. unfold mtDetermineTTL. rewrite !rule_ttl_app. cbn [rule_ttl].
  by rewrite (proj2 (Z.ltb_ge 0 (cr_TTLSec rule)) Ht), andb_false_r.
Qed.

(** Passthrough requests are coalesced by their path and query alone: while tenant A's
    bypassed request is under way, the same path requested from tenant B gets A's answer,
    whatever B's origin is. *)
Theorem passthrough_crosses_tenants now o o1 f ev h {W} `{Writer W} (w : W) rA rB domainB respA :
  Fetch_enter now o ("passthrough:" +:+ r_RequestURI rA) = (o1, Some (inr f)) ->
  r_RequestURI rB = r_RequestURI rA ->
  mt_origin h = o1 -> (Allow (ev_now (me_env ev) 20) (og_cb o1)).2 = true ->
  ev_joined (me_env ev) = inr respA ->
  (mtProxyPassthrough ev h w rB domainB).2 = serveResponse w respA "BYPASS".
Proof.
  intros He Hu Ho Ha Hj. unfold mtProxyPassthrough, mtProxyPassthrough_fetched, Fetch. rewrite Ho, Hu.
  assert (Hfl : og_flights o1 !! ("passthrough:" +:+ r_RequestURI rA) = Some f).
  { unfold Fetch_enter in He. destruct (Allow now (og_cb o)) as [cb ok]. destruct (negb ok); [done |].
    destruct (og_flights o !! _) as [f' |]; [done |]. injection He as <- <-. apply lookup_insert_eq. }
  unfold Fetch_enter. destruct (Allow _ (og_cb o1)) as [cb ok]. cbn in Ha. subst ok. cbn [negb].
  rewrite Hfl, Hj. done.
Qed.

(** An entry marked [Vary: *], which no later request matches, is served from the
    cache: the multi-tenant lookup leaves it in place where [ServeHTTP] of [Handler.v]
    fetches again. *)
Theorem mt_serves_vary_star ev h r domain e :
  mt_accepted ev r domain -> Header_Get (r_Header r) "Range" = ""%string ->
  bypassed (r_Path r) (lookupRules (me_config ev 1) (d_ID domain)) = false ->
  hasCacheDirective (Header_Get (r_Header r) "Cache-Control") "no-cache" = false ->
  Header_Get (r_Header r) "If-None-Match" = ""%string -> mt_predictor h = None ->
  (Get (after 0 (me_env ev)) (mt_cache h) (NormalizeKey (stripPort (r_Host r)) (r_Path r) (r_RawQuery r) "" ∅)).2 = Some e ->
  Header_Get (Entry_GetHeader e) "Vary" = "*"%string -> Entry_IsExpired (ev_now (me_env ev) 10) e = false ->
  e_StatusCode e <> 0 ->
  let out := mt_ServeHTTP ev h new_writer r in
  w_body out.2 = e_Body e /\ w_status out.2 = e_StatusCode e /\ mt_origin out.1 = mt_origin h.
Proof.
  intros Hacc Hr Hb Hcc Hinm Hp Hg Hv He Hs. destruct (mt_accepted_guards ev r domain Hacc) as (Hm & Hvp & Hh & Hd & Hact).
  cbv zeta. unfold mt_ServeHTTP. rewrite Hm, Hvp, Hh, Hd, Hact, Hr, Hb, Hp, Hcc. cbn [String.eqb negb].
  unfold mt_lookup. cbn [EnablePredictor mt_cache]. destruct (Get _ _ _) as [c f]. cbn in Hg. subst f.
  rewrite Hv. change (negb (String.eqb "*" "") && negb (String.eqb "*" "*")) with false. cbn iota. cbn [fst snd].
  unfold mt_serve_cached. rewrite He, Hinm. cbn [andb String.eqb negb].
  destruct (serveEntry_sends (ev_now (me_env ev) 12) new_writer e "HIT" (conj eq_refl eq_refl) Hs) as (E1 & E2 & _).
  split_and!; [exact E2 | exact E1 | done].
Qed.

End theorems.

(** ** Configuration updates *)

Section config.
Context `{ConfigJson}.

Inductive config_event :=
  | CPush (method : string) (body : option string)
  | CPoll (resp : option (Z * option string)).

Definition config_step (p : ConfigPoller) (e : config_event) : ConfigPoller :=
  match e with
  | CPush method body =>
      {| cp_handler := (HandleConfigPush (cp_handler p) new_writer method body).1; cp_lastVersion := cp_lastVersion p |}
  | CPoll resp => poll p resp
  end.

Definition version_of (p : ConfigPoller) : option Z := ec_Version <$> mt_config (cp_handler p).

(** The configuration a poll brings, if any. *)
Definition polled (resp : option (Z * option string)) : option EdgeConfig :=
  '(status, body) ← resp; body ← body;
  if status =? 200 then Unmarshal_EdgeConfig (take_bytes (Z.to_nat (Z.shiftl 10 20)) body) else None.

Lemma poll_polled p resp :
  poll p resp = match polled resp with
                | Some cfg => if cp_lastVersion p <? ec_Version cfg
                              then {| cp_handler := UpdateConfig (cp_handler p) cfg; cp_lastVersion := ec_Version cfg |} else p
                | None => p
                end.
Proof.
  unfold poll, polled. destruct resp as [[status [body |]] |]; cbn; [| by destruct (negb _) | done].
  by destruct (status =? 200); cbn; [destruct (Unmarshal_EdgeConfig _) |].
Qed.

(** With polls alone the last version is the greatest one polled so far and is the
    version in force; a push is applied whatever its version, and a pushed old
    configuration stays in force as long as the polls bring no version above those
    polled before: polling what was already polled does not repair it. *)
Theorem config_versions p resps :
  (let p' := foldl poll p resps in
   cp_lastVersion p' = foldl (fun v resp => match polled resp with Some cfg => Z.max v (ec_Version cfg) | None => v end)
                         (cp_lastVersion p) resps /\
   (version_of p' = Some (cp_lastVersion p') \/ p' = p)) /\
  (forall body old, Unmarshal_EdgeConfig (take_bytes (Z.to_nat (Z.shiftl 10 20)) body) = Some old ->
     (forall resp cfg, resp ∈ resps -> polled resp = Some cfg -> ec_Version cfg <= cp_lastVersion p) ->
     mt_config (cp_handler (foldl config_step p (CPush "POST" (Some body) :: map CPoll resps))) = Some old).
Proof.
  split.
  - cbv zeta. assert (Hg : forall q, version_of q = Some (cp_lastVersion q) \/ q = p ->
      cp_lastVersion (foldl poll q resps) = foldl (fun v resp => match polled resp with Some cfg => Z.max v (ec_Version cfg) | None => v end)
                         (cp_lastVersion q) resps /\
      (version_of (foldl poll q resps) = Some (cp_lastVersion (foldl poll q resps)) \/ foldl poll q resps = p)).
    { induction resps as [| resp resps IH]; intros q Hq; cbn [foldl]; [done |].
      rewrite poll_polled. destruct (polled resp) as [cfg |]; [| by apply IH].
      destruct (Z.ltb_spec (cp_lastVersion q) (ec_Version cfg)) as [Hlt | Hge].
      - destruct (IH {| cp_handler := UpdateConfig (cp_handler q) cfg; cp_lastVersion := ec_Version cfg |}) as [-> Hv]; [by left |].
        split; [| done]. cbn [cp_lastVersion]. by rewrite Z.max_r by lia.
      - destruct (IH q Hq) as [-> Hv]. split; [| done]. by rewrite Z.max_l by lia. }
    apply Hg. by right.
  - intros body old Ho Hle. cbn [foldl].
    assert (Hpush : config_step p (CPush "POST" (Some body))
      = {| cp_handler := UpdateConfig (cp_handler p) old; cp_lastVersion := cp_lastVersion p |}).
    { unfold config_step, HandleConfigPush. cbn [String.eqb negb]. cbn. by rewrite Ho. }
    rewrite Hpush. set (q := {| cp_handler := _; cp_lastVersion := _ |}).
    assert (Hq : mt_config (cp_handler q) = Some old /\ cp_lastVersion q = cp_lastVersion p) by done.
    clearbody q. clear Hpush. induction resps as [| resp resps IH]; cbn [map foldl]; [by apply Hq |].
    assert (Hstep : config_step q (CPoll resp) = q).
    { cbn [config_step]. rewrite poll_polled. destruct (polled resp) as [cfg |] eqn:Ep; [| done].
      destruct Hq as [_ ->]. rewrite (proj2 (Z.ltb_ge _ _)); [done |]. by apply (Hle resp cfg ltac:(left)). }
    rewrite Hstep. apply IH. intros resp' cfg Hin. apply Hle. by right.
Qed.

End config.

(** ** Concrete tenants *)

#[local] Existing Instances poly_hash64 bits_codec bits_codec_laws plain_disk ascii_unicode echo_client.

Definition dom_a : Domain := sample_domain "1" "t1" "a.com" "http://origin-a/".
Definition dom_b : Domain := sample_domain "2" "t2" "b.com" "http://origin-b".
Definition two_tenants (version : Z) : EdgeConfig :=
  {| ec_Version := version; ec_Timestamp := 0; ec_Domains := {["a.com" := dom_a; "b.com" := dom_b]}; ec_Rules := ∅ |}.
Definition mt_at (t : Z) : mt_env :=
  {| me_env := {| ev_now _ := t; ev_acquired := None; ev_joined := inl ErrCtx |}; me_config _ := Some (two_tenants 1) |}.
Definition mt_get (host path : string) : Request :=
  {| r_Method := "GET"; r_Host := host; r_Path := path; r_RawQuery := ""; r_RequestURI := path; r_Header := ∅ |}.
Definition tiny_mt : MultiTenantCDN := NewMultiTenant tiny_cache (NewOrigin 0 "") (60 * Second).

Lemma mt_guards_witness : (mt_ServeHTTP (mt_at 0) tiny_mt new_writer (mt_get "c.com" "/x")).1 = tiny_mt.
Proof.
  apply (mt_guards (mt_at 0) tiny_mt (mt_get "c.com" "/x")). intros d (_ & _ & _ & Hd & _). discriminate Hd.
Defined.

Definition no_cache_rule : CacheRule := {| cr_ID := "r"; cr_DomainID := "1"; cr_PathGlob := "/api/*"; cr_TTLSec := 0; cr_Bypass := false |}.

(** A rule that says not to cache leaves the domain's five minutes in force. *)
Lemma rule_without_ttl_ignored_witness :
  mtDetermineTTL tiny_mt ∅ dom_a [no_cache_rule] "/api/login" = mtDetermineTTL tiny_mt ∅ dom_a [] "/api/login" /\
  mtDetermineTTL tiny_mt ∅ dom_a [] "/api/login" = (300 * Second, 0).
Proof.
  split; [apply (rule_without_ttl_ignored tiny_mt ∅ dom_a [] [] no_cache_rule "/api/login"); cbn; lia | vm_compute; reflexivity].
Defined.

Definition answer_of_a : Response :=
  {| rs_StatusCode := 200; rs_Header := ∅; rs_Body := "http://origin-a/me" |}.
Definition joining_a : mt_env :=
  {| me_env := {| ev_now _ := 0; ev_acquired := None; ev_joined := inr answer_of_a |}; me_config _ := Some (two_tenants 1) |}.

Lemma passthrough_crosses_tenants_witness :
  (mtProxyPassthrough joining_a
     {| mt_config := None; mt_cache := tiny_cache; mt_origin := (Fetch_enter 0 (NewOrigin 0 "") "passthrough:/me").1;
        mt_defaultTTL := 0; mt_predictor := None |} new_writer (mt_get "b.com" "/me") dom_b).2
  = serveResponse new_writer answer_of_a "BYPASS".
Proof.
  apply (passthrough_crosses_tenants 0 (NewOrigin 0 "") (Fetch_enter 0 (NewOrigin 0 "") "passthrough:/me").1 0 joining_a
    _ new_writer (mt_get "a.com" "/me") (mt_get "b.com" "/me") dom_b answer_of_a); vm_compute; reflexivity.
Defined.

Lemma mt_serves_vary_star_witness :
  w_body (mt_ServeHTTP (mt_at Second) (mt_with_cache (Put 0 tiny_cache "a.com/x" (old_entry "*")).1 tiny_mt) new_writer (mt_get "a.com" "/x")).2
  = "old body".
Proof.
  apply (mt_serves_vary_star (mt_at Second) (mt_with_cache (Put 0 tiny_cache "a.com/x" (old_entry "*")).1 tiny_mt)
    (mt_get "a.com" "/x") dom_a (stored_form tiny_cache (old_entry "*"))).
  1: { split_and!; [by left | vm_compute; reflexivity | vm_compute; discriminate | vm_compute; reflexivity | reflexivity]. }
  all: (vm_compute; reflexivity) || (vm_compute; discriminate).
Defined.

(** The JSON of a configuration is its version. *)
#[local] Instance version_json : ConfigJson := {| Unmarshal_EdgeConfig s := two_tenants <$> Atoi s |}.

Lemma config_versions_witness :
  version_of (foldl config_step {| cp_handler := UpdateConfig tiny_mt (two_tenants 7); cp_lastVersion := 7 |}
    [CPush "POST" (Some "3"); CPoll (Some (200, Some "7")); CPoll (Some (200, Some "6"))]) = Some 3.
Proof.
  unfold version_of.
  rewrite (proj2 (config_versions {| cp_handler := UpdateConfig tiny_mt (two_tenants 7); cp_lastVersion := 7 |}
    [Some (200, Some "7"); Some (200, Some "6")]) "3" (two_tenants 3)); [reflexivity | vm_compute; reflexivity |].
  intros resp cfg [-> | [-> | []%not_elem_of_nil]%elem_of_cons]%elem_of_cons; vm_compute; by intros [= <-].
Defined.
