(* ===== verification/Flights.v ===== *)
(** * Requests that run at the same time ([handler/multitenant.go], [proxy/origin.go])

    [mt_ServeHTTP] of [MultiTenant.v] runs a request in one go and is told what a flight it
    joins gave. Here the flights are those of the other requests: a request runs up to its
    call of [Fetch] ([mt_begin]), goes through the flight group step by step as in
    [Origin.v], and does the rest with what it got ([mt_finish]); the steps of different
    requests interleave at will. [mt_ServeHTTP_begin] says that the two parts, with [Fetch]
    in between, are the handler. The theorem: whatever the interleaving, and whoever joined
    whose flight, what the cache holds for a host comes from the origin of that host. *)

From S2P Require Import Prelude GoStrings CacheKey TinyLFU Entry Shard Disk Cache Contents Predictor Stampede Streaming Http CacheControl Range Paths Circuit Origin Handler Tenant MultiTenant.

Local Open Scope Z_scope.
Local Open Scope go_scope.

(** ** A request in two parts *)

(** What is done with the answer: [mtProxyPassthrough], [mtFetchAndServe] with its key and
    rules, or [mtServeByteRange] with its range and key. *)
Inductive fetching :=
  | FPassthrough
  | FServe (primaryKey : string) (rules : list CacheRule)
  | FRange (rangeHeader primaryKey : string).

Record mt_call := { ca_ev : mt_env; ca_r : Request; ca_domain : Domain; ca_kind : fetching }.

(** The arguments of the call of [Fetch]. *)
Definition ca_key (c : mt_call) : string :=
  match ca_kind c with
  | FPassthrough => "passthrough:" +:+ r_RequestURI (ca_r c)
  | FServe primaryKey _ | FRange _ primaryKey => primaryKey
  end.

Definition ca_url (c : mt_call) : string := mt_originURL (ca_domain c) (ca_r c).

Definition ca_header (c : mt_call) : Header :=
  match ca_kind c with
  | FPassthrough => r_Header (ca_r c)
  | FServe _ _ => set_host (ca_domain c) (r_Header (ca_r c))
  | FRange _ _ => set_host (ca_domain c) (Header_Del (r_Header (ca_r c)) "Range")
  end.

Section handler.
Context `{Hash64} `{HeaderCodec} `{DiskWorld} `{Unicode} `{HttpClient}.
Context {W : Type} `{Writer W}.

(** [ServeHTTP] up to its call of [Fetch], or to its end when it makes none. *)
Definition mt_begin (ev : mt_env) (h : MultiTenantCDN) (w : W) (r : Request) : MultiTenantCDN * (W + mt_call) :=
  if negb (String.eqb (r_Method r) "GET") && negb (String.eqb (r_Method r) "HEAD") then
    (h, inl (http_Error "Method Not Allowed" 405 (w_set_header (Header_Set (w_header w) "Allow" "GET, HEAD") w)))
  else if negb (mtIsValidPath (r_Path r)) then (h, inl (http_Error "Bad Request" 400 w))
  else
    let hostname := stripPort (r_Host r) in
    if String.eqb hostname "" then (h, inl (http_Error "Bad Request: missing Host" 400 w))
    else
      match lookupDomain (me_config ev 0) hostname with
      | None => (h, inl (http_Error "Unknown domain" 403 w))
      | Some domain =>
          if negb (d_Active domain) then (h, inl (http_Error "Domain inactive" 403 w))
          else
            let call kind := inr {| ca_ev := ev; ca_r := r; ca_domain := domain; ca_kind := kind |} in
            let primaryKey := NormalizeKey hostname (r_Path r) (r_RawQuery r) "" ∅ in
            let rangeHeader := Header_Get (r_Header r) "Range" in
            if negb (String.eqb rangeHeader "") then
              let '(c, entry) := Get (after 0 (me_env ev)) (mt_cache h) primaryKey in
              let h := mt_with_cache c h in
              match entry with
              | Some entry =>
                  match parseRange rangeHeader (str_len (e_Body entry)) with
                  | None => (h, call FPassthrough)
                  | Some (s, e) => (h, inl (serveRange w entry s e))
                  end
              | None => (h, call (FRange rangeHeader primaryKey))
              end
            else
              let rules := lookupRules (me_config ev 1) (d_ID domain) in
              if bypassed (r_Path r) rules then (h, call FPassthrough)
              else
                let '(p, likely) := match mt_predictor h with
                                    | Some p => let '(p, b) := IsLikelyUncacheable p primaryKey in (Some p, b)
                                    | None => (None, false)
                                    end in
                let h := EnablePredictor h p in
                if likely then (h, call (FServe primaryKey rules))
                else if hasCacheDirective (Header_Get (r_Header r) "Cache-Control") "no-cache" then
                  (h, call (FServe primaryKey rules))
                else
                  let '(c, entry) := mt_lookup ev (mt_cache h) r primaryKey in
                  let h := mt_with_cache c h in
                  match entry with
                  | Some entry => (h, inl (mt_serve_cached ev w r entry))
                  | None => (h, call (FServe primaryKey rules))
                  end
      end.

(** The rest, with what [Fetch] returned. *)
Definition mt_finish (c : mt_call) (h : MultiTenantCDN) (w : W) (res : result) : MultiTenantCDN * W :=
  match ca_kind c with
  | FPassthrough => mtProxyPassthrough_fetched h w res
  | FServe primaryKey rules => mtFetchAndServe_fetched (ca_ev c) h w (ca_r c) (ca_domain c) primaryKey rules res
  | FRange rangeHeader primaryKey =>
      mtServeByteRange_fetched (ca_ev c) h w (ca_r c) (ca_domain c) rangeHeader primaryKey
        (lookupRules (me_config (ca_ev c) 2) (d_ID (ca_domain c))) res
  end.

Definition mt_fetch (c : mt_call) (h : MultiTenantCDN) (w : W) : MultiTenantCDN * W :=
  let ev := me_env (ca_ev c) in
  let '(o, res) := Fetch (ev_now ev 20) (ev_now ev 21) (mt_origin h) (ca_key c) (ca_url c) (ca_header c) (ev_joined ev) in
  mt_finish c (mt_with_origin o h) w res.

(** Run without a pause, the parts are the handler. *)
Lemma mt_ServeHTTP_begin ev h (w : W) r :
  mt_ServeHTTP ev h w r =
    match mt_begin ev h w r with
    | (h, inl w) => (h, w)
    | (h, inr c) => mt_fetch c h w
    end.
Proof.
  unfold mt_ServeHTTP, mt_begin. destruct (negb _ && negb _); [done |]. destruct (negb (mtIsValidPath _)); [done |].
  destruct (String.eqb (stripPort _) ""); [done |]. destruct (lookupDomain _ _) as [d |]; [| done]. destruct (negb (d_Active d)); [done |].
  destruct (negb (String.eqb _ "")).
  { unfold mtServeByteRange. destruct (Get _ _ _) as [c [e |]]; [destruct (parseRange _ _) as [[s e'] |]; done | done]. }
  destruct (bypassed _ _); [done |].
  destruct (match mt_predictor h with Some p => _ | None => _ end) as [p likely].
  destruct likely; [done |]. destruct (hasCacheDirective _ "no-cache"); [done |].
  by destruct (mt_lookup _ _ _ _) as [c [e |]].
Qed.

End handler.

(** ** The machine *)

Section machine.
Context `{Hash64} `{HeaderCodec} `{DiskWorld} `{Unicode} `{HttpClient}.

(** The handler, and for each goroutine its request once it fetches, where it is in
    [Fetch], and its answer; [ms_keys] is [os_key] of [Origin.v]. *)
Record mt_sys := {
  ms_h : MultiTenantCDN;
  ms_calls : gmap nat mt_call;
  ms_gs : gmap nat opc;
  ms_keys : gmap nat string;
  ms_answers : gmap nat ResponseWriter
}.

Inductive mt_move :=
  | MArrive (g : nat) (ev : mt_env) (r : Request)   (* up to the call of [Fetch] *)
  | MEnter (g : nat) (now : Z)                      (* the breaker and the flight's map *)
  | MRecord (g : nat) (now : Z)                     (* [doFetch], and its result recorded *)
  | MClose (g : nat)
  | MDelete (g : nat)
  | MWake (g : nat)                                 (* a waiting call sees the flight done *)
  | MGiveUp (g : nat) (e : fetch_err)                  (* its context ends or the wait is too long *)
  | MFinish (g : nat).

Definition mt_sys_start (h : MultiTenantCDN) : mt_sys :=
  {| ms_h := h; ms_calls := ∅; ms_gs := ∅; ms_keys := ∅; ms_answers := ∅ |}.

(** The origin client as [Origin.v] sees it. *)
Definition ms_origin (s : mt_sys) : osys := {| os_o := mt_origin (ms_h s); os_gs := ms_gs s; os_key := ms_keys s |}.

Definition ms_with_origin (s : mt_sys) (o : Origin) (g : nat) (pc : opc) (keys : gmap nat string) : mt_sys :=
  {| ms_h := mt_with_origin o (ms_h s); ms_calls := ms_calls s; ms_gs := <[g := pc]> (ms_gs s);
     ms_keys := keys; ms_answers := ms_answers s |}.

(** [None] is a move that the goroutine is not in a position to make. *)
Definition mt_move_step (s : mt_sys) (m : mt_move) : option mt_sys :=
  let h := ms_h s in let o := mt_origin h in
  match m with
  | MArrive g ev r =>
      match ms_calls s !! g, ms_answers s !! g with
      | None, None =>
          let '(h, x) := mt_begin ev h new_writer r in
          match x with
          | inl w => Some {| ms_h := h; ms_calls := ms_calls s; ms_gs := ms_gs s; ms_keys := ms_keys s;
                             ms_answers := <[g := w]> (ms_answers s) |}
          | inr c => Some {| ms_h := h; ms_calls := <[g := c]> (ms_calls s); ms_gs := ms_gs s; ms_keys := ms_keys s;
                             ms_answers := ms_answers s |}
          end
      | _, _ => None
      end
  | MEnter g now =>
      match ms_calls s !! g, ms_gs s !! g with
      | Some c, None =>
          match Fetch_enter now o (ca_key c) with
          | (o, None) => Some (ms_with_origin s o g (OReturned (ca_key c) None (inl ErrCircuitOpen)) (ms_keys s))
          | (o, Some (inl f)) => Some (ms_with_origin s o g (OWait (ca_key c) f) (ms_keys s))
          | (o, Some (inr f)) => Some (ms_with_origin s o g (OLead (ca_key c) f) (<[f := ca_key c]> (ms_keys s)))
          end
      | _, _ => None
      end
  | MRecord g now =>
      match ms_calls s !! g, ms_gs s !! g with
      | Some c, Some (OLead key f) =>
          let res := doFetch o (ca_url c) (ca_header c) in
          Some (ms_with_origin s (Fetch_record now o f res) g (ORecorded key f res) (ms_keys s))
      | _, _ => None
      end
  | MClose g =>
      match ms_gs s !! g with
      | Some (ORecorded key f res) => Some (ms_with_origin s (Fetch_close o f) g (OClosed key f res) (ms_keys s))
      | _ => None
      end
  | MDelete g =>
      match ms_gs s !! g with
      | Some (OClosed key f res) => Some (ms_with_origin s (Fetch_delete o key) g (OReturned key (Some f) res) (ms_keys s))
      | _ => None
      end
  | MWake g =>
      match ms_gs s !! g with
      | Some (OWait key f) =>
          match og_heap o !! f with
          | Some {| fl_done := true; fl_res := Some res |} => Some (ms_with_origin s o g (OReturned key (Some f) res) (ms_keys s))
          | _ => None
          end
      | _ => None
      end
  | MGiveUp g e =>
      match ms_gs s !! g, e with
      | Some (OWait key f), (ErrCtx | ErrCoalesceTimeout) => Some (ms_with_origin s o g (OReturned key None (inl e)) (ms_keys s))
      | _, _ => None
      end
  | MFinish g =>
      match ms_calls s !! g, ms_gs s !! g, ms_answers s !! g with
      | Some c, Some (OReturned _ _ res), None =>
          let '(h, w) := mt_finish c h new_writer res in
          Some {| ms_h := h; ms_calls := ms_calls s; ms_gs := ms_gs s; ms_keys := ms_keys s;
                  ms_answers := <[g := w]> (ms_answers s) |}
      | _, _, _ => None
      end
  end.

(** A schedule: moves that cannot be made are skipped. *)
Definition mt_schedule (s : mt_sys) (moves : list mt_move) : mt_sys :=
  foldl (fun s m => default s (mt_move_step s m)) s moves.

End machine.

(** ** Lemmas *)

Section lemmas.
Context `{Hash64} `{HeaderCodec} `{!HeaderCodecLaws} `{DiskWorld} `{Unicode} `{HttpClient}.

(** What a URL answered, to whatever request header. *)
Definition url_answers (url : string) (resp : Response) : Prop := exists o hdr, doFetch o url hdr = inr resp.

(** A call that one of the requests makes: it is accepted for the domain, and a call that
    may store fetches under the request's own cache key. *)
Definition call_of (reqs : list (mt_env * Request)) (c : mt_call) : Prop :=
  (ca_ev c, ca_r c) ∈ reqs /\ mt_accepted (ca_ev c) (ca_r c) (ca_domain c) /\
  match ca_kind c with
  | FPassthrough => True
  | FServe key _ | FRange _ key => key = NormalizeKey (stripPort (r_Host (ca_r c))) (r_Path (ca_r c)) (r_RawQuery (ca_r c)) "" ∅
  end.

(** The origin gave the response to one of the calls with this flight key. *)
Definition flight_answer (reqs : list (mt_env * Request)) (key : string) (resp : Response) : Prop :=
  exists c, call_of reqs c /\ ca_key c = key /\ url_answers (ca_url c) resp.

(** The entry holds what a flight under the base key of a request in the list gave, and
    the key is one of this request. *)
Definition fetched_for (reqs : list (mt_env * Request)) (k : string) (e : Entry) : Prop :=
  exists ev r vary resp, (ev, r) ∈ reqs /\ mtIsValidPath (r_Path r) = true /\
    k = NormalizeKey (stripPort (r_Host r)) (r_Path r) (r_RawQuery r) vary (r_Header r) /\
    e_Body e = rs_Body resp /\
    flight_answer reqs (NormalizeKey (stripPort (r_Host r)) (r_Path r) (r_RawQuery r) "" ∅) resp.

Lemma fetched_stored_form reqs k c e : fetched_for reqs k e -> fetched_for reqs k (stored_form c e).
Proof. unfold fetched_for. by destruct (stored_form_facts c e) as (_ & -> & _). Qed.

Lemma mt_lookup_keeps P ev r c k : keeps P c -> keeps P (mt_lookup ev c r k).1.
Proof.
  intros Hk. unfold mt_lookup. pose proof (keeps_Get P (after 0 (me_env ev)) c k Hk) as [Hg _].
  destruct (Get _ _ _) as [c1 [e |]]; [| done]. cbn [fst] in Hg.
  destruct (_ && _); [| done]. destruct (negb _); [| done].
  by apply (keeps_Get P (after 5 (me_env ev))).
Qed.

(** The guards passed, the request is accepted for the domain. *)
Lemma guards_accept ev r d :
  negb (String.eqb (r_Method r) "GET") && negb (String.eqb (r_Method r) "HEAD") = false ->
  mtIsValidPath (r_Path r) = true -> stripPort (r_Host r) <> ""%string ->
  lookupDomain (me_config ev 0) (stripPort (r_Host r)) = Some d -> d_Active d = true -> mt_accepted ev r d.
Proof.
  intros Hm Hv Hh Hd Ha. split_and!; try done.
  destruct (String.eqb_spec (r_Method r) "GET"); [by left |]. destruct (String.eqb_spec (r_Method r) "HEAD"); [by right | done].
Qed.

(** [mt_begin] stores nothing, and its call is one of the request's. *)
Lemma mt_begin_spec {W} `{Writer W} P reqs ev h (w : W) r :
  (ev, r) ∈ reqs -> keeps P (mt_cache h) ->
  let out := mt_begin ev h w r in
  mt_origin out.1 = mt_origin h /\ keeps P (mt_cache out.1) /\ forall c, out.2 = inr c -> call_of reqs c.
Proof.
  intros Hin Hk. cbv zeta. unfold mt_begin. destruct (negb _ && negb _) eqn:Em; [done |].
  destruct (mtIsValidPath _) eqn:Ev; cbn [negb]; [| done].
  destruct (String.eqb_spec (stripPort (r_Host r)) ""); [done |]. destruct (lookupDomain _ _) as [d |] eqn:Ed; [| done].
  destruct (d_Active d) eqn:Ea; cbn [negb]; [| done]. pose proof (guards_accept ev r d Em Ev ltac:(done) Ed Ea) as Hacc.
  set (key := NormalizeKey _ _ _ "" ∅).
  assert (Hcall : forall kind, match kind with FPassthrough => True | FServe k _ | FRange _ k => k = key end ->
    forall c, @inr W _ {| ca_ev := ev; ca_r := r; ca_domain := d; ca_kind := kind |} = inr c -> call_of reqs c)
    by (intros kind Hkind c [= <-]; done).
  destruct (negb (String.eqb (Header_Get (r_Header r) "Range") "")).
  { pose proof (keeps_Get P (after 0 (me_env ev)) (mt_cache h) key Hk) as [Hg _].
    destruct (Get _ _ _) as [c [e |]]; [destruct (parseRange _ _) as [[s e'] |] |]; split_and!; try done; by apply Hcall. }
  destruct (bypassed _ _); [split_and!; [done | done | by apply Hcall] |].
  destruct (match mt_predictor h with Some p => _ | None => _ end) as [p likely].
  destruct likely; [split_and!; [done | done | by apply Hcall] |].
  destruct (hasCacheDirective _ "no-cache"); [split_and!; [done | done | by apply Hcall] |].
  pose proof (mt_lookup_keeps P ev r (mt_cache h) key Hk) as Hl. cbn [EnablePredictor mt_cache].
  destruct (mt_lookup _ _ _ _) as [c [e |]]; split_and!; try done. by apply Hcall.
Qed.

Lemma put_both_fetched reqs ev r now now' c resp ttl swr stored vary :
  let key := NormalizeKey (stripPort (r_Host r)) (r_Path r) (r_RawQuery r) "" ∅ in
  let cacheKey := NormalizeKey (stripPort (r_Host r)) (r_Path r) (r_RawQuery r) vary (r_Header r) in
  (ev, r) ∈ reqs -> mtIsValidPath (r_Path r) = true -> flight_answer reqs key resp ->
  keeps (fetched_for reqs) c ->
  keeps (fetched_for reqs) (put_both now now' c key cacheKey (response_entry stored resp ttl swr cacheKey)).1.
Proof.
  intros key cacheKey Hin Hv Hf Hk.
  assert (He : forall v, fetched_for reqs (NormalizeKey (stripPort (r_Host r)) (r_Path r) (r_RawQuery r) v (r_Header r))
    (response_entry stored resp ttl swr cacheKey)).
  { intros v. exists ev, r, v, resp. by split_and!. }
  apply put_both_keeps; [| | | done]; intros; repeat apply fetched_stored_form; [| apply He | apply He].
  unfold key. rewrite <- (NormalizeKey_novary _ _ _ (r_Header r)). apply He.
Qed.

(** The rest of a call stores only what its flight gave. *)
Lemma mt_finish_spec {W} `{Writer W} reqs c h (w : W) res :
  call_of reqs c -> (forall resp, res = inr resp -> flight_answer reqs (ca_key c) resp) -> keeps (fetched_for reqs) (mt_cache h) ->
  let out := mt_finish c h w res in
  mt_origin out.1 = mt_origin h /\ keeps (fetched_for reqs) (mt_cache out.1).
Proof.
  intros (Hin & Hacc & Hkey) Hres Hk. destruct c as [ev r d kind]. cbn [ca_ev ca_r ca_domain ca_kind] in *.
  destruct Hacc as (_ & Hv & _). cbv zeta. unfold mt_finish. cbn [ca_ev ca_r ca_domain ca_kind].
  destruct kind as [| key rules | rh key]; cbn [ca_key ca_kind] in Hres; subst.
  - by destruct res.
  - unfold mtFetchAndServe_fetched. destruct res as [err | resp].
    { set (k := NormalizeKey _ _ _ _ _). pose proof (keeps_Get (fetched_for reqs) (after 30 (me_env ev)) (mt_cache h) k Hk) as [Hg _].
      by destruct (Get _ _ _). }
    destruct (mtDetermineTTL _ _ _ _ _) as [ttl swr]. destruct (cacheable _ _); [| done].
    match goal with |- context [put_both ?n ?n' ?c ?k ?k' ?e] =>
      pose proof (put_both_fetched reqs ev r n n' c resp ttl swr (ev_now (me_env ev) 40)
        (Header_Get (rs_Header resp) "Vary") Hin Hv (Hres resp eq_refl) Hk) as Hp; cbv zeta in Hp; destruct (put_both n n' c k k' e) end.
    by split.
  - unfold mtServeByteRange_fetched. destruct res as [err | resp]; [done |].
    destruct (mtDetermineTTL _ _ _ _ _) as [ttl swr]. destruct (cacheable _ _); [| done].
    match goal with |- context [put_both ?n ?n' ?c ?k ?k' ?e] =>
      pose proof (put_both_fetched reqs ev r n n' c resp ttl swr (ev_now (me_env ev) 40)
        (Header_Get (rs_Header resp) "Vary") Hin Hv (Hres resp eq_refl) Hk) as Hp; cbv zeta in Hp; destruct (put_both n n' c k k' e) end.
    by destruct (parseRange _ _) as [[s e'] |].
Qed.

Definition opc_key (pc : opc) : string :=
  match pc with OLead k _ | ORecorded k _ _ | OClosed k _ _ | OWait k _ | OReturned k _ _ => k end.

Definition results_ok (reqs : list (mt_env * Request)) (o : Origin) (keys : gmap nat string) : Prop :=
  forall f fl resp, og_heap o !! f = Some fl -> fl_res fl = Some (inr resp) ->
    exists k, keys !! f = Some k /\ flight_answer reqs k resp.

(** The flights hold what was answered to a call with their key, and the cache what
    flights gave. *)
Record mt_inv (reqs : list (mt_env * Request)) (s : mt_sys) : Prop := {
  mi_origin : oinv (ms_origin s);
  mi_cache : keeps (fetched_for reqs) (mt_cache (ms_h s));
  mi_calls : forall g c, ms_calls s !! g = Some c -> call_of reqs c;
  mi_keys : forall g pc, ms_gs s !! g = Some pc -> exists c, ms_calls s !! g = Some c /\ opc_key pc = ca_key c;
  mi_results : results_ok reqs (mt_origin (ms_h s)) (ms_keys s)
}.

Lemma mt_inv_start reqs h m ho :
  keeps (fetched_for reqs) (mt_cache h) -> mt_origin h = NewOrigin m ho -> mt_inv reqs (mt_sys_start h).
Proof.
  intros Hk Ho. split; cbn; [| done | done | done | rewrite Ho; done].
  unfold ms_origin. cbn. rewrite Ho. apply (oinv_init m ho).
Qed.

(** A move inside [Fetch]. *)
Lemma mt_inv_origin reqs s o g pc keys c :
  mt_inv reqs s -> os_step (ms_origin s) (ms_origin (ms_with_origin s o g pc keys)) ->
  ms_calls s !! g = Some c -> opc_key pc = ca_key c -> results_ok reqs o keys ->
  mt_inv reqs (ms_with_origin s o g pc keys).
Proof.
  intros [Ho Hc Hca Hk Hr] Hstep Hg Hpc Hres. split; cbn; [by eapply oinv_step | done | done | | done].
  intros g' pc' [[<- <-] | [_ Hg']]%lookup_insert_Some; [by exists c | by apply Hk].
Qed.

(** A goroutine in [Fetch] has its call. *)
Lemma mi_call reqs s g pc : mt_inv reqs s -> ms_gs s !! g = Some pc ->
  exists c, ms_calls s !! g = Some c /\ opc_key pc = ca_key c /\ call_of reqs c.
Proof.
  intros Hi Hg. destruct (mi_keys reqs s Hi g pc Hg) as (c & Hc & Hk). exists c. split_and!; try done. by apply (mi_calls reqs s Hi g).
Qed.

Lemma results_ok_enter reqs o o' now key keys x :
  results_ok reqs o keys -> Fetch_enter now o key = (o', x) ->
  results_ok reqs o' (match x with Some (inr f) => <[f := key]> keys | _ => keys end).
Proof.
  intros Hr. rewrite Fetch_enter_cases. cbv zeta. destruct (Allow _ _).2; [| by intros [= <- <-]].
  destruct (og_flights o !! key) as [f |]; intros [= <- <-]; [done |].
  intros f' fl resp. cbn. intros [[<- <-] | [Hne Hf]]%lookup_insert_Some Hres; [done |].
  rewrite lookup_insert_ne by done. by apply (Hr f' fl resp).
Qed.

Lemma results_ok_alter reqs o cb keys f up :
  results_ok reqs o keys ->
  (forall fl resp, fl_res (up fl) = Some (inr resp) ->
     fl_res fl = Some (inr resp) \/ exists k, keys !! f = Some k /\ flight_answer reqs k resp) ->
  results_ok reqs (og_set o cb (og_flights o) (alter up f (og_heap o)) (og_next o)) keys.
Proof.
  intros Hr Hup f' fl resp. cbn. destruct (decide (f = f')) as [<- | Hne].
  - rewrite lookup_alter_eq. destruct (og_heap o !! f) as [fl0 |] eqn:E; [| done]. cbn. intros [= <-] [Hold | Hnew]%Hup; [| done].
    by apply (Hr f fl0).
  - rewrite lookup_alter_ne by done. apply Hr.
Qed.

(** What a call has got from [Fetch] was answered to a call with the same key. *)
Lemma returned_answer reqs s g k f res : mt_inv reqs s -> ms_gs s !! g = Some (OReturned k f res) ->
  forall resp, res = inr resp -> flight_answer reqs k resp.
Proof.
  intros Hi Hg resp ->. pose proof (oi_pc _ (mi_origin reqs s Hi) g _ Hg) as Hok. destruct f as [f |]; cbn in Hok.
  - destruct Hok as [Hkf Hfl]. destruct (mi_results reqs s Hi f _ resp Hfl eq_refl) as (k' & Hk' & Ha). by simplify_eq.
  - by destruct Hok.
Qed.

Lemma mt_inv_arrive reqs s g ev r s' :
  mt_inv reqs s -> (ev, r) ∈ reqs -> mt_move_step s (MArrive g ev r) = Some s' -> mt_inv reqs s'.
Proof.
  intros Hi Hin. cbn. destruct (ms_calls s !! g) eqn:Eg; [done |]. destruct (ms_answers s !! g); [done |].
  destruct Hi as [Ho Hc Hca Hk Hr].
  pose proof (mt_begin_spec (fetched_for reqs) reqs ev (ms_h s) new_writer r Hin Hc) as Hb. cbv zeta in Hb.
  destruct (mt_begin _ _ _ _) as [h x]. cbn [fst snd] in Hb. destruct Hb as (Eo & Hc' & Hcall).
  destruct x as [w | c]; intros [= <-]; split; cbn; try done; try (by rewrite Eo).
  - unfold ms_origin in *. cbn. by rewrite Eo.
  - unfold ms_origin in *. cbn. by rewrite Eo.
  - intros g' c' [[<- <-] | [_ Hg']]%lookup_insert_Some; [by apply Hcall | by apply (Hca g')].
  - intros g' pc' Hg'. destruct (Hk g' pc' Hg') as (c' & Hc'' & E). exists c'. rewrite lookup_insert_ne; [done | congruence].
Qed.

Lemma mt_inv_finish reqs s g s' : mt_inv reqs s -> mt_move_step s (MFinish g) = Some s' -> mt_inv reqs s'.
Proof.
  intros Hi. cbn. destruct (ms_calls s !! g) as [c |] eqn:Ec; [| done]. destruct (ms_gs s !! g) as [[| | | | k f res] |] eqn:Eg; try done.
  destruct (ms_answers s !! g); [done |]. destruct (mi_call reqs s g _ Hi Eg) as (c' & Ec' & Hk & Hcall). simplify_eq.
  pose proof (mt_finish_spec reqs c (ms_h s) new_writer res Hcall) as Hf. rewrite <- Hk in Hf.
  specialize (Hf (returned_answer reqs s g _ _ _ Hi Eg) (mi_cache reqs s Hi)). cbv zeta in Hf.
  destruct (mt_finish _ _ _ _) as [h w]. cbn [fst] in Hf. destruct Hf as [Eo Hc]. intros [= <-]. destruct Hi as [Ho _ Hca Hks Hr].
  split; cbn; try done; [unfold ms_origin in *; cbn |]; by rewrite Eo.
Qed.

Lemma mt_inv_step reqs s m s' :
  mt_inv reqs s -> (forall g ev r, m = MArrive g ev r -> (ev, r) ∈ reqs) -> mt_move_step s m = Some s' -> mt_inv reqs s'.
Proof.
  intros Hi Hin Hs. destruct m as [g ev r | g now | g now | g | g | g | g e | g];
    [eapply mt_inv_arrive; [done | by eapply Hin | done] | | | | | | | by eapply mt_inv_finish]; cbn in Hs.
  - destruct (ms_calls s !! g) as [c |] eqn:Ec; [| done]. destruct (ms_gs s !! g) eqn:Eg; [done |].
    destruct (Fetch_enter now (mt_origin (ms_h s)) (ca_key c)) as [o [[f | f] |]] eqn:Ee; injection Hs as <-;
      pose proof (results_ok_enter reqs _ _ _ _ _ _ (mi_results reqs s Hi) Ee) as Hr; apply (mt_inv_origin reqs s _ _ _ _ c); try done.
    + by eapply (os_join (ms_origin s)).
    + by eapply (os_lead (ms_origin s)).
    + by eapply (os_refused (ms_origin s)).
  - destruct (ms_calls s !! g) as [c |] eqn:Ec; [| done]. destruct (ms_gs s !! g) as [[k f | | | |] |] eqn:Eg; try done.
    injection Hs as <-. destruct (mi_call reqs s g _ Hi Eg) as (c' & Ec' & Hk & Hcall). simplify_eq.
    apply (mt_inv_origin reqs s _ _ _ _ c); try done; [by eapply (os_record (ms_origin s)) |].
    apply results_ok_alter; [apply (mi_results reqs s Hi) |]. intros fl resp Hres. right.
    destruct (oi_pc _ (mi_origin reqs s Hi) g _ Eg) as (_ & Hkf & _). exists k. split; [done |]. exists c. split_and!; try done.
    exists (mt_origin (ms_h s)), (ca_header c). by injection Hres.
  - destruct (ms_gs s !! g) as [[| k f res | | |] |] eqn:Eg; try done. injection Hs as <-.
    destruct (mi_call reqs s g _ Hi Eg) as (c & Ec & Hk & _).
    apply (mt_inv_origin reqs s _ _ _ _ c); try done; [by eapply (os_close (ms_origin s)) |].
    apply results_ok_alter; [apply (mi_results reqs s Hi) |]. intros fl resp Hres. by left.
  - destruct (ms_gs s !! g) as [[| | k f res | |] |] eqn:Eg; try done. injection Hs as <-.
    destruct (mi_call reqs s g _ Hi Eg) as (c & Ec & Hk & _).
    apply (mt_inv_origin reqs s _ _ _ _ c); try done; [by eapply (os_delete (ms_origin s)) | apply (mi_results reqs s Hi)].
  - destruct (ms_gs s !! g) as [[| | | k f |] |] eqn:Eg; try done.
    destruct (og_heap _ !! f) as [[[|] [res |]] |] eqn:Ef; try done. injection Hs as <-.
    destruct (mi_call reqs s g _ Hi Eg) as (c & Ec & Hk & _).
    apply (mt_inv_origin reqs s _ _ _ _ c); try done; [| apply (mi_results reqs s Hi)].
    apply (os_wake (ms_origin s) g k f {| fl_done := true; fl_res := Some res |}); done.
  - destruct (ms_gs s !! g) as [[| | | k f |] |] eqn:Eg; try done.
    destruct (mi_call reqs s g _ Hi Eg) as (c & Ec & Hk & _).
    assert (Hs' : (e = ErrCtx \/ e = ErrCoalesceTimeout) /\ Some (ms_with_origin s (mt_origin (ms_h s)) g (OReturned k None (inl e)) (ms_keys s)) = Some s')
      by (destruct e; try done; split; auto). clear Hs. destruct Hs' as [He [= <-]].
    apply (mt_inv_origin reqs s _ _ _ _ c); try done; [by eapply (os_giveup (ms_origin s)) | apply (mi_results reqs s Hi)].
Qed.

End lemmas.

(** ** What the handler guarantees *)

Section theorems.
Context `{Hash64} `{HeaderCodec} `{!HeaderCodecLaws} `{DiskWorld} `{Unicode} `{HttpClient}.

(** A host as it comes in a request: ASCII, without a slash, and not one that reads like
    the prefix of the flight keys of passthrough requests. *)
Definition host_ok (host : string) : Prop :=
  is_ascii host = true /\ no_byte "/" host = true /\ HasPrefix (lower_ascii host) "passthrough:" = false.

(** The requests that arrive in a schedule. *)
Definition arrivals (moves : list mt_move) : list (mt_env * Request) :=
  omap (fun m => match m with MArrive _ ev r => Some (ev, r) | _ => None end) moves.

Lemma mt_inv_schedule reqs moves : forall s,
  (forall q, q ∈ arrivals moves -> q ∈ reqs) -> mt_inv reqs s -> mt_inv reqs (mt_schedule s moves).
Proof.
  induction moves as [| m moves IH]; intros s Hin Hi; cbn; [done |]. apply IH.
  - intros q Hq. apply Hin. unfold arrivals in *. cbn. destruct m; cbn; try done. by right.
  - destruct (mt_move_step s m) as [s' |] eqn:Es; cbn; [| done]. eapply mt_inv_step; [done | | done].
    intros g ev r ->. apply Hin. unfold arrivals. cbn. left.
Qed.

Lemma valid_slash p : mtIsValidPath p = true -> HasPrefix p "/" = true.
Proof. unfold mtIsValidPath. by destruct (HasPrefix p "/"). Qed.

(** A flight under a host's key was made for a request to the host: the keys of
    passthrough requests are not among them. *)
Lemma flight_answer_host reqs host path query resp :
  (forall q, q ∈ reqs -> host_ok (stripPort (r_Host q.2))) -> host_ok host -> HasPrefix path "/" = true ->
  flight_answer reqs (NormalizeKey host path query "" ∅) resp ->
  exists ev r d, (ev, r) ∈ reqs /\ mt_accepted ev r d /\ lower_ascii (stripPort (r_Host r)) = lower_ascii host /\
    url_answers (mt_originURL d r) resp.
Proof.
  intros Hhosts (Ha & Hn & Hpre) Hp (c & (Hin & Hacc & Hkey) & E & Hu). exists (ca_ev c), (ca_r c), (ca_domain c). split_and!; try done.
  assert (Hsame : forall k, k = NormalizeKey (stripPort (r_Host (ca_r c))) (r_Path (ca_r c)) (r_RawQuery (ca_r c)) "" ∅ ->
    k = NormalizeKey host path query "" ∅ -> lower_ascii (stripPort (r_Host (ca_r c))) = lower_ascii host).
  { intros k -> Ek. destruct (Hhosts _ Hin) as (Hra & Hrn & _). cbn in Hra, Hrn. destruct Hacc as (_ & Hv%valid_slash & _).
    by eapply same_key_same_host; [| | | | | | exact Ek]. }
  unfold ca_key in E. destruct (ca_kind c) as [| k rules | rh k]; [| by apply (Hsame k) | by apply (Hsame k)].
  exfalso. destruct (slash_path path Hp) as [rest ->].
  destruct (NormalizeKey_host host (String "/" rest) query "" ∅ rest Ha eq_refl) as [u Eu]. rewrite Eu in E.
  apply (f_equal (cut_byte "/")) in E. rewrite cut_byte_app in E by (by apply no_byte_lower). cbn in E.
  destruct (cut_byte "/" (r_RequestURI (ca_r c))) as [pre post]. injection E as E _. rewrite <- E in Hpre.
  cbn in Hpre. by rewrite HasPrefix_nil in Hpre.
Qed.

(** C5: Tenants are isolated, however their requests interleave: whatever the order in
    which requests arrive, enter the flight group, join each other's flights, are answered
    and store, and whatever configurations they read, what the shared memory cache returns
    for a key of a host is what the origin of an active domain answered to a request for
    the same host, up to case. The cache has no disk tier, and hosts are ASCII without a
    slash and do not start with the passthrough prefix. *)
Theorem mt_isolation mkdir_ok files opts c0 m ho ttl p moves clk host path query vary hdr e :
  o_MaxItems opts <= max_i64 -> o_NumShards opts <= max_i64 -> o_DiskDir opts = ""%string ->
  NewWithOptions mkdir_ok files opts = Some c0 ->
  (forall q, q ∈ arrivals moves -> host_ok (stripPort (r_Host q.2))) ->
  let h0 := EnablePredictor (NewMultiTenant c0 (NewOrigin m ho) ttl) p in
  let h := ms_h (mt_schedule (mt_sys_start h0) moves) in
  is_ascii host = true -> no_byte "/" host = true -> HasPrefix path "/" = true ->
  (Get clk (mt_cache h) (NormalizeKey host path query vary hdr)).2 = Some e ->
  exists ev r domain resp, (ev, r) ∈ arrivals moves /\ lower_ascii (stripPort (r_Host r)) = lower_ascii host /\
    lookupDomain (me_config ev 0) (stripPort (r_Host r)) = Some domain /\ d_Active domain = true /\
    e_Body e = rs_Body resp /\ url_answers (mt_originURL domain r) resp.
Proof.
  intros Hm Hn Hd Hnew Hhosts h0 h Ha Hnb Hp Hg.
  assert (Hi : mt_inv (arrivals moves) (mt_schedule (mt_sys_start h0) moves)).
  { apply mt_inv_schedule; [done |]. apply (mt_inv_start _ h0 m ho); [| done]. by apply (New_keeps _ mkdir_ok files opts). }
  destruct (proj2 (keeps_Get _ clk _ _ (mi_cache _ _ Hi)) e Hg) as (ev & r & v & resp & Hin & Hv & E & Hb & Hf).
  destruct (flight_answer_host _ _ _ _ _ Hhosts (Hhosts _ Hin) (valid_slash _ Hv) Hf) as (ev' & r' & d & Hin' & Hacc & Eh & Hu).
  destruct Hacc as (_ & _ & _ & Hdom & Hact). exists ev', r', d, resp. split_and!; try done.
  rewrite Eh. destruct (Hhosts _ Hin) as (Hra & Hrn & _). symmetry.
  apply valid_slash in Hv. by eapply same_key_same_host; [| | | | | | exact E].
Qed.

End theorems.

(** ** Two tenants at once *)

#[local] Existing Instances poly_hash64 bits_codec bits_codec_laws plain_disk ascii_unicode echo_client.

(** Two requests for A and one for B, under way together: the second of A joins the
    first's flight. *)
Definition three_at_once : list mt_move :=
  [MArrive 0 (mt_at 0) (mt_get "a.com:8080" "/x"); MArrive 1 (mt_at 0) (mt_get "a.com" "/x"); MArrive 2 (mt_at 0) (mt_get "b.com" "/x");
   MEnter 0 0; MEnter 1 0; MEnter 2 0; MRecord 2 0; MRecord 0 0; MClose 0; MClose 2; MWake 1; MFinish 1;
   MDelete 0; MDelete 2; MFinish 2; MFinish 0].

Definition tiny_mem_cache : Cache := Eval vm_compute in default tiny_cache (NewWithOptions true ∅ mem_opts).

Abbreviation after_three :=
  (mt_schedule (mt_sys_start (EnablePredictor (NewMultiTenant tiny_mem_cache (NewOrigin 0 "") (60 * Second)) None)) three_at_once).

Lemma mt_isolation_witness :
  NewWithOptions true ∅ mem_opts = Some tiny_mem_cache /\
    (match ms_gs after_three !! 1%nat with Some (OReturned _ (Some f) _) => f | _ => 7%nat end) = 0%nat /\
    (w_body <$> ms_answers after_three !! 1%nat) = Some "http://origin-a/x"%string /\
    exists e, (Get (fun _ => 0) (mt_cache (ms_h after_three)) (NormalizeKey "a.com" "/x" "" "" ∅)).2 = Some e /\
      e_Body e = "http://origin-a/x"%string /\
      exists ev r domain resp, (ev, r) ∈ arrivals three_at_once /\ lower_ascii (stripPort (r_Host r)) = "a.com"%string /\
        lookupDomain (me_config ev 0) (stripPort (r_Host r)) = Some domain /\ d_Active domain = true /\
        e_Body e = rs_Body resp /\ url_answers (mt_originURL domain r) resp.
Proof.
  split; [vm_compute; reflexivity |]. split; [vm_compute; reflexivity |]. split; [vm_compute; reflexivity |].
  assert (Hg : exists e, (Get (fun _ => 0) (mt_cache (ms_h after_three)) (NormalizeKey "a.com" "/x" "" "" ∅)).2 = Some e /\
    e_Body e = "http://origin-a/x"%string) by (eexists; split; vm_compute; reflexivity).
  destruct Hg as (e & He & Hb). exists e. split; [exact He |]. split; [exact Hb |].
  pose proof (mt_isolation true ∅ mem_opts tiny_mem_cache 0 "" (60 * Second) None three_at_once (fun _ => 0) "a.com" "/x" "" "" ∅ e) as T.
  cbv zeta in T. apply T; clear T; [vm_compute; discriminate | vm_compute; discriminate | reflexivity | vm_compute; reflexivity | | reflexivity | reflexivity | reflexivity | exact He].
  clear He Hb. intros q Hin. cbn in Hin.
  repeat (apply elem_of_cons in Hin as [-> | Hin]; [split; [reflexivity | split; reflexivity] |]). destruct (not_elem_of_nil _ Hin).
Defined.

(** What isolation does not cover: two requests that a rule sends past the cache share a
    flight by path alone, and B's client is answered from A's origin. *)
Definition bypassing (t : Z) : mt_env :=
  let rule d := {| cr_ID := "r"; cr_DomainID := d; cr_PathGlob := "/me"; cr_TTLSec := 0; cr_Bypass := true |} in
  {| me_env := me_env (mt_at t);
     me_config _ := Some {| ec_Version := 1; ec_Timestamp := 0; ec_Domains := ec_Domains (two_tenants 1);
                            ec_Rules := {["1" := [rule "1"]; "2" := [rule "2"]]} |} |}.

Theorem passthrough_flight_leaks :
  let s := mt_schedule (mt_sys_start tiny_mt)
    [MArrive 0 (bypassing 0) (mt_get "a.com" "/me"); MArrive 1 (bypassing 0) (mt_get "b.com" "/me");
     MEnter 0 0; MEnter 1 0; MRecord 0 0; MClose 0; MWake 1; MFinish 1; MDelete 0; MFinish 0] in
  w_body <$> ms_answers s !! 1%nat = Some "http://origin-a/me"%string.
Proof. vm_compute. reflexivity. Qed.
