(* ===== verification/Answers.v ===== *)
(** * The data plane's handlers as scripts

    Neither handler reads anything from its writer but the header it is about to change:
    what [CDN.ServeHTTP] and [MultiTenantCDN.ServeHTTP] do for a request is one answer (a
    header, a status, a body) that does not depend on the writer they are given, so it is
    the same under any stack of middleware. *)

From S2P Require Import Prelude GoStrings CacheKey TinyLFU Entry Shard Disk Cache Predictor Streaming Http CacheControl Range Paths Circuit Origin Handler Tenant MultiTenant.

Local Open Scope Z_scope.

(** ** The pieces *)

Section pieces.
Context `{Unicode} `{HeaderCodec}.

Definition entry_answer (now : Z) (entry : Entry) (cacheStatus : string) : answer :=
  {| an_set hd :=
       let h := <["X-Cache" := [cacheStatus]]> (Entry_GetHeader entry ∪ hd) in
       let h := if String.eqb (e_ETag entry) "" then h else <["Etag" := [e_ETag entry]]> h in
       <["Age" := [Itoa (Z.quot (time_sub now (e_StoredAt entry)) Second)]]> h;
     an_code := Some (e_StatusCode entry); an_data := [e_Body entry] |}.

Definition response_answer (resp : Response) (cacheStatus : string) : answer :=
  {| an_set hd := Header_Set (copied_header (rs_Header resp) hd) "X-Cache" cacheStatus;
     an_code := Some (rs_StatusCode resp); an_data := [rs_Body resp] |}.

Definition stream_answer (se : StreamingEntry) (cacheStatus : string) : answer :=
  {| an_set hd := Header_Set (copied_header (se_header se) hd) "X-Cache" cacheStatus;
     an_code := Some (se_status se);
     an_data := [default "" (drain (S (String.length (se_buf se))) (32 * 1024) se (NewReader 0) "")]%string |}.

Definition not_modified_answer (name value : string) : answer :=
  {| an_set hd := Header_Set (Header_Set hd name value) "X-Cache" "HIT"; an_code := Some 304; an_data := [] |}.

(** The header [http.Error] leaves. *)
Definition error_header (hd : Header) : Header :=
  Header_Set (Header_Set (Header_Del hd "Content-Length") "Content-Type" "text/plain; charset=utf-8") "X-Content-Type-Options" "nosniff".
Definition error_answer (set : Header -> Header) (msg : string) (code : Z) : answer :=
  {| an_set hd := error_header (set hd); an_code := Some code; an_data := [msg +:+ nl] |}.

Definition range_answer (entry : Entry) (s e : Z) : answer :=
  {| an_set hd :=
       let h := Header_Set (copied_header (Entry_GetHeader entry) hd) "Content-Range" (range_value s e (str_len (e_Body entry))) in
       Header_Set (Header_Set h "Content-Length" (Itoa (e - s + 1))) "X-Cache" "HIT";
     an_code := Some 206; an_data := [take_bytes (Z.to_nat (e + 1 - s)) (drop_bytes (Z.to_nat s) (e_Body entry))] |}.

(** A writing function that is an answer with a status. *)
Definition answered (f : forall W, Writer W -> W -> W) : Prop :=
  exists a code, an_code a = Some code /\ forall W (HW : Writer W) (HL : HeaderLaws W) (w : W), f W HW w = run_ops (answer_ops a) w.

Ltac answer_by a := exists a; eexists; split; [reflexivity | intros W HW HL w]; unfold answer_ops;
  cbn [an_code entry_answer response_answer stream_answer not_modified_answer error_answer range_answer fmap option_fmap option_map option_list option_rect app an_data map];
  rewrite !run_ops_cons; cbn [run_op].

Lemma serveEntry_answered now e st : answered (fun W _ w => serveEntry now w e st).
Proof. answer_by (entry_answer now e st). unfold serveEntry. by rewrite cacheStatusSlice_eq. Qed.

Lemma serveResponse_answered resp st : answered (fun W _ w => serveResponse w resp st).
Proof.
  answer_by (response_answer resp st). unfold serveResponse, copy_header. rewrite header_set, set_header_set. done.
Qed.

Lemma serveStreamingEntry_answered se st : answered (fun W _ w => serveStreamingEntry w se st).
Proof.
  answer_by (stream_answer se st). unfold serveStreamingEntry, copy_header. rewrite header_set, set_header_set. done.
Qed.

Lemma not_modified_answered name value : answered (fun W _ w => not_modified name value w).
Proof. answer_by (not_modified_answer name value). unfold not_modified. rewrite header_set, set_header_set. done. Qed.

Lemma http_Error_answered msg code : answered (fun W _ w => http_Error msg code w).
Proof. by answer_by (error_answer (fun hd => hd) msg code). Qed.

Lemma http_Error_set_answered set msg code :
  answered (fun W _ w => http_Error msg code (w_set_header (set (w_header w)) w)).
Proof. answer_by (error_answer set msg code). unfold http_Error. by rewrite header_set, set_header_set. Qed.

Lemma serveRange_answered entry s e : answered (fun W _ w => serveRange w entry s e).
Proof.
  answer_by (range_answer entry s e). unfold serveRange, copy_header. rewrite !header_set, !set_header_set. done.
Qed.

End pieces.

Create HintDb answers.
#[export] Hint Resolve serveEntry_answered serveResponse_answered serveStreamingEntry_answered not_modified_answered
  http_Error_answered http_Error_set_answered serveRange_answered : answers.

(** ** The single-tenant handler *)

Section single.
Context `{Hash64} `{HeaderCodec} `{DiskWorld} `{Unicode} `{HttpClient} `{HttpTime}.

(** All that happens besides writing, and the answer, are the same on every writer. *)
Definition uniform (f : forall W, Writer W -> W -> outcome W) : Prop :=
  exists h locks async a code, an_code a = Some code /\
    forall W (HW : Writer W) (HL : HeaderLaws W) (w : W),
      f W HW w = {| o_cdn := h; o_w := run_ops (answer_ops a) w; o_lock := locks; o_async := async |}.

Lemma uniform_of h locks async (f : forall W, Writer W -> W -> W) :
  answered f -> uniform (fun W HW w => {| o_cdn := h; o_w := f W HW w; o_lock := locks; o_async := async |}).
Proof.
  intros (a & code & Hc & Hf). exists h, locks, async, a, code. split; [done |]. intros W HW HL w. by rewrite (Hf W HW HL).
Qed.

Lemma uniform_done h (f : forall W, Writer W -> W -> W) : answered f -> uniform (fun W HW w => done_with h (f W HW w)).
Proof. apply uniform_of. Qed.

Lemma stale_or_502_uniform ev k h key locks :
  uniform (fun W _ w => let '(h, w) := stale_or_502 ev k h w key in {| o_cdn := h; o_w := w; o_lock := locks; o_async := [] |}).
Proof. unfold stale_or_502. destruct (Get _ _ _) as [c [e |]]; apply uniform_of; eauto with answers. Qed.

(** A fetcher's answer is not lost: the stream it reads back is complete. *)
Lemma fetchAndServe_uniform ev h r key : uniform (fun W _ w => fetchAndServe ev h w r key).
Proof.
  unfold fetchAndServe. destruct (ev_acquired ev) as [[entry [se |]] |].
  - apply uniform_done. eauto with answers.
  - destruct entry as [entry |]; [apply uniform_done; eauto with answers | apply (stale_or_502_uniform ev 30 h key [])].
  - destruct (Fetch (ev_now ev 20) (ev_now ev 21) (h_origin h) key (cfg_OriginURL (h_cfg h) +:+ r_RequestURI r)
      (r_Header r) (ev_joined ev)) as [o [err | resp]] eqn:Ef.
    { unfold fetchAndServeStreaming. rewrite Ef. apply (stale_or_502_uniform ev 30 (with_origin o h) key [LRelease key None true]). }
    destruct (determineTTL (cfg_DefaultTTL (h_cfg h)) (rs_Header resp)) as [ttl swr] eqn:Ed.
    unfold fetchAndServeStreaming. rewrite Ef. cbn [with_origin h_cfg]. rewrite Ed.
    destruct (cacheable ttl (rs_StatusCode resp)) eqn:Ec; [| apply uniform_of; eauto with answers].
    destruct (write_chunks_all (Z.to_nat (32 * 1024)) (NewStreamingEntry (rs_Header resp) (rs_StatusCode resp))
      (rs_Body resp) (String.length (rs_Body resp)) ltac:(lia) eq_refl (le_n _)) as ([buf err hd st compl] & Hw & _ & Hcm & Herr & _ & _).
    cbn in Hcm, Herr. subst. change (Z.to_nat (32 * 1024)) with (32 * 1024)%nat in Hw. rewrite Hw. cbn [Close se_err se_complete].
    unfold ToEntry. cbn [se_complete se_err Close negb].
    destruct (put_both _ _ _ _ _ _) as [c e1]. apply uniform_of; eauto with answers.
Qed.

Lemma serveByteRange_uniform ev h r rh : uniform (fun W _ w => serveByteRange ev h w r rh).
Proof.
  unfold serveByteRange. destruct (Get _ _ _) as [c [entry |]].
  - destruct (parseRange _ _) as [[s e] |]; [apply uniform_done; eauto with answers |].
    unfold proxyPassthrough. destruct (Fetch _ _ _ _ _ _ _) as [o [err | resp]]; apply uniform_done; eauto with answers.
  - destruct (Fetch _ _ _ _ _ _ _) as [o [err | resp]]; [apply uniform_done; eauto with answers |].
    destruct (determineTTL _ _) as [ttl swr]. destruct (cacheable _ _); [| apply uniform_done; eauto with answers].
    destruct (put_both _ _ _ _ _ _) as [c1 e1]. destruct (parseRange _ _) as [[s e] |]; apply uniform_done; eauto with answers.
Qed.

Lemma serve_cached_uniform ev h r key e : uniform (fun W _ w => serve_cached ev h w r key e).
Proof.
  unfold serve_cached. destruct (_ && _); [apply uniform_of; eauto with answers |].
  destruct (_ && _); [apply uniform_done; eauto with answers |]. destruct (_ && _); apply uniform_done; eauto with answers.
Qed.

(** Every request to the single-tenant handler gets one answer, whatever the writer. *)
Lemma ServeHTTP_uniform ev h r : uniform (fun W _ w => ServeHTTP ev h w r).
Proof.
  unfold ServeHTTP. destruct (_ && _); [apply uniform_done; apply (http_Error_set_answered (fun hd => Header_Set hd "Allow" "GET, HEAD")) |].
  destruct (negb (isValidPath _)); [apply uniform_done; eauto with answers |].
  destruct (String.eqb (r_Host r) ""); [apply uniform_done; eauto with answers |].
  destruct (negb (String.eqb _ "")); [apply serveByteRange_uniform |].
  destruct (match h_predictor h with Some p => _ | None => _ end) as [p likely].
  destruct likely; [apply fetchAndServe_uniform |]. destruct (hasCacheDirective _ "no-cache"); [apply fetchAndServe_uniform |].
  destruct (cache_lookup _ _ _ _) as [c found].
  destruct found; [apply fetchAndServe_uniform | apply serve_cached_uniform | apply fetchAndServe_uniform].
Qed.

End single.

(** ** The multi-tenant handler *)

Section multi.
Context `{Hash64} `{HeaderCodec} `{DiskWorld} `{Unicode} `{HttpClient}.

Definition mt_uniform (f : forall W, Writer W -> W -> MultiTenantCDN * W) : Prop :=
  exists h a code, an_code a = Some code /\
    forall W (HW : Writer W) (HL : HeaderLaws W) (w : W), f W HW w = (h, run_ops (answer_ops a) w).

Lemma mt_uniform_of h (f : forall W, Writer W -> W -> W) : answered f -> mt_uniform (fun W HW w => (h, f W HW w)).
Proof. intros (a & code & Hc & Hf). exists h, a, code. split; [done |]. intros W HW HL w. by rewrite (Hf W HW HL). Qed.

Lemma mtFetchAndServe_uniform ev h r d key rules : mt_uniform (fun W _ w => mtFetchAndServe ev h w r d key rules).
Proof.
  unfold mtFetchAndServe, mtFetchAndServe_fetched. destruct (Fetch _ _ _ _ _ _ _) as [o [err | resp]].
  - destruct (Get _ _ _) as [c [e |]]; apply mt_uniform_of; eauto with answers.
  - destruct (mtDetermineTTL _ _ _ _ _) as [ttl swr]. destruct (cacheable _ _); [| apply mt_uniform_of; eauto with answers].
    destruct (put_both _ _ _ _ _ _) as [c e]. apply mt_uniform_of; eauto with answers.
Qed.

Lemma mtProxyPassthrough_uniform ev h r d : mt_uniform (fun W _ w => mtProxyPassthrough ev h w r d).
Proof. unfold mtProxyPassthrough, mtProxyPassthrough_fetched. destruct (Fetch _ _ _ _ _ _ _) as [o [err | resp]]; apply mt_uniform_of; eauto with answers. Qed.

Lemma mtServeByteRange_uniform ev h r d rh : mt_uniform (fun W _ w => mtServeByteRange ev h w r d rh).
Proof.
  unfold mtServeByteRange, mtServeByteRange_fetched. destruct (Get _ _ _) as [c [entry |]].
  - destruct (parseRange _ _) as [[s e] |]; [apply mt_uniform_of; eauto with answers | apply mtProxyPassthrough_uniform].
  - destruct (Fetch _ _ _ _ _ _ _) as [o [err | resp]]; [apply mt_uniform_of; eauto with answers |].
    destruct (mtDetermineTTL _ _ _ _ _) as [ttl swr]. destruct (cacheable _ _); [| apply mt_uniform_of; eauto with answers].
    destruct (put_both _ _ _ _ _ _) as [c1 e1]. destruct (parseRange _ _) as [[s e] |]; apply mt_uniform_of; eauto with answers.
Qed.

Lemma mt_ServeHTTP_uniform ev h r : mt_uniform (fun W _ w => mt_ServeHTTP ev h w r).
Proof.
  unfold mt_ServeHTTP. destruct (_ && _); [apply mt_uniform_of; apply (http_Error_set_answered (fun hd => Header_Set hd "Allow" "GET, HEAD")) |].
  destruct (negb (mtIsValidPath _)); [apply mt_uniform_of; eauto with answers |].
  destruct (String.eqb _ ""); [apply mt_uniform_of; eauto with answers |].
  destruct (lookupDomain _ _) as [d |]; [| apply mt_uniform_of; eauto with answers].
  destruct (negb (d_Active d)); [apply mt_uniform_of; eauto with answers |].
  destruct (negb (String.eqb _ "")); [apply mtServeByteRange_uniform |].
  destruct (bypassed _ _); [apply mtProxyPassthrough_uniform |].
  destruct (match mt_predictor h with Some p => _ | None => _ end) as [p likely].
  destruct likely; [apply mtFetchAndServe_uniform |]. destruct (hasCacheDirective _ "no-cache"); [apply mtFetchAndServe_uniform |].
  destruct (mt_lookup _ _ _ _) as [c [entry |]]; [| apply mtFetchAndServe_uniform].
  unfold mt_serve_cached. destruct (_ && _); [apply mt_uniform_of; eauto with answers |].
  destruct (_ && _); apply mt_uniform_of; eauto with answers.
Qed.

End multi.
