(* ===== verification/Parts.v ===== *)
(** * What a request may do to the parts of an edge

    The cache, the origin client and the predictor of an edge change only through their own
    operations, whichever handler serves a request and however it ends. The relation
    [moved] says so; it is what carries the theorems about one component, stated for any
    sequence of its operations, to a running edge. *)

From S2P Require Import Prelude GoStrings CacheKey TinyLFU Entry Shard Disk Cache Contents Predictor Stampede Streaming Http CacheControl Range Paths Circuit Origin Handler Tenant MultiTenant.

Local Open Scope Z_scope.

(** What the data plane's handlers share. *)
Record plane := { pl_cache : Cache; pl_origin : Origin; pl_predictor : option Predictor }.

Section parts.
Context `{Hash64} `{HeaderCodec} `{DiskWorld} `{Unicode} `{HttpClient}.

Definition cache_moved (c c' : Cache) : Prop := exists ops, c' = run c ops.
Definition pred_moved (p p' : option Predictor) : Prop := exists ops, p' = (fun p => foldl p_step p ops) <$> p.

(** The breaker has seen some events; no flight is left behind. *)
Record origin_moved (o o' : Origin) : Prop := {
  om_circuit : exists evs, og_cb o' = foldl (fun cb ev => (cb_step cb ev).1) (og_cb o) evs;
  om_maxBodyBytes : og_maxBodyBytes o' = og_maxBodyBytes o;
  om_hostOverride : og_hostOverride o' = og_hostOverride o;
  om_flights : og_flights o = ∅ -> og_flights o' = ∅
}.

Record moved (x y : plane) : Prop := {
  mv_cache : cache_moved (pl_cache x) (pl_cache y);
  mv_origin : origin_moved (pl_origin x) (pl_origin y);
  mv_predictor : pred_moved (pl_predictor x) (pl_predictor y)
}.

#[export] Instance cache_moved_preorder : PreOrder cache_moved.
Proof.
  split; [intros c; by exists [] |]. intros c1 c2 c3 [ops ->] [ops' ->]. exists (ops ++ ops'). unfold run. by rewrite foldl_app.
Qed.

#[export] Instance pred_moved_preorder : PreOrder pred_moved.
Proof.
  split; [intros p; exists []; by destruct p |]. intros p1 p2 p3 [ops ->] [ops' ->]. exists (ops ++ ops').
  destruct p1; cbn; [by rewrite foldl_app | done].
Qed.

#[export] Instance origin_moved_preorder : PreOrder origin_moved.
Proof.
  split; [intros o; split; try done; by exists [] |].
  intros o1 o2 o3 [[evs E] M Hh F] [[evs' E'] M' Hh' F']. split; [| congruence | congruence | auto].
  exists (evs ++ evs'). by rewrite foldl_app, <- E.
Qed.

#[export] Instance moved_preorder : PreOrder moved.
Proof.
  split; [intros x; by split |]. intros x y z [C O P] [C' O' P']. split; by etransitivity.
Qed.

(** ** The operations *)

Lemma Get_moved clk c0 c k c' e : Get clk c k = (c', e) -> cache_moved c0 c -> cache_moved c0 c'.
Proof. intros E Hc. transitivity c; [done |]. exists [OpGet clk k]. cbn. by rewrite E. Qed.

Lemma Put_moved now c k e : cache_moved c (Put now c k e).1.
Proof. by exists [OpPut now k e]. Qed.

Lemma Purge_moved c : cache_moved c (Purge c).
Proof. by exists [OpPurge]. Qed.

Lemma put_both_moved now now' c0 c k k' e c' e' :
  put_both now now' c k k' e = (c', e') -> cache_moved c0 c -> cache_moved c0 c'.
Proof.
  unfold put_both. pose proof (Put_moved now c k e) as Hp. destruct (Put now c k e) as [c1 e1]. cbn [fst] in Hp.
  destruct (String.eqb k' k); [intros [= <- <-] Hc; by transitivity c |].
  pose proof (Put_moved now' c1 k' e1) as Hp'. intros E Hc. rewrite E in Hp'. cbn [fst] in Hp'. transitivity c; [done |]. by transitivity c1.
Qed.

Lemma mark_moved p0 p k : pred_moved p0 (Some p) -> pred_moved p0 (Some (MarkUncacheable p k)).
Proof. intros Hp. transitivity (Some p); [done |]. by exists [PMark k]. Qed.

Lemma query_moved p0 p k p' b : IsLikelyUncacheable p k = (p', b) -> pred_moved p0 (Some p) -> pred_moved p0 (Some p').
Proof. intros E Hp. transitivity (Some p); [done |]. exists [PQuery k]. change (Some p' = Some (IsLikelyUncacheable p k).1). by rewrite E. Qed.

Lemma Rotate_moved p : pred_moved (Some p) (Some (Rotate p)).
Proof. by exists [PRotate]. Qed.

(** A fetch asks the breaker and tells it the result. *)
Lemma Fetch_moved now now' o key url hdr joined : origin_moved o (Fetch now now' o key url hdr joined).1.
Proof.
  unfold Fetch, Fetch_enter. destruct (Allow now (og_cb o)) as [cb ok] eqn:Ea.
  assert (Hcb : (cb_step (og_cb o) (EAllow now)).1 = cb) by (cbn [cb_step]; by rewrite Ea).
  destruct ok; cbn [negb]; [| by split; try done; exists [EAllow now]].
  destruct (og_flights o !! key) as [f |] eqn:Ef; [by split; try done; exists [EAllow now] |].
  set (res := doFetch _ _ _). clearbody res. split; cbn; try done.
  - destruct res as [err | resp]; cbn [record_result]; [exists [EAllow now; EFailure now'] |];
      [| destruct (500 <=? rs_StatusCode resp); [exists [EAllow now; EFailure now'] | exists [EAllow now; ESuccess]]];
      cbn [foldl]; by rewrite Hcb.
  - intros E. rewrite E. apply map_eq. intros i. destruct (decide (key = i)) as [-> | Hne];
      [by rewrite lookup_delete_eq | by rewrite lookup_delete_ne, lookup_insert_ne].
Qed.

Lemma Fetch_moved_eq now now' o0 o key url hdr joined o' res :
  Fetch now now' o key url hdr joined = (o', res) -> origin_moved o0 o -> origin_moved o0 o'.
Proof. intros E Ho. transitivity o; [done |]. pose proof (Fetch_moved now now' o key url hdr joined) as Hf. by rewrite E in Hf. Qed.

End parts.

Create HintDb moved.
#[export] Hint Resolve Get_moved put_both_moved mark_moved query_moved Fetch_moved_eq : moved.
#[export] Hint Extern 1 (cache_moved _ _) => reflexivity : moved.
#[export] Hint Extern 1 (origin_moved _ _) => reflexivity : moved.
#[export] Hint Extern 1 (pred_moved _ _) => reflexivity : moved.

(** Down to the parts of a handler's state. *)
Ltac parts := cbn [pl_cache pl_origin pl_predictor h_cache h_origin h_predictor with_cache with_origin with_predictor done_with o_cdn
  mt_cache mt_origin mt_predictor mt_with_cache mt_with_origin EnablePredictor fst snd].

(** ** The single-tenant handler *)

Definition cdn_plane (h : CDN) : plane := {| pl_cache := h_cache h; pl_origin := h_origin h; pl_predictor := h_predictor h |}.

Section single.
Context `{Hash64} `{HeaderCodec} `{DiskWorld} `{Unicode} `{HttpClient} `{HttpTime}.

Definition cdn_moved (h h' : CDN) : Prop := h_cfg h' = h_cfg h /\ moved (cdn_plane h) (cdn_plane h').

(** Down to the parts. *)
Ltac moves := split; [done | split]; unfold cdn_plane; parts; eauto with moved.

Lemma stale_or_502_moved {W} `{Writer W} ev k h (w : W) key : cdn_moved h (stale_or_502 ev k h w key).1.
Proof. unfold stale_or_502. destruct (Get _ _ _) as [c e] eqn:Eg. moves. Qed.

Lemma cdn_moved_trans h1 h2 h3 : cdn_moved h1 h2 -> cdn_moved h2 h3 -> cdn_moved h1 h3.
Proof. intros [E M] [E' M']. split; [congruence | by etransitivity]. Qed.

Lemma fetchAndServe_moved {W} `{Writer W} ev h (w : W) r key : cdn_moved h (o_cdn (fetchAndServe ev h w r key)).
Proof.
  unfold fetchAndServe. destruct (ev_acquired ev) as [[entry [se |]] |]; [moves | |].
  { destruct entry; [moves |]. pose proof (stale_or_502_moved ev 30 h w key) as Hs. by destruct (stale_or_502 ev 30 h w key). }
  unfold fetchAndServeStreaming. destruct (Fetch _ _ _ _ _ _ _) as [o [err | resp]] eqn:Ef.
  { pose proof (stale_or_502_moved ev 30 (with_origin o h) w key) as Hs. destruct (stale_or_502 _ _ _ _ _) as [h1 w1]. cbn [fst o_cdn] in *.
    apply (cdn_moved_trans _ (with_origin o h)); [moves | done]. }
  destruct (determineTTL _ _) as [ttl swr]. destruct (cacheable _ _).
  - destruct (write_chunks _ _ _ _) as [se |]; [| moves].
    destruct (ToEntry _ _ _ _ _ _ _) as [[e |] |]; [| moves | moves].
    destruct (put_both _ _ _ _ _ _) as [c e1] eqn:Ep. moves.
  - parts. destruct (h_predictor h) as [p |] eqn:Epr; split; try done; split; unfold cdn_plane; parts; rewrite ?Epr; eauto with moved.
Qed.

Lemma serveByteRange_moved {W} `{Writer W} ev h (w : W) r rh : cdn_moved h (o_cdn (serveByteRange ev h w r rh)).
Proof.
  unfold serveByteRange, proxyPassthrough. destruct (Get _ _ _) as [c [e |]] eqn:Eg.
  - destruct (parseRange _ _) as [[s e'] |]; [moves |]. destruct (Fetch _ _ _ _ _ _ _) as [o [err | resp]] eqn:Ef; moves.
  - destruct (Fetch _ _ _ _ _ _ _) as [o [err | resp]] eqn:Ef; [moves |]. destruct (determineTTL _ _) as [ttl swr].
    destruct (cacheable _ _); [| moves]. destruct (put_both _ _ _ _ _ _) as [c1 e1] eqn:Ep.
    destruct (parseRange _ _) as [[s e'] |]; moves.
Qed.

Lemma cache_lookup_moved ev c r key : cache_moved c (cache_lookup ev c r key).1.
Proof.
  unfold cache_lookup. destruct (Get _ _ _) as [c1 [e |]] eqn:Eg; cbn; eauto with moved.
  destruct (String.eqb _ ""); cbn; eauto with moved. destruct (String.eqb _ "*"); cbn; eauto with moved.
  destruct (String.eqb _ key); cbn; eauto with moved. destruct (Get (after 5 ev) _ _) as [c2 e2] eqn:Eg2; cbn; eauto with moved.
Qed.

(** Whatever a request is and however it ends, the parts moved by their own operations. *)
Lemma ServeHTTP_moved {W} `{Writer W} ev h (w : W) r : cdn_moved h (o_cdn (ServeHTTP ev h w r)).
Proof.
  unfold ServeHTTP. destruct (_ && _); [moves |]. destruct (negb (isValidPath _)); [moves |].
  destruct (String.eqb (r_Host r) ""); [moves |]. destruct (negb (String.eqb _ "")); [apply serveByteRange_moved |].
  match goal with |- context [match h_predictor h with Some _ => _ | None => _ end] =>
    destruct (match h_predictor h with Some p => let '(p, b) := IsLikelyUncacheable p _ in (Some p, b) | None => (None, false) end)
      as [p likely] eqn:Ep end.
  assert (Hp : cdn_moved h (with_predictor p h)).
  { split; [done | split; unfold cdn_plane; parts; eauto with moved]. destruct (h_predictor h) as [q |]; [| by injection Ep as <- _].
    destruct (IsLikelyUncacheable q _) as [q' b] eqn:Eq. injection Ep as <- _. eauto with moved. }
  destruct likely; [exact (cdn_moved_trans _ _ _ Hp (fetchAndServe_moved _ _ _ _ _)) |].
  destruct (hasCacheDirective _ "no-cache"); [exact (cdn_moved_trans _ _ _ Hp (fetchAndServe_moved _ _ _ _ _)) |].
  match goal with |- context [cache_lookup ?a ?b ?c ?d] => pose proof (cache_lookup_moved a b c d) as Hl; destruct (cache_lookup a b c d) as [c1 found] end.
  cbn [fst] in Hl.
  assert (Hc : cdn_moved h (with_cache c1 (with_predictor p h))).
  { apply (cdn_moved_trans _ _ _ Hp). split; [done | split; unfold cdn_plane; parts; [exact Hl | |]; eauto with moved]. }
  destruct found; [exact (cdn_moved_trans _ _ _ Hc (fetchAndServe_moved _ _ _ _ _)) | by rewrite serve_cached_cdn |
    exact (cdn_moved_trans _ _ _ Hc (fetchAndServe_moved _ _ _ _ _))].
Qed.

Lemma revalidateAsync_moved ev h rv : cdn_moved h (revalidateAsync ev h rv).
Proof.
  unfold revalidateAsync. destruct (Fetch _ _ _ _ _ _ _) as [o [err | resp]] eqn:Ef; [moves |].
  destruct (500 <=? _); [moves |]. destruct (determineTTL _ _) as [ttl swr]. destruct (_ || _); [moves |].
  match goal with |- context [put_both ?a ?b ?c ?d ?e ?f] => destruct (put_both a b c d e f) as [c1 e1] eqn:Ep end. moves.
Qed.

End single.

(** ** The multi-tenant handler *)

Definition mt_plane (h : MultiTenantCDN) : plane := {| pl_cache := mt_cache h; pl_origin := mt_origin h; pl_predictor := mt_predictor h |}.

Section multi.
Context `{Hash64} `{HeaderCodec} `{DiskWorld} `{Unicode} `{HttpClient}.

Definition mt_moved (h h' : MultiTenantCDN) : Prop :=
  mt_config h' = mt_config h /\ mt_defaultTTL h' = mt_defaultTTL h /\ moved (mt_plane h) (mt_plane h').

Ltac moves := split; [done | split; [done | split]]; unfold mt_plane; parts; eauto with moved.

Lemma mt_moved_trans h1 h2 h3 : mt_moved h1 h2 -> mt_moved h2 h3 -> mt_moved h1 h3.
Proof. intros (E & D & M) (E' & D' & M'). split_and!; [congruence | congruence | by etransitivity]. Qed.

Lemma mtProxyPassthrough_moved {W} `{Writer W} ev h (w : W) r d : mt_moved h (mtProxyPassthrough ev h w r d).1.
Proof. unfold mtProxyPassthrough, mtProxyPassthrough_fetched. destruct (Fetch _ _ _ _ _ _ _) as [o [err | resp]] eqn:Ef; moves. Qed.

Lemma mtFetchAndServe_moved {W} `{Writer W} ev h (w : W) r d key rules : mt_moved h (mtFetchAndServe ev h w r d key rules).1.
Proof.
  unfold mtFetchAndServe, mtFetchAndServe_fetched. destruct (Fetch _ _ _ _ _ _ _) as [o [err | resp]] eqn:Ef.
  { match goal with |- context [Get ?a ?b ?c] => destruct (Get a b c) as [c1 e] eqn:Eg end. moves. }
  destruct (mtDetermineTTL _ _ _ _ _) as [ttl swr]. destruct (cacheable _ _).
  - match goal with |- context [put_both ?a ?b ?c ?d ?e ?f] => destruct (put_both a b c d e f) as [c1 e1] eqn:Ep end. moves.
  - parts. destruct (mt_predictor h) as [p |] eqn:Epr; split; try done; split; try done; split; unfold mt_plane; parts; rewrite ?Epr; eauto with moved.
Qed.

Lemma mtServeByteRange_moved {W} `{Writer W} ev h (w : W) r d rh : mt_moved h (mtServeByteRange ev h w r d rh).1.
Proof.
  unfold mtServeByteRange, mtServeByteRange_fetched. destruct (Get _ _ _) as [c [e |]] eqn:Eg.
  - destruct (parseRange _ _) as [[s e'] |]; [moves |].
    apply (mt_moved_trans _ (mt_with_cache c h)); [moves | apply mtProxyPassthrough_moved].
  - destruct (Fetch _ _ _ _ _ _ _) as [o [err | resp]] eqn:Ef; [moves |]. destruct (mtDetermineTTL _ _ _ _ _) as [ttl swr].
    destruct (cacheable _ _); [| moves].
    match goal with |- context [put_both ?a ?b ?c ?d ?e ?f] => destruct (put_both a b c d e f) as [c1 e1] eqn:Ep end.
    destruct (parseRange _ _) as [[s e'] |]; moves.
Qed.

Lemma mt_lookup_moved ev c r key : cache_moved c (mt_lookup ev c r key).1.
Proof.
  unfold mt_lookup. destruct (Get _ _ _) as [c1 [e |]] eqn:Eg; cbn [fst]; eauto with moved.
  destruct (_ && _); cbn [fst]; eauto with moved. destruct (negb _); cbn [fst]; eauto with moved.
  match goal with |- context [Get ?a ?b ?c] => destruct (Get a b c) as [c2 e2] eqn:Eg2 end. eauto with moved.
Qed.

Lemma mt_ServeHTTP_moved {W} `{Writer W} ev h (w : W) r : mt_moved h (mt_ServeHTTP ev h w r).1.
Proof.
  unfold mt_ServeHTTP. destruct (_ && _); [moves |]. destruct (negb (mtIsValidPath _)); [moves |].
  destruct (String.eqb _ ""); [moves |]. destruct (lookupDomain _ _) as [d |]; [| moves]. destruct (negb (d_Active d)); [moves |].
  destruct (negb (String.eqb _ "")); [apply mtServeByteRange_moved |]. destruct (bypassed _ _); [apply mtProxyPassthrough_moved |].
  destruct (match mt_predictor h with Some p => let '(p, b) := IsLikelyUncacheable p _ in (Some p, b) | None => (None, false) end)
    as [p likely] eqn:Ep.
  assert (Hp : mt_moved h (EnablePredictor h p)).
  { split; [done | split; [done | split; unfold mt_plane; parts; eauto with moved]]. destruct (mt_predictor h) as [q |]; [| by injection Ep as <- _].
    destruct (IsLikelyUncacheable q _) as [q' b] eqn:Eq. injection Ep as <- _. eauto with moved. }
  destruct likely; [exact (mt_moved_trans _ _ _ Hp (mtFetchAndServe_moved _ _ _ _ _ _ _)) |].
  destruct (hasCacheDirective _ "no-cache"); [exact (mt_moved_trans _ _ _ Hp (mtFetchAndServe_moved _ _ _ _ _ _ _)) |].
  match goal with |- context [mt_lookup ?a ?b ?c ?d] => pose proof (mt_lookup_moved a b c d) as Hl; destruct (mt_lookup a b c d) as [c1 found] end.
  cbn [fst] in Hl.
  assert (Hc : mt_moved h (mt_with_cache c1 (EnablePredictor h p))).
  { apply (mt_moved_trans _ _ _ Hp). split; [done | split; [done | split; unfold mt_plane; parts; [exact Hl | |]; eauto with moved]]. }
  destruct found; [exact Hc | exact (mt_moved_trans _ _ _ Hc (mtFetchAndServe_moved _ _ _ _ _ _ _))].
Qed.

End multi.

(** ** Warming *)

Section warming.
Context `{Hash64} `{HeaderCodec} `{DiskWorld} `{Unicode} `{HttpClient}.

Lemma warmURL_moved ev etag c o cfg u : let '(c', o', _) := warmURL ev etag c o cfg u in cache_moved c c' /\ origin_moved o o'.
Proof.
  unfold warmURL. destruct (Fetch _ _ _ _ _ _ _) as [o1 [err | resp]] eqn:Ef; [split; eauto with moved |].
  destruct (400 <=? _); [split; eauto with moved |]. destruct (_ || _); [split; eauto with moved |].
  split; [apply Put_moved | eauto with moved].
Qed.

Lemma warm_all_moved clk i c o cfg urls : let '(c', o', _) := warm_all clk i c o cfg urls in cache_moved c c' /\ origin_moved o o'.
Proof.
  revert i c o. induction urls as [| u urls IH]; intros i c o; cbn [warm_all]; [done |].
  pose proof (warmURL_moved (clk i).1 (clk i).2 c o cfg u) as Hu. destruct (warmURL _ _ _ _ _ _) as [[c1 o1] st].
  specialize (IH (S i) c1 o1). destruct (warm_all clk (S i) c1 o1 cfg urls) as [[c2 o2] sts].
  destruct Hu, IH. split; by etransitivity.
Qed.

Lemma Warm_moved {W} `{Writer W} clk c o cfg (w : W) method urls encode :
  let '(c', o', _) := Warm_ServeHTTP clk c o cfg w method urls encode in cache_moved c c' /\ origin_moved o o'.
Proof.
  unfold Warm_ServeHTTP. destruct (negb _); [done |]. destruct urls as [[| u urls] |]; [done | | done].
  destruct (1000 <? _); [done |]. pose proof (warm_all_moved clk 0 c o cfg (u :: urls)) as Hw.
  by destruct (warm_all _ _ _ _ _ _) as [[c1 o1] sts].
Qed.

End warming.
