(* ===== verification/Store.v ===== *)
(** * The control plane's store ([controlplane/store/store.go])

    Tenants, domains, cache rules and edge nodes in maps, written as one JSON file after
    every change. Every method runs under [s.mu], so it is one step. The JSON codec is
    the interface [StoreJson]; random bytes, instants and the outcome of the write are what
    the environment of a call provides. A [range] over a map visits its entries
    in an order of its own: [RangeOrder] stands for any. Maps of a loaded file are taken
    to be present. *)

From S2P Require Import Prelude GoStrings Tenant Codec.

Local Open Scope Z_scope.

Record storeData := {
  sd_Version : Z;
  sd_Tenants : gmap string Tenant;
  sd_Domains : gmap string Domain;
  sd_CacheRules : gmap string CacheRule;
  sd_EdgeNodes : gmap string EdgeNode
}.

Record Store := { s_data : storeData; s_file : option string }.

Class StoreJson := {
  Marshal_store : storeData -> option string;
  Unmarshal_store : string -> option storeData;
  store_textual : storeData -> Prop      (* every string is valid UTF-8 *)
}.

(** [encoding/json] gives back what it encoded. *)
Class StoreJsonLaws `{StoreJson} : Prop := {
  store_json_roundtrip : forall sd s, store_textual sd -> Marshal_store sd = Some s -> Unmarshal_store s = Some sd
}.

Class RangeOrder := {
  range_ : forall {A}, gmap string A -> list (string * A);
  range_perm : forall {A} (m : gmap string A), range_ m ≡ₚ map_to_list m
}.

(** The outcome of [os.WriteFile]; a failure may have truncated the file. *)
Inductive write_result := Written | WriteFailed (leftover : option string).

(** The 12 and 24 bytes [rand.Read] gives, the clock, and the write. *)
Record store_io := { si_id_random : list Z; si_key_random : list Z; si_clk : nat -> Z; si_wr : write_result }.

Definition genID (random : list Z) : string := EncodeToString random.
Definition genAPIKey (random : list Z) : string := "cdnk_" +:+ EncodeToString random.
Definition si_id (io : store_io) : string := genID (si_id_random io).
Definition si_key (io : store_io) : string := genAPIKey (si_key_random io).

Inductive store_err := ErrTenantNotFound (id : string) | ErrDomainNotFound (id : string) | ErrRuleNotFound (id : string)
  | ErrEdgeNotFound (id : string) | ErrHostnameTaken (hostname : string) | ErrInvalidKey | ErrSave.

Inductive open_err := OpenDir (err : string) | OpenRead (err : string) | OpenParse.

Definition sd_empty : storeData :=
  {| sd_Version := 0; sd_Tenants := ∅; sd_Domains := ∅; sd_CacheRules := ∅; sd_EdgeNodes := ∅ |}.

Definition set_tenants (m : gmap string Tenant) (sd : storeData) : storeData :=
  {| sd_Version := sd_Version sd; sd_Tenants := m; sd_Domains := sd_Domains sd;
     sd_CacheRules := sd_CacheRules sd; sd_EdgeNodes := sd_EdgeNodes sd |}.
Definition set_domains (m : gmap string Domain) (sd : storeData) : storeData :=
  {| sd_Version := sd_Version sd; sd_Tenants := sd_Tenants sd; sd_Domains := m;
     sd_CacheRules := sd_CacheRules sd; sd_EdgeNodes := sd_EdgeNodes sd |}.
Definition set_rules (m : gmap string CacheRule) (sd : storeData) : storeData :=
  {| sd_Version := sd_Version sd; sd_Tenants := sd_Tenants sd; sd_Domains := sd_Domains sd;
     sd_CacheRules := m; sd_EdgeNodes := sd_EdgeNodes sd |}.
Definition set_edges (m : gmap string EdgeNode) (sd : storeData) : storeData :=
  {| sd_Version := sd_Version sd; sd_Tenants := sd_Tenants sd; sd_Domains := sd_Domains sd;
     sd_CacheRules := sd_CacheRules sd; sd_EdgeNodes := m |}.

Section store.
Context `{StoreJson} `{RangeOrder}.

(** [load]: [None] when the file does not parse. *)
Definition OpenStore (file : option string) : option Store :=
  match file with
  | None => Some {| s_data := sd_empty; s_file := None |}
  | Some data =>
      match Unmarshal_store data with
      | None => None
      | Some sd => Some {| s_data := sd; s_file := file |}
      end
  end.

(** [New] on a directory: the error of [os.MkdirAll], and of reading the file or its content. *)
Definition New (mkdir : option string) (read : string + option string) : open_err + Store :=
  match mkdir, read with
  | Some err, _ => inl (OpenDir err)
  | None, inl err => inl (OpenRead err)
  | None, inr file => match OpenStore file with None => inl OpenParse | Some s => inr s end
  end.

(** [save] after the data has become [sd]. *)
Definition save (wr : write_result) (s : Store) (sd : storeData) : Store * option store_err :=
  let sd := {| sd_Version := i64 (sd_Version sd + 1); sd_Tenants := sd_Tenants sd; sd_Domains := sd_Domains sd;
               sd_CacheRules := sd_CacheRules sd; sd_EdgeNodes := sd_EdgeNodes sd |} in
  match Marshal_store sd with
  | None => ({| s_data := sd; s_file := s_file s |}, Some ErrSave)
  | Some data =>
      match wr with
      | Written => ({| s_data := sd; s_file := Some data |}, None)
      | WriteFailed leftover => ({| s_data := sd; s_file := leftover |}, Some ErrSave)
      end
  end.

(** ** Tenants *)

Definition CreateTenant (io : store_io) (s : Store) (name : string) : Store * option Tenant * option store_err :=
  let t := {| t_ID := si_id io; t_Name := name; t_CreatedAt := si_clk io 0; t_UpdatedAt := si_clk io 1;
              t_Active := true; t_APIKey := si_key io |} in
  let '(s, err) := save (si_wr io) s (set_tenants (<[t_ID t := t]> (sd_Tenants (s_data s))) (s_data s)) in
  (s, Some t, err).

Definition GetTenant (s : Store) (id : string) : store_err + Tenant :=
  match sd_Tenants (s_data s) !! id with Some t => inr t | None => inl (ErrTenantNotFound id) end.

Definition ListTenants (s : Store) : list Tenant := (range_ (sd_Tenants (s_data s))).*2.

(** [for rid, r := range CacheRules { if r.DomainID == did { delete(CacheRules, rid) } }] *)
Definition delete_rules_of (did : string) (rules : gmap string CacheRule) : gmap string CacheRule :=
  foldl (fun m kr => if String.eqb (cr_DomainID kr.2) did then delete kr.1 m else m) rules (range_ rules).

(** One round of the loop of [DeleteTenant]. *)
Definition drop_domain_of (id : string) (sd : storeData) (kd : string * Domain) : storeData :=
  if String.eqb (d_TenantID kd.2) id
  then set_domains (delete kd.1 (sd_Domains sd)) (set_rules (delete_rules_of kd.1 (sd_CacheRules sd)) sd)
  else sd.

Definition DeleteTenant (io : store_io) (s : Store) (id : string) : Store * option store_err :=
  match sd_Tenants (s_data s) !! id with
  | None => (s, Some (ErrTenantNotFound id))
  | Some _ =>
      let sd := foldl (drop_domain_of id) (s_data s) (range_ (sd_Domains (s_data s))) in
      save (si_wr io) s (set_tenants (delete id (sd_Tenants sd)) sd)
  end.

Definition GetTenantByAPIKey (s : Store) (key : string) : store_err + Tenant :=
  match List.find (fun kt => String.eqb (t_APIKey kt.2) key) (range_ (sd_Tenants (s_data s))) with
  | Some kt => inr kt.2
  | None => inl ErrInvalidKey
  end.

(** ** Domains *)

(** What [CreateDomain] fills in. *)
Definition new_domain (io : store_io) (d : Domain) : Domain :=
  {| d_ID := si_id io; d_TenantID := d_TenantID d; d_Hostname := d_Hostname d; d_OriginURL := d_OriginURL d;
     d_OriginHost := d_OriginHost d; d_OriginTimeout := d_OriginTimeout d;
     d_DefaultTTLSec := if d_DefaultTTLSec d =? 0 then 300 else d_DefaultTTLSec d;
     d_MaxCacheEntryBytes := d_MaxCacheEntryBytes d; d_RespectOriginHeaders := d_RespectOriginHeaders d;
     d_CORSOrigins := d_CORSOrigins d; d_CORSMaxAge := d_CORSMaxAge d;
     d_TLSMode := if String.eqb (d_TLSMode d) "" then "managed" else d_TLSMode d;
     d_TLSCert := d_TLSCert d; d_TLSKey := d_TLSKey d; d_TLSAcmeDNS := d_TLSAcmeDNS d;
     d_RateLimitRPS := d_RateLimitRPS d; d_RateLimitBurst := d_RateLimitBurst d; d_Active := true;
     d_CreatedAt := si_clk io 0; d_UpdatedAt := si_clk io 1 |}.

Definition CreateDomain (io : store_io) (s : Store) (d : Domain) : Store * option Domain * option store_err :=
  match sd_Tenants (s_data s) !! d_TenantID d with
  | None => (s, None, Some (ErrTenantNotFound (d_TenantID d)))
  | Some _ =>
      if existsb (fun kd => String.eqb (d_Hostname kd.2) (d_Hostname d)) (range_ (sd_Domains (s_data s)))
      then (s, None, Some (ErrHostnameTaken (d_Hostname d)))
      else
        let d := new_domain io d in
        let '(s, err) := save (si_wr io) s (set_domains (<[d_ID d := d]> (sd_Domains (s_data s))) (s_data s)) in
        (s, Some d, err)
  end.

Definition GetDomain (s : Store) (id : string) : store_err + Domain :=
  match sd_Domains (s_data s) !! id with Some d => inr d | None => inl (ErrDomainNotFound id) end.

Definition GetDomainByHostname (s : Store) (hostname : string) : store_err + Domain :=
  match List.find (fun kd => String.eqb (d_Hostname kd.2) hostname) (range_ (sd_Domains (s_data s))) with
  | Some kd => inr kd.2
  | None => inl (ErrDomainNotFound hostname)
  end.

Definition ListDomains (s : Store) (tenantID : string) : list Domain :=
  List.filter (fun d => String.eqb tenantID "" || String.eqb (d_TenantID d) tenantID) (range_ (sd_Domains (s_data s))).*2.

Definition set_UpdatedAt (now : Z) (d : Domain) : Domain :=
  {| d_ID := d_ID d; d_TenantID := d_TenantID d; d_Hostname := d_Hostname d; d_OriginURL := d_OriginURL d;
     d_OriginHost := d_OriginHost d; d_OriginTimeout := d_OriginTimeout d; d_DefaultTTLSec := d_DefaultTTLSec d;
     d_MaxCacheEntryBytes := d_MaxCacheEntryBytes d; d_RespectOriginHeaders := d_RespectOriginHeaders d;
     d_CORSOrigins := d_CORSOrigins d; d_CORSMaxAge := d_CORSMaxAge d; d_TLSMode := d_TLSMode d;
     d_TLSCert := d_TLSCert d; d_TLSKey := d_TLSKey d; d_TLSAcmeDNS := d_TLSAcmeDNS d;
     d_RateLimitRPS := d_RateLimitRPS d; d_RateLimitBurst := d_RateLimitBurst d; d_Active := d_Active d;
     d_CreatedAt := d_CreatedAt d; d_UpdatedAt := now |}.

Definition UpdateDomain (io : store_io) (s : Store) (d : Domain) : Store * option store_err :=
  match sd_Domains (s_data s) !! d_ID d with
  | None => (s, Some (ErrDomainNotFound (d_ID d)))
  | Some _ =>
      save (si_wr io) s (set_domains (<[d_ID d := set_UpdatedAt (si_clk io 0) d]> (sd_Domains (s_data s))) (s_data s))
  end.

Definition DeleteDomain (io : store_io) (s : Store) (id : string) : Store * option store_err :=
  match sd_Domains (s_data s) !! id with
  | None => (s, Some (ErrDomainNotFound id))
  | Some _ =>
      save (si_wr io) s (set_domains (delete id (sd_Domains (s_data s)))
                           (set_rules (delete_rules_of id (sd_CacheRules (s_data s))) (s_data s)))
  end.

(** ** Cache rules *)

Definition CreateCacheRule (io : store_io) (s : Store) (r : CacheRule) : Store * option CacheRule * option store_err :=
  match sd_Domains (s_data s) !! cr_DomainID r with
  | None => (s, None, Some (ErrDomainNotFound (cr_DomainID r)))
  | Some _ =>
      let r := {| cr_ID := si_id io; cr_DomainID := cr_DomainID r; cr_PathGlob := cr_PathGlob r;
                  cr_TTLSec := cr_TTLSec r; cr_Bypass := cr_Bypass r |} in
      let '(s, err) := save (si_wr io) s (set_rules (<[cr_ID r := r]> (sd_CacheRules (s_data s))) (s_data s)) in
      (s, Some r, err)
  end.

Definition ListCacheRules (s : Store) (domainID : string) : list CacheRule :=
  List.filter (fun r => String.eqb (cr_DomainID r) domainID) (range_ (sd_CacheRules (s_data s))).*2.

Definition DeleteCacheRule (io : store_io) (s : Store) (id : string) : Store * option store_err :=
  match sd_CacheRules (s_data s) !! id with
  | None => (s, Some (ErrRuleNotFound id))
  | Some _ => save (si_wr io) s (set_rules (delete id (sd_CacheRules (s_data s))) (s_data s))
  end.

(** ** Edge nodes *)

Definition RegisterEdge (io : store_io) (s : Store) (name addr region : string) : Store * option EdgeNode * option store_err :=
  let node := {| en_ID := si_id io; en_Name := name; en_Addr := addr; en_Region := region;
                 en_LastSeen := si_clk io 0; en_Active := true |} in
  let '(s, err) := save (si_wr io) s (set_edges (<[en_ID node := node]> (sd_EdgeNodes (s_data s))) (s_data s)) in
  (s, Some node, err).

Definition ListEdges (s : Store) : list EdgeNode := (range_ (sd_EdgeNodes (s_data s))).*2.

Definition HeartbeatEdge (io : store_io) (s : Store) (id : string) : Store * option store_err :=
  match sd_EdgeNodes (s_data s) !! id with
  | None => (s, Some (ErrEdgeNotFound id))
  | Some n =>
      let n := {| en_ID := en_ID n; en_Name := en_Name n; en_Addr := en_Addr n; en_Region := en_Region n;
                  en_LastSeen := si_clk io 0; en_Active := en_Active n |} in
      save (si_wr io) s (set_edges (<[id := n]> (sd_EdgeNodes (s_data s))) (s_data s))
  end.

Definition DeleteEdge (io : store_io) (s : Store) (id : string) : Store * option store_err :=
  save (si_wr io) s (set_edges (delete id (sd_EdgeNodes (s_data s))) (s_data s)).

(** ** The snapshot for the edges *)

Definition add_domain (sd : storeData) (domains : gmap string Domain) (kd : string * Domain) : gmap string Domain :=
  if negb (d_Active kd.2) then domains
  else
    match sd_Tenants sd !! d_TenantID kd.2 with
    | None => domains
    | Some t => if negb (t_Active t) then domains else <[d_Hostname kd.2 := kd.2]> domains
    end.

Definition add_rule (rules : gmap string (list CacheRule)) (kr : string * CacheRule) : gmap string (list CacheRule) :=
  <[cr_DomainID kr.2 := default [] (rules !! cr_DomainID kr.2) ++ [kr.2]]> rules.

Definition BuildEdgeConfig (now : Z) (s : Store) : EdgeConfig :=
  let sd := s_data s in
  {| ec_Version := sd_Version sd;
     ec_Timestamp := now;
     ec_Domains := foldl (add_domain sd) ∅ (range_ (sd_Domains sd));
     ec_Rules := foldl add_rule ∅ (range_ (sd_CacheRules sd)) |}.

Definition Version (s : Store) : Z := sd_Version (s_data s).

(** ** Operations as steps *)

Inductive store_op :=
  | OCreateTenant (name : string) | ODeleteTenant (id : string)
  | OCreateDomain (d : Domain) | OUpdateDomain (d : Domain) | ODeleteDomain (id : string)
  | OCreateCacheRule (r : CacheRule) | ODeleteCacheRule (id : string)
  | ORegisterEdge (name addr region : string) | OHeartbeatEdge (id : string) | ODeleteEdge (id : string).

Definition store_step (io : store_io) (s : Store) (op : store_op) : Store * option store_err :=
  match op with
  | OCreateTenant name => let '(s, _, err) := CreateTenant io s name in (s, err)
  | ODeleteTenant id => DeleteTenant io s id
  | OCreateDomain d => let '(s, _, err) := CreateDomain io s d in (s, err)
  | OUpdateDomain d => UpdateDomain io s d
  | ODeleteDomain id => DeleteDomain io s id
  | OCreateCacheRule r => let '(s, _, err) := CreateCacheRule io s r in (s, err)
  | ODeleteCacheRule id => DeleteCacheRule io s id
  | ORegisterEdge name addr region => let '(s, _, err) := RegisterEdge io s name addr region in (s, err)
  | OHeartbeatEdge id => HeartbeatEdge io s id
  | ODeleteEdge id => DeleteEdge io s id
  end.

End store.

(** ** Lemmas on loops over maps *)

Lemma foldl_delete_lookup {A B} (f : string * A -> bool) (l : list (string * A)) (m : gmap string B) k :
  foldl (fun m x => if f x then delete x.1 m else m) m l !! k
  = if existsb (fun x => f x && String.eqb x.1 k) l then None else m !! k.
Proof.
  revert m. induction l as [| x l IH]; intros m; cbn [foldl existsb]; [done |]. rewrite IH.
  destruct (existsb (fun y => f y && _) l); [by rewrite orb_true_r |]. rewrite orb_false_r.
  destruct (f x); cbn [andb]; [| done]. destruct (String.eqb_spec x.1 k) as [<- |].
  - apply lookup_delete_eq.
  - by apply lookup_delete_ne.
Qed.

Section facts.
Context `{StoreJson} `{RangeOrder}.

Lemma range_elem {A} (m : gmap string A) k x : (k, x) ∈ range_ m <-> m !! k = Some x.
Proof. rewrite (range_perm m). apply elem_of_map_to_list. Qed.

Lemma range_nodup {A} (m : gmap string A) : NoDup (range_ m).*1.
Proof. rewrite (range_perm m). apply NoDup_fst_map_to_list. Qed.

Lemma delete_rules_of_lookup did m k r :
  delete_rules_of did m !! k = Some r <-> m !! k = Some r /\ cr_DomainID r <> did.
Proof.
  unfold delete_rules_of. rewrite foldl_delete_lookup.
  destruct (existsb _ _) eqn:E.
  - split; [done |]. intros [Hk Hne]. apply existsb_exists in E as ([k' r'] & Hin & Hx).
    apply list_elem_of_In, range_elem in Hin. cbn in Hx. apply andb_true_iff in Hx as [Hd ->%String.eqb_eq].
    apply String.eqb_eq in Hd. congruence.
  - split; [| tauto]. intros Hk. split; [done |]. intros Hd.
    apply not_true_iff_false in E. apply E, existsb_exists. exists (k, r).
    split; [by apply list_elem_of_In, range_elem |]. cbn. by rewrite Hd, !String.eqb_refl.
Qed.

(** What the loop of [DeleteTenant] leaves after the entries [l]. *)
Lemma delete_tenant_loop id l sd :
  let sd' := foldl (drop_domain_of id) sd l in
  sd_Version sd' = sd_Version sd /\ sd_Tenants sd' = sd_Tenants sd /\ sd_EdgeNodes sd' = sd_EdgeNodes sd /\
  (forall k d, sd_Domains sd' !! k = Some d <->
     sd_Domains sd !! k = Some d /\ forall x, x ∈ l -> d_TenantID x.2 = id -> x.1 <> k) /\
  (forall k r, sd_CacheRules sd' !! k = Some r <->
     sd_CacheRules sd !! k = Some r /\ forall x, x ∈ l -> d_TenantID x.2 = id -> cr_DomainID r <> x.1).
Proof.
  revert sd. induction l as [| x l IH]; intros sd; cbn [foldl].
  { split_and!; try done; intros; split; [| tauto | | tauto]; intros; (split; [done |]); by intros ? ?%not_elem_of_nil. }
  unfold drop_domain_of at 2 4 6 8 10. destruct (String.eqb_spec (d_TenantID x.2) id) as [Hx | Hx].
  - destruct (IH (set_domains (delete x.1 (sd_Domains sd)) (set_rules (delete_rules_of x.1 (sd_CacheRules sd)) sd)))
      as (Hv & Ht & He & Hd & Hr). split_and!; try done.
    + intros k d. rewrite Hd; cbn. rewrite lookup_delete_Some. setoid_rewrite elem_of_cons. naive_solver.
    + intros k r. rewrite Hr; cbn. rewrite delete_rules_of_lookup. setoid_rewrite elem_of_cons. naive_solver.
  - destruct (IH sd) as (Hv & Ht & He & Hd & Hr). split_and!; try done.
    + intros k d. rewrite Hd. setoid_rewrite elem_of_cons. naive_solver.
    + intros k r. rewrite Hr. setoid_rewrite elem_of_cons. naive_solver.
Qed.

(** ** The invariant *)

(** Identifiers are the keys, references lead somewhere, hostnames are unique. *)
Record store_wf (sd : storeData) : Prop := {
  sw_tid : forall k t, sd_Tenants sd !! k = Some t -> t_ID t = k;
  sw_did : forall k d, sd_Domains sd !! k = Some d -> d_ID d = k;
  sw_rid : forall k r, sd_CacheRules sd !! k = Some r -> cr_ID r = k;
  sw_tenant : forall k d, sd_Domains sd !! k = Some d -> is_Some (sd_Tenants sd !! d_TenantID d);
  sw_domain : forall k r, sd_CacheRules sd !! k = Some r -> is_Some (sd_Domains sd !! cr_DomainID r);
  sw_hostname : forall k k' d d', sd_Domains sd !! k = Some d -> sd_Domains sd !! k' = Some d' ->
    d_Hostname d = d_Hostname d' -> k = k'
}.

(** [genID] gives an identifier not in use. *)
Definition fresh_id (io : store_io) (sd : storeData) : Prop :=
  sd_Tenants sd !! si_id io = None /\ sd_Domains sd !! si_id io = None /\
  sd_CacheRules sd !! si_id io = None /\ sd_EdgeNodes sd !! si_id io = None.

(** What [CreateDomain] checks and [UpdateDomain] does not. *)
Definition update_checked (sd : storeData) (op : store_op) : Prop :=
  match op with
  | OUpdateDomain d => is_Some (sd_Tenants sd !! d_TenantID d) /\
      forall k d', sd_Domains sd !! k = Some d' -> d_Hostname d' = d_Hostname d -> k = d_ID d
  | _ => True
  end.

Lemma save_data wr s sd :
  s_data (save wr s sd).1 = {| sd_Version := i64 (sd_Version sd + 1); sd_Tenants := sd_Tenants sd;
    sd_Domains := sd_Domains sd; sd_CacheRules := sd_CacheRules sd; sd_EdgeNodes := sd_EdgeNodes sd |}.
Proof. unfold save. destruct (Marshal_store _); [by destruct wr | done]. Qed.

Lemma save_wf wr s sd : store_wf sd -> store_wf (s_data (save wr s sd).1).
Proof. rewrite save_data. by intros []. Qed.

Lemma set_tenants_insert_wf sd t :
  store_wf sd -> store_wf (set_tenants (<[t_ID t := t]> (sd_Tenants sd)) sd).
Proof.
  intros [Ht Hd Hr Hdt Hrd Hh]. split; cbn; try done.
  - intros k t' [[<- <-] | [_ Hk]]%lookup_insert_Some; [done | auto].
  - intros k d Hk. destruct (decide (t_ID t = d_TenantID d)) as [E | E];
      [rewrite E, lookup_insert_eq; by eexists | rewrite lookup_insert_ne by done; eauto].
Qed.

Lemma set_domains_insert_wf sd d :
  store_wf sd -> is_Some (sd_Tenants sd !! d_TenantID d) ->
  (forall k d', sd_Domains sd !! k = Some d' -> d_Hostname d' = d_Hostname d -> k = d_ID d) ->
  store_wf (set_domains (<[d_ID d := d]> (sd_Domains sd)) sd).
Proof.
  intros [Ht Hd Hr Hdt Hrd Hh] Htd Hu. split; cbn; try done.
  - intros k d' [[<- <-] | [_ Hk]]%lookup_insert_Some; [done | auto].
  - intros k d' [[<- <-] | [_ Hk]]%lookup_insert_Some; [done | eauto].
  - intros k r Hk. destruct (decide (d_ID d = cr_DomainID r)) as [E | E];
      [rewrite E, lookup_insert_eq; by eexists | rewrite lookup_insert_ne by done; eauto].
  - intros k k' d1 d2 [[<- <-] | [Hn Hk]]%lookup_insert_Some [[<- <-] | [Hn' Hk']]%lookup_insert_Some E; eauto.
    symmetry. eauto.
Qed.

Lemma set_rules_sub_wf sd m :
  store_wf sd -> m ⊆ sd_CacheRules sd -> store_wf (set_rules m sd).
Proof.
  intros [Ht Hd Hr Hdt Hrd Hh] Hm. split; cbn; try done; intros k r Hk; eapply lookup_weaken in Hk; eauto.
Qed.

(** Removing domains with their rules, and tenants without domains. *)
Lemma restrict_wf sd sd' :
  store_wf sd ->
  (forall k t, sd_Tenants sd' !! k = Some t -> sd_Tenants sd !! k = Some t) ->
  (forall k d, sd_Domains sd' !! k = Some d -> sd_Domains sd !! k = Some d /\ is_Some (sd_Tenants sd' !! d_TenantID d)) ->
  (forall k r, sd_CacheRules sd' !! k = Some r -> sd_CacheRules sd !! k = Some r /\ is_Some (sd_Domains sd' !! cr_DomainID r)) ->
  store_wf sd'.
Proof.
  intros [Ht Hd Hr Hdt Hrd Hh] Ht' Hd' Hr'. split.
  - intros k t Hk. eauto.
  - intros k d Hk. destruct (Hd' k d Hk). eauto.
  - intros k r Hk. destruct (Hr' k r Hk). eauto.
  - intros k d Hk. by destruct (Hd' k d Hk).
  - intros k r Hk. by destruct (Hr' k r Hk).
  - intros k k' d d' Hk Hk'. destruct (Hd' k d Hk), (Hd' k' d' Hk'). eauto.
Qed.

Lemma DeleteTenant_wf sd id :
  store_wf sd ->
  let sd1 := foldl (drop_domain_of id) sd (range_ (sd_Domains sd)) in
  store_wf (set_tenants (delete id (sd_Tenants sd1)) sd1).
Proof.
  intros Hwf. cbv zeta. destruct (delete_tenant_loop id (range_ (sd_Domains sd)) sd) as (_ & Ht & _ & Hd & Hr).
  set (sd1 := foldl _ _ _) in *. apply (restrict_wf sd); [done | | |]; cbn.
  - rewrite Ht. by intros k t [_ ?]%lookup_delete_Some.
  - intros k d [Hk Hno]%Hd. split; [done |]. rewrite Ht, lookup_delete_ne.
    + by apply (sw_tenant sd Hwf k).
    + intros ->. by apply (Hno (k, d) ltac:(by apply range_elem) eq_refl).
  - intros k r [Hk Hno]%Hr. split; [done |]. destruct (sw_domain sd Hwf k r Hk) as [d Hdd].
    exists d. apply Hd. split; [done |]. intros x Hx Hxt E. by apply (Hno x Hx Hxt).
Qed.

Lemma store_step_wf io s op :
  store_wf (s_data s) -> fresh_id io (s_data s) -> update_checked (s_data s) op ->
  store_wf (s_data (store_step io s op).1).
Proof.
  intros Hwf (Hft & Hfd & Hfr & _) Hu. destruct op as [name | id | d | d | id | r | id | name addr region | id | id]; cbn [store_step].
  - unfold CreateTenant. rewrite (surjective_pairing (save _ _ _)). cbn [fst]. by apply save_wf, set_tenants_insert_wf.
  - unfold DeleteTenant. destruct (_ !! id); [| done]. by apply save_wf, DeleteTenant_wf.
  - unfold CreateDomain. destruct (sd_Tenants (s_data s) !! d_TenantID d) as [t |] eqn:Et; [| exact Hwf].
    destruct (existsb _ _) eqn:Ee; [done |]. rewrite (surjective_pairing (save _ _ _)). cbn [fst].
    apply save_wf, set_domains_insert_wf; [done | by exists t |].
    intros k d' Hk Hh. exfalso. apply not_true_iff_false in Ee. apply Ee, existsb_exists. exists (k, d').
    split; [by apply list_elem_of_In, range_elem |]. cbn. rewrite Hh. apply String.eqb_refl.
  - unfold UpdateDomain. destruct (_ !! d_ID d); [| done]. destruct Hu as [Htd Hh].
    apply save_wf. apply (set_domains_insert_wf _ (set_UpdatedAt (si_clk io 0) d)); done.
  - unfold DeleteDomain. destruct (_ !! id) as [old |]; [| done]. apply save_wf, (restrict_wf (s_data s)); [done | done | |]; cbn.
    + intros k d [_ Hk]%lookup_delete_Some. split; [done |]. by apply (sw_tenant _ Hwf k).
    + intros k r [Hk Hne]%delete_rules_of_lookup. split; [done |]. rewrite lookup_delete_ne by done.
      by apply (sw_domain _ Hwf k).
  - unfold CreateCacheRule. destruct (sd_Domains (s_data s) !! cr_DomainID r) as [d |] eqn:Ed; [| done].
    rewrite (surjective_pairing (save _ _ _)). cbn [fst]. apply save_wf. destruct Hwf as [Ht Hd Hr Hdt Hrd Hh].
    split; cbn; try done; intros k r' [[<- <-] | [_ Hk]]%lookup_insert_Some; cbn; eauto.
  - unfold DeleteCacheRule. destruct (_ !! id); [| done]. apply save_wf, set_rules_sub_wf; [done | apply delete_subseteq].
  - unfold RegisterEdge. rewrite (surjective_pairing (save _ _ _)). cbn [fst]. apply save_wf. by destruct Hwf.
  - unfold HeartbeatEdge. destruct (_ !! id); [| done]. apply save_wf. by destruct Hwf.
  - unfold DeleteEdge. apply save_wf. by destruct Hwf.
Qed.

End facts.

(** ** What the store guarantees *)

Section theorems.
Context `{StoreJson} `{RangeOrder}.

(** A call that gets a fresh identifier; [UpdateDomain] with what [CreateDomain] checks. *)
Definition store_trans (s s' : Store) : Prop :=
  exists io op, fresh_id io (s_data s) /\ update_checked (s_data s) op /\ s' = (store_step io s op).1.

Lemma empty_wf : store_wf sd_empty.
Proof. split; cbn; intros; simplify_map_eq. Qed.

Lemma store_step_version io s op :
  s_data (store_step io s op).1 = s_data s \/
  sd_Version (s_data (store_step io s op).1) = i64 (sd_Version (s_data s) + 1).
Proof.
  destruct op as [name | id | d | d | id | r | id | name addr region | id | id]; cbn [store_step].
  - right. unfold CreateTenant. rewrite (surjective_pairing (save _ _ _)). cbn [fst]. by rewrite save_data.
  - unfold DeleteTenant. destruct (_ !! id); [right | by left]. rewrite save_data. cbn [sd_Version set_tenants].
    by destruct (delete_tenant_loop id (range_ (sd_Domains (s_data s))) (s_data s)) as (-> & _).
  - unfold CreateDomain. destruct (sd_Tenants _ !! d_TenantID d); [| by left]. destruct (existsb _ _); [by left | right].
    rewrite (surjective_pairing (save _ _ _)). cbn [fst]. by rewrite save_data.
  - unfold UpdateDomain. destruct (_ !! d_ID d); [right; by rewrite save_data | by left].
  - unfold DeleteDomain. destruct (_ !! id); [right; by rewrite save_data | by left].
  - unfold CreateCacheRule. destruct (sd_Domains _ !! cr_DomainID r); [right | by left].
    rewrite (surjective_pairing (save _ _ _)). cbn [fst]. by rewrite save_data.
  - unfold DeleteCacheRule. destruct (_ !! id); [right; by rewrite save_data | by left].
  - right. unfold RegisterEdge. rewrite (surjective_pairing (save _ _ _)). cbn [fst]. by rewrite save_data.
  - unfold HeartbeatEdge. destruct (_ !! id); [right; by rewrite save_data | by left].
  - right. unfold DeleteEdge. by rewrite save_data.
Qed.

(** The key of every tenant is one [genAPIKey] gave. *)
Definition keys_issued (sd : storeData) : Prop := forall k t, sd_Tenants sd !! k = Some t -> exists random, t_APIKey t = genAPIKey random.

Lemma store_step_keys io s op : keys_issued (s_data s) -> keys_issued (s_data (store_step io s op).1).
Proof.
  intros Hk. assert (Hsave : forall wr sd, keys_issued sd -> keys_issued (s_data (save wr s sd).1)) by (intros wr sd; by rewrite save_data).
  destruct op as [name | id | d | d | id | r | id | name addr region | id | id]; cbn [store_step].
  - unfold CreateTenant. rewrite (surjective_pairing (save _ _ _)). cbn [fst]. apply Hsave.
    intros k t'. cbn [set_tenants sd_Tenants]. intros [[_ <-] | [_ E]]%lookup_insert_Some; [by eexists | by apply (Hk k)].
  - unfold DeleteTenant. destruct (_ !! id); [| done]. apply Hsave.
    destruct (delete_tenant_loop id (range_ (sd_Domains (s_data s))) (s_data s)) as (_ & Ht & _).
    intros k t'. cbn [set_tenants sd_Tenants]. rewrite Ht. intros [_ E]%lookup_delete_Some. by apply (Hk k).
  - unfold CreateDomain. destruct (sd_Tenants _ !! d_TenantID d); [| done]. destruct (existsb _ _); [done |].
    rewrite (surjective_pairing (save _ _ _)). by apply Hsave.
  - unfold UpdateDomain. destruct (_ !! d_ID d); [by apply Hsave | done].
  - unfold DeleteDomain. destruct (_ !! id); [by apply Hsave | done].
  - unfold CreateCacheRule. destruct (sd_Domains _ !! cr_DomainID r); [| done]. rewrite (surjective_pairing (save _ _ _)). by apply Hsave.
  - unfold DeleteCacheRule. destruct (_ !! id); [by apply Hsave | done].
  - unfold RegisterEdge. rewrite (surjective_pairing (save _ _ _)). by apply Hsave.
  - unfold HeartbeatEdge. destruct (_ !! id); [by apply Hsave | done].
  - unfold DeleteEdge. by apply Hsave.
Qed.

(** C14: Whatever is created, updated and deleted, in any order, with or without failing
    writes, identifiers are the map keys, every domain belongs to a tenant, every rule to
    a domain, and no two domains share a hostname; deleting a tenant leaves no domain of
    it and deleting a domain no rule of it. [UpdateDomain] must be given what
    [CreateDomain] checks. *)
Theorem store_invariant s s' :
  rtc store_trans s s' -> s_data s = sd_empty -> store_wf (s_data s').
Proof.
  intros Hr Hs. revert Hr. apply (rtc_invariant store_trans (fun s => store_wf (s_data s))).
  - rewrite Hs. apply empty_wf.
  - intros a b Ha (io & op & Hf & Hu & ->). by apply store_step_wf.
Qed.

(** The rules of a domain, as a multiset. *)
Definition rules_of (sd : storeData) (did : string) : list CacheRule :=
  List.filter (fun r => String.eqb (cr_DomainID r) did) (map_to_list (sd_CacheRules sd)).*2.

Lemma build_rules (l : list (string * CacheRule)) (acc : gmap string (list CacheRule)) did :
  default [] (foldl add_rule acc l !! did)
  = default [] (acc !! did) ++ List.filter (fun r => String.eqb (cr_DomainID r) did) l.*2.
Proof.
  revert acc. induction l as [| [k r] l IH]; intros acc; cbn; [by rewrite app_nil_r |]. rewrite IH. unfold add_rule; cbn.
  destruct (String.eqb_spec (cr_DomainID r) did) as [-> | Hne].
  - rewrite lookup_insert_eq. cbn. by rewrite <- app_assoc.
  - by rewrite lookup_insert_ne.
Qed.

(** Whether a domain is in the snapshot. *)
Definition servable (sd : storeData) (d : Domain) : bool :=
  d_Active d && match sd_Tenants sd !! d_TenantID d with Some t => t_Active t | None => false end.

(** The last one visited wins. *)
Lemma build_domains sd (l : list (string * Domain)) h :
  foldl (add_domain sd) ∅ l !! h
  = snd <$> List.find (fun kd => servable sd kd.2 && String.eqb (d_Hostname kd.2) h) (rev l).
Proof.
  induction l as [| [k d] l IH] using rev_ind; [done |]. rewrite foldl_app, rev_app_distr. cbn.
  unfold add_domain at 1, servable at 1; cbn. destruct (d_Active d); cbn [negb andb]; [| done].
  destruct (sd_Tenants sd !! d_TenantID d) as [t |]; [| done]. destruct (t_Active t); cbn [negb andb]; [| done].
  destruct (String.eqb_spec (d_Hostname d) h) as [<- | Hne]; [apply lookup_insert_eq | by rewrite lookup_insert_ne].
Qed.

Lemma servable_spec sd d :
  servable sd d = true <-> d_Active d = true /\ exists t, sd_Tenants sd !! d_TenantID d = Some t /\ t_Active t = true.
Proof. unfold servable. rewrite andb_true_iff. destruct (sd_Tenants sd !! d_TenantID d); naive_solver. Qed.

(** Without the invariant: a hostname is routed to one of the domains that have it. *)
Lemma BuildEdgeConfig_routes now s h :
  match ec_Domains (BuildEdgeConfig now s) !! h with
  | Some d => exists k t, sd_Domains (s_data s) !! k = Some d /\ d_Hostname d = h /\ d_Active d = true /\
      sd_Tenants (s_data s) !! d_TenantID d = Some t /\ t_Active t = true
  | None => forall k d t, ~ (sd_Domains (s_data s) !! k = Some d /\ d_Hostname d = h /\ d_Active d = true /\
      sd_Tenants (s_data s) !! d_TenantID d = Some t /\ t_Active t = true)
  end.
Proof.
  unfold BuildEdgeConfig; cbn [ec_Domains]. rewrite build_domains.
  destruct (List.find _ _) as [[k d] |] eqn:Ef; cbn.
  - apply find_some in Ef as [Hin Hb]. apply in_rev, list_elem_of_In, range_elem in Hin.
    apply andb_true_iff in Hb as [(Ha & t & Ht & Hta)%servable_spec He%String.eqb_eq]. by exists k, t.
  - intros k d t (Hk & Hh & Ha & Ht & Hta). pose proof (find_none _ _ Ef (k, d)) as Hn. cbn in Hn.
    rewrite Hh, String.eqb_refl, andb_true_r, (proj2 (servable_spec _ d)) in Hn by eauto.
    discriminate Hn. by apply in_rev; rewrite rev_involutive; apply list_elem_of_In, range_elem.
Qed.

Lemma BuildEdgeConfig_domains now s h d :
  store_wf (s_data s) ->
  ec_Domains (BuildEdgeConfig now s) !! h = Some d <->
    exists k t, sd_Domains (s_data s) !! k = Some d /\ d_Hostname d = h /\ d_Active d = true /\
      sd_Tenants (s_data s) !! d_TenantID d = Some t /\ t_Active t = true.
Proof.
  intros Hwf. pose proof (BuildEdgeConfig_routes now s h) as Hr. split; [by intros E; rewrite E in Hr |].
  intros (k & t & Hk & Hh & Ha & Ht & Hta). destruct (ec_Domains _ !! h) as [d' |]; [| by destruct (Hr k d t)].
  destruct Hr as (k' & t' & Hk' & Hh' & _). f_equal.
  assert (k' = k) as -> by (apply (sw_hostname _ Hwf _ _ d' d); congruence). congruence.
Qed.

(** The domain has the hostname, is active, and its tenant is active. *)
Definition serves (sd : storeData) (h : string) (d : Domain) : Prop :=
  exists k t, sd_Domains sd !! k = Some d /\ d_Hostname d = h /\ d_Active d = true /\
    sd_Tenants sd !! d_TenantID d = Some t /\ t_Active t = true.

(** C15: The snapshot built for the edges routes exactly the hostnames that some domain
    serves, being active and its tenant too; it routes each to a domain that serves it,
    which leaves no choice when identifiers are keys and hostnames are unique
    ([store_wf], which updates can break); it lists for each domain exactly its rules,
    and carries the store's version. *)
Theorem BuildEdgeConfig_spec now s :
  let cfg := BuildEdgeConfig now s in let sd := s_data s in
  ec_Version cfg = sd_Version sd /\
  (forall h, is_Some (ec_Domains cfg !! h) <-> exists d, serves sd h d) /\
  (forall h d, ec_Domains cfg !! h = Some d -> serves sd h d) /\
  (store_wf sd -> forall h d, ec_Domains cfg !! h = Some d <-> serves sd h d) /\
  (forall did, default [] (ec_Rules cfg !! did) ≡ₚ rules_of sd did).
Proof.
  cbv zeta. pose proof (BuildEdgeConfig_routes now s) as Hr.
  assert (Hsound : forall h d, ec_Domains (BuildEdgeConfig now s) !! h = Some d -> serves (s_data s) h d).
  { intros h d E. specialize (Hr h). rewrite E in Hr. destruct Hr as (k & t & Hr). by exists k, t. }
  split; [done |]. split; [| split; [done |]]; [| split].
  - intros h. split; [intros [d E]; exists d; by apply Hsound |]. intros [d (k & t & Hd)]. specialize (Hr h).
    destruct (ec_Domains _ !! h) as [d' |]; [done |]. by destruct (Hr k d t).
  - intros Hwf h d. by apply BuildEdgeConfig_domains.
  - intros did. unfold BuildEdgeConfig; cbn [ec_Rules]. rewrite build_rules. cbn [default app].
    rewrite lookup_empty. cbn. unfold rules_of. by rewrite (range_perm (sd_CacheRules (s_data s))).
Qed.

(** An operation does nothing, or changes the data and saves them, whatever the outcome of
    the write. *)
Definition with_wr (wr : write_result) (io : store_io) : store_io :=
  {| si_id_random := si_id_random io; si_key_random := si_key_random io; si_clk := si_clk io; si_wr := wr |}.

Lemma save_created {A} wr s sd (x : A) :
  (let '(s1, _, err) := (let '(s2, err) := save wr s sd in (s2, x, err)) in (s1, err)) = save wr s sd.
Proof. by destruct (save wr s sd). Qed.

Lemma store_step_save io s op :
  (exists err, err <> ErrSave /\ forall wr, store_step (with_wr wr io) s op = (s, Some err)) \/
  exists sd, sd_Version sd = sd_Version (s_data s) /\ forall wr, store_step (with_wr wr io) s op = save wr s sd.
Proof.
  destruct op as [name | id | d | d | id | r | id | name addr region | id | id]; cbn [store_step];
    unfold CreateTenant, DeleteTenant, CreateDomain, UpdateDomain, DeleteDomain, CreateCacheRule, DeleteCacheRule,
      RegisterEdge, HeartbeatEdge, DeleteEdge, new_domain, si_id, si_key; cbn [with_wr si_id_random si_key_random si_clk si_wr];
    repeat match goal with |- context [match ?x with _ => _ end] => lazymatch x with save _ _ _ => fail | _ => destruct x end end;
    (left; by (eexists; split; [| done])) || (right; eexists; split; [| intros wr; apply save_created || done]; try done).
  cbn [sd_Version set_tenants]. by destruct (delete_tenant_loop id (range_ (sd_Domains (s_data s))) (s_data s)) as (-> & _).
Qed.

Lemma with_wr_id io : with_wr (si_wr io) io = io.
Proof. by destruct io. Qed.

(** C32: An operation on the store that succeeds is durable: if the strings of the data are
    valid UTF-8, closing the store and opening its file again gives the same tenants,
    domains, rules, nodes and version. When encoding or writing fails the call reports the
    error, yet the data in memory are exactly those a successful write would have left,
    with the next version, while the file is what the failed write left of it: the change
    is in force until a restart undoes it. Any other error leaves store and file alone. *)
Theorem store_durability `{!StoreJsonLaws} io s op :
  let '(s', err) := store_step io s op in
  match err with
  | None => store_textual (s_data s') -> OpenStore (s_file s') = Some s'
  | Some ErrSave =>
      sd_Version (s_data s') = i64 (sd_Version (s_data s) + 1) /\
      s_data s' = s_data (store_step (with_wr Written io) s op).1 /\
      s_file s' = match Marshal_store (s_data s'), si_wr io with Some _, WriteFailed leftover => leftover | _, _ => s_file s end
  | Some _ => s' = s
  end.
Proof.
  destruct (store_step_save io s op) as [(err & Hne & Hs) | [sd [Hv Hs]]].
  - specialize (Hs (si_wr io)). rewrite with_wr_id in Hs. rewrite Hs. by destruct err.
  - pose proof (Hs (si_wr io)) as Hio. rewrite with_wr_id in Hio. rewrite Hio, (Hs Written), save_data. unfold save. rewrite <- Hv.
    set (sd' := {| sd_Version := _ |}). destruct (Marshal_store sd') as [data |] eqn:Em; [destruct (si_wr io) |]; cbn [s_data s_file].
    + intros Ht. cbn. by rewrite (store_json_roundtrip _ _ Ht Em).
    + rewrite Em. by split_and!.
    + rewrite Em. by split_and!.
Qed.

End theorems.

(** ** Two domains with one hostname *)

(** An order that visits a given key last. *)
Definition last_order (key : string) : RangeOrder.
Proof.
  refine {| range_ A m := map_to_list (delete key m) ++ match m !! key with Some x => [(key, x)] | None => [] end |}.
  intros A m. destruct (m !! key) as [x |] eqn:E.
  - rewrite <- (map_to_list_delete m key x E), Permutation_app_comm. done.
  - by rewrite app_nil_r, delete_id.
Defined.

Lemma routes_last now s k d :
  sd_Domains (s_data s) !! k = Some d -> servable (s_data s) d = true ->
  ec_Domains (@BuildEdgeConfig (last_order k) now s) !! d_Hostname d = Some d.
Proof.
  intros Hk Hs. unfold BuildEdgeConfig; cbn [ec_Domains]. rewrite build_domains. cbn [range_ last_order].
  rewrite Hk, rev_app_distr. cbn. by rewrite Hs, String.eqb_refl.
Qed.

(** [UpdateDomain] checks neither the hostname nor the tenant: a domain updated to the
    hostname of another one is accepted, and the snapshot then routes the hostname to
    either of them, depending on the order in which the map is visited. *)
Theorem UpdateDomain_hijacks `{StoreJson} now io s d old victim key :
  sd_Domains (s_data s) !! d_ID d = Some old -> sd_Domains (s_data s) !! key = Some victim -> key <> d_ID d ->
  d_Hostname d = d_Hostname victim -> servable (s_data s) d = true -> servable (s_data s) victim = true ->
  let s' := (UpdateDomain io s d).1 in
  ec_Domains (@BuildEdgeConfig (last_order (d_ID d)) now s') !! d_Hostname victim = Some (set_UpdatedAt (si_clk io 0) d) /\
  ec_Domains (@BuildEdgeConfig (last_order key) now s') !! d_Hostname victim = Some victim.
Proof.
  intros Hold Hvic Hne Hh Hs Hsv. cbv zeta. unfold UpdateDomain. rewrite Hold.
  match goal with |- context [save ?w s ?sd] => pose proof (save_data w s sd) as Hd; set (s' := (save w s sd).1) in * end.
  assert (Hserv : forall x, servable (s_data s') x = servable (s_data s) x) by (intros x; unfold servable; by rewrite Hd).
  assert (Hdom : sd_Domains (s_data s') = <[d_ID d := set_UpdatedAt (si_clk io 0) d]> (sd_Domains (s_data s))) by by rewrite Hd.
  split.
  - rewrite <- Hh. apply (routes_last now s' (d_ID d) (set_UpdatedAt (si_clk io 0) d)).
    + rewrite Hdom. apply lookup_insert_eq.
    + by rewrite Hserv.
  - apply routes_last; [rewrite Hdom, lookup_insert_ne by done; done | by rewrite Hserv].
Qed.

(** ** A concrete store *)

(** A codec that keeps only the version, enough for stores without contents. *)
#[local] Instance version_store_json : StoreJson :=
  {| Marshal_store sd := Some (if 0 <=? sd_Version sd then Itoa (sd_Version sd) else "-");
     Unmarshal_store s := (fun v => {| sd_Version := v; sd_Tenants := ∅; sd_Domains := ∅; sd_CacheRules := ∅; sd_EdgeNodes := ∅ |}) <$> Atoi s;
     store_textual sd := sd = {| sd_Version := 1; sd_Tenants := ∅; sd_Domains := ∅; sd_CacheRules := ∅; sd_EdgeNodes := ∅ |} |}.

Lemma version_store_json_laws : StoreJsonLaws.
Proof. split. intros sd s -> [= <-]. reflexivity. Qed.

#[local] Existing Instance version_store_json_laws.
#[local] Instance list_order : RangeOrder := {| range_ A m := map_to_list m; range_perm A m := reflexivity _ |}.

Definition io_of (random : list Z) : store_io := {| si_id_random := random; si_key_random := random; si_clk _ := 7; si_wr := Written |}.

(** Two tenants with a domain each. *)
Definition two_domains : Store :=
  {| s_data := {| sd_Version := 4; sd_Tenants := {["t1" := sample_tenant "t1"; "t2" := sample_tenant "t2"]};
                  sd_Domains := {["1" := sample_domain "1" "t1" "a.com" "http://origin-a";
                                  "2" := sample_domain "2" "t2" "b.com" "http://origin-b"]};
                  sd_CacheRules := ∅; sd_EdgeNodes := ∅ |}; s_file := None |}.

Lemma UpdateDomain_hijacks_witness :
  ec_Domains (@BuildEdgeConfig (last_order "1") 0 (UpdateDomain (io_of []) two_domains (sample_domain "1" "t1" "b.com" "http://evil")).1)
    !! "b.com" = Some (set_UpdatedAt 7 (sample_domain "1" "t1" "b.com" "http://evil")).
Proof.
  refine (proj1 (UpdateDomain_hijacks 0 (io_of []) two_domains (sample_domain "1" "t1" "b.com" "http://evil")
    (sample_domain "1" "t1" "a.com" "http://origin-a") (sample_domain "2" "t2" "b.com" "http://origin-b") "2" _ _ _ _ _ _));
    (vm_compute; reflexivity) || (vm_compute; discriminate).
Defined.

Lemma store_invariant_witness :
  store_wf (s_data (store_step (io_of [17]) {| s_data := sd_empty; s_file := None |} (OCreateTenant "acme")).1).
Proof.
  apply (store_invariant {| s_data := sd_empty; s_file := None |}); [| reflexivity].
  apply rtc_once. exists (io_of [17]), (OCreateTenant "acme").
  split; [split_and!; reflexivity | split; [exact I | reflexivity]].
Defined.

Lemma two_domains_wf : store_wf (s_data two_domains).
Proof.
  assert (Hk : forall k d, sd_Domains (s_data two_domains) !! k = Some d ->
    (k = "1"%string /\ d = sample_domain "1" "t1" "a.com" "http://origin-a") \/
    (k = "2"%string /\ d = sample_domain "2" "t2" "b.com" "http://origin-b")).
  { intros k d. cbn. intros [[<- <-] | [_ [<- <-]%lookup_singleton_Some]]%lookup_insert_Some; [by left | by right]. }
  split.
  - intros k t. cbn. intros [[<- <-] | [_ [<- <-]%lookup_singleton_Some]]%lookup_insert_Some; done.
  - intros k d [[-> ->] | [-> ->]]%Hk; done.
  - done.
  - intros k d [[-> ->] | [-> ->]]%Hk; by eexists.
  - done.
  - intros k k' d d' [[-> ->] | [-> ->]]%Hk [[-> ->] | [-> ->]]%Hk; done.
Qed.

(** Two domains and a rule: each hostname is routed to its domain, and the rule is listed. *)
Definition with_rule : Store :=
  {| s_data := set_rules {["r" := {| cr_ID := "r"; cr_DomainID := "1"; cr_PathGlob := "/api/*"; cr_TTLSec := 60; cr_Bypass := false |}]}%string
                 (s_data two_domains); s_file := None |}.

Lemma with_rule_wf : store_wf (s_data with_rule).
Proof.
  destruct two_domains_wf as [H1 H2 _ H4 _ H6]. split; try done.
  - intros k r. cbn. intros [<- <-]%lookup_singleton_Some. done.
  - intros k r. cbn. intros [<- <-]%lookup_singleton_Some. by eexists.
Qed.

Lemma BuildEdgeConfig_spec_witness :
  ec_Domains (BuildEdgeConfig 9 with_rule) !! "a.com"%string = Some (sample_domain "1" "t1" "a.com" "http://origin-a") /\
  cr_PathGlob <$> default [] (ec_Rules (BuildEdgeConfig 9 with_rule) !! "1"%string) = ["/api/*"%string] /\
  ec_Version (BuildEdgeConfig 9 with_rule) = 4.
Proof.
  destruct (BuildEdgeConfig_spec 9 with_rule) as (Hv & _ & _ & Hd & Hr). split; [| split; [| exact Hv]].
  - apply (Hd with_rule_wf). exists "1"%string, (sample_tenant "t1"). split_and!; reflexivity.
  - specialize (Hr "1"%string). change (rules_of (s_data with_rule) "1") with
      [{| cr_ID := "r"; cr_DomainID := "1"; cr_PathGlob := "/api/*"; cr_TTLSec := 60; cr_Bypass := false |}]%string in Hr.
    apply Permutation_singleton_r in Hr. rewrite Hr. reflexivity.
Defined.

(** A codec for whole stores. *)
#[local] Instance storeData_eq_dec : EqDecision storeData.
Proof. solve_decision. Defined.
#[local] Instance storeData_countable : Countable storeData.
Proof.
  refine (inj_countable
    (fun s => [encode (sd_Version s); encode (sd_Tenants s); encode (sd_Domains s); encode (sd_CacheRules s); encode (sd_EdgeNodes s)])
    (fun l => match l with
              | [a; b; c; d; e] =>
                  a ← decode a; b ← decode b; c ← decode c; d ← decode d; e ← decode e;
                  Some {| sd_Version := a; sd_Tenants := b; sd_Domains := c; sd_CacheRules := d; sd_EdgeNodes := e |}
              | _ => None
              end) _).
  intros []. cbn. repeat (rewrite decode_encode; cbn). done.
Defined.

Definition text_store_json : StoreJson :=
  {| Marshal_store sd := Some (write_text sd); Unmarshal_store := read_text; store_textual _ := True |}.

Lemma text_store_json_laws : @StoreJsonLaws text_store_json.
Proof. split. intros sd s _ [= <-]. apply read_write. Qed.

Section durable.
#[local] Existing Instances text_store_json text_store_json_laws.

(** A third tenant joins the two: written and read back; with a full disk it is in memory
    all the same, and gone after a restart. *)
Lemma store_durability_witness :
  let add wr := store_step (with_wr wr (io_of [17])) two_domains (OCreateTenant "new") in
  OpenStore (s_file (add Written).1) = Some (add Written).1 /\
  (add (WriteFailed None)).2 = Some ErrSave /\
  (t_Name <$> sd_Tenants (s_data (add (WriteFailed None)).1) !! "11"%string) = Some "new"%string /\
  s_data (add (WriteFailed None)).1 = s_data (add Written).1 /\ s_file (add (WriteFailed None)).1 = None.
Proof.
  intros add. split; [| split; [vm_compute; reflexivity | split; [vm_compute; reflexivity |]]].
  - pose proof (store_durability (with_wr Written (io_of [17])) two_domains (OCreateTenant "new")) as T.
    fold (add Written) in T. rewrite (surjective_pairing (add Written)) in T.
    assert (E : (add Written).2 = None) by (vm_compute; reflexivity). rewrite E in T. exact (T I).
  - pose proof (store_durability (with_wr (WriteFailed None) (io_of [17])) two_domains (OCreateTenant "new")) as T.
    fold (add (WriteFailed None)) in T. rewrite (surjective_pairing (add (WriteFailed None))) in T.
    assert (E : (add (WriteFailed None)).2 = Some ErrSave) by (vm_compute; reflexivity). rewrite E in T.
    destruct T as (_ & Hd & Hf). split; [exact Hd | exact Hf].
Defined.

End durable.
