(* ===== verification/Api.v ===== *)
(** * The control plane's REST API ([controlplane/api/api.go])

    Routing, authentication and every handler, on the store of [Store.v]. A request body
    is given decoded ([None] when the JSON is invalid); a response is a status and the
    value that is encoded, or the name of the wired handler the request is handed to:
    the analytics, purge and certificate handlers are set from outside ([CpServer.v]).
    [notifyConfigChange] starts a goroutine: the outcome tells whether it does. The paths are those [http.ServeMux] dispatches
    without redirecting. *)

From S2P Require Import Prelude GoStrings Paths Http Tenant Store.

Local Open Scope Z_scope.

(** The handlers a server is wired with. *)
Inductive wired_handler := AnalyticsIngest | AnalyticsQuery | PurgeHandler | CertsHandler | CertHandler.

Inductive api_value :=
  | VMsg (field msg : string)              (* [map[string]string{field: msg}] *)
  | VErr (err : store_err)
  | VTenants (l : list Tenant) | VTenant (t : Tenant)
  | VDomains (l : list Domain) | VDomain (d : Domain)
  | VRules (l : list CacheRule) | VRule (r : CacheRule)
  | VEdges (l : list EdgeNode) | VEdge (n : EdgeNode)
  | VConfig (c : EdgeConfig)
  | VNull
  | VNotFound                              (* [http.NotFound] *)
  | VWired (h : wired_handler).            (* the answer is this handler's *)

Inductive edge_body := EdgeBody (name addr region : string).

(** The decoded body, for each type a handler decodes to. *)
Record api_body := {
  ab_name : option string;
  ab_domain : option Domain;
  ab_rule : option CacheRule;
  ab_edge : option edge_body
}.

Record api_out := { ao_store : Store; ao_status : Z; ao_value : api_value; ao_notify : bool }.

(** The functions are given by whether they are set (not nil). *)
Record Server := {
  sv_adminKey : string;
  sv_onConfigChange : bool;
  sv_analyticsIngest : bool;
  sv_analyticsQuery : bool;
  sv_purgeHandler : bool;
  sv_certsHandler : bool;
  sv_certHandler : bool
}.

Definition New (adminKey : string) (onConfigChange : bool) : Server :=
  {| sv_adminKey := adminKey; sv_onConfigChange := onConfigChange; sv_analyticsIngest := false; sv_analyticsQuery := false;
     sv_purgeHandler := false; sv_certsHandler := false; sv_certHandler := false |}.
Definition SetAnalyticsHandlers (ingest query : bool) (sv : Server) : Server :=
  {| sv_adminKey := sv_adminKey sv; sv_onConfigChange := sv_onConfigChange sv; sv_analyticsIngest := ingest; sv_analyticsQuery := query;
     sv_purgeHandler := sv_purgeHandler sv; sv_certsHandler := sv_certsHandler sv; sv_certHandler := sv_certHandler sv |}.
Definition SetPurgeHandler (h : bool) (sv : Server) : Server :=
  {| sv_adminKey := sv_adminKey sv; sv_onConfigChange := sv_onConfigChange sv; sv_analyticsIngest := sv_analyticsIngest sv;
     sv_analyticsQuery := sv_analyticsQuery sv; sv_purgeHandler := h; sv_certsHandler := sv_certsHandler sv; sv_certHandler := sv_certHandler sv |}.
Definition SetCertsHandlers (listCreate single : bool) (sv : Server) : Server :=
  {| sv_adminKey := sv_adminKey sv; sv_onConfigChange := sv_onConfigChange sv; sv_analyticsIngest := sv_analyticsIngest sv;
     sv_analyticsQuery := sv_analyticsQuery sv; sv_purgeHandler := sv_purgeHandler sv; sv_certsHandler := listCreate; sv_certHandler := single |}.

Definition writeJSON (s : Store) (status : Z) (v : api_value) : api_out :=
  {| ao_store := s; ao_status := status; ao_value := v; ao_notify := false |}.
Definition notifyConfigChange (sv : Server) (out : api_out) : api_out :=
  {| ao_store := ao_store out; ao_status := ao_status out; ao_value := ao_value out; ao_notify := sv_onConfigChange sv |}.
Definition methodNotAllowed (s : Store) : api_out := writeJSON s 405 (VMsg "error" "method not allowed").

Definition lastPathSegment (path : string) : string :=
  let path := TrimRightByte path "/" in
  let i := LastIndexByte path "/" in
  if i <? 0 then path else drop_bytes (Z.to_nat (i + 1)) path.

Section api.
Context `{StoreJson} `{RangeOrder} `{UrlQuery}.

Definition extractAPIKey (r : Request) : string :=
  let key := Header_Get (r_Header r) "X-API-Key" in
  if negb (String.eqb key "") then key
  else
    let auth := Header_Get (r_Header r) "Authorization" in
    if HasPrefix auth "Bearer " then TrimPrefix auth "Bearer " else query_get (r_RawQuery r) "api_key".

(** ** Handlers *)

Definition handleTenants (io : store_io) (s : Store) (r : Request) (b : api_body) : api_out :=
  if String.eqb (r_Method r) "GET" then writeJSON s 200 (VTenants (ListTenants s))
  else if String.eqb (r_Method r) "POST" then
    match ab_name b with
    | None => writeJSON s 400 (VMsg "error" "name is required")
    | Some name =>
        if String.eqb name "" then writeJSON s 400 (VMsg "error" "name is required")
        else
          match CreateTenant io s name with
          | (s, _, Some err) => writeJSON s 500 (VErr err)
          | (s, Some t, None) => writeJSON s 201 (VTenant t)
          | (s, None, None) => writeJSON s 201 VNull
          end
    end
  else methodNotAllowed s.

Definition handleTenant (sv : Server) (io : store_io) (s : Store) (r : Request) : api_out :=
  let id := lastPathSegment (r_Path r) in
  if String.eqb (r_Method r) "GET" then
    match GetTenant s id with
    | inl err => writeJSON s 404 (VErr err)
    | inr t => writeJSON s 200 (VTenant t)
    end
  else if String.eqb (r_Method r) "DELETE" then
    match DeleteTenant io s id with
    | (s, Some err) => writeJSON s 404 (VErr err)
    | (s, None) => notifyConfigChange sv (writeJSON s 200 (VMsg "status" "deleted"))
    end
  else methodNotAllowed s.

Definition handleDomains (sv : Server) (io : store_io) (s : Store) (r : Request) (b : api_body) : api_out :=
  if String.eqb (r_Method r) "GET" then
    writeJSON s 200 (VDomains (ListDomains s (query_get (r_RawQuery r) "tenant_id")))
  else if String.eqb (r_Method r) "POST" then
    match ab_domain b with
    | None => writeJSON s 400 (VMsg "error" "invalid JSON")
    | Some d =>
        if String.eqb (d_Hostname d) "" || String.eqb (d_OriginURL d) "" || String.eqb (d_TenantID d) "" then
          writeJSON s 400 (VMsg "error" "hostname, origin_url, and tenant_id are required")
        else
          match CreateDomain io s d with
          | (s, _, Some err) => writeJSON s 400 (VErr err)
          | (s, Some d, None) => notifyConfigChange sv (writeJSON s 201 (VDomain d))
          | (s, None, None) => notifyConfigChange sv (writeJSON s 201 VNull)
          end
    end
  else methodNotAllowed s.

(** [d.ID = id] *)
Definition set_ID (id : string) (d : Domain) : Domain :=
  {| d_ID := id; d_TenantID := d_TenantID d; d_Hostname := d_Hostname d; d_OriginURL := d_OriginURL d;
     d_OriginHost := d_OriginHost d; d_OriginTimeout := d_OriginTimeout d; d_DefaultTTLSec := d_DefaultTTLSec d;
     d_MaxCacheEntryBytes := d_MaxCacheEntryBytes d; d_RespectOriginHeaders := d_RespectOriginHeaders d;
     d_CORSOrigins := d_CORSOrigins d; d_CORSMaxAge := d_CORSMaxAge d; d_TLSMode := d_TLSMode d;
     d_TLSCert := d_TLSCert d; d_TLSKey := d_TLSKey d; d_TLSAcmeDNS := d_TLSAcmeDNS d;
     d_RateLimitRPS := d_RateLimitRPS d; d_RateLimitBurst := d_RateLimitBurst d; d_Active := d_Active d;
     d_CreatedAt := d_CreatedAt d; d_UpdatedAt := d_UpdatedAt d |}.

(** [UpdateDomain] writes the time into the decoded domain, which the response then shows. *)
Definition handleDomain (sv : Server) (io : store_io) (s : Store) (r : Request) (b : api_body) : api_out :=
  let id := lastPathSegment (r_Path r) in
  if String.eqb (r_Method r) "GET" then
    match GetDomain s id with
    | inl err => writeJSON s 404 (VErr err)
    | inr d => writeJSON s 200 (VDomain d)
    end
  else if String.eqb (r_Method r) "PUT" then
    match ab_domain b with
    | None => writeJSON s 400 (VMsg "error" "invalid JSON")
    | Some d =>
        let d := set_ID id d in
        match UpdateDomain io s d with
        | (s, Some err) => writeJSON s 400 (VErr err)
        | (s, None) => notifyConfigChange sv (writeJSON s 200 (VDomain (set_UpdatedAt (si_clk io 0) d)))
        end
    end
  else if String.eqb (r_Method r) "DELETE" then
    match DeleteDomain io s id with
    | (s, Some err) => writeJSON s 404 (VErr err)
    | (s, None) => notifyConfigChange sv (writeJSON s 200 (VMsg "status" "deleted"))
    end
  else methodNotAllowed s.

Definition handleRules (sv : Server) (io : store_io) (s : Store) (r : Request) (b : api_body) : api_out :=
  if String.eqb (r_Method r) "GET" then
    writeJSON s 200 (VRules (ListCacheRules s (query_get (r_RawQuery r) "domain_id")))
  else if String.eqb (r_Method r) "POST" then
    match ab_rule b with
    | None => writeJSON s 400 (VMsg "error" "invalid JSON")
    | Some rule =>
        match CreateCacheRule io s rule with
        | (s, _, Some err) => writeJSON s 400 (VErr err)
        | (s, Some rule, None) => notifyConfigChange sv (writeJSON s 201 (VRule rule))
        | (s, None, None) => notifyConfigChange sv (writeJSON s 201 VNull)
        end
    end
  else methodNotAllowed s.

Definition handleRule (sv : Server) (io : store_io) (s : Store) (r : Request) : api_out :=
  let id := lastPathSegment (r_Path r) in
  if String.eqb (r_Method r) "DELETE" then
    match DeleteCacheRule io s id with
    | (s, Some err) => writeJSON s 404 (VErr err)
    | (s, None) => notifyConfigChange sv (writeJSON s 200 (VMsg "status" "deleted"))
    end
  else methodNotAllowed s.

Definition handleEdges (io : store_io) (s : Store) (r : Request) (b : api_body) : api_out :=
  if String.eqb (r_Method r) "GET" then writeJSON s 200 (VEdges (ListEdges s))
  else if String.eqb (r_Method r) "POST" then
    match ab_edge b with
    | None => writeJSON s 400 (VMsg "error" "invalid JSON")
    | Some (EdgeBody name addr region) =>
        match RegisterEdge io s name addr region with
        | (s, _, Some err) => writeJSON s 500 (VErr err)
        | (s, Some n, None) => writeJSON s 201 (VEdge n)
        | (s, None, None) => writeJSON s 201 VNull
        end
    end
  else methodNotAllowed s.

Definition handleEdge (io : store_io) (s : Store) (r : Request) : api_out :=
  let id := lastPathSegment (r_Path r) in
  if String.eqb (r_Method r) "DELETE" then
    match DeleteEdge io s id with
    | (s, Some err) => writeJSON s 404 (VErr err)
    | (s, None) => writeJSON s 200 (VMsg "status" "deleted")
    end
  else methodNotAllowed s.

Definition handleConfig (io : store_io) (s : Store) (r : Request) : api_out :=
  if negb (String.eqb (r_Method r) "GET") then methodNotAllowed s
  else writeJSON s 200 (VConfig (BuildEdgeConfig (si_clk io 0) s)).

(** [if s.f != nil { s.f(w, r); return }; writeJSON(w, status, v)] *)
Definition call_wired (set : bool) (h : wired_handler) (s : Store) (status : Z) (v : api_value) : api_out :=
  if set then {| ao_store := s; ao_status := 0; ao_value := VWired h; ao_notify := false |} else writeJSON s status v.

Definition handlePurge (sv : Server) (s : Store) : api_out :=
  call_wired (sv_purgeHandler sv) PurgeHandler s 200 (VMsg "status" "purge_queued").
Definition handleAnalyticsIngest (sv : Server) (s : Store) : api_out :=
  call_wired (sv_analyticsIngest sv) AnalyticsIngest s 202 (VMsg "status" "accepted").
Definition handleAnalyticsQuery (sv : Server) (s : Store) : api_out :=
  call_wired (sv_analyticsQuery sv) AnalyticsQuery s 200 (VMsg "status" "not_implemented").
Definition handleCerts (sv : Server) (s : Store) : api_out :=
  call_wired (sv_certsHandler sv) CertsHandler s 501 (VMsg "error" "certificate manager not configured").
Definition handleCert (sv : Server) (s : Store) : api_out :=
  call_wired (sv_certHandler sv) CertHandler s 501 (VMsg "error" "certificate manager not configured").

(** ** Authentication and routing *)

Definition unauthorized (s : Store) : api_out := writeJSON s 401 (VMsg "error" "unauthorized").

Definition adminAuth (sv : Server) (s : Store) (r : Request) (next : api_out) : api_out :=
  if negb (String.eqb (extractAPIKey r) (sv_adminKey sv)) then unauthorized s else next.

Definition api_auth (sv : Server) (s : Store) (r : Request) (next : api_out) : api_out :=
  let key := extractAPIKey r in
  if String.eqb key (sv_adminKey sv) then next
  else match GetTenantByAPIKey s key with inl _ => unauthorized s | inr _ => next end.

(** The patterns of [Handler]: the exact ones, then the subtrees. *)
Definition api_handler (sv : Server) (io : store_io) (s : Store) (r : Request) (b : api_body) : api_out :=
  let p := r_Path r in
  if String.eqb p "/api/v1/tenants" then adminAuth sv s r (handleTenants io s r b)
  else if String.eqb p "/api/v1/domains" then api_auth sv s r (handleDomains sv io s r b)
  else if String.eqb p "/api/v1/rules" then api_auth sv s r (handleRules sv io s r b)
  else if String.eqb p "/api/v1/edges" then adminAuth sv s r (handleEdges io s r b)
  else if String.eqb p "/api/v1/config" then handleConfig io s r
  else if String.eqb p "/api/v1/purge" then api_auth sv s r (handlePurge sv s)
  else if String.eqb p "/api/v1/analytics/ingest" then handleAnalyticsIngest sv s
  else if String.eqb p "/api/v1/analytics/query" then api_auth sv s r (handleAnalyticsQuery sv s)
  else if String.eqb p "/api/v1/certs" then adminAuth sv s r (handleCerts sv s)
  else if HasPrefix p "/api/v1/tenants/" then adminAuth sv s r (handleTenant sv io s r)
  else if HasPrefix p "/api/v1/domains/" then api_auth sv s r (handleDomain sv io s r b)
  else if HasPrefix p "/api/v1/rules/" then api_auth sv s r (handleRule sv io s r)
  else if HasPrefix p "/api/v1/edges/" then adminAuth sv s r (handleEdge io s r)
  else if HasPrefix p "/api/v1/certs/" then adminAuth sv s r (handleCert sv s)
  else writeJSON s 404 (VNotFound).

End api.

(** ** Lemmas *)

Lemma trim_right_keeps f s b : f b = false -> trim_right f (s +:+ String b "") = s +:+ String b "".
Proof.
  intros Hb. induction s as [| c s IH]; cbn; [by rewrite Hb |].
  change (s ++ String b "")%string with (s +:+ String b ""). rewrite IH. by destruct s.
Qed.

Lemma last_byte s : s <> ""%string -> exists t b, s = t +:+ String b "".
Proof.
  induction s as [| c s IH]; [done |]. intros _. destruct s as [| c' s].
  - by exists ""%string, c.
  - destruct IH as (t & b & E); [done |]. exists (String c t), b. cbn. by rewrite E.
Qed.

Lemma LastIndexByte_absent s b : no_byte b s = true -> LastIndexByte s b = -1.
Proof.
  unfold no_byte. induction s as [| c s IH]; cbn; [done |]. intros [Hc Hs]%andb_true_iff.
  rewrite IH by done. cbn. apply negb_true_iff in Hc. by rewrite Hc.
Qed.

Lemma LastIndexByte_app s t b :
  no_byte b t = true -> LastIndexByte (s +:+ String b t) b = str_len s.
Proof.
  intros Ht. induction s as [| c s IH].
  - cbn. rewrite LastIndexByte_absent by done. cbn. by rewrite Ascii.eqb_refl.
  - cbn. change (s ++ String b t)%string with (s +:+ String b t). rewrite IH.
    pose proof (str_len_nonneg s). zbool; [| lia]. unfold str_len. cbn. lia.
Qed.

Lemma no_byte_app b s t : no_byte b (s +:+ t) = no_byte b s && no_byte b t.
Proof. unfold no_byte. apply str_forall_app. Qed.

Lemma drop_bytes_app s t : drop_bytes (String.length s) (s +:+ t) = t.
Proof. induction s as [| c s IH]; [by destruct t | exact IH]. Qed.

Lemma lastPathSegment_app base id :
  id <> ""%string -> no_byte "/" id = true -> lastPathSegment (base +:+ String "/" id) = id.
Proof.
  intros Hne Hn. unfold lastPathSegment, TrimRightByte.
  assert (Ht : trim_right (Ascii.eqb "/") (base +:+ String "/" id) = base +:+ String "/" id).
  { destruct (last_byte id Hne) as (t & b & ->). rewrite no_byte_app in Hn. apply andb_true_iff in Hn as [_ Hb].
    cbn in Hb. rewrite andb_true_r in Hb. apply negb_true_iff in Hb.
    replace (base +:+ String "/" (t +:+ String b "")) with ((base +:+ String "/" t) +:+ String b "")
      by (rewrite str_app_assoc; done).
    apply trim_right_keeps. rewrite Ascii.eqb_sym. done. }
  rewrite Ht, LastIndexByte_app by done. pose proof (str_len_nonneg base). zbool; [lia |].
  replace (base +:+ String "/" id) with ((base +:+ "/") +:+ id) by (by rewrite str_app_assoc).
  replace (Z.to_nat (str_len base + 1)) with (String.length (base +:+ "/")).
  - apply drop_bytes_app.
  - pose proof (str_len_app base "/"). unfold str_len in *. cbn in *. lia.
Qed.

Section facts.
Context `{StoreJson} `{RangeOrder} `{UrlQuery}.

Lemma GetTenantByAPIKey_none s key :
  (forall k t, sd_Tenants (s_data s) !! k = Some t -> t_APIKey t <> key) ->
  GetTenantByAPIKey s key = inl ErrInvalidKey.
Proof.
  intros Hno. unfold GetTenantByAPIKey. destruct (List.find _ _) as [[k t] |] eqn:E; [| done].
  apply find_some in E as [Hin%list_elem_of_In%range_elem He%String.eqb_eq]. by destruct (Hno k t).
Qed.

Lemma GetTenantByAPIKey_some s k t :
  sd_Tenants (s_data s) !! k = Some t -> exists t', GetTenantByAPIKey s (t_APIKey t) = inr t'.
Proof.
  intros Hk. unfold GetTenantByAPIKey. destruct (List.find _ _) as [[k' t'] |] eqn:E; [by exists t' |].
  pose proof (find_none _ _ E (k, t)) as Hn. cbn in Hn. rewrite String.eqb_refl in Hn.
  discriminate Hn. by apply list_elem_of_In, range_elem.
Qed.

(** The key of the administrator or of a tenant. *)
Definition known_key (sv : Server) (s : Store) (r : Request) : Prop :=
  extractAPIKey r = sv_adminKey sv \/ exists k t, sd_Tenants (s_data s) !! k = Some t /\ t_APIKey t = extractAPIKey r.

Lemma adminAuth_refuses sv s r next : extractAPIKey r <> sv_adminKey sv -> adminAuth sv s r next = unauthorized s.
Proof. intros Hk. unfold adminAuth. by rewrite (proj2 (String.eqb_neq _ _) Hk). Qed.

Lemma api_auth_refuses sv s r next : ~ known_key sv s r -> api_auth sv s r next = unauthorized s.
Proof.
  intros Hk. unfold api_auth. rewrite (proj2 (String.eqb_neq (extractAPIKey r) (sv_adminKey sv))) by (intros E; apply Hk; by left).
  rewrite GetTenantByAPIKey_none; [done |]. intros k t Ht Et. apply Hk. right. by exists k, t.
Qed.

Lemma api_auth_passes sv s r next : known_key sv s r -> api_auth sv s r next = next.
Proof.
  unfold api_auth. intros [-> | (k & t & Ht & Ek)]; [by rewrite String.eqb_refl |]. destruct (String.eqb _ _); [done |].
  destruct (GetTenantByAPIKey_some s k t Ht) as [t' E]. rewrite <- Ek. by rewrite E.
Qed.

(** ** Requests are store operations *)

(** What one call may do to the store: nothing, or one of its operations. *)
Definition stored (io : store_io) (s s' : Store) : Prop := s' = s \/ exists op, s' = (store_step io s op).1.

Lemma stored_same io s : stored io s s.
Proof. by left. Qed.

Lemma stored_op io s s' op : (store_step io s op).1 = s' -> stored io s s'.
Proof. intros <-. right. by exists op. Qed.

(** Each handler calls at most one operation and keeps the store it returns. *)
Ltac by_op E op := apply (stored_op _ _ _ op); cbn [store_step]; by rewrite E.
Ltac stores :=
  repeat (case_match; try apply stored_same);
  match goal with
  | E : CreateTenant _ _ ?name = _ |- _ => by_op E (OCreateTenant name)
  | E : DeleteTenant _ _ ?id = _ |- _ => by_op E (ODeleteTenant id)
  | E : CreateDomain _ _ ?d = _ |- _ => by_op E (OCreateDomain d)
  | E : UpdateDomain _ _ ?d = _ |- _ => by_op E (OUpdateDomain d)
  | E : DeleteDomain _ _ ?id = _ |- _ => by_op E (ODeleteDomain id)
  | E : CreateCacheRule _ _ ?rule = _ |- _ => by_op E (OCreateCacheRule rule)
  | E : DeleteCacheRule _ _ ?id = _ |- _ => by_op E (ODeleteCacheRule id)
  | E : RegisterEdge _ _ ?name ?addr ?region = _ |- _ => by_op E (ORegisterEdge name addr region)
  | E : DeleteEdge _ _ ?id = _ |- _ => by_op E (ODeleteEdge id)
  end.

Lemma handleTenants_stored io s r b : stored io s (ao_store (handleTenants io s r b)).
Proof. unfold handleTenants. stores. Qed.
Lemma handleTenant_stored sv io s r : stored io s (ao_store (handleTenant sv io s r)).
Proof. unfold handleTenant. stores. Qed.
Lemma handleDomains_stored sv io s r b : stored io s (ao_store (handleDomains sv io s r b)).
Proof. unfold handleDomains. stores. Qed.
Lemma handleDomain_stored sv io s r b : stored io s (ao_store (handleDomain sv io s r b)).
Proof. unfold handleDomain. stores. Qed.
Lemma handleRules_stored sv io s r b : stored io s (ao_store (handleRules sv io s r b)).
Proof. unfold handleRules. stores. Qed.
Lemma handleRule_stored sv io s r : stored io s (ao_store (handleRule sv io s r)).
Proof. unfold handleRule. stores. Qed.
Lemma handleEdges_stored io s r b : stored io s (ao_store (handleEdges io s r b)).
Proof. unfold handleEdges. stores. Qed.
Lemma handleEdge_stored io s r : stored io s (ao_store (handleEdge io s r)).
Proof. unfold handleEdge. stores. Qed.

Lemma wired_stored io set h s status v : stored io s (ao_store (call_wired set h s status v)).
Proof. unfold call_wired. case_match; apply stored_same. Qed.

Lemma adminAuth_stored sv io s r out : stored io s (ao_store out) -> stored io s (ao_store (adminAuth sv s r out)).
Proof. intros Ho. unfold adminAuth. case_match; [apply stored_same | done]. Qed.

Lemma api_auth_stored sv io s r out : stored io s (ao_store out) -> stored io s (ao_store (api_auth sv s r out)).
Proof. intros Ho. unfold api_auth. repeat case_match; done || apply stored_same. Qed.

Create HintDb stored.
#[local] Hint Resolve stored_same handleTenants_stored handleTenant_stored handleDomains_stored handleDomain_stored handleRules_stored
  handleRule_stored handleEdges_stored handleEdge_stored wired_stored adminAuth_stored api_auth_stored : stored.

(** Any request does at most one store operation. *)
Lemma api_handler_stored sv io s r b : stored io s (ao_store (api_handler sv io s r b)).
Proof.
  unfold api_handler, handleConfig, handlePurge, handleAnalyticsIngest, handleAnalyticsQuery, handleCerts, handleCert.
  cbv zeta. repeat (case_match; auto with stored).
Qed.

(** What somebody without a key gets. *)
Lemma stranger_answer sv io s r b :
  ~ known_key sv s r ->
  let out := api_handler sv io s r b in
  out = unauthorized s \/ out = writeJSON s 404 VNotFound \/
  (r_Path r = "/api/v1/config"%string /\ out = handleConfig io s r) \/
  (r_Path r = "/api/v1/analytics/ingest"%string /\ out = handleAnalyticsIngest sv s).
Proof.
  intros Hk. cbv zeta. unfold api_handler.
  assert (Hka : extractAPIKey r <> sv_adminKey sv) by (intros E; apply Hk; by left).
  repeat (rewrite adminAuth_refuses by done). repeat (rewrite api_auth_refuses by done).
  repeat match goal with |- context [if String.eqb ?p ?q then _ else _] => destruct (String.eqb_spec p q) end; auto.
  repeat match goal with |- context [if ?b then _ else _] => destruct b end; auto.
Qed.

(** A request whose key is neither the administrator's nor a tenant's changes nothing and
    is refused with 401, but for the three routes left open (the configuration snapshot,
    the ingestion of analytics, unknown paths); a tenant's key is refused in the same way
    on tenants, edges and certificates. *)
Theorem api_auth_required sv io s r b :
  extractAPIKey r <> sv_adminKey sv ->
  let out := api_handler sv io s r b in
  ((forall k t, sd_Tenants (s_data s) !! k = Some t -> t_APIKey t <> extractAPIKey r) ->
   ao_store out = s /\ ao_notify out = false /\
   (ao_status out = 401 \/ r_Path r = "/api/v1/config" \/ r_Path r = "/api/v1/analytics/ingest" \/ ao_status out = 404)) /\
  (r_Path r = "/api/v1/tenants" \/ r_Path r = "/api/v1/edges" \/ r_Path r = "/api/v1/certs" ->
   out = unauthorized s).
Proof.
  intros Hk. cbv zeta. split.
  - intros Hno. assert (Hs : ~ known_key sv s r) by (intros [E | (k & t & Ht & Et)]; [done | by apply (Hno k t)]).
    destruct (stranger_answer sv io s r b Hs) as [-> | [-> | [[Hp ->] | [Hp ->]]]].
    + split_and!; [done | done | by left].
    + split_and!; [done | done | by right; right; right].
    + unfold handleConfig. destruct (negb _); split_and!; try done; by right; left.
    + unfold handleAnalyticsIngest, call_wired. destruct (sv_analyticsIngest sv); split_and!; try done; by right; right; left.
  - intros [E | [E | E]]; unfold api_handler; rewrite E; cbn [String.eqb Ascii.eqb Bool.eqb]; by apply adminAuth_refuses.
Qed.

(** The key of any tenant, active or not, opens the domains of every other: with it
    a request deletes a domain of another tenant, together with its rules, and the edges
    are told. *)
Theorem tenant_key_crosses sv io s r b k a id victim data :
  sd_Tenants (s_data s) !! k = Some a -> extractAPIKey r = t_APIKey a ->
  sd_Domains (s_data s) !! id = Some victim -> d_TenantID victim <> t_ID a ->
  id <> ""%string -> no_byte "/" id = true ->
  r_Path r = "/api/v1/domains" +:+ String "/" id -> r_Method r = "DELETE" ->
  si_wr io = Written -> Marshal_store (s_data (DeleteDomain io s id).1) = Some data ->
  let out := api_handler sv io s r b in
  ao_status out = 200 /\ ao_notify out = sv_onConfigChange sv /\
  sd_Domains (s_data (ao_store out)) = delete id (sd_Domains (s_data s)) /\
  forall rid rule, sd_CacheRules (s_data (ao_store out)) !! rid = Some rule ->
    cr_DomainID rule <> id.
Proof.
  intros Hk Hkey Hid _ Hne Hn Hp Hm Hwr Hmar. cbv zeta.
  assert (Hauth : forall next, api_auth sv s r next = next).
  { intros next. unfold api_auth. destruct (String.eqb _ _); [done |]. rewrite Hkey.
    by destruct (GetTenantByAPIKey_some s k a Hk) as [t' ->]. }
  assert (Hroute : api_handler sv io s r b = handleDomain sv io s r b).
  { unfold api_handler. rewrite Hp. cbn. by rewrite HasPrefix_nil, Hauth. }
  rewrite Hroute. unfold handleDomain. rewrite Hm, Hp, lastPathSegment_app by done.
  cbn [String.eqb Ascii.eqb Bool.eqb]. unfold DeleteDomain in *. rewrite Hid in *.
  rewrite save_data in Hmar. unfold save in *. cbn in Hmar |- *. rewrite Hmar, Hwr. cbn.
  split_and!; try done. by intros rid rule [_ Hne']%delete_rules_of_lookup.
Qed.

(** The configuration snapshot is given to anyone: an unauthenticated request gets every
    active domain in full, the private key of its certificate included. *)
Theorem config_leaks_keys sv io s r b k d t :
  store_wf (s_data s) -> r_Path r = "/api/v1/config" -> r_Method r = "GET" ->
  sd_Domains (s_data s) !! k = Some d -> d_Active d = true ->
  sd_Tenants (s_data s) !! d_TenantID d = Some t -> t_Active t = true ->
  let out := api_handler sv io s r b in
  ao_status out = 200 /\
  exists cfg d', ao_value out = VConfig cfg /\ ec_Domains cfg !! d_Hostname d = Some d' /\ d_TLSKey d' = d_TLSKey d.
Proof.
  intros Hwf Hp Hm Hk Ha Ht Hta. cbv zeta.
  assert (Hroute : api_handler sv io s r b = handleConfig io s r) by (unfold api_handler; by rewrite Hp).
  rewrite Hroute. unfold handleConfig. rewrite Hm. cbn. split; [done |]. eexists _, d. split; [done |]. split; [| done].
  apply BuildEdgeConfig_domains; [done |]. by exists k, t.
Qed.

End facts.

(** ** Concrete requests *)

#[local] Existing Instance version_store_json.
#[local] Existing Instance list_order.
#[local] Instance no_query : UrlQuery := {| query_get _ _ := ""%string |}.

Definition plain_server : Server := New "secret" true.
Definition api_req (method path key : string) : Request :=
  {| r_Method := method; r_Host := "cp"; r_Path := path; r_RawQuery := ""; r_RequestURI := path;
     r_Header := {["X-Api-Key" := [key]]} |}.
Definition no_body : api_body := {| ab_name := None; ab_domain := None; ab_rule := None; ab_edge := None |}.

Lemma api_auth_required_witness :
  api_handler plain_server (io_of [1]) two_domains (api_req "GET" "/api/v1/tenants" "guess") no_body = unauthorized two_domains.
Proof.
  refine (proj2 (api_auth_required plain_server (io_of [1]) two_domains (api_req "GET" "/api/v1/tenants" "guess") no_body _) _);
    [vm_compute; discriminate | by left].
Defined.

(** Tenant t1 deletes the domain of tenant t2. *)
Lemma tenant_key_crosses_witness :
  ao_status (api_handler plain_server (io_of [1]) two_domains (api_req "DELETE" "/api/v1/domains/2" "cdnk_t1") no_body) = 200.
Proof.
  refine (proj1 (tenant_key_crosses plain_server (io_of [1]) two_domains (api_req "DELETE" "/api/v1/domains/2" "cdnk_t1") no_body
    "t1" (sample_tenant "t1") "2" (sample_domain "2" "t2" "b.com" "http://origin-b") "5" _ _ _ _ _ _ _ _ _ _));
    (vm_compute; reflexivity) || (vm_compute; discriminate).
Defined.

Definition one_domain : Store :=
  {| s_data := set_domains {["1" := sample_domain "1" "t1" "a.com" "http://origin-a"]}
                 (set_tenants {["t1" := sample_tenant "t1"]} sd_empty);
     s_file := None |}.

Lemma one_domain_wf : store_wf (s_data one_domain).
Proof.
  apply (set_domains_insert_wf (set_tenants {["t1" := sample_tenant "t1"]} sd_empty) (sample_domain "1" "t1" "a.com" "http://origin-a")).
  - apply (set_tenants_insert_wf sd_empty (sample_tenant "t1")), empty_wf.
  - by eexists.
  - cbn. intros k d'. by rewrite lookup_empty.
Qed.

Lemma config_leaks_keys_witness :
  ao_status (api_handler plain_server (io_of [1]) one_domain (api_req "GET" "/api/v1/config" "") no_body) = 200.
Proof.
  refine (proj1 (config_leaks_keys plain_server (io_of [1]) one_domain (api_req "GET" "/api/v1/config" "") no_body
    "1" (sample_domain "1" "t1" "a.com" "http://origin-a") (sample_tenant "t1") one_domain_wf _ _ _ _ _ _)); reflexivity.
Defined.
