(* ===== verification/Middleware.v ===== *)
(** * The middleware of the edge ([compress/compress.go], [middleware/cors.go],
      [middleware/httpsredirect.go])

    A middleware takes a handler and gives one, on any writer ([Http.HttpHandler]): the
    compression middleware runs the handler on a wrapper that is a writer itself. The gzip
    and brotli writers are the interface [Compressor]: what they emit on each write and when
    closed; [http.DetectContentType] and the body of [http.Redirect] are
    parameters. The writer pools are not modelled: [Reset] gives a new compressor. *)

From S2P Require Import Prelude GoStrings Entry Paths Http Disk Handler.

Local Open Scope Z_scope.

(** ** Compression *)

Inductive encoding := encodingNone | encodingBrotli | encodingGzip.

Class Compressor := {
  cz_state : Type;
  cz_Reset : encoding -> cz_state;
  cz_Write : cz_state -> string -> cz_state * string;     (* what is emitted at once *)
  cz_Close : cz_state -> string;
  cz_decode : encoding -> string -> option string;
  DetectContentType : string -> string
}.

(** Everything emitted while writing the pieces. *)
Fixpoint cz_writes `{Compressor} (st : cz_state) (pieces : list string) : cz_state * string :=
  match pieces with
  | [] => (st, EmptyString)
  | p :: ps => let '(st, out) := cz_Write st p in let '(st, rest) := cz_writes st ps in (st, out +:+ rest)
  end.

(** Decoding what was emitted gives back what was written. *)
Class CompressorLaws `{Compressor} : Prop := {
  cz_lossless : forall enc pieces, enc <> encodingNone ->
    let '(st, out) := cz_writes (cz_Reset enc) pieces in
    cz_decode enc (out +:+ cz_Close st) = Some (String.concat EmptyString pieces)
}.

Record compressResponseWriter (W : Type) `{Compressor} := {
  crw_w : W;
  crw_writer : cz_state;
  crw_encoding : string;
  crw_headerWritten : bool;
  crw_shouldCompress : bool;
  crw_checked : bool
}.
Arguments crw_w {W _}.
Arguments crw_writer {W _}.
Arguments crw_encoding {W _}.
Arguments crw_headerWritten {W _}.
Arguments crw_shouldCompress {W _}.
Arguments crw_checked {W _}.

Section compress.
Context `{Unicode} `{Compressor}.

Definition isCompressible (ct : string) : bool :=
  let ct := ToLower ct in
  existsb (fun prefix => Contains ct prefix)
    ["text/"; "application/json"; "application/javascript"; "application/xml"; "application/xhtml+xml";
     "image/svg+xml"; "application/wasm"]%string.

(** The name in one element of [Accept-Encoding]; quality values are dropped. *)
Definition encoding_name (enc : string) : string := TrimSpace (cut_byte ";" (TrimSpace enc)).1.

Definition selectEncoding (r : Request) : encoding :=
  let names := map encoding_name (Split "," (Header_Get (r_Header r) "Accept-Encoding")) in
  if existsb (String.eqb "br") names then encodingBrotli
  else if existsb (String.eqb "gzip") names then encodingGzip
  else encodingNone.

Section wrapper.
Context {W : Type} `{Writer W}.

Definition crw_set (w : W) (st : cz_state) (hw sc ck : bool) (crw : compressResponseWriter W) : compressResponseWriter W :=
  {| crw_w := w; crw_writer := st; crw_encoding := crw_encoding crw; crw_headerWritten := hw;
     crw_shouldCompress := sc; crw_checked := ck |}.

Definition crw_set_header (h : Header) (crw : compressResponseWriter W) : compressResponseWriter W :=
  crw_set (w_set_header h (crw_w crw)) (crw_writer crw) (crw_headerWritten crw) (crw_shouldCompress crw) (crw_checked crw) crw.

Definition crw_check (crw : compressResponseWriter W) : compressResponseWriter W :=
  if crw_checked crw then crw
  else
    let h := w_header (crw_w crw) in
    if isCompressible (Header_Get h "Content-Type") then
      let h := Header_Del h "Content-Length" in
      let h := Header_Set h "Content-Encoding" (crw_encoding crw) in
      let h := Header_Add h "Vary" "Accept-Encoding" in
      crw_set (w_set_header h (crw_w crw)) (crw_writer crw) (crw_headerWritten crw) true true crw
    else crw_set (crw_w crw) (crw_writer crw) (crw_headerWritten crw) false true crw.

Definition crw_WriteHeader (code : Z) (crw : compressResponseWriter W) : compressResponseWriter W :=
  let crw := crw_check crw in
  crw_set (WriteHeader code (crw_w crw)) (crw_writer crw) true (crw_shouldCompress crw) (crw_checked crw) crw.

(** What the compressor emits goes to the underlying writer, which it does not call for nothing. *)
Definition emit (out : string) (w : W) : W :=
  match out with EmptyString => w | _ => w_Write out w end.

Definition crw_Write (b : string) (crw : compressResponseWriter W) : compressResponseWriter W :=
  let crw :=
    if crw_headerWritten crw then crw
    else
      let h := w_header (crw_w crw) in
      let w := if String.eqb (Header_Get h "Content-Type") ""
               then w_set_header (Header_Set h "Content-Type" (DetectContentType b)) (crw_w crw) else crw_w crw in
      let crw := crw_check (crw_set w (crw_writer crw) (crw_headerWritten crw) (crw_shouldCompress crw) (crw_checked crw) crw) in
      crw_set (crw_w crw) (crw_writer crw) true (crw_shouldCompress crw) (crw_checked crw) crw in
  if crw_shouldCompress crw then
    let '(st, out) := cz_Write (crw_writer crw) b in
    crw_set (emit out (crw_w crw)) st (crw_headerWritten crw) true (crw_checked crw) crw
  else crw_set (w_Write b (crw_w crw)) (crw_writer crw) (crw_headerWritten crw) false (crw_checked crw) crw.

Definition crw_Close (crw : compressResponseWriter W) : compressResponseWriter W :=
  if crw_shouldCompress crw
  then crw_set (emit (cz_Close (crw_writer crw)) (crw_w crw)) (crw_writer crw) (crw_headerWritten crw) true (crw_checked crw) crw
  else crw.

End wrapper.

#[export] Instance compress_writer {W} `{Writer W} : Writer (compressResponseWriter W) :=
  {| w_header crw := w_header (crw_w crw); w_set_header := crw_set_header; WriteHeader := crw_WriteHeader; w_Write := crw_Write |}.

Definition encoding_token (enc : encoding) : string :=
  match enc with encodingBrotli => "br" | encodingGzip => "gzip" | encodingNone => "" end.

(** The wrapper before the handler runs. *)
Definition fresh_crw {W} (enc : encoding) (w : W) : compressResponseWriter W :=
  {| crw_w := w; crw_writer := cz_Reset enc; crw_encoding := encoding_token enc;
     crw_headerWritten := false; crw_shouldCompress := false; crw_checked := false |}.

(** [Middleware] *)
Definition Compress {S} (next : HttpHandler S) : HttpHandler S := fun W _ s w r =>
  match selectEncoding r with
  | encodingNone => next W _ s w r
  | enc => let '(s, crw) := next _ compress_writer s (fresh_crw enc w) r in (s, crw_w (crw_Close crw))
  end.

End compress.

(** ** CORS *)

Section cors.
Context `{Unicode}.

Definition parseOrigins (s : string) : list string :=
  List.filter (fun o => negb (String.eqb o "")) (map TrimSpace (Split "," s)).

Definition originAllowed (origin : string) (allowed : list string) : bool := existsb (fun a => String.eqb a origin) allowed.

(** [CORS] *)
Definition CORS {S} (allowedOrigins : string) (maxAge : Z) (next : HttpHandler S) : HttpHandler S := fun W _ s w r =>
  if String.eqb allowedOrigins "" then next W _ s w r
  else
    let origins := parseOrigins allowedOrigins in
    let allowAll := match origins with [o] => String.eqb o "*" | _ => false end in
    let origin := Header_Get (r_Header r) "Origin" in
    let w :=
      if negb (String.eqb origin "") then
        if allowAll then w_set_header (Header_Set (w_header w) "Access-Control-Allow-Origin" "*") w
        else if originAllowed origin origins then
          w_set_header (Header_Add (Header_Set (w_header w) "Access-Control-Allow-Origin" origin) "Vary" "Origin") w
        else w
      else w in
    if String.eqb (r_Method r) "OPTIONS" && negb (String.eqb (Header_Get (r_Header r) "Access-Control-Request-Method") "") then
      let h := Header_Set (w_header w) "Access-Control-Allow-Methods" "GET, HEAD, OPTIONS" in
      let reqHeaders := Header_Get (r_Header r) "Access-Control-Request-Headers" in
      let h := if String.eqb reqHeaders "" then h else Header_Set h "Access-Control-Allow-Headers" reqHeaders in
      let h := Header_Set h "Access-Control-Max-Age" (Itoa maxAge) in
      (s, WriteHeader 204 (w_set_header h w))
    else next W _ s w r.

End cors.

(** ** HTTPS redirect *)

(** The target of the redirect. *)
Definition redirect_target (tlsHost : string) (r : Request) : string :=
  let host := if String.eqb tlsHost "" then stripPort (r_Host r) else tlsHost in
  "https://" +:+ host +:+ r_RequestURI r.

(** [http.Redirect] of an ASCII URL; [body] is the text it writes for GET. *)
Definition http_Redirect {W} `{Writer W} (body : string -> string) (w : W) (r : Request) (url : string) (code : Z) : W :=
  let hadCT := match w_header w !! "Content-Type" with Some _ => true | None => false end in
  let h := Header_Set (w_header w) "Location" url in
  let h := if negb hadCT && (String.eqb (r_Method r) "GET" || String.eqb (r_Method r) "HEAD")
           then Header_Set h "Content-Type" "text/html; charset=utf-8" else h in
  let w := WriteHeader code (w_set_header h w) in
  if negb hadCT && String.eqb (r_Method r) "GET" then w_Write (body url) w else w.

Definition HTTPSRedirect {W} `{Writer W} (body : string -> string) (tlsHost : string) (w : W) (r : Request) : W :=
  http_Redirect body w r (redirect_target tlsHost r) 301.

(** ** What compression does *)

Section compress_facts.
Context `{Unicode} `{Compressor}.

#[export] Instance compress_laws {W} `{HeaderLaws W} : HeaderLaws (compressResponseWriter W).
Proof.
  split.
  - intros h crw. apply (header_set (W := W)).
  - intros h h' crw. cbn. unfold crw_set_header, crw_set. cbn. by rewrite set_header_set.
Qed.

(** What the compressor emits, piece by piece, and when it is closed. *)
Definition nonempty (out : string) : list string := match out with EmptyString => [] | _ => [out] end.
Fixpoint cz_pieces (st : cz_state) (datas : list string) : list string :=
  match datas with
  | [] => nonempty (cz_Close st)
  | d :: datas => let '(st, out) := cz_Write st d in nonempty out ++ cz_pieces st datas
  end.

Lemma emit_ops `{Writer W} out (w : W) : emit out w = run_ops (map OpWrite (nonempty out)) w.
Proof. by destruct out. Qed.

Lemma concat_app (l l' : list string) : String.concat "" (l ++ l') = String.concat "" l +:+ String.concat "" l'.
Proof.
  assert (Hc : forall x l, String.concat "" (x :: l) = x +:+ String.concat "" l) by (intros x []; cbn; by rewrite ?str_app_nil_r).
  induction l as [| x l IH]; [done |]. cbn [app]. by rewrite !Hc, IH, str_app_assoc.
Qed.

Lemma concat_nonempty out : String.concat "" (nonempty out) = out.
Proof. by destruct out. Qed.

Lemma cz_pieces_concat st datas :
  let '(st', out) := cz_writes st datas in String.concat "" (cz_pieces st datas) = out +:+ cz_Close st'.
Proof.
  revert st. induction datas as [| d datas IH]; intros st; cbn [cz_writes cz_pieces]; [by rewrite concat_nonempty |].
  destruct (cz_Write st d) as [st1 out1]. specialize (IH st1). destruct (cz_writes st1 datas) as [st' out].
  by rewrite concat_app, concat_nonempty, IH, str_app_assoc.
Qed.

(** Writes after the header was sent, then [Close]. *)
Lemma crw_writes `{Writer W} datas (crw : compressResponseWriter W) :
  crw_headerWritten crw = true -> crw_shouldCompress crw = true ->
  crw_w (crw_Close (run_ops (map OpWrite datas) crw)) = run_ops (map OpWrite (cz_pieces (crw_writer crw) datas)) (crw_w crw).
Proof.
  revert crw. induction datas as [| d datas IH]; intros crw Hh Hc; cbn [map cz_pieces].
  { cbn [run_ops foldl]. unfold crw_Close. rewrite Hc. apply emit_ops. }
  rewrite run_ops_cons. cbn [run_op w_Write compress_writer]. unfold crw_Write. rewrite Hh, Hc. destruct (cz_Write (crw_writer crw) d) as [st1 out1].
  rewrite IH by done. cbn [crw_set crw_w crw_writer].
  by rewrite emit_ops, map_app, run_ops_app.
Qed.

(** Without compression the wrapper does what the writer does. *)
Lemma crw_writes_plain `{Writer W} datas (crw : compressResponseWriter W) :
  crw_headerWritten crw = true -> crw_shouldCompress crw = false ->
  crw_w (crw_Close (run_ops (map OpWrite datas) crw)) = run_ops (map OpWrite datas) (crw_w crw).
Proof.
  revert crw. induction datas as [| d datas IH]; intros crw Hh Hc; cbn [map]; [cbn [run_ops foldl]; unfold crw_Close; by rewrite Hc |].
  rewrite run_ops_cons. cbn [run_op w_Write compress_writer]. unfold crw_Write. rewrite Hh, Hc.
  exact (IH (crw_set (w_Write d (crw_w crw)) (crw_writer crw) (crw_headerWritten crw) false (crw_checked crw) crw) Hh eq_refl).
Qed.

(** What the header becomes. *)
Definition compressed_header (enc : encoding) (h : Header) : Header :=
  Header_Add (Header_Set (Header_Del h "Content-Length") "Content-Encoding" (encoding_token enc)) "Vary" "Accept-Encoding".

Lemma compressed_header_encoding enc h : compressed_header enc h !! "Content-Encoding" = Some [encoding_token enc].
Proof.
  unfold compressed_header, Header_Add, Header_Set, Header_Del. change (CanonicalHeaderKey "Vary") with "Vary".
  rewrite lookup_insert_ne by done. apply lookup_insert_eq.
Qed.

Definition compresses (r : Request) (h : Header) : bool :=
  isCompressible (Header_Get h "Content-Type") && negb (match selectEncoding r with encodingNone => true | _ => false end).

(** What the answer of a handler becomes, on a writer that starts with the header [hd]. *)
Definition compressed_answer (hd : Header) (r : Request) (a : answer) : answer :=
  if compresses r (an_set a hd)
  then {| an_set h := compressed_header (selectEncoding r) (an_set a h); an_code := an_code a;
          an_data := cz_pieces (cz_Reset (selectEncoding r)) (an_data a) |}
  else a.

(** The script of the middleware around a handler that answers with a status. *)
Lemma Compress_runs {S} hd (next : HttpHandler S) s r s' a code :
  an_code a = Some code -> runs next s r s' (answer_ops a) ->
  runs_from hd (Compress next) s r s' (answer_ops (compressed_answer hd r a)).
Proof.
  intros Hc Hn W HW HL w Hhd. unfold Compress, compressed_answer, compresses.
  destruct (selectEncoding r) eqn:Ee; [rewrite andb_false_r; apply Hn, _ | |]; rewrite andb_true_r.
  all: rewrite (Hn _ compress_writer compress_laws); unfold answer_ops; rewrite Hc;
    cbn [fmap option_fmap option_map option_list option_rect app]; rewrite !run_ops_cons;
    cbn [run_op w_header w_set_header WriteHeader compress_writer]; unfold crw_WriteHeader, crw_check;
    cbn [crw_checked crw_set_header crw_set crw_w fresh_crw crw_encoding crw_writer crw_headerWritten crw_shouldCompress];
    rewrite header_set, Hhd; destruct (isCompressible _);
    [rewrite crw_writes by done | rewrite crw_writes_plain by done]; cbn [crw_set crw_w crw_writer];
    unfold answer_ops; cbn [an_set an_code an_data]; rewrite ?Hc, ?set_header_set;
    cbn [fmap option_fmap option_map option_list option_rect app]; rewrite ?run_ops_cons; cbn [run_op]; by rewrite ?Hhd.
Qed.

(** When the answer is compressed: the header, and the body once decoded. *)
Lemma compressed_answer_decodes `{!CompressorLaws} hd r a :
  compresses r (an_set a hd) = true ->
  an_code (compressed_answer hd r a) = an_code a /\ an_set (compressed_answer hd r a) hd = compressed_header (selectEncoding r) (an_set a hd) /\
  cz_decode (selectEncoding r) (String.concat "" (an_data (compressed_answer hd r a))) = Some (String.concat "" (an_data a)).
Proof.
  intros Hz. unfold compressed_answer. rewrite Hz. cbn [an_code an_set an_data]. split_and!; [done | done |].
  assert (He : selectEncoding r <> encodingNone) by (unfold compresses in Hz; apply andb_true_iff in Hz as [_ Hz]; by destruct (selectEncoding r)).
  pose proof (cz_pieces_concat (cz_Reset (selectEncoding r)) (an_data a)) as Hp.
  pose proof (cz_lossless (selectEncoding r) (an_data a) He) as Hl. destruct (cz_writes _ _) as [st' out]. by rewrite Hp.
Qed.

(** Compression is transparent: a client that accepts brotli or gzip gets the status of
    the handler and, once decoded as the one Content-Encoding says, the body the handler
    wrote, with no stale Content-Length; a response that is not text-like, or a client
    that accepts neither, gets exactly what the handler sent; what the handler does to the
    rest of the program is the same. *)
Theorem compress_transparent `{!CompressorLaws} {S} (next : HttpHandler S) s r s' a code (w : ResponseWriter) :
  runs next s r s' (answer_ops a) -> an_code a = Some code -> code <> 0 -> w_status w = 0 -> w_body w = ""%string ->
  let out := (Compress next _ _ s w r).2 in
  (Compress next _ _ s w r).1 = s' /\
  if compresses r (an_set a (w_header w)) then
    w_status out = code /\ Header_Get (w_sent out) "Content-Length" = ""%string /\
    w_sent out !! "Content-Encoding" = Some [encoding_token (selectEncoding r)] /\
    cz_decode (selectEncoding r) (w_body out) = Some (String.concat EmptyString (an_data a))
  else out = (next _ _ s w r).2.
Proof.
  intros Hn Hc Hcode Hw Hb. cbv zeta. rewrite (Compress_runs (w_header w) next s r s' a code Hc Hn _ _ _ w eq_refl), (Hn _ _ _ w).
  split; [done |]. cbn [snd]. destruct (compresses r (an_set a (w_header w))) eqn:Ecz; [| by unfold compressed_answer; rewrite Ecz].
  destruct (compressed_answer_decodes (w_header w) r a Ecz) as (Ea & Eh & Ed).
  destruct (server_answer (compressed_answer (w_header w) r a) code w Hw Hb) as (-> & -> & _ & ->); [by rewrite Ea | done |].
  rewrite Eh. split_and!; [done | | apply compressed_header_encoding | done].
  unfold compressed_header, Header_Add, Header_Set, Header_Del, Header_Get. change (CanonicalHeaderKey "Content-Length") with "Content-Length".
  change (CanonicalHeaderKey "Content-Encoding") with "Content-Encoding". change (CanonicalHeaderKey "Vary") with "Vary". by simplify_map_eq.
Qed.

(** A response that is already encoded (the origin is sent the client's
    Accept-Encoding) is encoded again and its Content-Encoding overwritten: the client that
    decodes what the header says gets the origin's encoded bytes, and nothing tells it. *)
Theorem compress_twice `{!CompressorLaws} {S} (next : HttpHandler S) s r s' a code (w : ResponseWriter) :
  runs next s r s' (answer_ops a) -> an_code a = Some code -> code <> 0 -> w_status w = 0 -> w_body w = ""%string ->
  compresses r (an_set a (w_header w)) = true -> an_set a (w_header w) !! "Content-Encoding" = Some ["gzip"%string] ->
  let out := (Compress next _ _ s w r).2 in
  w_sent out !! "Content-Encoding" = Some [encoding_token (selectEncoding r)] /\
  cz_decode (selectEncoding r) (w_body out) = Some (String.concat EmptyString (an_data a)).
Proof.
  intros Hn Hc Hcode Hw Hb Hz _. pose proof (compress_transparent next s r s' a code w Hn Hc Hcode Hw Hb) as Ht. cbv zeta in Ht. rewrite Hz in Ht.
  cbv zeta. by destruct Ht as (_ & _ & _ & ? & ?).
Qed.

End compress_facts.

(** ** What CORS does *)

Section cors_facts.
Context `{Unicode} `{HeaderCodec}.

Lemma Header_Get_None h k : h !! CanonicalHeaderKey k = None -> Header_Get h k = ""%string.
Proof. unfold Header_Get. by intros ->. Qed.

Lemma Header_Get_Set h k v : Header_Get (Header_Set h k v) k = v.
Proof. unfold Header_Get, Header_Set. by rewrite lookup_insert_eq. Qed.

Lemma Header_Get_Set_ne h k k' v :
  CanonicalHeaderKey k <> CanonicalHeaderKey k' -> Header_Get (Header_Set h k v) k' = Header_Get h k'.
Proof. intros Hne. unfold Header_Get, Header_Set. by rewrite lookup_insert_ne. Qed.

Lemma Header_Get_Add_ne h k k' v :
  CanonicalHeaderKey k <> CanonicalHeaderKey k' -> Header_Get (Header_Add h k v) k' = Header_Get h k'.
Proof. intros Hne. unfold Header_Get, Header_Add. by rewrite lookup_insert_ne. Qed.

(** Whether the allow list is the single star. *)
Lemma only_star (origins : list string) :
  (match origins with [o] => String.eqb o "*" | _ => false end) = bool_decide (origins = ["*"%string]).
Proof.
  destruct origins as [| o [| o' l]]; [done | | by rewrite bool_decide_false].
  destruct (String.eqb_spec o "*") as [E | Hn]; [by rewrite E, bool_decide_true | rewrite bool_decide_false; congruence].
Qed.

(** With an allow list, the handler runs with Access-Control-Allow-Origin naming the
    request's origin exactly when the list has it, letter for letter, or is the single
    star, and unset otherwise; a preflight request is answered 204 without running the
    handler. *)
Theorem cors_allows {S} allowedOrigins maxAge (next : HttpHandler S) s (w : ResponseWriter) r :
  allowedOrigins <> ""%string -> w_status w = 0 -> w_header w !! "Access-Control-Allow-Origin" = None ->
  let origin := Header_Get (r_Header r) "Origin" in
  let origins := parseOrigins allowedOrigins in
  exists w1,
    Header_Get (w_header w1) "Access-Control-Allow-Origin"
    = (if String.eqb origin "" then "" else if decide (origins = ["*"%string]) then "*"
       else if decide (origin ∈ origins) then origin else "")%string /\
    if String.eqb (r_Method r) "OPTIONS" && negb (String.eqb (Header_Get (r_Header r) "Access-Control-Request-Method") "")
    then CORS allowedOrigins maxAge next _ _ s w r = (s, w1) /\ w_status w1 = 204
    else CORS allowedOrigins maxAge next _ _ s w r = next _ _ s w1 r.
Proof.
  intros Hne Hs Hh. cbv zeta. unfold CORS. rewrite (proj2 (String.eqb_neq _ _) Hne).
  set (origin := Header_Get (r_Header r) "Origin"). set (origins := parseOrigins allowedOrigins).
  set (w1 := if negb (String.eqb origin "") then _ else w).
  assert (Hall : (match origins with [o] => String.eqb o "*" | _ => false end) = bool_decide (origins = ["*"%string])).
  { apply only_star. }
  assert (Hin : originAllowed origin origins = bool_decide (origin ∈ origins)).
  { apply eq_true_iff_eq. rewrite bool_decide_eq_true. unfold originAllowed. rewrite existsb_exists.
    split; [intros (x & Hx & ->%String.eqb_eq); by apply list_elem_of_In | intros Hx; exists origin].
    split; [by apply list_elem_of_In | apply String.eqb_refl]. }
  assert (Hg0 : Header_Get (w_header w) "Access-Control-Allow-Origin" = ""%string) by (apply Header_Get_None; exact Hh).
  assert (Hw1 : w_status w1 = 0 /\ Header_Get (w_header w1) "Access-Control-Allow-Origin"
    = (if String.eqb origin "" then "" else if decide (origins = ["*"%string]) then "*"
       else if decide (origin ∈ origins) then origin else "")%string).
  { unfold w1. rewrite Hall, Hin. destruct (String.eqb origin "") ; cbn [negb].
    - split; [done |]. by rewrite Hg0.
    - destruct (decide (origins = _)) as [Es | Es]; [rewrite (bool_decide_true _ Es) | rewrite (bool_decide_false _ Es)];
        [split; [done |]; apply Header_Get_Set |].
      destruct (decide (origin ∈ origins)) as [Ei | Ei]; [rewrite (bool_decide_true _ Ei) | rewrite (bool_decide_false _ Ei)];
        (split; [done |]); [| by rewrite Hg0].
      server. rewrite Header_Get_Add_ne by done. apply Header_Get_Set. }
  destruct Hw1 as [Hst Hget]. destruct (_ && _) eqn:Ep; [| by exists w1].
  match goal with |- context [WriteHeader 204 ?w2] => exists (WriteHeader 204 w2) end.
  server. rewrite Hst. cbn. split_and!; try done.
  rewrite <- Hget, Header_Get_Set_ne by done.
  match goal with |- context [if ?b then _ else _] => destruct b end; by rewrite ?Header_Get_Set_ne by done.
Qed.

(** The [Vary: Origin] that CORS adds is lost when the handler serves a cached entry that
    has a [Vary] of its own: the response that names one origin is cacheable for others. *)
Theorem cors_vary_lost {S} allowedOrigins maxAge (next : HttpHandler S) now entry status vary r s s' (w : ResponseWriter) :
  (forall w : ResponseWriter, next _ _ s w r = (s', serveEntry now w entry status)) ->
  allowedOrigins <> ""%string -> r_Method r = "GET"%string -> w_status w = 0 -> e_StatusCode entry <> 0 ->
  Entry_GetHeader entry !! "Vary" = Some vary -> status <> ""%string ->
  w_sent (CORS allowedOrigins maxAge next _ _ s w r).2 !! "Vary" = Some vary.
Proof.
  intros Hnext Hne Hm Hs Hc Hv _. unfold CORS. rewrite (proj2 (String.eqb_neq _ _) Hne), Hm. cbn [String.eqb Ascii.eqb Bool.eqb andb].
  rewrite Hnext. cbn [snd]. match goal with |- w_sent (serveEntry now ?w1 entry status) !! _ = _ => set (w' := w1) end.
  assert (Hs' : w_status w' = 0).
  { unfold w'. destruct (negb _); [| done]. destruct (match parseOrigins _ with [o] => _ | _ => _ end); [done |]. by destruct (originAllowed _ _). }
  clearbody w'. unfold serveEntry. server. cbn. rewrite Hs'. cbn.
  rewrite (proj2 (Z.eqb_neq _ _) Hc). cbn. rewrite lookup_insert_ne by done.
  destruct (String.eqb (e_ETag entry) ""); rewrite ?lookup_insert_ne by done; rewrite lookup_union, Hv;
    by destruct (srv_header w' !! "Vary").
Qed.

(** The redirect keeps the path and query and drops the port: the target is the https
    URL of the same host, sent with status 301. *)
Theorem redirect_keeps_uri body tlsHost (w : ResponseWriter) r :
  w_status w = 0 ->
  let out := HTTPSRedirect body tlsHost w r in
  w_status out = 301 /\
  w_sent out !! "Location" = Some ["https://" +:+ (if String.eqb tlsHost "" then stripPort (r_Host r) else tlsHost) +:+ r_RequestURI r].
Proof.
  intros Hs. cbv zeta. unfold HTTPSRedirect, http_Redirect, redirect_target. set (url := "https://" +:+ _).
  destruct (match w_header w !! "Content-Type" with Some _ => true | None => false end); cbn [negb andb].
  - server. rewrite Hs. cbn. split; [done |]. unfold Header_Set. apply lookup_insert_eq.
  - destruct (String.eqb (r_Method r) "GET"); cbn [orb].
    + server. rewrite Hs. cbn. split; [done |]. unfold Header_Set.
      change (CanonicalHeaderKey "Content-Type") with "Content-Type". rewrite lookup_insert_ne by done. apply lookup_insert_eq.
    + server. rewrite Hs. cbn. split; [done |]. unfold Header_Set.
      destruct (String.eqb (r_Method r) "HEAD"); [| apply lookup_insert_eq].
      change (CanonicalHeaderKey "Content-Type") with "Content-Type". rewrite lookup_insert_ne by done. apply lookup_insert_eq.
Qed.

End cors_facts.

(** ** Concrete responses *)

#[local] Existing Instances ascii_unicode bits_codec.

Definition encoding_mark (enc : encoding) : string :=
  match enc with encodingBrotli => "B" | encodingGzip => "G" | encodingNone => "N" end.

(** A compressor that writes a mark, keeps everything until it is closed, and sniffs text. *)
#[local] Instance mark_compressor : Compressor :=
  {| cz_state := encoding * string;
     cz_Reset enc := (enc, ""%string);
     cz_Write st p := ((st.1, st.2 +:+ p), ""%string);
     cz_Close st := (encoding_mark st.1) +:+ st.2;
     cz_decode enc s := if HasPrefix s (encoding_mark enc) then Some (TrimPrefix s (encoding_mark enc)) else None;
     DetectContentType _ := "text/plain"%string |}.

Lemma mark_writes st pieces :
  cz_writes (H := mark_compressor) st pieces = ((st.1, st.2 +:+ String.concat "" pieces), ""%string).
Proof.
  revert st. induction pieces as [| p ps IH]; intros [enc acc]; cbn [cz_writes]; [cbn; by rewrite str_app_nil_r |].
  cbn [cz_Write mark_compressor fst snd]. rewrite IH. cbn [fst snd]. rewrite str_app_assoc.
  by destruct ps; cbn [String.concat]; rewrite ?str_app_nil_r.
Qed.

#[local] Instance mark_laws : CompressorLaws (H := mark_compressor).
Proof.
  constructor. intros enc pieces _. cbn [cz_Reset mark_compressor]. rewrite mark_writes. cbn [cz_decode cz_Close mark_compressor fst snd].
  change (HasPrefix _ _) with (HasPrefix (encoding_mark enc +:+ String.concat "" pieces) (encoding_mark enc)).
  rewrite HasPrefix_app. unfold TrimPrefix. change (HasPrefix _ _) with (HasPrefix (encoding_mark enc +:+ String.concat "" pieces) (encoding_mark enc)).
  rewrite HasPrefix_app. by destruct enc.
Qed.

Definition a_request (method : string) (h : Header) : Request :=
  {| r_Method := method; r_Host := "cdn.io:80"; r_Path := "/a"; r_RawQuery := "q=1"; r_RequestURI := "/a?q=1"; r_Header := h |}.

Definition gzip_client : Request := a_request "GET" {[ "Accept-Encoding" := ["gzip;q=0"%string] ]}.

(** A handler that answers a page. *)
Definition page (h : Header) (datas : list string) : answer := {| an_set _ := h; an_code := Some 200; an_data := datas |}.
Definition page_handler (h : Header) (datas : list string) : HttpHandler unit := ops_handler (fun _ => answer_ops (page h datas)).

Lemma compress_transparent_witness :
  let h := {[ "Content-Type" := ["text/html"%string]; "Content-Length" := ["5"%string] ]} in
  let out := (Compress (page_handler h ["hel"; "lo"]%string) _ _ tt new_writer gzip_client).2 in
  w_status out = 200 /\ Header_Get (w_sent out) "Content-Length" = ""%string /\
  w_sent out !! "Content-Encoding" = Some ["gzip"%string] /\
  cz_decode encodingGzip (w_body out) = Some "hello"%string.
Proof.
  refine (proj2 (compress_transparent (page_handler {[ "Content-Type" := ["text/html"%string]; "Content-Length" := ["5"%string] ]} ["hel"; "lo"]%string)
    tt gzip_client tt (page {[ "Content-Type" := ["text/html"%string]; "Content-Length" := ["5"%string] ]} ["hel"; "lo"]%string) 200 new_writer
    _ eq_refl _ eq_refl eq_refl)); [apply ops_handler_runs | discriminate].
Defined.

Lemma compress_twice_witness :
  let h := {[ "Content-Type" := ["text/css"%string]; "Content-Encoding" := ["gzip"%string] ]} in
  let out := (Compress (page_handler h ["GzippedCss"%string]) _ _ tt new_writer gzip_client).2 in
  w_sent out !! "Content-Encoding" = Some ["gzip"%string] /\ cz_decode encodingGzip (w_body out) = Some "GzippedCss"%string.
Proof.
  refine (compress_twice (page_handler {[ "Content-Type" := ["text/css"%string]; "Content-Encoding" := ["gzip"%string] ]} ["GzippedCss"%string])
    tt gzip_client tt (page {[ "Content-Type" := ["text/css"%string]; "Content-Encoding" := ["gzip"%string] ]} ["GzippedCss"%string]) 200 new_writer
    _ eq_refl _ eq_refl eq_refl eq_refl eq_refl); [apply ops_handler_runs | discriminate].
Defined.

Definition says_ok : HttpHandler unit := fun W _ s w _ => (s, w_Write "ok" w).

Lemma cors_allows_witness :
  let r := a_request "GET" {[ "Origin" := ["https://b.io"%string] ]} in
  exists w1 : ResponseWriter, Header_Get (w_header w1) "Access-Control-Allow-Origin" = "https://b.io"%string /\
    CORS "https://a.io, https://b.io" 600 says_ok _ _ tt new_writer r = says_ok _ _ tt w1 r.
Proof.
  refine (cors_allows "https://a.io, https://b.io" 600 says_ok tt new_writer
    (a_request "GET" {[ "Origin" := ["https://b.io"%string] ]}) _ _ _); [discriminate | reflexivity | reflexivity].
Defined.

Definition serves_old : HttpHandler unit := fun W _ s w _ => (s, serveEntry 7 w (old_entry "Accept-Language") "HIT").

Lemma cors_vary_lost_witness :
  w_sent (CORS "https://a.io" 600 serves_old _ _ tt new_writer
    (a_request "GET" {[ "Origin" := ["https://a.io"%string] ]})).2 !! "Vary" = Some ["Accept-Language"%string].
Proof.
  refine (cors_vary_lost "https://a.io" 600 serves_old 7 (old_entry "Accept-Language") "HIT" ["Accept-Language"%string]
    (a_request "GET" {[ "Origin" := ["https://a.io"%string] ]}) tt tt new_writer _ _ _ _ _ _ _);
    [reflexivity | discriminate | reflexivity | reflexivity | discriminate | vm_compute; reflexivity | discriminate].
Defined.

Lemma redirect_keeps_uri_witness :
  let out := HTTPSRedirect (fun u => u) "" new_writer (a_request "GET" ∅) in
  w_status out = 301 /\ w_sent out !! "Location" = Some ["https://cdn.io/a?q=1"%string].
Proof. refine (redirect_keeps_uri (fun u => u) "" new_writer (a_request "GET" ∅) _). reflexivity. Defined.
