(* ===== verification/Float.v ===== *)
(** * [float64]

    Go's [float64] is IEEE 754 binary64 with rounding to nearest, ties to even. A finite
    value is [m * 2^e]; an operation is the exact rational operation followed by
    [round64]. Overflow gives an infinity, invalid operations give [NaN]; the sign of zero
    is not kept. The lemmas say that rounding never crosses a representable value: what
    comparing and adding rounded numbers needs. *)

From S2P Require Import Prelude.
From Stdlib Require Export QArith.
From Stdlib Require Import Qround Qpower Qabs Lqa.

Local Open Scope Z_scope.

Inductive f64 := Fin (m e : Z) | Inf (neg : bool) | NaN.

(** [2^e] as a rational, for either sign of [e]. *)
Definition pow2 (e : Z) : Q := if 0 <=? e then inject_Z (2 ^ e) else (1 # Z.to_pos (2 ^ (- e)))%Q.

Definition fin_val (m e : Z) : Q := (inject_Z m * pow2 e)%Q.

(** The value of a finite number (0 otherwise). *)
Definition fval (x : f64) : Q := match x with Fin m e => fin_val m e | _ => 0%Q end.

(** ** Rounding *)

(** The nearest integer, ties to even. *)
Definition rne (q : Q) : Z :=
  let f := Qfloor q in
  match Qcompare (q - inject_Z f) (1 # 2) with
  | Lt => f
  | Gt => f + 1
  | Eq => if Z.even f then f else f + 1
  end.

(** The exponent of the last bit of the 53 that represent [q], at least -1074. *)
Definition exponent (q : Q) : Z :=
  let e := Z.log2 (Z.abs (Qnum q)) - Z.log2 (Zpos (Qden q)) - 52 in
  let e := if Qle_bool (pow2 (e + 52)) (Qabs q) then e else e - 1 in
  Z.max e (-1074).

Definition round64 (q : Q) : f64 :=
  if Qnum q =? 0 then Fin 0 0
  else
    let e := exponent q in
    let m := rne (q / pow2 e) in
    if Qle_bool (pow2 1024) (Qabs (fin_val m e)) then Inf (Qnum q <? 0) else Fin m e.

(** ** Operations *)

Definition f_of_Z (z : Z) : f64 := round64 (inject_Z z).

Definition fneg_b (x : f64) : bool :=
  match x with Fin m _ => m <? 0 | Inf s => s | NaN => false end.
Definition fzero_b (x : f64) : bool := match x with Fin m _ => m =? 0 | _ => false end.

Definition fadd (x y : f64) : f64 :=
  match x, y with
  | NaN, _ | _, NaN => NaN
  | Inf s, Inf t => if Bool.eqb s t then Inf s else NaN
  | Inf s, _ | _, Inf s => Inf s
  | Fin m e, Fin m' e' => round64 (fin_val m e + fin_val m' e')
  end.

Definition fopp (x : f64) : f64 :=
  match x with Fin m e => Fin (- m) e | Inf s => Inf (negb s) | NaN => NaN end.

Definition fsub (x y : f64) : f64 := fadd x (fopp y).

Definition fmul (x y : f64) : f64 :=
  match x, y with
  | NaN, _ | _, NaN => NaN
  | Fin m e, Fin m' e' => round64 (fin_val m e * fin_val m' e')
  | _, _ => if fzero_b x || fzero_b y then NaN else Inf (xorb (fneg_b x) (fneg_b y))
  end.

Definition fdiv (x y : f64) : f64 :=
  match x, y with
  | NaN, _ | _, NaN => NaN
  | Inf _, Inf _ => NaN
  | Inf s, _ => Inf (xorb s (fneg_b y))
  | _, Inf _ => Fin 0 0
  | Fin m e, Fin m' e' =>
      if m' =? 0 then (if m =? 0 then NaN else Inf (m <? 0))
      else round64 (fin_val m e / fin_val m' e')
  end.

(** [x < y] and [x <= y]; false when either is [NaN]. *)
Definition flt (x y : f64) : bool :=
  match x, y with
  | NaN, _ | _, NaN => false
  | Inf s, Inf t => s && negb t
  | Inf s, Fin _ _ => s
  | Fin _ _, Inf t => negb t
  | Fin m e, Fin m' e' => negb (Qle_bool (fin_val m' e') (fin_val m e))
  end.

Definition fle (x y : f64) : bool :=
  match x, y with
  | NaN, _ | _, NaN => false
  | Inf s, Inf t => s || negb t
  | Inf s, Fin _ _ => s
  | Fin _ _, Inf t => negb t
  | Fin m e, Fin m' e' => Qle_bool (fin_val m e) (fin_val m' e')
  end.

(** [Duration.Seconds]: whole seconds plus the rest divided by 1e9. *)
Definition Seconds (d : Duration) : f64 :=
  fadd (f_of_Z (Z.quot d Second)) (fdiv (f_of_Z (Z.rem d Second)) (f_of_Z 1000000000)).

(** ** Powers of two *)

Local Open Scope Q_scope.

Lemma pow2_power e : pow2 e == Qpower 2 e.
Proof.
  unfold pow2. destruct (Z.leb_spec 0 e) as [He | He].
  - rewrite Zpower_Qpower by done. reflexivity.
  - replace e with (- (- e))%Z at 2 by lia. rewrite Qpower_opp.
    assert (Hp : (0 < 2 ^ (- e))%Z) by (apply Z.pow_pos_nonneg; lia).
    change (2 : Q) with (inject_Z 2). rewrite <- Zpower_Qpower by lia.
    unfold Qeq, Qinv, inject_Z; cbn [Qnum Qden]. destruct (2 ^ (- e))%Z eqn:E; try lia. cbn. reflexivity.
Qed.

Lemma pow2_pos e : 0 < pow2 e.
Proof. rewrite pow2_power. apply Qpower_0_lt. reflexivity. Qed.

Lemma pow2_add a b : pow2 (a + b) == pow2 a * pow2 b.
Proof. rewrite !pow2_power. apply Qpower_plus. discriminate. Qed.

Lemma pow2_Z a : (0 <= a)%Z -> pow2 a == inject_Z (2 ^ a).
Proof. intros Ha. unfold pow2. rewrite (proj2 (Z.leb_le _ _) Ha). reflexivity. Qed.

Lemma pow2_mono a b : (a <= b)%Z -> pow2 a <= pow2 b.
Proof.
  intros Hab. replace b with ((b - a) + a)%Z by lia. rewrite pow2_add, (pow2_Z (b - a)) by lia.
  rewrite <- (Qmult_1_l (pow2 a)) at 1. apply Qmult_le_compat_r; [| apply Qlt_le_weak, pow2_pos].
  change 1 with (inject_Z 1). rewrite <- Zle_Qle. pose proof (Z.pow_pos_nonneg 2 (b - a)). lia.
Qed.

Lemma Qabs_Z z : Qabs (inject_Z z) = inject_Z (Z.abs z).
Proof. reflexivity. Qed.

(** A coarser grid is part of a finer one. *)
Lemma fin_val_refine m k e : (e <= k)%Z -> fin_val m k == fin_val (m * 2 ^ (k - e)) e.
Proof.
  intros Hk. unfold fin_val. replace k with ((k - e) + e)%Z at 1 by lia.
  rewrite pow2_add, (pow2_Z (k - e)), inject_Z_mult by lia. ring.
Qed.

(** ** Rounding to an integer *)

Lemma rne_le q (n : Z) : q <= inject_Z n -> (rne q <= n)%Z.
Proof.
  intros Hq. unfold rne. pose proof (Qfloor_le q) as Hf. pose proof (Qlt_floor q) as Hc.
  assert (Hle : (Qfloor q <= n)%Z).
  { rewrite Zle_Qle. lra. }
  destruct (Z.eq_dec (Qfloor q) n) as [E | Hne].
  - assert (Hz : q - inject_Z (Qfloor q) < 1 # 2) by (rewrite E in *; lra).
    rewrite (proj1 (Qlt_alt _ _) Hz). lia.
  - destruct (_ ?= _); [destruct (Z.even _) | |]; lia.
Qed.

Lemma rne_ge q (n : Z) : inject_Z n <= q -> (n <= rne q)%Z.
Proof.
  intros Hq. unfold rne.
  assert (Hle : (n <= Qfloor q)%Z).
  { pose proof (Qfloor_resp_le _ _ Hq) as Hf. by rewrite Qfloor_Z in Hf. }
  destruct (_ ?= _); [destruct (Z.even _) | |]; lia.
Qed.

(** ** The exponent *)

Lemma log2_pos_bounds (p : Z) : (0 < p)%Z -> pow2 (Z.log2 p) <= inject_Z p /\ inject_Z p < pow2 (Z.log2 p + 1).
Proof.
  intros Hp. pose proof (Z.log2_nonneg p). rewrite (pow2_Z (Z.log2 p)), (pow2_Z (Z.log2 p + 1)) by lia.
  destruct (Z.log2_spec p Hp). rewrite <- Zle_Qle, <- Zlt_Qlt. split; [lia |]. by rewrite Z.add_1_r.
Qed.

Lemma Qabs_num_den q : Qabs q * inject_Z (Zpos (Qden q)) == inject_Z (Z.abs (Qnum q)).
Proof. destruct q as [n d]. cbn. unfold Qeq; cbn. lia. Qed.

(** Unless it is the least one, the exponent makes the significand at least [2^52]. *)
Lemma exponent_low q : Qnum q <> 0%Z -> (-1074 < exponent q)%Z -> pow2 (exponent q + 52) <= Qabs q.
Proof.
  intros Hn He. unfold exponent in *.
  set (e := (Z.log2 (Z.abs (Qnum q)) - Z.log2 (Zpos (Qden q)) - 52)%Z) in *.
  destruct (Qle_bool (pow2 (e + 52)) (Qabs q)) eqn:Eb.
  - apply Qle_bool_iff in Eb. by rewrite Z.max_l by lia.
  - rewrite Z.max_l by lia. replace (e - 1 + 52)%Z with (e + 51)%Z by lia.
    destruct (log2_pos_bounds (Z.abs (Qnum q)) ltac:(lia)) as [Hl _].
    destruct (log2_pos_bounds (Zpos (Qden q)) ltac:(lia)) as [_ Hu].
    assert (Hmul : pow2 (e + 51) * inject_Z (Zpos (Qden q)) <= Qabs q * inject_Z (Zpos (Qden q))).
    { rewrite Qabs_num_den. apply (Qle_trans _ (pow2 (e + 51) * pow2 (Z.log2 (Zpos (Qden q)) + 1))).
      - rewrite (Qmult_comm _ (inject_Z _)), (Qmult_comm _ (pow2 (_ + 1))).
        apply Qmult_le_compat_r; [lra | apply Qlt_le_weak, pow2_pos].
      - rewrite <- pow2_add.
        replace (e + 51 + (Z.log2 (Zpos (Qden q)) + 1))%Z with (Z.log2 (Z.abs (Qnum q)))%Z by (unfold e; lia). done. }
    apply (Qmult_le_r _ _ (inject_Z (Zpos (Qden q)))); [reflexivity | done].
Qed.

Lemma exponent_min q : (-1074 <= exponent q)%Z.
Proof. unfold exponent. lia. Qed.

(** ** Rounding and representable values *)

Definition representable (v : Q) : Prop :=
  exists m k, (Z.abs m <= 2 ^ 53)%Z /\ (-1074 <= k)%Z /\ v == fin_val m k.

Lemma grid_le q e n : q <= fin_val n e -> fin_val (rne (q / pow2 e)) e <= fin_val n e.
Proof.
  intros Hq. pose proof (pow2_pos e) as Hp. unfold fin_val in *. apply Qmult_le_compat_r; [| lra].
  rewrite <- Zle_Qle. apply rne_le. apply (Qmult_le_r _ _ (pow2 e)); [done |].
  unfold Qdiv. rewrite <- Qmult_assoc, (Qmult_comm (/ pow2 e)), Qmult_inv_r, Qmult_1_r by lra. done.
Qed.

Lemma grid_ge q e n : fin_val n e <= q -> fin_val n e <= fin_val (rne (q / pow2 e)) e.
Proof.
  intros Hq. pose proof (pow2_pos e) as Hp. unfold fin_val in *. apply Qmult_le_compat_r; [| lra].
  rewrite <- Zle_Qle. apply rne_ge. apply (Qmult_le_r _ _ (pow2 e)); [done |].
  unfold Qdiv. rewrite <- Qmult_assoc, (Qmult_comm (/ pow2 e)), Qmult_inv_r, Qmult_1_r by lra. done.
Qed.

(** A representable value is on the grid of [q], or at most the power of two below [q]. *)
Lemma on_grid v q :
  representable v -> Qnum q <> 0%Z ->
  (exists n, v == fin_val n (exponent q)) \/ Qabs v <= fin_val (2 ^ 52) (exponent q) <= Qabs q.
Proof.
  intros (m & k & Hm & Hk & Ev) Hn. destruct (Z.le_gt_cases (exponent q) k) as [He | He].
  - left. exists (m * 2 ^ (k - exponent q))%Z. rewrite Ev. by apply fin_val_refine.
  - right. assert (E52 : fin_val (2 ^ 52) (exponent q) == pow2 (exponent q + 52)).
    { unfold fin_val. rewrite pow2_add, <- (pow2_Z 52) by lia. ring. }
    rewrite E52. split; [| apply exponent_low; [done | lia]].
    rewrite Ev. unfold fin_val. rewrite Qabs_Qmult, (Qabs_pos (pow2 k)) by (pose proof (pow2_pos k); lra).
    apply (Qle_trans _ (pow2 53 * pow2 k)).
    + apply Qmult_le_compat_r; [| pose proof (pow2_pos k); lra]. rewrite (pow2_Z 53) by lia.
      rewrite Qabs_Z, <- Zle_Qle. lia.
    + rewrite <- pow2_add. apply pow2_mono. lia.
Qed.

(** Rounding does not cross a representable value. *)
Lemma round_fin_le q v :
  Qnum q <> 0%Z -> representable v -> q <= v -> fin_val (rne (q / pow2 (exponent q))) (exponent q) <= v.
Proof.
  intros Hn Hr Hq. destruct (on_grid v q Hr Hn) as [[n En] | [Hv H52]].
  - rewrite En in *. by apply grid_le.
  - set (e := exponent q) in *.
    assert (Hopp : fin_val (- 2 ^ 52) e == - fin_val (2 ^ 52) e) by (unfold fin_val; rewrite inject_Z_opp; ring).
    destruct (Qlt_le_dec q 0) as [Hneg | Hpos].
    + rewrite (Qabs_neg q) in H52 by lra. apply Qabs_Qle_condition in Hv.
      apply (Qle_trans _ (fin_val (- 2 ^ 52) e)); [apply grid_le |]; lra.
    + rewrite (Qabs_pos q) in H52 by lra. apply Qabs_Qle_condition in Hv.
      apply (Qle_trans _ (fin_val (2 ^ 52) e)); [apply grid_le |]; lra.
Qed.

Lemma round_fin_ge q v :
  Qnum q <> 0%Z -> representable v -> v <= q -> v <= fin_val (rne (q / pow2 (exponent q))) (exponent q).
Proof.
  intros Hn Hr Hq. destruct (on_grid v q Hr Hn) as [[n En] | [Hv H52]].
  - rewrite En in *. by apply grid_ge.
  - set (e := exponent q) in *.
    assert (Hopp : fin_val (- 2 ^ 52) e == - fin_val (2 ^ 52) e) by (unfold fin_val; rewrite inject_Z_opp; ring).
    destruct (Qlt_le_dec q 0) as [Hneg | Hpos].
    + rewrite (Qabs_neg q) in H52 by lra. apply Qabs_Qle_condition in Hv.
      apply (Qle_trans _ (fin_val (- 2 ^ 52) e)); [| apply grid_ge]; lra.
    + rewrite (Qabs_pos q) in H52 by lra. apply Qabs_Qle_condition in Hv.
      apply (Qle_trans _ (fin_val (2 ^ 52) e)); [| apply grid_ge]; lra.
Qed.

(** Between representable values below the overflow threshold the result is finite and
    between them; on one of them it is exact. *)
Lemma round64_between q lo hi :
  representable lo -> representable hi -> - pow2 1024 < lo -> hi < pow2 1024 -> lo <= q -> q <= hi ->
  exists m e, round64 q = Fin m e /\ lo <= fin_val m e /\ fin_val m e <= hi.
Proof.
  intros Hlo Hhi Hl Hh Hql Hqh. unfold round64. destruct (Z.eqb_spec (Qnum q) 0) as [Hz | Hn].
  - exists 0%Z, 0%Z. assert (Hq : q == 0) by (unfold Qeq; cbn; lia).
    assert (Hv : fin_val 0 0 == 0) by reflexivity. rewrite Hv, <- Hq. done.
  - cbv zeta. pose proof (round_fin_ge q lo Hn Hlo Hql) as H1. pose proof (round_fin_le q hi Hn Hhi Hqh) as H2.
    set (v := fin_val (rne (q / pow2 (exponent q))) (exponent q)) in *.
    destruct (Qle_bool (pow2 1024) (Qabs v)) eqn:Eb; [| by do 2 eexists].
    apply Qle_bool_iff in Eb. exfalso.
    assert (Hv : Qabs v < pow2 1024) by (apply Qabs_Qlt_condition; lra). lra.
Qed.

Lemma round64_exact q :
  representable q -> Qabs q < pow2 1024 -> exists m e, round64 q = Fin m e /\ fin_val m e == q.
Proof.
  intros Hr Hb. apply Qabs_Qlt_condition in Hb.
  destruct (round64_between q q q Hr Hr ltac:(lra) ltac:(lra) ltac:(lra) ltac:(lra)) as (m & e & Hf & H1 & H2).
  exists m, e. split; [done | lra].
Qed.

Lemma representable_Z z : (Z.abs z <= 2 ^ 53)%Z -> representable (inject_Z z).
Proof. intros Hz. exists z, 0%Z. split_and!; [done | lia |]. unfold fin_val. cbn [pow2 Z.leb Z.compare]. change (2 ^ 0)%Z with 1%Z. ring. Qed.

Lemma small_lt_1024 q n : (0 <= n < 1024)%Z -> Qabs q <= inject_Z (2 ^ n) -> Qabs q < pow2 1024.
Proof.
  intros Hn Hq. apply (Qle_lt_trans _ _ _ Hq). rewrite (pow2_Z 1024) by lia. rewrite <- Zlt_Qlt.
  apply Z.pow_lt_mono_r; lia.
Qed.

(** Conversions of integers up to [2^53] are exact. *)
Lemma f_of_Z_exact z : (Z.abs z <= 2 ^ 53)%Z -> exists m e, f_of_Z z = Fin m e /\ fin_val m e == inject_Z z.
Proof.
  intros Hz. apply round64_exact; [by apply representable_Z |].
  apply (small_lt_1024 _ 53); [lia |]. by rewrite Qabs_Z, <- Zle_Qle.
Qed.

Lemma f_of_Z_nonneg z :
  (0 <= z <= 2 ^ 63)%Z -> exists m e, f_of_Z z = Fin m e /\ inject_Z (Z.min z (2 ^ 53)) <= fin_val m e <= inject_Z (2 ^ 63).
Proof.
  intros Hz. destruct (Z.le_gt_cases z (2 ^ 53)) as [Hs | Hl].
  - destruct (f_of_Z_exact z ltac:(lia)) as (m & e & -> & Hv). exists m, e. split; [done |]. rewrite Hv, Z.min_l by lia.
    split; rewrite <- Zle_Qle; lia.
  - destruct (round64_between (inject_Z z) (inject_Z (2 ^ 53)) (inject_Z (2 ^ 63))) as (m & e & Hf & H1 & H2).
    + by apply representable_Z.
    + exists (2 ^ 53)%Z, 10%Z. split_and!; [done | done |]. reflexivity.
    + apply (Qlt_trans _ 0); [| reflexivity]. pose proof (pow2_pos 1024). lra.
    + rewrite (pow2_Z 1024), <- Zlt_Qlt by lia. done.
    + rewrite <- Zle_Qle. lia.
    + rewrite <- Zle_Qle. lia.
    + exists m, e. rewrite Z.min_r by lia. by split.
Qed.

(** ** Comparing a quotient with half an integer

    The rounded quotient of [x] by an integer up to 1000 is on the same side of [c/2] as
    the exact one, for an integer multiple of one half [x]. *)

Lemma half_representable c k : (0 <= c < 2 ^ 53)%Z -> (-1074 <= k <= 0)%Z -> representable (fin_val c k).
Proof. intros Hc Hk. exists c, k. split_and!; [lia | lia | done]. Qed.

Lemma fin_val_small c k : (0 <= c < 2 ^ 53)%Z -> (-1074 <= k <= 0)%Z -> 0 <= fin_val c k < pow2 1024.
Proof.
  intros Hc Hk. unfold fin_val. pose proof (pow2_pos k). pose proof (pow2_mono k 0 ltac:(lia)) as Hle.
  assert (H0 : 0 <= inject_Z c) by (change 0 with (inject_Z 0); rewrite <- Zle_Qle; lia).
  split; [apply Qmult_le_0_compat; lra |].
  apply (Qle_lt_trans _ (inject_Z c * 1)).
  - rewrite (Qmult_comm _ (pow2 k)), (Qmult_comm _ 1). apply Qmult_le_compat_r; [exact Hle | lra].
  - rewrite Qmult_1_r, (pow2_Z 1024), <- Zlt_Qlt by lia. apply (Z.lt_trans _ (2 ^ 53)); [lia | done].
Qed.

Lemma Qdiv_le x d y : 0 < d -> x <= y * d -> x / d <= y.
Proof. intros Hd Hx. apply Qle_shift_div_r; done. Qed.

Lemma Qdiv_ge x d y : 0 < d -> y * d <= x -> y <= x / d.
Proof. intros Hd Hx. apply Qle_shift_div_l; done. Qed.

Lemma fin_val_half c : fin_val c (-1) == inject_Z c * (1 # 2).
Proof. reflexivity. Qed.

Lemma quotient_low q x (d c : Z) :
  q == x / inject_Z d -> (0 < d)%Z -> (0 <= c < 2 ^ 53)%Z -> 0 <= x -> x * 2 <= inject_Z d * inject_Z c ->
  exists m e, round64 q = Fin m e /\ 0 <= fin_val m e <= fin_val c (-1).
Proof.
  intros Eq Hd Hc Hx Hxc. assert (Hd' : 0 < inject_Z d) by (change 0 with (inject_Z 0); by rewrite <- Zlt_Qlt).
  destruct (fin_val_small c (-1) Hc ltac:(lia)) as [Hc0 Hc1].
  destruct (round64_between q 0 (fin_val c (-1))) as (m & e & Hr & H1 & H2).
  - exists 0%Z, 0%Z. by split_and!.
  - apply half_representable; [done | lia].
  - pose proof (pow2_pos 1024). lra.
  - done.
  - rewrite Eq. apply Qdiv_ge; [done | lra].
  - rewrite Eq. apply Qdiv_le; [done |]. rewrite fin_val_half. lra.
  - by exists m, e.
Qed.

Lemma quotient_high q x (d c : Z) :
  q == x / inject_Z d -> (0 < d <= 1000)%Z -> (0 <= c < 2 ^ 42)%Z -> inject_Z d * inject_Z c + 1 <= x * 2 -> x <= inject_Z (2 ^ 63) ->
  exists m e, round64 q = Fin m e /\ fin_val c (-1) < fin_val m e.
Proof.
  intros Eq Hd Hc Hxc Hx. assert (Hd' : 0 < inject_Z d) by (change 0 with (inject_Z 0); rewrite <- Zlt_Qlt; lia).
  assert (Hd1 : 1 <= inject_Z d) by (change 1 with (inject_Z 1); rewrite <- Zle_Qle; lia).
  assert (Hd2 : inject_Z d <= 1000) by (change 1000 with (inject_Z 1000); rewrite <- Zle_Qle; lia).
  assert (Hlo : fin_val (1024 * c + 1) (-11) == inject_Z c * (1 # 2) + (1 # 2048)).
  { unfold fin_val. rewrite inject_Z_plus, inject_Z_mult. change (pow2 (-11)) with (1 # 2048). change (inject_Z 1) with 1.
    change (inject_Z 1024) with 1024. lra. }
  destruct (round64_between q (fin_val (1024 * c + 1) (-11)) (inject_Z (2 ^ 63))) as (m & e & Hr & H1 & _).
  - apply half_representable; lia.
  - exists (2 ^ 53)%Z, 10%Z. split_and!; [done | done |]. reflexivity.
  - destruct (fin_val_small (1024 * c + 1) (-11) ltac:(lia) ltac:(lia)). pose proof (pow2_pos 1024). lra.
  - rewrite (pow2_Z 1024), <- Zlt_Qlt by lia. done.
  - rewrite Eq. apply Qdiv_ge; [done |]. rewrite Hlo.
    assert (E : (inject_Z c * (1 # 2) + (1 # 2048)) * inject_Z d
      == inject_Z d * inject_Z c * (1 # 2) + inject_Z d * (1 # 2048)) by ring. rewrite E. lra.
  - rewrite Eq. apply Qdiv_le; [done |]. apply (Qle_trans _ _ _ Hx). rewrite <- inject_Z_mult, <- Zle_Qle. lia.
  - exists m, e. split; [done |]. rewrite fin_val_half. lra.
Qed.

(** ** Order *)

Lemma fle_trans x y z : fle x y = true -> fle y z = true -> fle x z = true.
Proof.
  destruct x as [m e | [] |], y as [m' e' | [] |], z as [m'' e'' | [] |]; cbn [fle orb negb]; try done.
  rewrite !Qle_bool_iff. apply Qle_trans.
Qed.

(** ** Results are representable *)

Lemma exponent_high q : Qabs q <= pow2 (exponent q + 53).
Proof.
  unfold exponent. set (e := (Z.log2 (Z.abs (Qnum q)) - Z.log2 (Zpos (Qden q)) - 52)%Z).
  destruct (Z.eq_dec (Qnum q) 0) as [E0 | Hn].
  { assert (Hz : Qabs q == 0) by (unfold Qeq, Qabs; destruct q; cbn in *; lia). pose proof (pow2_pos (Z.max e (-1074) + 53)) as Hp.
    destruct (Qle_bool _ _); [lra |]. pose proof (pow2_pos (Z.max (e - 1) (-1074) + 53)). lra. }
  destruct (Qle_bool (pow2 (e + 52)) (Qabs q)) eqn:Eb.
  - apply (Qle_trans _ (pow2 (e + 53))); [| apply pow2_mono; lia].
    destruct (log2_pos_bounds (Z.abs (Qnum q)) ltac:(lia)) as [_ Hu].
    destruct (log2_pos_bounds (Zpos (Qden q)) ltac:(lia)) as [Hl _].
    apply (Qmult_le_r _ _ (inject_Z (Zpos (Qden q)))); [reflexivity |]. rewrite Qabs_num_den.
    apply (Qle_trans _ (pow2 (e + 53) * pow2 (Z.log2 (Zpos (Qden q))))).
    + rewrite <- pow2_add. replace (e + 53 + Z.log2 (Zpos (Qden q)))%Z with (Z.log2 (Z.abs (Qnum q)) + 1)%Z by (unfold e; lia). lra.
    + rewrite (Qmult_comm _ (pow2 (Z.log2 _))), (Qmult_comm _ (inject_Z _)). apply Qmult_le_compat_r; [done | apply Qlt_le_weak, pow2_pos].
  - apply (Qle_trans _ (pow2 (e - 1 + 53))); [| apply pow2_mono; lia].
    replace (e - 1 + 53)%Z with (e + 52)%Z by lia. apply Qlt_le_weak.
    apply Qnot_le_lt. rewrite <- Qle_bool_iff, Eb. done.
Qed.

(** A significand of at most 53 bits. *)
Definition f_wf (x : f64) : Prop := match x with Fin m e => (Z.abs m <= 2 ^ 53)%Z /\ (-1074 <= e)%Z | _ => True end.

Lemma round64_wf q : f_wf (round64 q).
Proof.
  unfold round64. destruct (Z.eqb_spec (Qnum q) 0) as [E0 | Hn]; [cbn; lia |]. cbv zeta.
  destruct (Qle_bool _ _); [done |]. cbn [f_wf]. split; [| apply exponent_min].
  pose proof (exponent_high q) as Hh. pose proof (pow2_pos (exponent q)) as Hp.
  assert (H53 : fin_val (2 ^ 53) (exponent q) == pow2 (exponent q + 53)).
  { unfold fin_val. rewrite pow2_add, <- (pow2_Z 53) by lia. ring. }
  apply Qabs_Qle_condition in Hh as [Hl Hu]. rewrite <- H53 in Hl, Hu.
  assert (Hle : (rne (q / pow2 (exponent q)) <= 2 ^ 53)%Z).
  { apply rne_le, Qdiv_le; [done |]. exact Hu. }
  assert (Hge : (- 2 ^ 53 <= rne (q / pow2 (exponent q)))%Z).
  { apply rne_ge, Qdiv_ge; [done |]. apply (Qle_trans _ (- fin_val (2 ^ 53) (exponent q))); [| done].
    unfold fin_val. rewrite inject_Z_opp. lra. }
  lia.
Qed.

Lemma wf_representable m e : f_wf (Fin m e) -> representable (fin_val m e).
Proof. intros [Hm He]. by exists m, e. Qed.

(** Subtracting one from a number between one and [2^53] is exact. *)
Lemma sub_one_representable m e :
  f_wf (Fin m e) -> 1 <= fin_val m e <= inject_Z (2 ^ 53) -> representable (fin_val m e - 1).
Proof.
  intros [Hm He] [H1 H53]. pose proof (pow2_pos e) as Hp. assert (Hmpos : (0 < m)%Z).
  { rewrite Zlt_Qlt. change (inject_Z 0) with 0. apply Qnot_le_lt. intros Hle. unfold fin_val in H1.
    assert (inject_Z m * pow2 e <= 0 * pow2 e) by (apply Qmult_le_compat_r; lra). lra. }
  destruct (Z.le_gt_cases 0 e) as [Hpos | Hneg].
  - assert (Ev : fin_val m e == inject_Z (m * 2 ^ e)) by (unfold fin_val; by rewrite (pow2_Z e), inject_Z_mult by lia).
    rewrite Ev, <- Zle_Qle in H53. rewrite Ev in H1. change 1 with (inject_Z 1) in H1. rewrite <- Zle_Qle in H1.
    exists (m * 2 ^ e - 1)%Z, 0%Z. split_and!; [lia | lia |]. rewrite Ev. unfold fin_val. change (pow2 0) with 1. unfold Z.sub.
    rewrite inject_Z_plus. change (inject_Z (-(1))) with (-(1)). ring.
  - assert (E1 : fin_val (2 ^ (- e)) e == 1).
    { unfold fin_val. rewrite <- (pow2_Z (- e)), <- pow2_add by lia. replace (- e + e)%Z with 0%Z by lia. reflexivity. }
    assert (Hge : (2 ^ (- e) <= m)%Z).
    { rewrite Zle_Qle. apply (Qmult_le_r _ _ (pow2 e)); [done |]. change (fin_val (2 ^ (- e)) e <= fin_val m e). lra. }
    pose proof (Z.pow_pos_nonneg 2 (- e)).
    exists (m - 2 ^ (- e))%Z, e. split_and!; [lia | done |]. rewrite <- E1 at 1. unfold fin_val, Z.sub.
    rewrite inject_Z_plus, inject_Z_opp. ring.
Qed.
