(* ===== verification/Logging.v ===== *)
(** * Structured logging ([logging/logging.go])

    The logger with its level, the writer that records the status and the bytes, and the
    access-log middleware, which runs the handler on that writer. The lines written are kept as values: JSON encoding and the
    formatting of times are the standard library's. Random bytes and instants are
    arguments. *)

From S2P Require Import Prelude GoStrings Http Middleware Float.

Local Open Scope Z_scope.

Definition LevelDebug : Z := 0.
Definition LevelInfo : Z := 1.
Definition LevelError : Z := 2.

Record AccessEntry := {
  ae_Timestamp : string; ae_Level : string; ae_RequestID : string; ae_Method : string; ae_Host : string;
  ae_Path : string; ae_Status : Z; ae_BytesSent : Z; ae_DurationMs : f64; ae_CacheStatus : string;
  ae_ClientIP : string; ae_UserAgent : string
}.

Record LogEntry := { le_Timestamp : string; le_Level : string; le_Msg : string; le_RequestID : string; le_Error : string }.

Inductive log_line := LAccess (e : AccessEntry) | LEntry (e : LogEntry).

Record Logger := { lg_out : list log_line; lg_level : Z }.

Definition New : Logger := {| lg_out := []; lg_level := LevelInfo |}.

Definition SetLevel (level : string) (l : Logger) : Logger :=
  let set v := {| lg_out := lg_out l; lg_level := v |} in
  if String.eqb level "debug" then set LevelDebug
  else if String.eqb level "info" then set LevelInfo
  else if String.eqb level "error" then set LevelError
  else l.

Definition Level (l : Logger) : string :=
  if lg_level l =? LevelDebug then "debug"
  else if lg_level l =? LevelInfo then "info"
  else if lg_level l =? LevelError then "error"
  else "info".

(** [write]: one value, one line. *)
Definition log_write (v : log_line) (l : Logger) : Logger := {| lg_out := lg_out l ++ [v]; lg_level := lg_level l |}.

(** [time.Now().UTC().Format(time.RFC3339Nano)] *)
Class LogTime := { rfc3339nano : Z -> string }.

Section logger.
Context `{LogTime}.

Definition Access (now : Z) (entry : AccessEntry) (l : Logger) : Logger :=
  if LevelInfo <? lg_level l then l
  else log_write (LAccess {| ae_Timestamp := rfc3339nano now; ae_Level := "info"; ae_RequestID := ae_RequestID entry;
         ae_Method := ae_Method entry; ae_Host := ae_Host entry; ae_Path := ae_Path entry; ae_Status := ae_Status entry;
         ae_BytesSent := ae_BytesSent entry; ae_DurationMs := ae_DurationMs entry; ae_CacheStatus := ae_CacheStatus entry;
         ae_ClientIP := ae_ClientIP entry; ae_UserAgent := ae_UserAgent entry |}) l.

Definition first_id (requestID : list string) : string := match requestID with id :: _ => id | [] => EmptyString end.

Definition Debug_ (now : Z) (msg : string) (requestID : list string) (l : Logger) : Logger :=
  if LevelDebug <? lg_level l then l
  else log_write (LEntry {| le_Timestamp := rfc3339nano now; le_Level := "debug"; le_Msg := msg;
                            le_RequestID := first_id requestID; le_Error := EmptyString |}) l.

Definition Info_ (now : Z) (msg : string) (requestID : list string) (l : Logger) : Logger :=
  if LevelInfo <? lg_level l then l
  else log_write (LEntry {| le_Timestamp := rfc3339nano now; le_Level := "info"; le_Msg := msg;
                            le_RequestID := first_id requestID; le_Error := EmptyString |}) l.

Definition Error_ (now : Z) (msg : string) (err : option string) (requestID : list string) (l : Logger) : Logger :=
  log_write (LEntry {| le_Timestamp := rfc3339nano now; le_Level := "error"; le_Msg := msg;
                       le_RequestID := first_id requestID; le_Error := default EmptyString err |}) l.

End logger.

(** ** Request identifiers *)

(** [GenerateRequestID] on the 8 bytes [rand.Read] gave. *)
Definition GenerateRequestID (random : list Z) : string := EncodeToString random.

(** The request context, as far as the package uses it. *)
Definition Ctx : Type := option string.
Definition WithRequestID (ctx : Ctx) (id : string) : Ctx := Some id.
Definition GetRequestID (ctx : Ctx) : string := default EmptyString ctx.

(** ** The recording writer *)

Record responseWriter (W : Type) := { rw_w : W; rw_status : Z; rw_bytesWritten : Z }.
Arguments rw_w {W}.
Arguments rw_status {W}.
Arguments rw_bytesWritten {W}.

Section wrapper.
Context {W : Type} `{Writer W}.

Definition rw_WriteHeader (code : Z) (rw : responseWriter W) : responseWriter W :=
  {| rw_w := WriteHeader code (rw_w rw); rw_status := code; rw_bytesWritten := rw_bytesWritten rw |}.

Definition rw_Write (b : string) (rw : responseWriter W) : responseWriter W :=
  {| rw_w := w_Write b (rw_w rw); rw_status := rw_status rw; rw_bytesWritten := rw_bytesWritten rw + str_len b |}.

Definition rw_set_header (h : Header) (rw : responseWriter W) : responseWriter W :=
  {| rw_w := w_set_header h (rw_w rw); rw_status := rw_status rw; rw_bytesWritten := rw_bytesWritten rw |}.

#[export] Instance logging_writer : Writer (responseWriter W) :=
  {| w_header rw := w_header (rw_w rw); w_set_header := rw_set_header; WriteHeader := rw_WriteHeader; w_Write := rw_Write |}.

End wrapper.

(** [float64(duration.Microseconds()) / 1000.0] *)
Definition duration_ms (d : Duration) : f64 := fdiv (f_of_Z (Z.quot d 1000)) (f_of_Z 1000).

Definition clientIP (remoteAddr : string) (r : Request) : string :=
  let xff := Header_Get (r_Header r) "X-Forwarded-For" in
  if String.eqb xff "" then remoteAddr else xff.

Section access_log.
Context `{LogTime}.

(** [Middleware]: [next] is the handler in its context, [t0], [t1] and [t2] are the three
    readings of the clock; the logger is part of what the program shares. *)
Definition LogMiddleware {S} (upd_logger : (Logger -> Logger) -> S -> S) (random : list Z) (t0 t1 t2 : Z) (remoteAddr : string)
    (next : Ctx -> HttpHandler S) : HttpHandler S := fun W _ s w r =>
  let reqID := Header_Get (r_Header r) "X-Request-ID" in
  let reqID := if String.eqb reqID "" then GenerateRequestID random else reqID in
  let w := w_set_header (Header_Set (w_header w) "X-Request-ID" reqID) w in
  let ctx := WithRequestID None reqID in
  let '(s, rw) := next ctx _ logging_writer s {| rw_w := w; rw_status := 200; rw_bytesWritten := 0 |} r in
  let duration := time_sub t1 t0 in
  (upd_logger (Access t2 {| ae_Timestamp := ""; ae_Level := ""; ae_RequestID := reqID; ae_Method := r_Method r; ae_Host := r_Host r;
     ae_Path := r_Path r; ae_Status := rw_status rw; ae_BytesSent := rw_bytesWritten rw; ae_DurationMs := duration_ms duration;
     ae_CacheStatus := Header_Get (w_header rw) "X-Cache"; ae_ClientIP := clientIP remoteAddr r;
     ae_UserAgent := Header_Get (r_Header r) "User-Agent" |}) s, rw_w rw).

End access_log.

(** ** Lemmas *)

(** No header is sent twice: [WriteHeader] is called at most once, and before any write. *)
Fixpoint header_once (started : bool) (ops : list wop) : bool :=
  match ops with
  | [] => true
  | OpHeader _ :: ops => header_once started ops
  | OpWriteHeader code :: ops => negb started && negb (code =? 0) && header_once true ops
  | OpWrite _ :: ops => header_once true ops
  end.

(** What the client of a handler that writes nothing gets. *)
Definition final_status (w : ResponseWriter) : Z := if w_status w =? 0 then 200 else w_status w.

(** The wrapper is a writer like any other, and changes nothing of what the handler does. *)
#[export] Instance logging_laws {W} `{WriterLaws W} : WriterLaws (responseWriter W).
Proof.
  split; [split |..].
  - intros h rw. apply (header_set (W := W)).
  - intros h h' rw. cbn. unfold rw_set_header. cbn. by rewrite set_header_set.
  - intros code rw. apply (header_WriteHeader (W := W)).
  - intros data rw. apply (header_Write (W := W)).
Qed.

Definition ops_bytes (ops : list wop) : Z :=
  foldr (fun op n => match op with OpWrite data => str_len data + n | _ => n end) 0 ops.

Lemma rw_w_op `{Writer W} op (rw : responseWriter W) : rw_w (run_op rw op) = run_op (rw_w rw) op.
Proof. by destruct op. Qed.

Lemma rw_transparent `{Writer W} ops (rw : responseWriter W) :
  rw_w (run_ops ops rw) = run_ops ops (rw_w rw) /\
  rw_bytesWritten (run_ops ops rw) = rw_bytesWritten rw + ops_bytes ops.
Proof.
  revert rw. induction ops as [| op ops IH]; intros rw; cbn [ops_bytes foldr]; [split; [done | cbn; lia] |].
  rewrite !run_ops_cons. destruct (IH (run_op rw op)) as [-> ->]. fold (ops_bytes ops).
  destruct op as [f | code | data]; cbn; split; done || lia.
Qed.

(** The bytes the client gets. *)
Lemma ops_bytes_sent ops (w : ResponseWriter) : str_len (w_body (run_ops ops w)) = str_len (w_body w) + ops_bytes ops.
Proof.
  revert w. induction ops as [| op ops IH]; intros w; cbn [ops_bytes foldr]; [cbn; lia |].
  rewrite run_ops_cons, IH. fold (ops_bytes ops). destruct op as [f | code | data]; cbn [run_op]; server; [done | by destruct (_ =? _) |].
  destruct (w_status w =? 0) eqn:E; rewrite ?E; cbn [w_body]; rewrite str_len_app; lia.
Qed.

(** The recorded status is the one sent. *)
Lemma rw_status_sent ops (rw : responseWriter ResponseWriter) started :
  header_once started ops = true ->
  started = negb (w_status (rw_w rw) =? 0) -> rw_status rw = final_status (rw_w rw) ->
  rw_status (run_ops ops rw) = final_status (run_ops ops (rw_w rw)).
Proof.
  revert rw started. induction ops as [| op ops IH]; intros rw started Hok Hst Hr; [done |]. rewrite !run_ops_cons, <- rw_w_op.
  destruct op as [f | code | data]; cbn [header_once] in *.
  - exact (IH (run_op rw (OpHeader f)) started Hok Hst Hr).
  - apply andb_true_iff in Hok as [[Hns Hc]%andb_true_iff Hok]. apply negb_true_iff in Hns, Hc.
    rewrite Hns in Hst. symmetry in Hst. apply negb_false_iff in Hst. apply (IH (run_op rw (OpWriteHeader code)) true Hok);
      cbn; unfold final_status; server; rewrite Hst; cbn [w_status]; by rewrite Hc.
  - apply (IH (run_op rw (OpWrite data)) true Hok); cbn; server.
    + by destruct (w_status (rw_w rw) =? 0) eqn:E; cbn [w_status]; rewrite ?E.
    + rewrite Hr. unfold final_status.
      by destruct (w_status (rw_w rw) =? 0) eqn:E; cbn [w_status]; rewrite ?E.
Qed.

Section access_facts.
Context `{LogTime}.

(** What the logger is told. *)
Definition request_id (random : list Z) (r : Request) : string :=
  let id := Header_Get (r_Header r) "X-Request-ID" in if String.eqb id "" then GenerateRequestID random else id.

Lemma LogMiddleware_runs {S} upd random t0 t1 t2 remoteAddr (next : Ctx -> HttpHandler S) s r s' ops hd :
  let id := request_id random r in
  runs_from (Header_Set hd "X-Request-ID" id) (next (WithRequestID None id)) s r s' ops ->
  forall W (HW : Writer W) (HL : WriterLaws W) (w : W), w_header w = hd ->
  let out := run_ops (OpHeader (fun h => Header_Set h "X-Request-ID" id) :: ops) w in
  LogMiddleware upd random t0 t1 t2 remoteAddr next _ _ s w r
  = (upd (Access t2 {| ae_Timestamp := ""; ae_Level := ""; ae_RequestID := id; ae_Method := r_Method r; ae_Host := r_Host r;
       ae_Path := r_Path r;
       ae_Status := rw_status (run_ops ops {| rw_w := run_op w (OpHeader (fun h => Header_Set h "X-Request-ID" id)); rw_status := 200; rw_bytesWritten := 0 |});
       ae_BytesSent := ops_bytes ops; ae_DurationMs := duration_ms (time_sub t1 t0);
       ae_CacheStatus := Header_Get (w_header out) "X-Cache"; ae_ClientIP := clientIP remoteAddr r;
       ae_UserAgent := Header_Get (r_Header r) "User-Agent" |}) s', out).
Proof.
  cbv zeta. intros Hn W HW HL w Hhd. unfold LogMiddleware. fold (request_id random r).
  rewrite (Hn _ logging_writer logging_laws) by (cbn; by rewrite header_set, Hhd).
  rewrite run_ops_cons. cbn [run_op]. set (rw0 := {| rw_w := _; rw_status := 200; rw_bytesWritten := 0 |}).
  destruct (rw_transparent ops rw0) as [Ew Eb]. cbn [rw0 rw_w rw_bytesWritten] in Ew, Eb.
  cbn [w_header logging_writer]. by rewrite Ew, Eb, Z.add_0_l.
Qed.

(** The access log is faithful: around a handler that sends its header once, the client
    gets what the handler writes with the request identifier added, and exactly one line is
    written, with the status and the number of bytes the client got; at level error none. *)
Theorem access_log_faithful random t0 t1 t2 remoteAddr (next : Ctx -> HttpHandler Logger) l l1 (w : ResponseWriter) r ops :
  let id := request_id random r in
  runs_from (Header_Set (w_header w) "X-Request-ID" id) (next (WithRequestID None id)) l r l1 ops ->
  w_status w = 0 -> w_body w = ""%string -> header_once false ops = true ->
  let '(l', w') := LogMiddleware (fun f => f) random t0 t1 t2 remoteAddr next _ _ l w r in
  w' = run_ops ops (w_set_header (Header_Set (w_header w) "X-Request-ID" id) w) /\
  if lg_level l1 <=? LevelInfo
  then exists e, lg_out l' = lg_out l1 ++ [LAccess e] /\ ae_Status e = final_status w' /\
         ae_BytesSent e = str_len (w_body w') /\ ae_RequestID e = id /\ ae_Path e = r_Path r
  else l' = l1.
Proof.
  cbv zeta. intros Hn Hs Hb Hok.
  rewrite (LogMiddleware_runs (fun f => f) random t0 t1 t2 remoteAddr next l r l1 ops (w_header w) Hn _ _ _ w eq_refl).
  set (id := request_id random r). set (w0 := run_op w (OpHeader (fun h => Header_Set h "X-Request-ID" id))).
  split; [done |]. unfold Access. rewrite Z.ltb_antisym.
  destruct (lg_level l1 <=? LevelInfo); cbn [negb]; [| done]. eexists. split; [done |]. cbn [ae_Status ae_BytesSent ae_RequestID ae_Path].
  split_and!; [| | done | done]; rewrite run_ops_cons; fold w0.
  - apply (rw_status_sent ops {| rw_w := w0; rw_status := 200; rw_bytesWritten := 0 |} false Hok); cbn; unfold final_status; cbn; by rewrite Hs.
  - rewrite ops_bytes_sent. cbn. by rewrite Hb.
Qed.

(** A second [WriteHeader], which the server ignores, is logged: the client got the first
    status, the access log has the last. *)
Theorem access_log_superfluous random t0 t1 t2 remoteAddr l code code' data (w : ResponseWriter) r :
  w_status w = 0 -> code <> 0 -> lg_level l <= LevelInfo ->
  let '(l', w') := LogMiddleware (fun f => f) random t0 t1 t2 remoteAddr
                     (fun _ => ops_handler (fun _ => [OpWriteHeader code; OpWrite data; OpWriteHeader code'])) _ _ l w r in
  w_status w' = code /\ exists e, lg_out l' = lg_out l ++ [LAccess e] /\ ae_Status e = code'.
Proof.
  intros Hs Hc Hl. unfold LogMiddleware, Access. cbn [ops_handler]. rewrite (proj2 (Z.ltb_ge _ _)) by done. cbn. server.
  rewrite Hs. cbn. rewrite (proj2 (Z.eqb_neq _ _) Hc). cbn.
  rewrite (proj2 (Z.eqb_neq _ _) Hc). split; [done | by eexists].
Qed.

(** The level set is the level read, and decides which messages are kept. *)
Lemma SetLevel_Level level l :
  Level (SetLevel level l) = level \/ (SetLevel level l = l /\ ~ level ∈ ["debug"; "info"; "error"]%string).
Proof.
  unfold SetLevel. destruct (String.eqb_spec level "debug") as [-> | Hnd]; [by left |].
  destruct (String.eqb_spec level "info") as [-> | Hni]; [by left |].
  destruct (String.eqb_spec level "error") as [-> | Hne]; [by left |].
  right. split; [done | rewrite !list_elem_of_In; cbn; intuition congruence].
Qed.

Lemma log_levels now msg ids l :
  (lg_out (Debug_ now msg ids l) = lg_out l <-> LevelDebug < lg_level l) /\
  (lg_out (Info_ now msg ids l) = lg_out l <-> LevelInfo < lg_level l) /\
  lg_out (Error_ now msg None ids l) <> lg_out l.
Proof.
  assert (Hne : forall v, lg_out (log_write v l) <> lg_out l).
  { intros v E. apply (f_equal length) in E. cbn in E. rewrite length_app in E. cbn in E. lia. }
  unfold Debug_, Info_, Error_. destruct (Z.ltb_spec LevelDebug (lg_level l)), (Z.ltb_spec LevelInfo (lg_level l));
    split_and!; try done; try apply Hne; split; intros Hx; try done; try lia; by apply Hne in Hx.
Qed.

End access_facts.

#[local] Instance plain_time : LogTime := {| rfc3339nano := Itoa |}.

Definition sample_ops : list wop :=
  [OpHeader (fun h => Header_Set h "X-Cache" "HIT"); OpWriteHeader 206; OpWrite "abc"; OpWrite "d"].

Lemma access_log_faithful_witness :
  exists l' w', LogMiddleware (fun f => f) [1; 171; 2; 3; 4; 5; 6; 255] 5 2005 7 "10.0.0.1:99" (fun _ => ops_handler (fun _ => sample_ops)) _ _ New
      new_writer (a_request "GET" ∅) = (l', w') /\
    w' = run_ops sample_ops (w_set_header (Header_Set (w_header new_writer) "X-Request-ID" "01ab0203040506ff") new_writer).
Proof.
  pose proof (access_log_faithful [1; 171; 2; 3; 4; 5; 6; 255] 5 2005 7 "10.0.0.1:99" (fun _ => ops_handler (fun _ => sample_ops)) New New new_writer
    (a_request "GET" ∅) sample_ops (runs_runs_from _ _ _ _ _ _ (ops_handler_runs (fun _ => sample_ops) New (a_request "GET" ∅))) eq_refl eq_refl eq_refl) as Hlog.
  destruct (LogMiddleware _ _ _ _ _ _ _ _ _ _ _ _) as [l' w']. exists l', w'. split; [reflexivity |]. rewrite (proj1 Hlog). vm_compute. reflexivity.
Defined.

Lemma access_log_superfluous_witness :
  w_status (LogMiddleware (fun f => f) [] 5 6 7 "" (fun _ => ops_handler (fun _ => [OpWriteHeader 200; OpWrite "par"; OpWriteHeader 502])) _ _ New new_writer
    (a_request "GET" ∅)).2 = 200.
Proof.
  refine (proj1 (access_log_superfluous [] 5 6 7 "" New 200 502 "par" new_writer (a_request "GET" ∅) _ _ _));
    [reflexivity | discriminate | discriminate].
Defined.
