(* ===== verification/Metrics.v ===== *)
(** * Metrics and admin endpoints ([metrics/metrics.go], [metrics/histogram.go])

    The latency histogram (bounds, counts, percentiles, the Prometheus text), the writer
    that captures the status, the health endpoints, purge, the log level and the API-key
    guard. Formatting of floats, JSON and runtime statistics are parameters. *)

From S2P Require Import Prelude GoStrings Http Circuit Entry Shard Disk Cache Origin Middleware Float Logging.
From Stdlib Require Import Qround Qabs Lqa.

Local Open Scope Z_scope.
Local Open Scope go_scope.

(** ** The histogram *)

Record RequestMetrics := {
  rm_bucketBounds : list f64;
  rm_bucketCounts : list Z;
  rm_totalCount : Z;
  rm_totalSumUs : Z;
  rm_status2xx : Z; rm_status3xx : Z; rm_status4xx : Z; rm_status5xx : Z
}.

(** 0.5, 1, 2.5, 5, 10, 25, 50, 100, 250, 500, 1000, 2500, 5000, 10000 *)
Definition default_bounds : list f64 :=
  [Fin 1 (-1); Fin 1 0; Fin 5 (-1); Fin 5 0; Fin 10 0; Fin 25 0; Fin 50 0; Fin 100 0; Fin 250 0; Fin 500 0;
   Fin 1000 0; Fin 2500 0; Fin 5000 0; Fin 10000 0].

Definition NewRequestMetrics : RequestMetrics :=
  {| rm_bucketBounds := default_bounds; rm_bucketCounts := replicate (length default_bounds + 1) 0;
     rm_totalCount := 0; rm_totalSumUs := 0; rm_status2xx := 0; rm_status3xx := 0; rm_status4xx := 0; rm_status5xx := 0 |}.

(** The loop of [sort.Search]: [f] is false below [i] and true from [j] on. *)
Fixpoint search_loop (fuel : nat) (f : nat -> bool) (i j : nat) : nat :=
  match fuel with
  | O => i
  | S fuel =>
      if (i <? j)%nat then
        let h := ((i + j) / 2)%nat in
        if f h then search_loop fuel f i h else search_loop fuel f (S h) j
      else i
  end.

Definition SearchFloat64s (a : list f64) (x : f64) : nat :=
  search_loop (length a) (fun h => match a !! h with Some b => fle x b | None => true end) 0 (length a).

Definition Microseconds (d : Duration) : Z := Z.quot d 1000.

Definition rm_count_status (statusCode : Z) (rm : RequestMetrics) (counts : list Z) (total sum : Z) : RequestMetrics :=
  let mk s2 s3 s4 s5 := {| rm_bucketBounds := rm_bucketBounds rm; rm_bucketCounts := counts; rm_totalCount := total;
    rm_totalSumUs := sum; rm_status2xx := s2; rm_status3xx := s3; rm_status4xx := s4; rm_status5xx := s5 |} in
  let '(s2, s3, s4, s5) := (rm_status2xx rm, rm_status3xx rm, rm_status4xx rm, rm_status5xx rm) in
  if (200 <=? statusCode) && (statusCode <? 300) then mk (s2 +i64 1) s3 s4 s5
  else if (300 <=? statusCode) && (statusCode <? 400) then mk s2 (s3 +i64 1) s4 s5
  else if (400 <=? statusCode) && (statusCode <? 500) then mk s2 s3 (s4 +i64 1) s5
  else if 500 <=? statusCode then mk s2 s3 s4 (s5 +i64 1)
  else mk s2 s3 s4 s5.

Definition bucket_index (bounds : list f64) (duration : Duration) : nat :=
  let ms := fdiv (f_of_Z (Microseconds duration)) (f_of_Z 1000) in
  let idx := SearchFloat64s bounds ms in
  if (length bounds <? idx)%nat then length bounds else idx.

Definition Record_ (duration : Duration) (statusCode : Z) (rm : RequestMetrics) : RequestMetrics :=
  let idx := bucket_index (rm_bucketBounds rm) duration in
  rm_count_status statusCode rm (alter (fun n => n +i64 1) idx (rm_bucketCounts rm))
    (rm_totalCount rm +i64 1) (rm_totalSumUs rm +i64 Microseconds duration).

(** The running totals the exposition prints: one per bound, then [+Inf]. *)
Fixpoint cumulate (acc : Z) (counts : list Z) : list Z :=
  match counts with
  | [] => []
  | c :: counts => (acc +i64 c) :: cumulate (acc +i64 c) counts
  end.

(** [Sprintf("%.1f")] and [Sprintf("%g")]. *)
Class FloatFormat := { fmt_fixed1 : f64 -> string; fmt_g : f64 -> string }.

(** [f == math.Trunc(f)] *)
Definition is_integral (f : f64) : bool :=
  match f with
  | Fin m e => Qeq_bool (fin_val m e) (inject_Z (Qfloor (fin_val m e)))
  | Inf _ => true
  | NaN => false
  end.

Definition formatFloat `{FloatFormat} (f : f64) : string := if is_integral f then fmt_fixed1 f else fmt_g f.

Definition Fprintln {W} `{Writer W} (w : W) (s : string) : W := w_Write (s +:+ nl) w.

Definition quoted (s : string) : string := dquote +:+ s +:+ dquote.

Definition rm_WritePrometheus `{FloatFormat} {W} `{Writer W} (rm : RequestMetrics) (w : W) : W :=
  let n := length (rm_bucketBounds rm) in
  let lines :=
    ["# HELP cdn_request_duration_ms Request latency histogram in milliseconds."; "# TYPE cdn_request_duration_ms histogram"]%string
    ++ zip_with (fun bound c => "cdn_request_duration_ms_bucket{le=" +:+ quoted (formatFloat bound) +:+ "} " +:+ Itoa c)
         (rm_bucketBounds rm) (cumulate 0 (rm_bucketCounts rm))
    ++ ["cdn_request_duration_ms_bucket{le=" +:+ quoted "+Inf" +:+ "} " +:+ Itoa (default 0 (cumulate 0 (rm_bucketCounts rm) !! n));
        "cdn_request_duration_ms_sum " +:+ formatFloat (fdiv (f_of_Z (rm_totalSumUs rm)) (f_of_Z 1000));
        "cdn_request_duration_ms_count " +:+ Itoa (rm_totalCount rm);
        "# HELP cdn_responses_total Total responses by status code class.";
        "# TYPE cdn_responses_total counter";
        "cdn_responses_total{code=" +:+ quoted "2xx" +:+ "} " +:+ Itoa (rm_status2xx rm);
        "cdn_responses_total{code=" +:+ quoted "3xx" +:+ "} " +:+ Itoa (rm_status3xx rm);
        "cdn_responses_total{code=" +:+ quoted "4xx" +:+ "} " +:+ Itoa (rm_status4xx rm);
        "cdn_responses_total{code=" +:+ quoted "5xx" +:+ "} " +:+ Itoa (rm_status5xx rm)] in
  foldl Fprintln w lines.

(** [int64(math.Ceil(f))]; out of range the conversion gives the least integer (amd64). *)
Definition ceil_int64 (f : f64) : Z :=
  match f with
  | Fin m e => let c := Qceiling (fin_val m e) in if (min_i64 <=? c) && (c <=? max_i64) then c else min_i64
  | _ => min_i64
  end.

Fixpoint percentile_loop (target cumulative : Z) (bounds : list f64) (counts : list Z) : option f64 :=
  match bounds, counts with
  | bound :: bounds, c :: counts =>
      let cumulative := cumulative +i64 c in
      if target <=? cumulative then Some bound else percentile_loop target cumulative bounds counts
  | _, _ => None
  end.

Definition Percentile (p : f64) (rm : RequestMetrics) : f64 :=
  let total := rm_totalCount rm in
  if total =? 0 then Fin 0 0
  else
    let target := ceil_int64 (fdiv (fmul (f_of_Z total) p) (f_of_Z 100)) in
    match percentile_loop target 0 (rm_bucketBounds rm) (rm_bucketCounts rm) with
    | Some bound => bound
    | None => default (Fin 0 0) (last (rm_bucketBounds rm))
    end.

(** ** The capturing writer *)

(** [mrw_done]: the [sync.Once] has run. *)
Record metricsRW (W : Type) := { mrw_w : W; mrw_status : Z; mrw_done : bool }.
Arguments mrw_w {W}.
Arguments mrw_status {W}.
Arguments mrw_done {W}.

Section wrapper.
Context {W : Type} `{Writer W}.

Definition mrw_set_header (h : Header) (rw : metricsRW W) : metricsRW W :=
  {| mrw_w := w_set_header h (mrw_w rw); mrw_status := mrw_status rw; mrw_done := mrw_done rw |}.

Definition mrw_WriteHeader (code : Z) (rw : metricsRW W) : metricsRW W :=
  {| mrw_w := WriteHeader code (mrw_w rw); mrw_status := if mrw_done rw then mrw_status rw else code; mrw_done := true |}.

Definition mrw_Write (data : string) (rw : metricsRW W) : metricsRW W :=
  {| mrw_w := w_Write data (mrw_w rw); mrw_status := if mrw_done rw then mrw_status rw else 200; mrw_done := true |}.

#[export] Instance metrics_writer : Writer (metricsRW W) :=
  {| w_header rw := w_header (mrw_w rw); w_set_header := mrw_set_header; WriteHeader := mrw_WriteHeader; w_Write := mrw_Write |}.

End wrapper.

(** [RequestMetricsMiddleware.ServeHTTP]; [start] and [stop] are the readings of the clock,
    the metrics are part of what the program shares. *)
Definition RequestMetricsMiddleware_ServeHTTP {S} (upd_metrics : (RequestMetrics -> RequestMetrics) -> S -> S) (start stop : Z)
    (next : HttpHandler S) : HttpHandler S := fun W _ s w r =>
  let '(s, rw) := next _ metrics_writer s {| mrw_w := w; mrw_status := 200; mrw_done := false |} r in
  (upd_metrics (Record_ (time_sub stop start) (mrw_status rw)) s, mrw_w rw).

(** ** The admin endpoints *)

Record Handler := { mh_cache : Cache; mh_origin : Origin; mh_ready : bool; mh_ReqMet : RequestMetrics }.

Definition SetReady (ready : bool) (h : Handler) : Handler :=
  {| mh_cache := mh_cache h; mh_origin := mh_origin h; mh_ready := ready; mh_ReqMet := mh_ReqMet h |}.

Record runtime_stats := { rs_NumGoroutine : Z; rs_HeapAlloc : Z; rs_NumGC : Z }.

Record metricsResponse := {
  mr_hits : Z; mr_misses : Z; mr_evictions : Z; mr_stale_hits : Z; mr_items_in_memory : Z; mr_hit_rate_pct : f64;
  mr_goroutines : Z; mr_heap_alloc_mb : f64; mr_num_gc : Z; mr_circuit_state : string
}.

Class MetricsJson := { encode_metrics : metricsResponse -> string }.

Definition hit_rate (hits misses : Z) : f64 :=
  let total := hits +i64 misses in
  if 0 <? total then fmul (fdiv (f_of_Z hits) (f_of_Z total)) (f_of_Z 100) else Fin 0 0.

Definition metrics_of (rs : runtime_stats) (h : Handler) : metricsResponse :=
  let '(hits, misses, evicts, staleHits) := GetStats (mh_cache h) in
  {| mr_hits := hits; mr_misses := misses; mr_evictions := evicts; mr_stale_hits := staleHits;
     mr_items_in_memory := Len (mh_cache h); mr_hit_rate_pct := hit_rate hits misses;
     mr_goroutines := rs_NumGoroutine rs;
     mr_heap_alloc_mb := fdiv (fdiv (f_of_Z (rs_HeapAlloc rs)) (f_of_Z 1024)) (f_of_Z 1024); mr_num_gc := rs_NumGC rs;
     mr_circuit_state := CircuitState (mh_origin h) |}.

Section endpoints.
Context {W : Type} `{Writer W}.

Definition json_header (w : W) : W :=
  w_set_header (Header_Set (w_header w) "Content-Type" "application/json") w.

Definition ServeJSONMetrics `{MetricsJson} (rs : runtime_stats) (h : Handler) (w : W) : W :=
  w_Write (encode_metrics (metrics_of rs h) +:+ nl) (json_header w).

(** One metric of the Prometheus text: help, type, value. *)
Definition prom_metric (name help kind : string) (v : Z) : list string :=
  ["# HELP " +:+ name +:+ " " +:+ help; "# TYPE " +:+ name +:+ " " +:+ kind; name +:+ " " +:+ Itoa v]%string.

Definition ServePrometheus `{FloatFormat} (rs : runtime_stats) (h : Handler) (w : W) : W :=
  let '(hits, misses, evicts, staleHits) := GetStats (mh_cache h) in
  let circuitOpen := if String.eqb (CircuitState (mh_origin h)) "open" then 1 else 0 in
  let w := w_set_header (Header_Set (w_header w) "Content-Type" "text/plain; version=0.0.4; charset=utf-8") w in
  let lines :=
    prom_metric "cdn_cache_hits_total" "Total number of cache hits." "counter" hits
    ++ prom_metric "cdn_cache_misses_total" "Total number of cache misses." "counter" misses
    ++ prom_metric "cdn_cache_evictions_total" "Total number of cache evictions." "counter" evicts
    ++ prom_metric "cdn_cache_stale_hits_total" "Total number of stale-while-revalidate hits." "counter" staleHits
    ++ prom_metric "cdn_cache_items_in_memory" "Current number of items in the in-memory cache." "gauge" (Len (mh_cache h))
    ++ prom_metric "cdn_origin_circuit_open" "Whether the origin circuit breaker is open (1) or closed (0)." "gauge" circuitOpen
    ++ prom_metric "cdn_goroutines" "Current number of goroutines." "gauge" (rs_NumGoroutine rs)
    ++ prom_metric "cdn_heap_alloc_bytes" "Current heap allocation in bytes." "gauge" (rs_HeapAlloc rs)
    ++ prom_metric "cdn_gc_total" "Total number of completed GC cycles." "counter" (rs_NumGC rs) in
  rm_WritePrometheus (mh_ReqMet h) (foldl Fprintln w lines).

(** [{"status":"s"}] *)
Definition status_json (s : string) : string := "{" +:+ quoted "status" +:+ ":" +:+ quoted s +:+ "}".

Definition ServeLiveness (w : W) : W := w_Write (status_json "alive") (json_header w).

Definition ServeReadiness (h : Handler) (w : W) : W :=
  let w := json_header w in
  if negb (mh_ready h) then w_Write (status_json "not ready") (WriteHeader 503 w)
  else if String.eqb (CircuitState (mh_origin h)) "open" then w_Write (status_json "origin unavailable") (WriteHeader 503 w)
  else w_Write (status_json "ready") w.

Definition mh_ServePurge (h : Handler) (w : W) (r : Request) : Handler * W :=
  if negb (String.eqb (r_Method r) "POST") then (h, http_Error "Method Not Allowed" 405 w)
  else ({| mh_cache := Purge (mh_cache h); mh_origin := mh_origin h; mh_ready := mh_ready h; mh_ReqMet := mh_ReqMet h |},
        w_Write (status_json "purged") (json_header w)).

Definition level_json (s : string) : string := "{" +:+ quoted "level" +:+ ":" +:+ quoted s +:+ "}".

(** [LogLevelHandler] on the logger; [body] is the level decoded, [None] for invalid JSON. *)
Definition LogLevelHandler (body : option string) (l : Logger) (w : W) (r : Request) : Logger * W :=
  let w := json_header w in
  if String.eqb (r_Method r) "GET" then (l, w_Write (level_json (Level l)) w)
  else if String.eqb (r_Method r) "POST" then
    match body with
    | None => (l, http_Error "invalid JSON" 400 w)
    | Some level =>
        if String.eqb level "debug" || String.eqb level "info" || String.eqb level "error"
        then (SetLevel level l, w_Write (level_json level) w)
        else (l, http_Error "invalid level" 400 w)
    end
  else (l, http_Error "Method Not Allowed" 405 w).

End endpoints.

(** [AdminAuth] *)
Definition AdminAuth `{UrlQuery} {S} (apiKey : string) (next : HttpHandler S) : HttpHandler S := fun W _ s w r =>
  if String.eqb apiKey "" then next W _ s w r
  else
    let key := Header_Get (r_Header r) "X-API-Key" in
    let key := if String.eqb key "" then query_get (r_RawQuery r) "api_key" else key in
    if negb (String.eqb key apiKey) then (s, http_Error "Unauthorized" 401 w) else next W _ s w r.

(** ** The binary search *)

(** The loop finds where [f] becomes true; [j - i] steps are enough. *)
Lemma search_loop_spec f n fuel i j :
  (forall a b, (a <= b < n)%nat -> f a = true -> f b = true) ->
  (j - i <= fuel)%nat -> (i <= j <= n)%nat ->
  (forall k, (k < i)%nat -> f k = false) -> (forall k, (j <= k < n)%nat -> f k = true) ->
  let r := search_loop fuel f i j in
  (i <= r <= j)%nat /\ (forall k, (k < r)%nat -> f k = false) /\ (forall k, (r <= k < n)%nat -> f k = true).
Proof.
  intros Hmono. revert i j. induction fuel as [| fuel IH]; intros i j Hf Hij Hlo Hhi; cbn [search_loop].
  { split_and!; [lia | lia | done | intros k Hk; apply Hhi; lia]. }
  destruct (Nat.ltb_spec i j); [| split_and!; [lia | lia | done | intros k Hk; apply Hhi; lia]].
  set (h := ((i + j) / 2)%nat). assert (Hh : (i <= h < j)%nat).
  { unfold h. pose proof (Nat.div_mod_eq (i + j) 2). pose proof (Nat.mod_upper_bound (i + j) 2). lia. }
  destruct (f h) eqn:Eh.
  - destruct (IH i h) as (H1 & H2 & H3); [lia | lia | done | |].
    + intros k Hk. apply (Hmono h k); [lia | done].
    + split_and!; [lia | lia | done | done].
  - destruct (IH (S h) j) as (H1 & H2 & H3); [lia | lia | | done |].
    + intros k Hk. destruct (f k) eqn:Ek; [| done]. rewrite <- Eh. symmetry. apply (Hmono k h); [lia | done].
    + split_and!; [lia | lia | done | done].
Qed.

(** ** The bounds in microseconds

    Each bound is a whole number of half milliseconds. *)

Definition bounds_half : list Z := [1; 2; 5; 10; 20; 50; 100; 200; 500; 1000; 2000; 5000; 10000; 20000].
Definition bounds_us : list Z := map (Z.mul 500) bounds_half.

Lemma bounds_exact :
  Forall (fun bc => 0 <= bc.2 < 2 ^ 42 /\ exists m e, bc.1 = Fin m e /\ (fin_val m e == fin_val bc.2 (-1))%Q)
    (zip default_bounds bounds_half).
Proof. repeat constructor; first [done | do 2 eexists; split; reflexivity]. Qed.

(** Comparing the rounded milliseconds with a bound is comparing the microseconds. *)
Lemma fle_ms us b c :
  0 <= us <= 2 ^ 63 -> (b, c) ∈ zip default_bounds bounds_half ->
  fle (fdiv (f_of_Z us) (f_of_Z 1000)) b = (us <=? 500 * c).
Proof.
  intros Hus Hin. destruct (proj1 (Forall_forall _ _) bounds_exact _ Hin) as (Hc & mb & eb & Eb & Hb).
  cbn [fst snd] in Hc, Hb, Eb. subst b.
  assert (H1000 : f_of_Z 1000 = Fin 8796093022208000 (-43)) by reflexivity.
  assert (Hv : (fin_val 8796093022208000 (-43) == inject_Z 1000)%Q) by reflexivity.
  assert (Hq : forall q, (q / fin_val 8796093022208000 (-43) == q / inject_Z 1000)%Q) by (intros q; by rewrite Hv).
  rewrite H1000. destruct (Z.leb_spec us (500 * c)) as [Hle | Hgt].
  - destruct (f_of_Z_exact us ltac:(lia)) as (m & e & -> & Em). unfold fdiv; cbn [Z.eqb].
    destruct (quotient_low _ (fin_val m e) 1000 c (Hq _)) as (m' & e' & -> & H1 & H2); [lia | lia | | |].
    + rewrite Em. change 0%Q with (inject_Z 0). rewrite <- Zle_Qle. lia.
    + rewrite Em. change 2%Q with (inject_Z 2). rewrite <- !inject_Z_mult, <- Zle_Qle. lia.
    + cbn [fle]. apply Qle_bool_iff. by rewrite Hb.
  - destruct (f_of_Z_nonneg us Hus) as (m & e & -> & H1 & H2). unfold fdiv; cbn [Z.eqb].
    destruct (quotient_high _ (fin_val m e) 1000 c (Hq _)) as (m' & e' & -> & H3); [lia | lia | | done |].
    + apply (Qle_trans _ (inject_Z (Z.min us (2 ^ 53)) * 2)); [| lra].
      change 2%Q with (inject_Z 2). change 1%Q with (inject_Z 1). rewrite <- !inject_Z_mult, <- inject_Z_plus, <- Zle_Qle. lia.
    + cbn [fle]. rewrite <- Hb in H3. apply not_true_iff_false. rewrite Qle_bool_iff. lra.
Qed.

(** The first bound not below [x], by a linear scan. *)
Fixpoint linear_search (a : list f64) (x : f64) : nat :=
  match a with
  | [] => 0
  | b :: a => if fle x b then 0 else S (linear_search a x)
  end.

Lemma linear_search_spec a x :
  (linear_search a x <= length a)%nat /\
  (forall k b, (k < linear_search a x)%nat -> a !! k = Some b -> fle x b = false) /\
  (forall b, a !! linear_search a x = Some b -> fle x b = true).
Proof.
  induction a as [| b a (IH1 & IH2 & IH3)]; cbn [linear_search length]; [by split_and!; [| intros; lia |] |].
  destruct (fle x b) eqn:E; (split_and!; [lia | |]).
  - intros; lia.
  - by intros b' [= <-].
  - intros [| k] b' Hk Hb; [by injection Hb as <- |]. apply (IH2 k); [lia | done].
  - intros b' Hb. by apply IH3.
Qed.

Lemma StronglySorted_at {A} (R : relation A) l i j x y :
  StronglySorted R l -> (i < j)%nat -> l !! i = Some x -> l !! j = Some y -> R x y.
Proof.
  intros Hs. revert i j. induction Hs as [| z l _ IH Hall]; intros i j Hij Hi Hj; [done |].
  destruct j as [| j]; [lia |]. destruct i as [| i]; cbn in Hi, Hj.
  - injection Hi as ->. rewrite Forall_forall in Hall. apply Hall. by apply (list_elem_of_lookup_2 _ j).
  - apply (IH i j); [lia | done..].
Qed.

(** On a sorted list the predicate of the search is monotone. *)
Lemma search_monotone a x :
  StronglySorted (fun b c => fle b c = true) a ->
  forall i j, (i <= j < length a)%nat ->
  match a !! i with Some b => fle x b | None => true end = true ->
  match a !! j with Some b => fle x b | None => true end = true.
Proof.
  intros Hs i j Hij Hi. destruct (lookup_lt_is_Some_2 a j ltac:(lia)) as [c Hc]. rewrite Hc.
  destruct (lookup_lt_is_Some_2 a i ltac:(lia)) as [b Hb]. rewrite Hb in Hi.
  destruct (decide (i = j)) as [-> | Hne]; [congruence |].
  apply (fle_trans _ _ _ Hi). apply (StronglySorted_at (fun b c => fle b c = true) a i j); [done | lia | done..].
Qed.

(** The binary search of the histogram agrees with a linear scan: on any sorted bounds it
    finds the first bound not below the value, or the number of bounds when there is none. *)
Theorem SearchFloat64s_linear a x :
  StronglySorted (fun b c => fle b c = true) a -> SearchFloat64s a x = linear_search a x.
Proof.
  intros Hs. unfold SearchFloat64s.
  destruct (search_loop_spec (fun h => match a !! h with Some b => fle x b | None => true end) (length a) (length a) 0 (length a)
    (search_monotone a x Hs)) as (H1 & H2 & H3); [lia | lia | intros; lia | intros; lia |].
  destruct (linear_search_spec a x) as (L1 & L2 & L3). set (r := search_loop _ _ _ _) in *.
  destruct (Nat.lt_trichotomy r (linear_search a x)) as [Hlt | [E | Hgt]]; [| done |].
  - specialize (H3 r ltac:(lia)). destruct (lookup_lt_is_Some_2 a r ltac:(lia)) as [b Hb].
    rewrite Hb, (L2 r b Hlt Hb) in H3. done.
  - specialize (H2 _ Hgt). destruct (lookup_lt_is_Some_2 a (linear_search a x) ltac:(lia)) as [b Hb].
    rewrite Hb, (L3 b Hb) in H2. done.
Qed.

Lemma default_bounds_sorted : StronglySorted (fun b c => fle b c = true) default_bounds.
Proof. repeat constructor. Qed.

(** A request goes to the bucket of the first bound at least its microseconds. *)
Lemma bucket_index_spec d :
  0 <= d <= max_i64 ->
  (bucket_index default_bounds d <= length default_bounds)%nat /\
  forall k u, bounds_us !! k = Some u -> (bucket_index default_bounds d <=? k)%nat = (Microseconds d <=? u).
Proof.
  intros Hd. unfold bucket_index, SearchFloat64s. set (ms := fdiv _ _).
  destruct (search_loop_spec (fun h => match default_bounds !! h with Some b => fle ms b | None => true end)
    (length default_bounds) (length default_bounds) 0 (length default_bounds)
    (search_monotone _ ms default_bounds_sorted)) as (H1 & H2 & H3); [lia | lia | intros; lia | intros; lia |].
  set (r := search_loop _ _ _ _) in *. rewrite (proj2 (Nat.ltb_ge _ _)) by lia. split; [lia |].
  assert (Hms : 0 <= Microseconds d <= 2 ^ 63).
  { unfold Microseconds. rewrite Z.quot_div_nonneg by lia. unfold max_i64 in Hd.
    pose proof (Z.div_pos d 1000). pose proof (Z.div_le_upper_bound d 1000 (2 ^ 63)). lia. }
  intros k u Hu. unfold bounds_us in Hu. rewrite list_lookup_fmap in Hu. apply fmap_Some in Hu as (c & Hc & ->).
  destruct (lookup_lt_is_Some_2 default_bounds k) as [b Hb]; [apply lookup_lt_Some in Hc; exact Hc |].
  assert (Hin : (b, c) ∈ zip default_bounds bounds_half).
  { apply (list_elem_of_lookup_2 _ k). apply lookup_zip_with_Some. by exists b, c. }
  rewrite <- (fle_ms _ b c Hms Hin). fold ms. destruct (Nat.leb_spec r k) as [Hle | Hgt].
  - specialize (H3 k). rewrite Hb in H3. symmetry. apply H3. apply lookup_lt_Some in Hb. lia.
  - specialize (H2 k Hgt). rewrite Hb in H2. done.
Qed.

(** ** What the counts are *)

(** How many elements satisfy a predicate. *)
Definition cnt {A} (P : A -> bool) (l : list A) : Z := Z.of_nat (length (List.filter P l)).

Lemma cnt_app {A} (P : A -> bool) l l' : cnt P (l ++ l') = cnt P l + cnt P l'.
Proof. unfold cnt. rewrite List.filter_app, length_app. lia. Qed.

Lemma cnt_ext {A} (P Q : A -> bool) l : (forall x, x ∈ l -> P x = Q x) -> cnt P l = cnt Q l.
Proof. intros Hpq. unfold cnt. do 2 f_equal. apply filter_ext_in. intros x Hx. apply Hpq. by apply list_elem_of_In. Qed.

Lemma cnt_le {A} (P : A -> bool) l : 0 <= cnt P l <= Z.of_nat (length l).
Proof. unfold cnt. pose proof (List.filter_length_le P l). lia. Qed.

Lemma cnt_split {A} (P Q R : A -> bool) l :
  (forall x, x ∈ l -> R x = xorb (P x) (Q x) /\ (P x && Q x) = false) -> cnt R l = cnt P l + cnt Q l.
Proof.
  induction l as [| x l IH]; intros Hl; [done |].
  assert (IH' : cnt R l = cnt P l + cnt Q l) by (apply IH; intros y Hy; apply Hl; by right).
  destruct (Hl x ltac:(left)) as [HR Hd]. unfold cnt in *. cbn [List.filter]. rewrite HR.
  destruct (P x), (Q x); cbn in *; done || lia.
Qed.

Lemma cnt_one {A} (P : A -> bool) x : cnt P [x] = if P x then 1 else 0.
Proof. unfold cnt. cbn. by destruct (P x). Qed.

Lemma cnt_none {A} (P : A -> bool) l : (forall x, x ∈ l -> P x = false) -> cnt P l = 0.
Proof. intros Hl. rewrite (cnt_ext P (fun _ => false)) by done. unfold cnt. clear Hl. by induction l. Qed.

Lemma cnt_all {A} (P : A -> bool) l : (forall x, x ∈ l -> P x = true) -> cnt P l = Z.of_nat (length l).
Proof. intros Hl. rewrite (cnt_ext P (fun _ => true)) by done. unfold cnt. f_equal. clear Hl. induction l as [| x l IH]; cbn; [done | by rewrite IH]. Qed.

Lemma map_nth_seq {A} (l : list A) d : map (fun i => nth i l d) (seq 0 (length l)) = l.
Proof. induction l as [| x l IH]; [done |]. cbn [length seq map nth]. f_equal. by rewrite <- seq_shift, map_map. Qed.

(** Running totals of the counts of each value are the counts of the values up to each. *)
Lemma cumulate_counts {A} (g : A -> nat) (l : list A) n s :
  Z.of_nat (length l) <= max_i64 ->
  cumulate (cnt (fun x => g x <? s)%nat l) (map (fun i => cnt (fun x => g x =? i)%nat l) (seq s n))
  = map (fun i => cnt (fun x => g x <=? i)%nat l) (seq s n).
Proof.
  intros Hlen. revert s. induction n as [| n IH]; intros s; cbn [seq map cumulate]; [done |].
  assert (E : cnt (fun x => g x <? s)%nat l +i64 cnt (fun x => g x =? s)%nat l = cnt (fun x => g x <=? s)%nat l).
  { rewrite <- (cnt_split _ _ (fun x => g x <=? s)%nat).
    - apply i64_small. pose proof (cnt_le (fun x => g x <=? s)%nat l). unfold in_i64, min_i64. lia.
    - intros x _. destruct (Nat.ltb_spec (g x) s), (Nat.eqb_spec (g x) s), (Nat.leb_spec (g x) s); (exfalso; lia) || done. }
  rewrite E. f_equal. rewrite <- IH. f_equal.
Qed.

(** All the requests recorded since the start: duration and status of each. *)
Definition recorded (evs : list (Duration * Z)) : RequestMetrics :=
  foldl (fun rm ev => Record_ ev.1 ev.2 rm) NewRequestMetrics evs.

Lemma alter_counts (f : nat -> Z) n k (g : Z -> Z) :
  alter g k (map f (seq 0 n)) = map (fun i => if (i =? k)%nat then g (f i) else f i) (seq 0 n).
Proof.
  apply list_eq. intros i. rewrite list_lookup_fmap. destruct (decide (i = k)) as [-> | Hne].
  - rewrite list_lookup_alter_eq, list_lookup_fmap. destruct (seq 0 n !! k) as [x |] eqn:E; cbn; [| done].
    apply lookup_seq in E as [-> _]. by rewrite Nat.eqb_refl.
  - rewrite list_lookup_alter_ne, list_lookup_fmap by done. destruct (seq 0 n !! i) as [x |] eqn:E; cbn; [| done].
    apply lookup_seq in E as [-> _]. by rewrite (proj2 (Nat.eqb_neq _ _)).
Qed.

Lemma rm_count_status_fields code rm counts total sum :
  let rm' := rm_count_status code rm counts total sum in
  rm_bucketBounds rm' = rm_bucketBounds rm /\ rm_bucketCounts rm' = counts /\ rm_totalCount rm' = total /\ rm_totalSumUs rm' = sum.
Proof. unfold rm_count_status. by repeat destruct (_ && _); try destruct (500 <=? code). Qed.

Lemma recorded_counts evs :
  Z.of_nat (length evs) <= max_i64 ->
  rm_bucketBounds (recorded evs) = default_bounds /\
  rm_totalCount (recorded evs) = Z.of_nat (length evs) /\
  rm_bucketCounts (recorded evs) = map (fun i => cnt (fun ev => bucket_index default_bounds ev.1 =? i)%nat evs) (seq 0 15).
Proof.
  induction evs as [| [d code] evs IH] using rev_ind; intros Hlen; [done |].
  rewrite length_app in Hlen; cbn [length] in Hlen. destruct IH as (IHb & IHt & IHc); [lia |].
  unfold recorded. rewrite foldl_app. cbn [foldl fst snd]. fold (recorded evs).
  unfold Record_. cbv zeta. destruct (rm_count_status_fields code (recorded evs)
    (alter (fun n => n +i64 1) (bucket_index (rm_bucketBounds (recorded evs)) d) (rm_bucketCounts (recorded evs)))
    (rm_totalCount (recorded evs) +i64 1) (rm_totalSumUs (recorded evs) +i64 Microseconds d)) as (-> & -> & -> & _).
  rewrite IHb, IHt, IHc. split_and!; [done | rewrite length_app; cbn [length]; rewrite i64_small; unfold in_i64, min_i64, max_i64 in *; lia |].
  rewrite alter_counts. apply map_ext. intros i. rewrite cnt_app, cnt_one. cbn [fst].
  rewrite (Nat.eqb_sym i). pose proof (cnt_le (fun ev : Duration * Z => bucket_index default_bounds ev.1 =? i)%nat evs).
  destruct (bucket_index default_bounds d =? i)%nat; [rewrite i64_small; unfold in_i64, min_i64, max_i64 in *; lia | lia].
Qed.

Lemma cumulative_counts evs :
  Z.of_nat (length evs) <= max_i64 -> Forall (fun ev => 0 <= ev.1 <= max_i64) evs ->
  rm_totalCount (recorded evs) = Z.of_nat (length evs) /\
  cumulate 0 (rm_bucketCounts (recorded evs))
  = map (fun u => cnt (fun ev => Microseconds ev.1 <=? u) evs) bounds_us ++ [Z.of_nat (length evs)].
Proof.
  intros Hlen Hd. destruct (recorded_counts evs Hlen) as (_ & Ht & Hc). split; [done |]. rewrite Hc.
  pose proof (cumulate_counts (fun ev : Duration * Z => bucket_index default_bounds ev.1) evs 15 0 Hlen) as Hcum.
  rewrite (cnt_none _ evs) in Hcum by (intros; apply Nat.ltb_ge; lia). rewrite Hcum. clear Hcum.
  assert (Hone : forall i, (i < 14)%nat ->
    cnt (fun ev : Duration * Z => bucket_index default_bounds ev.1 <=? i)%nat evs
    = cnt (fun ev : Duration * Z => Microseconds ev.1 <=? nth i bounds_us 0) evs).
  { intros i Hi. apply cnt_ext. intros ev Hev. apply bucket_index_spec; [by apply (proj1 (Forall_forall _ _) Hd) |].
    do 14 (destruct i as [| i]; [done |]). lia. }
  rewrite seq_S, map_app. f_equal.
  - rewrite <- (map_nth_seq bounds_us 0). rewrite map_map. apply map_ext_in. intros i Hi%in_seq. apply Hone. cbn in Hi. lia.
  - cbn [map]. f_equal. apply cnt_all. intros ev Hev. apply Nat.leb_le. cbn [Nat.add].
    by apply bucket_index_spec, (proj1 (Forall_forall _ _) Hd).
Qed.

(** C35: The histogram is exact: the totals the exposition prints are, for each bound, the
    number of requests that took at most that many microseconds, and under [+Inf] and as
    the count the number of all requests. *)
Theorem histogram_exact evs :
  Z.of_nat (length evs) <= max_i64 -> Forall (fun ev => 0 <= ev.1 <= max_i64) evs ->
  rm_totalCount (recorded evs) = Z.of_nat (length evs) /\
  cumulate 0 (rm_bucketCounts (recorded evs))
  = map (fun u => cnt (fun ev => Microseconds ev.1 <=? u) evs) bounds_us ++ [Z.of_nat (length evs)].
Proof. apply cumulative_counts. Qed.

(** ** Percentiles *)

Lemma percentile_loop_find target acc bounds counts :
  percentile_loop target acc bounds counts
  = fst <$> List.find (fun bc => target <=? bc.2) (zip bounds (cumulate acc counts)).
Proof.
  revert acc counts. induction bounds as [| b bounds IH]; intros acc [| c counts]; cbn [percentile_loop cumulate zip zip_with List.find]; [done.. |].
  destruct (target <=? _); [done | apply IH].
Qed.

(** The target rank is the exact one, rounded up. *)
Lemma percentile_target n p :
  0 < n <= 2 ^ 40 -> 0 < p <= 100 ->
  ceil_int64 (fdiv (fmul (f_of_Z n) (f_of_Z p)) (f_of_Z 100)) = (n * p + 99) / 100.
Proof.
  intros Hn Hp. destruct (f_of_Z_exact n ltac:(lia)) as (m & e & -> & En).
  destruct (f_of_Z_exact p ltac:(lia)) as (m' & e' & -> & Ep).
  assert (HT : 0 < n * p <= 2 ^ 40 * 100) by nia.
  set (k := (n * p + 99) / 100). assert (Hk : 100 * (k - 1) < n * p <= 100 * k).
  { unfold k. pose proof (Z.div_mod (n * p + 99) 100). pose proof (Z.mod_pos_bound (n * p + 99) 100). lia. }
  clearbody k. assert (Hk1 : 1 <= k <= 2 ^ 40) by lia.
  assert (Eq : (fin_val m e * fin_val m' e' == inject_Z (n * p))%Q) by (rewrite En, Ep, inject_Z_mult; reflexivity).
  destruct (round64_exact (fin_val m e * fin_val m' e')) as (m1 & e1 & Er & Ev).
  { exists (n * p), 0. split_and!; [lia | lia |]. rewrite Eq. unfold fin_val. cbn [pow2 Z.leb Z.compare]. change (2 ^ 0) with 1. ring. }
  { rewrite Eq. apply (small_lt_1024 _ 53); [lia |]. rewrite Qabs_Z, <- Zle_Qle. lia. }
  rewrite Eq in Ev. cbn [fmul]. rewrite Er.
  assert (H100 : f_of_Z 100 = Fin 7036874417766400 (-46)) by reflexivity. rewrite H100. unfold fdiv; cbn [Z.eqb].
  assert (Hd : (fin_val m1 e1 / fin_val 7036874417766400 (-46) == fin_val m1 e1 / inject_Z 100)%Q)
    by (assert (Hv : (fin_val 7036874417766400 (-46) == inject_Z 100)%Q) by reflexivity; by rewrite Hv).
  destruct (quotient_low _ (fin_val m1 e1) 100 (2 * k) Hd) as (m2 & e2 & Hr & _ & H1); [lia | lia | | |].
  { rewrite Ev. change 0%Q with (inject_Z 0). rewrite <- Zle_Qle. lia. }
  { rewrite Ev. change 2%Q with (inject_Z 2). rewrite <- !inject_Z_mult, <- Zle_Qle. lia. }
  destruct (quotient_high _ (fin_val m1 e1) 100 (2 * (k - 1)) Hd) as (m3 & e3 & Hr' & H2); [lia | lia | | |].
  { rewrite Ev. change 2%Q with (inject_Z 2). change 1%Q with (inject_Z 1). rewrite <- !inject_Z_mult, <- inject_Z_plus, <- Zle_Qle. lia. }
  { rewrite Ev, <- Zle_Qle. lia. }
  rewrite Hr. rewrite Hr in Hr'. injection Hr' as <- <-. unfold ceil_int64.
  assert (Hc : Qceiling (fin_val m2 e2) = k).
  { rewrite fin_val_half, inject_Z_mult in H1, H2. change (inject_Z 2) with 2%Q in *.
    apply Z.le_antisymm.
    - rewrite <- (Qceiling_Z k). apply Qceiling_resp_le. lra.
    - apply Z.lt_pred_le. rewrite Zlt_Qlt. pose proof (Qle_ceiling (fin_val m2 e2)).
      replace (Z.pred k) with (k - 1) by lia. lra. }
  rewrite Hc. assert (Hk63 : min_i64 <= k <= max_i64) by (unfold min_i64, max_i64; lia).
  by rewrite (proj2 (Z.leb_le _ _) (proj1 Hk63)), (proj2 (Z.leb_le _ _) (proj2 Hk63)).
Qed.

(** A percentile is the least bound that at least that share of the requests kept within,
    and the greatest bound when more took longer. *)
Theorem Percentile_spec evs p :
  0 < Z.of_nat (length evs) <= 2 ^ 40 -> 0 < p <= 100 -> Forall (fun ev => 0 <= ev.1 <= max_i64) evs ->
  Percentile (f_of_Z p) (recorded evs)
  = match List.find (fun bu => Z.of_nat (length evs) * p <=? 100 * cnt (fun ev => Microseconds ev.1 <=? bu.2) evs)
            (zip default_bounds bounds_us) with
    | Some bu => bu.1
    | None => Fin 10000 0
    end.
Proof.
  intros Hn Hp Hd. assert (Hlen : Z.of_nat (length evs) <= max_i64) by (unfold max_i64; lia).
  destruct (recorded_counts evs Hlen) as (Hb & Ht & Hc). unfold Percentile. rewrite Ht.
  rewrite percentile_target, percentile_loop_find, Hb by done.
  destruct (cumulative_counts evs Hlen Hd) as [_ ->].
  set (n := Z.of_nat (length evs)) in *. set (f := fun u : Z => cnt (fun ev : Duration * Z => Microseconds ev.1 <=? u) evs).
  change (map _ bounds_us ++ [n]) with (map f bounds_us ++ [n]).
  assert (Hf : forall (bs : list f64) (us : list Z), length bs = length us ->
    fst <$> List.find (fun bc : f64 * Z => (n * p + 99) / 100 <=? bc.2) (zip bs (map f us ++ [n]))
    = fst <$> List.find (fun bu : f64 * Z => n * p <=? 100 * f bu.2) (zip bs us)).
  { induction bs as [| b bs IH]; intros [| u us] Hl; [done.. |]. cbn [zip zip_with map app List.find fst snd].
    replace ((n * p + 99) / 100 <=? f u) with (n * p <=? 100 * f u).
    - destruct (n * p <=? 100 * f u); [done |]. apply IH. by injection Hl.
    - apply eq_true_iff_eq. rewrite !Z.leb_le. pose proof (Z.div_mod (n * p + 99) 100). pose proof (Z.mod_pos_bound (n * p + 99) 100). lia. }
  change (Z.of_nat (@length (Duration * Z) evs)) with n. rewrite (proj2 (Z.eqb_neq n 0)) by lia. rewrite (Hf default_bounds bounds_us eq_refl). unfold f. by destruct (List.find _ _).
Qed.

(** ** The captured status *)

Definition codes_valid (ops : list wop) : bool :=
  forallb (fun op => match op with OpWriteHeader code => negb (code =? 0) | _ => true end) ops.

#[export] Instance metrics_laws {W} `{WriterLaws W} : WriterLaws (metricsRW W).
Proof.
  split; [split |..].
  - intros h rw. apply (header_set (W := W)).
  - intros h h' rw. cbn. unfold mrw_set_header. cbn. by rewrite set_header_set.
  - intros code rw. apply (header_WriteHeader (W := W)).
  - intros data rw. apply (header_Write (W := W)).
Qed.

Lemma mrw_w_op `{Writer W} op (rw : metricsRW W) : mrw_w (run_op rw op) = run_op (mrw_w rw) op.
Proof. by destruct op. Qed.

(** The wrapper changes nothing of what the handler does... *)
Lemma mrw_transparent `{Writer W} ops (rw : metricsRW W) : mrw_w (run_ops ops rw) = run_ops ops (mrw_w rw).
Proof. revert rw. induction ops as [| op ops IH]; intros rw; [done |]. by rewrite !run_ops_cons, IH, mrw_w_op. Qed.

(** ...and records the first status sent, which depends on the script alone. *)
Fixpoint first_code (ops : list wop) : Z :=
  match ops with
  | [] => 200
  | OpHeader _ :: ops => first_code ops
  | OpWriteHeader code :: _ => code
  | OpWrite _ :: _ => 200
  end.

Lemma mrw_done_status `{Writer W} ops (rw : metricsRW W) : mrw_done rw = true -> mrw_status (run_ops ops rw) = mrw_status rw.
Proof.
  revert rw. induction ops as [| op ops IH]; intros rw Hd; [done |]. rewrite run_ops_cons, IH.
  - destruct op; cbn; by rewrite ?Hd.
  - by destruct op.
Qed.

Lemma mrw_status_first `{Writer W} ops (rw : metricsRW W) :
  mrw_done rw = false -> mrw_status rw = 200 -> mrw_status (run_ops ops rw) = first_code ops.
Proof.
  revert rw. induction ops as [| op ops IH]; intros rw Hd Hs; [done |]. rewrite run_ops_cons.
  destruct op as [f | code | data]; cbn [first_code]; [by apply IH | |]; rewrite mrw_done_status by done; cbn; by rewrite Hd.
Qed.

(** What the client of the server gets. *)
Lemma server_started ops (w : ResponseWriter) : w_status w <> 0 -> w_status (run_ops ops w) = w_status w.
Proof.
  revert w. induction ops as [| op ops IH]; intros w Hw; [done |]. rewrite run_ops_cons.
  assert (E : w_status (run_op w op) = w_status w).
  { destruct op as [f | code | data]; cbn; server; by rewrite ?(proj2 (Z.eqb_neq _ _) Hw). }
  by rewrite IH, E by (by rewrite E).
Qed.

Lemma final_status_first ops (w : ResponseWriter) :
  w_status w = 0 -> codes_valid ops = true -> final_status (run_ops ops w) = first_code ops.
Proof.
  revert w. induction ops as [| op ops IH]; intros w Hw Hc; [unfold final_status; cbn; by rewrite Hw |].
  rewrite run_ops_cons. cbn [codes_valid forallb] in Hc. apply andb_true_iff in Hc as [Hop Hc].
  destruct op as [f | code | data]; cbn [first_code]; [by apply IH | |]; unfold final_status; rewrite server_started;
    cbn; server; rewrite Hw; cbn; try done; apply negb_true_iff in Hop; [by rewrite Hop | by apply Z.eqb_neq].
Qed.

Lemma Metrics_runs {S} upd start stop (next : HttpHandler S) s r s' ops hd :
  runs_from hd next s r s' ops ->
  runs_from hd (RequestMetricsMiddleware_ServeHTTP upd start stop next) s r (upd (Record_ (time_sub stop start) (first_code ops)) s') ops.
Proof.
  intros Hn W HW HL w Hhd. unfold RequestMetricsMiddleware_ServeHTTP. rewrite (Hn _ metrics_writer metrics_laws) by done.
  by rewrite mrw_transparent, mrw_status_first.
Qed.

(** The metrics middleware changes nothing of the response and records one request with
    the status the client got and the time the handler took. *)
Theorem metrics_records_sent_status start stop (next : HttpHandler RequestMetrics) rm rm' (w : ResponseWriter) r ops :
  runs_from (w_header w) next rm r rm' ops -> w_status w = 0 -> codes_valid ops = true ->
  let w' := run_ops ops w in
  next _ _ rm w r = (rm', w') /\
  RequestMetricsMiddleware_ServeHTTP (fun f => f) start stop next _ _ rm w r = (Record_ (time_sub stop start) (final_status w') rm', w').
Proof.
  intros Hn Hs Hok. cbv zeta. split; [by apply (Hn _ _ _) |].
  rewrite (Metrics_runs (fun f => f) start stop next rm r rm' ops (w_header w) Hn _ _ _ w eq_refl).
  by rewrite final_status_first.
Qed.

(** ** The hit rate *)

(** The hit rate reported is a percentage. *)
Theorem hit_rate_bounds hits misses :
  0 <= hits -> 0 <= misses -> hits + misses <= 2 ^ 53 ->
  exists m e, hit_rate hits misses = Fin m e /\ (0 <= fin_val m e <= inject_Z 100)%Q.
Proof.
  intros Hh Hm Hsum. unfold hit_rate. rewrite i64_small by (unfold in_i64, min_i64, max_i64; lia).
  destruct (Z.ltb_spec 0 (hits + misses)) as [Hpos | _]; [| exists 0, 0; split; [done |]; split; unfold Qle; cbn; lia].
  destruct (f_of_Z_exact hits ltac:(lia)) as (m1 & e1 & -> & E1).
  destruct (f_of_Z_exact (hits + misses) ltac:(lia)) as (m2 & e2 & -> & E2).
  assert (Hm2 : (m2 =? 0) = false).
  { apply Z.eqb_neq. intros ->. unfold fin_val in E2. rewrite Qmult_0_l in E2. change 0%Q with (inject_Z 0) in E2.
    apply (proj1 (inject_Z_injective _ _)) in E2. lia. }
  unfold fdiv. rewrite Hm2.
  assert (Hp : (0 < inject_Z (hits + misses))%Q) by (change 0%Q with (inject_Z 0); rewrite <- Zlt_Qlt; lia).
  assert (Hq : (fin_val m1 e1 / fin_val m2 e2 == inject_Z hits / inject_Z (hits + misses))%Q) by (by rewrite E1, E2).
  destruct (round64_between (fin_val m1 e1 / fin_val m2 e2) (inject_Z 0) (inject_Z 1)) as (m3 & e3 & -> & H1 & H2).
  { by apply representable_Z. } { by apply representable_Z. }
  { pose proof (pow2_pos 1024). change (inject_Z 0) with 0%Q. lra. } { rewrite (pow2_Z 1024), <- Zlt_Qlt by lia. done. }
  { rewrite Hq. apply Qdiv_ge; [done |]. change (inject_Z 0) with 0%Q. rewrite Qmult_0_l. change 0%Q with (inject_Z 0). rewrite <- Zle_Qle. lia. }
  { rewrite Hq. apply Qdiv_le; [done |]. change (inject_Z 1) with 1%Q. rewrite Qmult_1_l, <- Zle_Qle. lia. }
  assert (H100 : f_of_Z 100 = Fin 7036874417766400 (-46)) by reflexivity. rewrite H100. cbn [fmul].
  assert (Hv : (fin_val 7036874417766400 (-46) == inject_Z 100)%Q) by reflexivity.
  destruct (round64_between (fin_val m3 e3 * fin_val 7036874417766400 (-46)) (inject_Z 0) (inject_Z 100)) as (m4 & e4 & -> & H3 & H4).
  { by apply representable_Z. } { by apply representable_Z. }
  { pose proof (pow2_pos 1024). change (inject_Z 0) with 0%Q. lra. } { rewrite (pow2_Z 1024), <- Zlt_Qlt by lia. done. }
  { rewrite Hv. change (inject_Z 100) with 100%Q. change (inject_Z 0) with 0%Q in *. lra. }
  { rewrite Hv. change (inject_Z 100) with 100%Q. change (inject_Z 1) with 1%Q in *. lra. }
  exists m4, e4. by split.
Qed.

(** ** Readiness *)

(** The readiness probe answers 200 exactly when the server was marked ready and the
    origin's circuit is not open; liveness always answers 200. *)
Theorem readiness_spec h (w : ResponseWriter) :
  w_status w = 0 ->
  (w_status (ServeReadiness h w) = 200 <-> mh_ready h = true /\ CircuitState (mh_origin h) <> "open"%string) /\
  (w_status (ServeReadiness h w) = 503 <-> mh_ready h = false \/ CircuitState (mh_origin h) = "open"%string) /\
  w_status (ServeLiveness w) = 200.
Proof.
  intros Hs. unfold ServeReadiness, ServeLiveness, json_header. server. rewrite Hs. cbn.
  destruct (mh_ready h), (String.eqb_spec (CircuitState (mh_origin h)) "open"); cbn; rewrite ?Hs; cbn;
    split_and!; try done; (split; [intros; try done | intros; try done]); naive_solver.
Qed.

(** ** Concrete requests *)

(** 0.3 ms, 0.5 ms exactly, 42 ms and 11 s. *)
Definition some_requests : list (Duration * Z) := [(300000, 200); (500000, 200); (42000000, 404); (11000000000, 502)].

Lemma SearchFloat64s_linear_witness : SearchFloat64s default_bounds (Fin 21 (-1)) = linear_search default_bounds (Fin 21 (-1)).
Proof. apply (SearchFloat64s_linear default_bounds (Fin 21 (-1))). repeat constructor. Defined.

Lemma some_requests_ok : Forall (fun ev : Duration * Z => 0 <= ev.1 <= max_i64) some_requests.
Proof. repeat constructor; vm_compute; discriminate. Qed.

Lemma histogram_exact_witness :
  cumulate 0 (rm_bucketCounts (recorded some_requests)) = [2; 2; 2; 2; 2; 2; 3; 3; 3; 3; 3; 3; 3; 3; 4].
Proof.
  refine (proj2 (histogram_exact some_requests _ some_requests_ok)). vm_compute. discriminate.
Defined.

Lemma Percentile_spec_witness : Percentile (f_of_Z 75) (recorded some_requests) = Fin 50 0.
Proof.
  refine (Percentile_spec some_requests 75 _ _ some_requests_ok); vm_compute; split; congruence || discriminate.
Defined.

Lemma metrics_records_sent_status_witness :
  (RequestMetricsMiddleware_ServeHTTP (fun f => f) 5 2005 (ops_handler (fun _ => [OpWrite "par"; OpWriteHeader 502])) _ _ NewRequestMetrics new_writer
     (a_request "GET" ∅)).1 = Record_ 2000 200 NewRequestMetrics.
Proof.
  refine (f_equal fst (proj2 (metrics_records_sent_status 5 2005 (ops_handler (fun _ => [OpWrite "par"; OpWriteHeader 502])) NewRequestMetrics NewRequestMetrics
    new_writer (a_request "GET" ∅) [OpWrite "par"; OpWriteHeader 502] _ _ _))); [| reflexivity | reflexivity].
  apply runs_runs_from, (ops_handler_runs (fun _ => [OpWrite "par"; OpWriteHeader 502])).
Defined.

Lemma hit_rate_bounds_witness : exists m e, hit_rate 2 1 = Fin m e /\ (0 <= fin_val m e <= inject_Z 100)%Q.
Proof. apply (hit_rate_bounds 2 1); lia. Defined.

Definition an_origin : Origin := NewOrigin 0 "".

Lemma readiness_spec_witness :
  w_status (ServeReadiness {| mh_cache := tiny_cache; mh_origin := an_origin; mh_ready := false; mh_ReqMet := NewRequestMetrics |}
    new_writer) = 503.
Proof.
  refine (proj2 (proj1 (proj2 (readiness_spec {| mh_cache := tiny_cache; mh_origin := an_origin; mh_ready := false;
    mh_ReqMet := NewRequestMetrics |} new_writer _))) _); [reflexivity | by left].
Defined.
