(* ===== verification/RateLimit.v ===== *)
(** * Per-client rate limiting ([ratelimit/ratelimit.go])

    The token buckets with their [float64] arithmetic, the sweep of idle buckets, the
    middleware and the address it takes the client for. The loop that sweeps
    them is [cleanup_loop]. *)

From S2P Require Import Prelude GoStrings Http Middleware Float.
From Stdlib Require Import Qabs Lqa.

Local Open Scope Z_scope.

Record bucket := { b_tokens : f64; b_lastTime : Z }.

Record Limiter := { l_buckets : gmap string bucket; l_rps : f64; l_burst : Z }.

Definition New (rps : f64) (burst : Z) : Limiter := {| l_buckets := ∅; l_rps := rps; l_burst := burst |}.

(** Refill for the time since the last call, never above the burst. *)
Definition refill (now : Z) (l : Limiter) (b : bucket) : f64 :=
  let elapsed := Seconds (time_sub now (b_lastTime b)) in
  let tokens := fadd (b_tokens b) (fmul elapsed (l_rps l)) in
  if flt (f_of_Z (l_burst l)) tokens then f_of_Z (l_burst l) else tokens.

Definition set_bucket (ip : string) (b : bucket) (l : Limiter) : Limiter :=
  {| l_buckets := <[ip := b]> (l_buckets l); l_rps := l_rps l; l_burst := l_burst l |}.

Definition Allow (now : Z) (ip : string) (l : Limiter) : Limiter * bool :=
  let b := match l_buckets l !! ip with
           | Some b => b
           | None => {| b_tokens := f_of_Z (l_burst l); b_lastTime := now |}
           end in
  let tokens := refill now l b in
  if flt tokens (f_of_Z 1) then (set_bucket ip {| b_tokens := tokens; b_lastTime := now |} l, false)
  else (set_bucket ip {| b_tokens := fsub tokens (f_of_Z 1); b_lastTime := now |} l, true).

(** One tick of the goroutine [cleanup]. *)
Definition cleanup (now : Z) (l : Limiter) : Limiter :=
  let cutoff := now - 5 * Minute in
  {| l_buckets := filter (fun kb : string * bucket => ~ b_lastTime kb.2 < cutoff) (l_buckets l); l_rps := l_rps l; l_burst := l_burst l |}.

(** [cleanup], whose ticker is never stopped; a tick brings the time. *)
Definition cleanup_loop (events : list (tick Z)) (l : Limiter) : Limiter := ticker_loop cleanup events l.

(** The bytes before the first comma, or all of them. *)
Fixpoint first_hop (s : string) : string :=
  match s with
  | EmptyString => EmptyString
  | String c s' => if Ascii.eqb c "," then EmptyString else String c (first_hop s')
  end.

(** [SplitHostPort] gives the host, or nothing on an error. *)
Definition extractIP (SplitHostPort : string -> option string) (remoteAddr : string) (r : Request) : string :=
  let xff := Header_Get (r_Header r) "X-Forwarded-For" in
  if negb (String.eqb xff "") then first_hop xff
  else match SplitHostPort remoteAddr with Some host => host | None => remoteAddr end.

(** [Middleware]; the limiter is part of what the program shares. *)
Definition RateLimit {S} (limiter : S -> Limiter) (set_limiter : Limiter -> S -> S) (SplitHostPort : string -> option string) (now : Z)
    (remoteAddr : string) (next : HttpHandler S) : HttpHandler S := fun W _ s w r =>
  let ip := extractIP SplitHostPort remoteAddr r in
  let '(l, ok) := Allow now ip (limiter s) in
  let s := set_limiter l s in
  if negb ok then (s, http_Error "Too Many Requests" 429 (w_set_header (Header_Set (w_header w) "Retry-After" "1") w))
  else next W _ s w r.

(** ** Non-negative numbers *)

Definition nonneg (x : f64) : Prop :=
  match x with Fin m e => (0 <= fin_val m e)%Q | Inf s => s = false | NaN => False end.

Lemma round64_nonneg q : (0 <= q)%Q -> nonneg (round64 q).
Proof.
  intros Hq. unfold round64. destruct (Z.eqb_spec (Qnum q) 0) as [E | Hn]; [by cbn |]. cbv zeta.
  assert (Hr : representable 0) by (exists 0, 0; by split_and!).
  pose proof (round_fin_ge q 0 Hn Hr Hq) as Hge. destruct (Qle_bool _ _); cbn [nonneg]; [| done].
  apply Z.ltb_ge. clear - Hq. destruct q as [n d]. unfold Qle in Hq. cbn in *. lia.
Qed.

Lemma fadd_nonneg x y : nonneg x -> nonneg y -> nonneg (fadd x y).
Proof.
  destruct x as [m e | s |], y as [m' e' | s' |]; cbn; try done; intros H1 H2; subst; try done.
  apply round64_nonneg. lra.
Qed.

Lemma fmul_fin_nonneg m e m' e' : (0 <= fin_val m e)%Q -> (0 <= fin_val m' e')%Q -> nonneg (fmul (Fin m e) (Fin m' e')).
Proof. intros H1 H2. apply round64_nonneg. by apply Qmult_le_0_compat. Qed.

Lemma inject_Z_nonneg z : 0 <= z -> (0 <= inject_Z z)%Q.
Proof. intros Hz. change 0%Q with (inject_Z 0). by rewrite <- Zle_Qle. Qed.

Lemma small_bounds z : Z.abs z <= 2 ^ 53 -> (- pow2 1024 < inject_Z z)%Q /\ (inject_Z z < pow2 1024)%Q.
Proof.
  intros Hz. apply Qabs_Qlt_condition. apply (small_lt_1024 _ 53); [lia |]. by rewrite Qabs_Z, <- Zle_Qle.
Qed.

(** The seconds between two instants, rounded, are between the whole seconds and one more. *)
Lemma Seconds_bounds d :
  0 <= d <= max_i64 ->
  exists m e, Seconds d = Fin m e /\ (inject_Z (d / Second) <= fin_val m e)%Q /\ (fin_val m e <= inject_Z (d / Second + 1))%Q.
Proof.
  intros Hd. unfold Seconds. rewrite Z.quot_div_nonneg, Z.rem_mod_nonneg by (unfold Second; lia).
  assert (Hmod : 0 <= d mod Second < 1000000000) by (by apply Z.mod_pos_bound).
  assert (Hq : 0 <= d / Second <= 2 ^ 52).
  { split; [apply Z.div_pos; unfold Second; lia |]. apply Z.div_le_upper_bound; unfold Second, max_i64 in *; lia. }
  set (s := d / Second) in *. set (n := d mod Second) in *.
  destruct (f_of_Z_exact s ltac:(lia)) as (m1 & e1 & -> & E1).
  destruct (f_of_Z_exact n ltac:(lia)) as (m2 & e2 & -> & E2).
  assert (HG : f_of_Z 1000000000 = Fin 8388608000000000 (-23)) by reflexivity. rewrite HG. unfold fdiv; cbn [Z.eqb].
  assert (Hv : (fin_val 8388608000000000 (-23) == inject_Z 1000000000)%Q) by reflexivity.
  assert (Hqn : (fin_val m2 e2 / fin_val 8388608000000000 (-23) == inject_Z n / inject_Z 1000000000)%Q) by (by rewrite E2, Hv).
  assert (HGp : (0 < inject_Z 1000000000)%Q) by reflexivity.
  destruct (round64_between (fin_val m2 e2 / fin_val 8388608000000000 (-23)) (inject_Z 0) (inject_Z 1)) as (m3 & e3 & -> & H1 & H2).
  { by apply representable_Z. } { by apply representable_Z. }
  { by apply small_bounds. } { by apply small_bounds. }
  { rewrite Hqn. apply Qdiv_ge; [done |]. rewrite <- inject_Z_mult, <- Zle_Qle. lia. }
  { rewrite Hqn. apply Qdiv_le; [done |]. rewrite <- inject_Z_mult, <- Zle_Qle. lia. }
  cbn [fadd]. change (inject_Z 0) with 0%Q in H1. change (inject_Z 1) with 1%Q in H2.
  destruct (round64_between (fin_val m1 e1 + fin_val m3 e3) (inject_Z s) (inject_Z (s + 1))) as (m4 & e4 & -> & H3 & H4).
  { apply representable_Z. lia. } { apply representable_Z. lia. }
  { apply small_bounds. lia. } { apply small_bounds. lia. }
  { rewrite E1. lra. }
  { rewrite E1, inject_Z_plus. change (inject_Z 1) with 1%Q. lra. }
  by exists m4, e4.
Qed.

(** ** Buckets *)

Definition tokens_in (burst : Z) (x : f64) : Prop :=
  exists m e, x = Fin m e /\ f_wf x /\ (0 <= fin_val m e)%Q /\ (fin_val m e <= inject_Z burst)%Q.

Definition bucket_ok (now burst : Z) (b : bucket) : Prop := tokens_in burst (b_tokens b) /\ b_lastTime b <= now.

Definition rate_ok (rps : f64) : Prop := exists m e, rps = Fin m e /\ (0 <= fin_val m e)%Q.

Record limiter_ok (now : Z) (l : Limiter) : Prop := {
  lo_rps : rate_ok (l_rps l);
  lo_burst : 1 <= l_burst l <= 2 ^ 52;
  lo_buckets : map_Forall (fun _ b => bucket_ok now (l_burst l) b) (l_buckets l)
}.

Lemma burst_tokens burst : 0 <= burst <= 2 ^ 52 -> tokens_in burst (f_of_Z burst).
Proof.
  intros Hb. pose proof (round64_wf (inject_Z burst)) as Hwf. fold (f_of_Z burst) in Hwf.
  destruct (f_of_Z_exact burst ltac:(lia)) as (m & e & E & Ev). rewrite E in *. exists m, e.
  split_and!; [done | done | |]; rewrite Ev; [apply inject_Z_nonneg; lia | lra].
Qed.

Lemma clamp_tokens burst x :
  0 <= burst <= 2 ^ 52 -> f_wf x -> nonneg x ->
  tokens_in burst (if flt (f_of_Z burst) x then f_of_Z burst else x).
Proof.
  intros Hb Hwf Hn. destruct (burst_tokens burst Hb) as (m & e & E & Hw & H0 & H1). rewrite E in *.
  destruct x as [m' e' | s |]; cbn [nonneg] in Hn; [| subst s; cbn [flt negb]; exists m, e; by split_and! | done].
  cbn [flt]. destruct (Qle_bool (fin_val m' e') (fin_val m e)) eqn:El; cbn [negb]; [| exists m, e; by split_and!].
  apply Qle_bool_iff in El. exists m', e'. split_and!; [done | done | done | lra].
Qed.

Lemma fadd_wf x y : f_wf (fadd x y).
Proof. destruct x as [| [] |], y as [| [] |]; cbn [fadd Bool.eqb]; try done. apply round64_wf. Qed.

Lemma refill_ok now l b :
  rate_ok (l_rps l) -> 0 <= l_burst l <= 2 ^ 52 -> bucket_ok now (l_burst l) b -> tokens_in (l_burst l) (refill now l b).
Proof.
  intros (mr & er & Er & Hr) Hb [(m & e & Et & Hw & H0 & H1) Ht]. unfold refill. apply clamp_tokens; [done | apply fadd_wf |].
  destruct (Seconds_bounds (time_sub now (b_lastTime b))) as (ms & es & -> & Hs & _).
  { unfold time_sub, min_i64, max_i64. lia. }
  apply fadd_nonneg; [by rewrite Et |]. rewrite Er. apply fmul_fin_nonneg; [| done].
  eapply Qle_trans; [| exact Hs]. apply inject_Z_nonneg, Z.div_pos; [unfold time_sub, min_i64, max_i64; lia | done].
Qed.

(** Taking a token from at least one is exact. *)
Lemma take_token burst x :
  0 <= burst <= 2 ^ 52 -> tokens_in burst x -> flt x (f_of_Z 1) = false ->
  tokens_in burst (fsub x (f_of_Z 1)) /\ (fval (fsub x (f_of_Z 1)) == fval x - 1)%Q /\ (1 <= fval x)%Q.
Proof.
  intros Hb (m & e & -> & Hw & H0 & H1) Hlt.
  assert (E1 : f_of_Z 1 = Fin 4503599627370496 (-52)) by reflexivity. rewrite E1 in *.
  assert (Hv1 : (fin_val 4503599627370496 (-52) == 1)%Q) by reflexivity.
  cbn [flt] in Hlt. apply negb_false_iff, Qle_bool_iff in Hlt. rewrite Hv1 in Hlt.
  unfold fsub. cbn [fopp fadd fval].
  assert (Hv : (fin_val m e + fin_val (-4503599627370496) (-52) == fin_val m e - 1)%Q).
  { assert (Hm : (fin_val (-4503599627370496) (-52) == -1)%Q) by reflexivity. rewrite Hm. ring. }
  assert (H53 : (inject_Z burst <= inject_Z (2 ^ 53))%Q) by (rewrite <- Zle_Qle; lia).
  destruct (round64_exact (fin_val m e + fin_val (-4503599627370496) (-52))) as (m' & e' & Er & Ev).
  { destruct (sub_one_representable m e Hw) as (a & k & Ha & Hk & E); [split; lra |]. exists a, k. split_and!; [done | done |]. by rewrite Hv. }
  { rewrite Hv. apply (small_lt_1024 _ 53); [lia |]. apply Qabs_Qle_condition. split; lra. }
  pose proof (round64_wf (fin_val m e + fin_val (-4503599627370496) (-52))) as Hwf. rewrite Er in *. rewrite Hv in Ev. cbn [fval].
  change (- (4503599627370496)) with (-4503599627370496). rewrite Er. split; [| split; [exact Ev | exact Hlt]]. exists m', e'. split_and!; [done | done | lra | lra].
Qed.

(** ** One call *)

Definition bucket_for (now : Z) (ip : string) (l : Limiter) : bucket :=
  default {| b_tokens := f_of_Z (l_burst l); b_lastTime := now |} (l_buckets l !! ip).

Lemma bucket_for_some now ip l b : l_buckets l !! ip = Some b -> bucket_for now ip l = b.
Proof. unfold bucket_for. by intros ->. Qed.

Lemma bucket_for_ok now ip l : limiter_ok now l -> bucket_ok now (l_burst l) (bucket_for now ip l).
Proof.
  intros [_ Hb Hbs]. unfold bucket_for. destruct (l_buckets l !! ip) as [b |] eqn:E; cbn; [exact (Hbs ip b E) |].
  split; [apply burst_tokens; lia | done].
Qed.

Lemma limiter_ok_later now now' l : now <= now' -> limiter_ok now l -> limiter_ok now' l.
Proof.
  intros Hle [Hr Hb Hbs]. split; [done | done |]. intros ip b E. destruct (Hbs ip b E) as [Ht Hl]. split; [done | lia].
Qed.

(** What a call does to the bucket of its client. *)
Lemma Allow_spec now ip l :
  limiter_ok now l ->
  let '(l', ok) := Allow now ip l in
  limiter_ok now l' /\ l_rps l' = l_rps l /\ l_burst l' = l_burst l /\
  exists b, l_buckets l' = <[ip := b]> (l_buckets l) /\ b_lastTime b = now /\
    let t := refill now l (bucket_for now ip l) in
    ok = negb (flt t (f_of_Z 1)) /\ (fval (b_tokens b) == fval t - (if ok then 1 else 0))%Q /\ (ok = true -> 1 <= fval t)%Q.
Proof.
  intros Hok. pose proof (bucket_for_ok now ip l Hok) as Hbk. destruct Hok as [Hr Hb Hbs].
  assert (Ht : tokens_in (l_burst l) (refill now l (bucket_for now ip l))) by (apply refill_ok; [done | lia | done]).
  assert (Hset : forall b, tokens_in (l_burst l) (b_tokens b) -> b_lastTime b = now -> limiter_ok now (set_bucket ip b l)).
  { intros b Hbt Hl. split; [done | done |]. apply map_Forall_insert_2; [| done]. split; [done | lia]. }
  unfold Allow. fold (bucket_for now ip l). change (match l_buckets l !! ip with Some b => b | None => _ end) with (bucket_for now ip l).
  destruct (flt (refill now l (bucket_for now ip l)) (f_of_Z 1)) eqn:Elt.
  - split; [by apply Hset |]. split_and!; [done | done |]. eexists. split_and!; cbn [b_tokens]; [done | done | done | cbn [b_tokens]; ring | done].
  - destruct (take_token (l_burst l) _ ltac:(lia) Ht Elt) as (Hin & Hv & H1).
    split; [by apply Hset |]. split_and!; [done | done |]. eexists. split_and!; cbn [b_tokens]; [done | done | done | done | done].
Qed.

Inductive limiter_op := LAllow (ip : string) | LCleanup.

Definition limiter_step (l : Limiter) (op : Z * limiter_op) : Limiter :=
  match op.2 with LAllow ip => (Allow op.1 ip l).1 | LCleanup => cleanup op.1 l end.

(** The operations happen in the order of their instants. *)
Fixpoint ordered (now : Z) (ops : list (Z * limiter_op)) : Prop :=
  match ops with [] => True | op :: ops => now <= op.1 /\ ordered op.1 ops end.

Definition end_time (now : Z) (ops : list (Z * limiter_op)) : Z := foldl (fun _ op => op.1) now ops.

Lemma New_ok now rps burst : rate_ok rps -> 1 <= burst <= 2 ^ 52 -> limiter_ok now (New rps burst).
Proof. intros Hr Hb. split; [done | done | apply map_Forall_empty]. Qed.

Lemma limiter_step_ok now l op : now <= op.1 -> limiter_ok now l -> limiter_ok op.1 (limiter_step l op).
Proof.
  intros Hle Hl. apply (limiter_ok_later _ _ _ Hle) in Hl. destruct op as [t [ip |]]; unfold limiter_step; cbn [fst snd] in *.
  - pose proof (Allow_spec t ip _ Hl) as Ha. destruct (Allow t ip l) as [l' ok]. by destruct Ha.
  - destruct Hl as [H1 H2 H3]. split; [done | done |]. intros ip b E. apply map_lookup_filter_Some in E as [E _]. by apply (H3 ip).
Qed.

Lemma run_ok ops now l : limiter_ok now l -> ordered now ops -> limiter_ok (end_time now ops) (foldl limiter_step l ops).
Proof.
  revert now l. induction ops as [| op ops IH]; intros now l Hl Ho; [done |].
  destruct Ho as [Hle Ho]. cbn [foldl end_time]. apply (IH op.1); [by apply (limiter_step_ok now) | done].
Qed.

Lemma run_params ops : forall l, l_rps (foldl limiter_step l ops) = l_rps l /\ l_burst (foldl limiter_step l ops) = l_burst l.
Proof.
  induction ops as [| [t [ip |]] ops IH]; intros l; [done | |]; cbn [foldl]; destruct (IH (limiter_step l (t, LAllow ip))) as [-> ->] || destruct (IH (limiter_step l (t, LCleanup))) as [-> ->]; [| done].
  unfold limiter_step, Allow. cbn [fst snd]. by destruct (flt _ _).
Qed.


(** ** Bursts *)

(** The outcomes of the requests of one client at given instants. *)
Fixpoint outcomes (ip : string) (l : Limiter) (times : list Z) : list bool :=
  match times with
  | [] => []
  | t :: times => let '(l, ok) := Allow t ip l in ok :: outcomes ip l times
  end.

Lemma refill_now now l b :
  rate_ok (l_rps l) -> 0 <= l_burst l <= 2 ^ 52 -> tokens_in (l_burst l) (b_tokens b) -> b_lastTime b = now ->
  (fval (refill now l b) == fval (b_tokens b))%Q.
Proof.
  intros (mr & er & Er & Hr) Hb (m & e & Et & Hw & H0 & H1) Hl. unfold refill. rewrite Hl, Et, Er in *.
  assert (Hs : Seconds (time_sub now now) = Fin 0 0) by (unfold time_sub; by rewrite Z.sub_diag).
  rewrite Hs. assert (Hm : fmul (Fin 0 0) (Fin mr er) = Fin 0 0) by reflexivity. rewrite Hm. cbn [fadd].
  assert (Hz : (fin_val m e + fin_val 0 0 == fin_val m e)%Q) by (change (fin_val 0 0) with 0%Q || unfold fin_val at 2; cbn; ring).
  destruct (wf_representable m e Hw) as (a & k & Ha & Hk & E).
  destruct (burst_tokens (l_burst l) Hb) as (mb & eb & Eb & _ & _ & Hbv).
  destruct (round64_exact (fin_val m e + fin_val 0 0)) as (m' & e' & -> & Ev).
  { exists a, k. split_and!; [done | done |]. by rewrite Hz. }
  { rewrite Hz. apply (small_lt_1024 _ 53); [lia |]. rewrite Qabs_pos by done.
    apply (Qle_trans _ _ _ H1). rewrite <- Zle_Qle. lia. }
  rewrite Hz in Ev. destruct (f_of_Z_exact (l_burst l) ltac:(lia)) as (mb' & eb' & Eb' & Hbv'). rewrite Eb'. cbn [flt].
  destruct (Qle_bool (fin_val m' e') (fin_val mb' eb')) eqn:Ele; cbn [negb fval]; [by rewrite Ev |].
  exfalso. apply not_true_iff_false in Ele. apply Ele, Qle_bool_iff. lra.
Qed.

(** At one instant a balance of [k] tokens buys exactly [k] requests. *)
Lemma spend now ip n : forall l k,
  limiter_ok now l -> (fval (refill now l (bucket_for now ip l)) == inject_Z (Z.of_nat k))%Q ->
  outcomes ip l (replicate n now) = replicate (Nat.min n k) true ++ replicate (n - k) false.
Proof.
  induction n as [| n IH]; intros l k Hl Hv; [done |]. cbn [replicate outcomes].
  pose proof (Allow_spec now ip l Hl) as Ha.
  pose proof (refill_ok now l (bucket_for now ip l) (lo_rps _ _ Hl) ltac:(destruct Hl; lia) (bucket_for_ok now ip l Hl)) as (m & e & Er & _).
  destruct (Allow now ip l) as [l' ok]. destruct Ha as (Hl' & _ & _ & b & Ebs & Eb & Hok & Hvb & H1).
  assert (Hfor : bucket_for now ip l' = b) by (unfold bucket_for; by rewrite Ebs, lookup_insert_eq).
  pose proof (refill_now now l' b (lo_rps _ _ Hl') ltac:(destruct Hl'; lia)) as Href.
  specialize (Href (proj1 (lo_buckets _ _ Hl' ip b ltac:(by rewrite Ebs, lookup_insert_eq))) Eb). rewrite <- Hfor in Href at 1.
  assert (E1 : f_of_Z 1 = Fin 4503599627370496 (-52)) by reflexivity.
  assert (Hv1 : (fin_val 4503599627370496 (-52) == 1)%Q) by reflexivity.
  rewrite Er, E1 in Hok. rewrite Er in Hv, Hvb, H1. cbn [flt fval] in Hok, Hv, Hvb, H1. rewrite Hv in Hvb. rewrite negb_involutive in Hok.
  destruct k as [| k].
  - assert (ok = false) as ->.
    { destruct ok; [| done]. specialize (H1 eq_refl). rewrite Hv in H1. change (inject_Z (Z.of_nat 0)) with 0%Q in H1. lra. }
    rewrite Nat.min_0_r. cbn [replicate app Nat.sub]. f_equal. rewrite (IH l' 0%nat); [by rewrite Nat.min_0_r, Nat.sub_0_r | done |].
    rewrite Href, Hvb. ring.
  - assert (ok = true) as ->.
    { rewrite Hok. apply Qle_bool_iff. rewrite Hv1, Hv. change 1%Q with (inject_Z 1). rewrite <- Zle_Qle. lia. }
    cbn [Nat.min replicate app Nat.sub]. f_equal. apply IH; [done |].
    rewrite Href, Hvb, Nat2Z.inj_succ. unfold Z.succ. rewrite inject_Z_plus. change (inject_Z 1) with 1%Q. ring.
Qed.

(** What the whole seconds that have passed are worth, a refill gives, up to the burst. *)
Lemma refill_at_least now l b k :
  limiter_ok now l -> bucket_ok now (l_burst l) b -> 0 <= k <= l_burst l ->
  (inject_Z k <= inject_Z (time_sub now (b_lastTime b) / Second) * fval (l_rps l))%Q ->
  (inject_Z k <= fval (refill now l b))%Q.
Proof.
  intros [(mr & er & Er & Hr) Hb _] [(m & e & Et & Hw & H0 & H1) Hle] Hk Hrate.
  unfold refill. rewrite Et, Er in *. cbn [fval] in Hrate.
  destruct (Seconds_bounds (time_sub now (b_lastTime b))) as (ms & es & -> & Hs & _); [unfold time_sub, min_i64, max_i64; lia |].
  assert (Hrep : representable (inject_Z k)) by (apply representable_Z; lia).
  assert (Hk0 : (0 <= inject_Z k)%Q) by (apply inject_Z_nonneg; lia).
  assert (Hge : forall q, (inject_Z k <= q)%Q ->
    match round64 q with Fin m e => (inject_Z k <= fin_val m e)%Q | Inf s => s = false | NaN => False end).
  { intros q Hq. unfold round64. destruct (Z.eqb_spec (Qnum q) 0) as [Ez | Hn].
    { assert (Hz : (q == 0)%Q) by (unfold Qeq; cbn; lia). change (fin_val 0 0) with 0%Q. lra. }
    cbv zeta. pose proof (round_fin_ge q (inject_Z k) Hn Hrep Hq) as Hg. destruct (Qle_bool _ _); [| done].
    apply Z.ltb_ge. assert (Hq0 : (0 <= q)%Q) by lra. destruct q as [n d]. unfold Qle in Hq0. cbn in *. lia. }
  assert (Hprod : (inject_Z k <= fin_val ms es * fin_val mr er)%Q).
  { apply (Qle_trans _ _ _ Hrate). apply Qmult_le_compat_r; done. }
  specialize (Hge _ Hprod) as Hx. cbn [fmul].
  assert (Hsum : match fadd (Fin m e) (round64 (fin_val ms es * fin_val mr er)) with
    | Fin m e => (inject_Z k <= fin_val m e)%Q | Inf s => s = false | NaN => False end).
  { destruct (round64 (fin_val ms es * fin_val mr er)) as [m1 e1 | s |]; cbn [fadd]; [apply Hge; lra | done | done]. }
  destruct (f_of_Z_exact (l_burst l) ltac:(lia)) as (mb & eb & -> & Evb).
  assert (Hb1 : (inject_Z k <= fin_val mb eb)%Q) by (rewrite Evb, <- Zle_Qle; lia).
  destruct (fadd (Fin m e) _) as [m2 e2 | s |]; [| subst s |]; cbn [flt negb fval]; try done.
  by destruct (negb (Qle_bool (fin_val m2 e2) (fin_val mb eb))).
Qed.

(** C22: A client with a full bucket gets exactly its burst: after any history of the
    limiter, of the requests at one instant by a client that it does not know, or that has
    been idle for so many whole seconds that the rate makes up the whole burst, the first
    [burst] are allowed and every other one is refused; idling longer buys nothing more. *)
Theorem burst_exact rps burst t0 ops now ip n :
  rate_ok rps -> 1 <= burst <= 2 ^ 52 -> ordered t0 ops -> end_time t0 ops <= now ->
  let l := foldl limiter_step (New rps burst) ops in
  (forall b, l_buckets l !! ip = Some b ->
     (inject_Z burst <= inject_Z (time_sub now (b_lastTime b) / Second) * fval rps)%Q) ->
  outcomes ip l (replicate n now)
  = replicate (Nat.min n (Z.to_nat burst)) true ++ replicate (n - Z.to_nat burst) false.
Proof.
  intros Hr Hb Ho Hend l Hidle.
  assert (Hl : limiter_ok now l) by (apply (limiter_ok_later (end_time t0 ops)); [done | apply run_ok; [by apply New_ok | done]]).
  destruct (run_params ops (New rps burst)) as [Erps Eburst]. fold l in Erps, Eburst. cbn [New l_rps l_burst] in Erps, Eburst.
  pose proof (bucket_for_ok now ip l Hl) as Hbk. rewrite Eburst in Hbk.
  destruct (refill_ok now l (bucket_for now ip l) (lo_rps _ _ Hl) ltac:(lia) ltac:(by rewrite Eburst)) as (m & e & Er & _ & _ & Hle).
  apply spend; [done |]. rewrite Z2Nat.id by lia. apply Qle_antisym; [rewrite Er; cbn [fval]; by rewrite <- Eburst |].
  destruct (l_buckets l !! ip) as [b |] eqn:E.
  - rewrite (bucket_for_some _ _ _ _ E) in *. apply refill_at_least; [done | by rewrite Eburst | lia |]. rewrite Erps. by apply Hidle.
  - assert (Hbf : bucket_for now ip l = {| b_tokens := f_of_Z burst; b_lastTime := now |}) by (unfold bucket_for; by rewrite E, Eburst).
    rewrite (refill_now now l _ (lo_rps _ _ Hl)) by (rewrite ?Hbf, ?Eburst; cbn; try lia; by apply burst_tokens; lia || done).
    rewrite Hbf. cbn [b_tokens]. destruct (f_of_Z_exact burst ltac:(lia)) as (mb & eb & -> & Ev). cbn [fval]. rewrite Ev. apply Qle_refl.
Qed.

(** ** Clients do not share buckets *)

Lemma Allow_local now ip ip' l :
  (Allow now ip l).1.(l_rps) = l_rps l /\ (Allow now ip l).1.(l_burst) = l_burst l /\
  (ip <> ip' -> l_buckets (Allow now ip l).1 !! ip' = l_buckets l !! ip').
Proof.
  unfold Allow. destruct (flt _ _); cbn [fst set_bucket l_rps l_burst l_buckets]; split_and!; try done;
    intros Hne; by rewrite lookup_insert_ne.
Qed.

Lemma Allow_ext now ip l l' :
  l_buckets l !! ip = l_buckets l' !! ip -> l_rps l = l_rps l' -> l_burst l = l_burst l' ->
  (Allow now ip l).2 = (Allow now ip l').2 /\ l_buckets (Allow now ip l).1 !! ip = l_buckets (Allow now ip l').1 !! ip.
Proof.
  intros Hb Hr Hu. unfold Allow, refill. rewrite Hb, Hr, Hu.
  destruct (flt (if flt (f_of_Z (l_burst l')) _ then _ else _) _); cbn [fst snd set_bucket l_buckets]; by rewrite !lookup_insert_eq.
Qed.

Lemma outcomes_ext ip times l l' :
  l_buckets l !! ip = l_buckets l' !! ip -> l_rps l = l_rps l' -> l_burst l = l_burst l' ->
  outcomes ip l times = outcomes ip l' times.
Proof.
  revert l l'. induction times as [| t times IH]; intros l l' Hb Hr Hu; [done |]. cbn [outcomes].
  destruct (Allow_ext t ip l l' Hb Hr Hu) as [E1 E2]. destruct (Allow_local t ip ip l) as (R1 & U1 & _), (Allow_local t ip ip l') as (R2 & U2 & _).
  destruct (Allow t ip l) as [l1 o1], (Allow t ip l') as [l1' o1']. cbn [fst snd] in *. subst o1'. f_equal. apply IH; congruence.
Qed.

(** The outcomes of requests of any clients, in order. *)
Fixpoint all_outcomes (l : Limiter) (reqs : list (Z * string)) : list (string * bool) :=
  match reqs with
  | [] => []
  | (t, ip) :: reqs => let '(l, ok) := Allow t ip l in (ip, ok) :: all_outcomes l reqs
  end.

Definition of_client {A} (ip : string) (proj : A -> string) (l : list A) : list A := List.filter (fun x => String.eqb (proj x) ip) l.

(** C23: Clients are independent: however their requests interleave, each client gets exactly
    the outcomes it would get alone. *)
Theorem clients_independent l reqs ip :
  map snd (of_client ip fst (all_outcomes l reqs)) = outcomes ip l (map fst (of_client ip snd reqs)).
Proof.
  revert l. induction reqs as [| [t ip'] reqs IH]; intros l; [done |]. cbn [all_outcomes of_client List.filter snd].
  destruct (Allow_local t ip' ip l) as (R & U & L). destruct (String.eqb_spec ip' ip) as [-> | Hne].
  - cbn [map outcomes fst]. destruct (Allow t ip l) as [l1 ok]. cbn [List.filter fst map snd]. rewrite String.eqb_refl. cbn [map snd]. f_equal. apply IH.
  - destruct (Allow t ip' l) as [l1 ok]. cbn [List.filter fst] in *. rewrite (proj2 (String.eqb_neq _ _) Hne).
    etransitivity; [apply (IH l1) |]. apply outcomes_ext; [by apply L | done | done].
Qed.

(** ** Recovery *)

(** A refused client recovers: once as many whole seconds have passed as the rate needs
    to make a token, its next request is allowed. *)
Theorem idle_client_allowed l now ip b :
  limiter_ok now l -> l_buckets l !! ip = Some b -> b_lastTime b <= now -> now - b_lastTime b <= max_i64 ->
  (1 <= inject_Z ((now - b_lastTime b) / Second) * fval (l_rps l))%Q ->
  (Allow now ip l).2 = true.
Proof.
  intros Hl E Hle Hmax Hrate. pose proof (Allow_spec now ip l Hl) as Ha. destruct (Allow now ip l) as [l' ok]. cbn [snd].
  destruct Ha as (_ & _ & _ & b' & _ & _ & -> & _). rewrite (bucket_for_some _ _ _ _ E).
  pose proof (lo_buckets _ _ Hl ip b E) as Hbk. pose proof (lo_burst _ _ Hl) as Hb.
  destruct (refill_ok now l b (lo_rps _ _ Hl) ltac:(lia) Hbk) as (m & e & Er & _).
  pose proof (refill_at_least now l b 1 Hl Hbk ltac:(lia)) as H1.
  rewrite time_sub_small in H1 by (unfold in_i64, min_i64; lia). specialize (H1 Hrate). rewrite Er in *. cbn [fval] in H1.
  assert (E1 : f_of_Z 1 = Fin 4503599627370496 (-52)) by reflexivity.
  assert (Hv1 : (fin_val 4503599627370496 (-52) == inject_Z 1)%Q) by reflexivity. rewrite E1. cbn [flt]. rewrite negb_involutive.
  apply Qle_bool_iff. by rewrite Hv1.
Qed.

(** ** Whose bucket *)

(** A handler that counts the requests that reach it. *)
Definition reached : HttpHandler (Limiter * nat) := fun W _ s w r => ((s.1, S s.2), w_Write "ok" w).
Definition limited split now remoteAddr (st : (Limiter * nat) * ResponseWriter) (r : Request) : (Limiter * nat) * ResponseWriter :=
  RateLimit fst (fun l s => (l, s.2)) split now remoteAddr reached _ _ st.1 st.2 r.

(** The limit is on a header the client writes: a client that names a new first hop in
    X-Forwarded-For on each request is never refused. *)
Theorem forwarded_for_unlimited split remoteAddr rps burst now reqs w :
  rate_ok rps -> 1 <= burst <= 2 ^ 52 ->
  NoDup (map (extractIP split remoteAddr) reqs) ->
  (foldl (limited split now remoteAddr) ((New rps burst, 0%nat), w) reqs).1.2 = length reqs.
Proof.
  intros Hr Hb Hnd.
  assert (Hgen : forall reqs l n w, limiter_ok now l -> NoDup (map (extractIP split remoteAddr) reqs) ->
    (forall r, r ∈ reqs -> l_buckets l !! extractIP split remoteAddr r = None) ->
    (foldl (limited split now remoteAddr) ((l, n), w) reqs).1.2 = (n + length reqs)%nat).
  { clear. induction reqs as [| r reqs IH]; intros l n w Hl Hnd Hnone; [cbn; lia |]. cbn [foldl length fst snd].
    set (ip := extractIP split remoteAddr r) in *.
    assert (Hok : (Allow now ip l).2 = true).
    { pose proof (Allow_spec now ip l Hl) as Ha. pose proof (bucket_for_ok now ip l Hl) as Hbk.
      assert (Hbf : bucket_for now ip l = {| b_tokens := f_of_Z (l_burst l); b_lastTime := now |})
        by (unfold bucket_for, ip; by rewrite (Hnone r ltac:(left))).
      destruct (refill_ok now l _ (lo_rps _ _ Hl) ltac:(destruct Hl; lia) Hbk) as (m & e & Er & _ & _ & _).
      pose proof (refill_now now l (bucket_for now ip l) (lo_rps _ _ Hl) ltac:(destruct Hl; lia) (proj1 Hbk)) as Hv.
      rewrite Hbf in Hv at 1. specialize (Hv eq_refl). rewrite Er, Hbf in Hv. cbn [fval b_tokens] in Hv.
      destruct (f_of_Z_exact (l_burst l)) as (mb & eb & Eb & Evb); [destruct Hl; lia |]. rewrite Eb in Hv. cbn [fval] in Hv.
      destruct (Allow now ip l) as [l' ok]. cbn [snd]. destruct Ha as (_ & _ & _ & b' & _ & _ & -> & _). rewrite Er.
      assert (E1 : f_of_Z 1 = Fin 4503599627370496 (-52)) by reflexivity. rewrite E1. cbn [flt]. rewrite negb_involutive.
      apply Qle_bool_iff. rewrite Hv, Evb. change (fin_val 4503599627370496 (-52)) with (inject_Z 1) || idtac.
      assert (Hv1 : (fin_val 4503599627370496 (-52) == inject_Z 1)%Q) by reflexivity. rewrite Hv1, <- Zle_Qle. destruct Hl; lia. }
    pose proof (Allow_spec now ip l Hl) as Ha.
    unfold limited at 2, RateLimit. cbn [fst snd]. fold ip. destruct (Allow now ip l) as [l' ok] eqn:EA. cbn [snd] in Hok. subst ok. cbn [negb].
    apply NoDup_cons in Hnd as [Hni Hnd]. change (reached _ _ (l', n) w r) with ((l', S n), w_Write "ok" w). rewrite (IH l' (S n) (w_Write "ok" w)).
    - lia.
    - apply Ha.
    - done.
    - intros r' Hr'. destruct (Allow_local now ip (extractIP split remoteAddr r') l) as (_ & _ & L). rewrite EA in L. cbn [fst] in L. rewrite L; [apply Hnone; by right |].
      intros E. apply Hni. unfold ip in E. rewrite E. by apply list_elem_of_In, in_map, list_elem_of_In. }
  apply (Hgen reqs _ 0%nat); [by apply New_ok | done |]. intros r _. apply lookup_empty.
Qed.

(** ** Concrete clients *)

(** Two requests a second, bursts of three. *)
Definition two_per_second : f64 := Fin 2 0.
Lemma two_per_second_ok : rate_ok two_per_second.
Proof. exists 2, 0. split; [done |]. unfold Qle; cbn; lia. Qed.

Definition some_ops : list (Z * limiter_op) := [(0, LAllow "a"); (0, LAllow "b"); (7, LAllow "a"); (400 * Second, LCleanup)]%string.


Definition emptied : Limiter := foldl limiter_step (New two_per_second 3) (replicate 3 (5, LAllow "a")).

Lemma emptied_ok : limiter_ok 5 emptied.
Proof. apply (run_ok (replicate 3 (5, LAllow "a")) 5); [apply New_ok; [apply two_per_second_ok | lia] | cbn; lia]. Qed.

(** The client has spent its three tokens at time 5 and comes back a minute later, with
    120 tokens' worth of seconds behind it: it has three again. *)
Lemma burst_exact_witness :
  l_buckets emptied !! "a"%string <> None /\
  outcomes "a" emptied (replicate 4 5) = replicate 4 false /\
  outcomes "a" emptied (replicate 5 (5 + Minute)) = [true; true; true; false; false].
Proof.
  split; [vm_compute; discriminate |]. split; [vm_compute; reflexivity |].
  refine (burst_exact two_per_second 3 5 (replicate 3 (5, LAllow "a"%string)) (5 + Minute) "a" 5 two_per_second_ok _ _ _ _).
  - lia.
  - cbn. lia.
  - cbn. unfold Minute, Second. lia.
  - intros b Hb.
    assert (Hl : b_lastTime <$> l_buckets emptied !! "a"%string = Some 5) by (vm_compute; reflexivity).
    change (l_buckets emptied !! "a"%string = Some b) in Hb. rewrite Hb in Hl. injection Hl as ->. vm_compute. discriminate.
Defined.

Lemma idle_client_allowed_witness : (Allow (5 + Second) "a" emptied).2 = true.
Proof.
  refine (idle_client_allowed emptied (5 + Second) "a" {| b_tokens := fsub (f_of_Z 1) (f_of_Z 1); b_lastTime := 5 |} _ _ _ _ _).
  - apply (limiter_ok_later 5); [unfold Second; lia | apply emptied_ok].
  - vm_compute. reflexivity.
  - vm_compute. discriminate.
  - vm_compute. discriminate.
  - vm_compute. discriminate.
Defined.

Lemma forwarded_for_unlimited_witness :
  let forged n := a_request "GET" {[ "X-Forwarded-For" := [n; "1.2.3.4"%string] ]} in
  (foldl (limited (fun _ => None) 9 "1.2.3.4:5") ((New two_per_second 1, 0%nat), new_writer) [forged "a"; forged "b"; forged "c"]%string).1.2 = 3%nat.
Proof.
  refine (forwarded_for_unlimited (fun _ => None) "1.2.3.4:5" two_per_second 1 9
    [a_request "GET" {[ "X-Forwarded-For" := ["a"; "1.2.3.4"] ]}; a_request "GET" {[ "X-Forwarded-For" := ["b"; "1.2.3.4"] ]};
     a_request "GET" {[ "X-Forwarded-For" := ["c"; "1.2.3.4"] ]}]%string new_writer two_per_second_ok _ _); [lia |].
  apply (bool_decide_unpack _). vm_compute. exact I.
Defined.
