(* ===== verification/Tracing.v ===== *)
(** * Tracing ([tracing/tracing.go])

    The configuration with its defaults, the writer that captures the status, and what the
    middleware tells the span. The OpenTelemetry API itself is not in the repository: the
    model is the list of calls made on the span, in order; building the exporter and the
    resource are parameters that can fail. *)

From S2P Require Import Prelude GoStrings Http Middleware Float Logging Metrics.

Local Open Scope Z_scope.

Record Config := { tc_Enabled : bool; tc_Endpoint : string; tc_SampleRate : f64; tc_Insecure : bool }.

Definition defaults (c : Config) : Config :=
  let endpoint := if String.eqb (tc_Endpoint c) "" then "localhost:4317"%string else tc_Endpoint c in
  let rate := if fle (tc_SampleRate c) (Fin 0 0) then Fin 1 0 else tc_SampleRate c in
  let rate := if flt (Fin 1 0) rate then Fin 1 0 else rate in
  {| tc_Enabled := tc_Enabled c; tc_Endpoint := endpoint; tc_SampleRate := rate; tc_Insecure := tc_Insecure c |}.

(** What [Init] installs. *)
Inductive provider := Noop | Provider (endpoint : string) (rate : f64) (insecure : bool) (service : string).

Definition Init (exporter resource : option string) (serviceName : string) (cfg : Config) : string + provider :=
  if negb (tc_Enabled cfg) then inr Noop
  else
    let cfg := defaults cfg in
    match exporter, resource with
    | Some err, _ => inl ("tracing: create OTLP exporter: " +:+ err)
    | None, Some err => inl ("tracing: create resource: " +:+ err)
    | None, None => inr (Provider (tc_Endpoint cfg) (tc_SampleRate cfg) (tc_Insecure cfg) serviceName)
    end.

Inductive span_call :=
  | SpanStart (name method target host url : string)
  | SpanStatusCode (code : Z)
  | SpanCacheStatus (status : string)
  | SpanError (msg : string)
  | SpanEvent (name cacheStatus : string)
  | SpanEnd.

(** The span a context carries, with the calls made on it; [trace.SpanFromContext] gives one
    that does nothing when there is none. *)
Definition SpanCtx : Type := option (list span_call).
Definition span_do (call : span_call) (ctx : SpanCtx) : SpanCtx := (fun calls => calls ++ [call]) <$> ctx.
Definition AddCacheEvent (cacheStatus : string) (ctx : SpanCtx) : SpanCtx := span_do (SpanEvent "cache" cacheStatus) ctx.

Record responseWriter (W : Type) := { rw_w : W; rw_statusCode : Z; rw_wroteHeader : bool }.
Arguments rw_w {W}.
Arguments rw_statusCode {W}.
Arguments rw_wroteHeader {W}.

Section wrapper.
Context {W : Type} `{Writer W}.

Definition rw_set_header (h : Header) (rw : responseWriter W) : responseWriter W :=
  {| rw_w := w_set_header h (rw_w rw); rw_statusCode := rw_statusCode rw; rw_wroteHeader := rw_wroteHeader rw |}.

Definition rw_WriteHeader (code : Z) (rw : responseWriter W) : responseWriter W :=
  let rw := if negb (rw_wroteHeader rw)
            then {| rw_w := rw_w rw; rw_statusCode := code; rw_wroteHeader := true |} else rw in
  {| rw_w := WriteHeader code (rw_w rw); rw_statusCode := rw_statusCode rw; rw_wroteHeader := rw_wroteHeader rw |}.

Definition rw_Write (data : string) (rw : responseWriter W) : responseWriter W :=
  {| rw_w := w_Write data (rw_w rw); rw_statusCode := rw_statusCode rw; rw_wroteHeader := true |}.

#[export] Instance tracing_writer : Writer (responseWriter W) :=
  {| w_header rw := w_header (rw_w rw); w_set_header := rw_set_header; WriteHeader := rw_WriteHeader; w_Write := rw_Write |}.

End wrapper.

(** [Middleware]; [url] is [r.URL.String()]; the finished spans are part of what the
    program shares. *)
Definition TraceMiddleware {S} (add_span : list span_call -> S -> S) (url : string) (next : HttpHandler S) : HttpHandler S := fun W _ s w r =>
  let start := SpanStart (r_Method r +:+ " " +:+ r_Path r) (r_Method r) (r_RequestURI r) (r_Host r) url in
  let '(s, rw) := next _ tracing_writer s {| rw_w := w; rw_statusCode := 200; rw_wroteHeader := false |} r in
  let cacheStatus := Header_Get (w_header rw) "X-Cache" in
  (add_span ([start; SpanStatusCode (rw_statusCode rw)]
   ++ (if String.eqb cacheStatus "" then [] else [SpanCacheStatus cacheStatus])
   ++ (if 500 <=? rw_statusCode rw then [SpanError ("HTTP " +:+ Itoa (rw_statusCode rw))] else [])
   ++ [SpanEnd]) s, rw_w rw).

(** ** Lemmas *)

#[export] Instance tracing_laws {W} `{WriterLaws W} : WriterLaws (responseWriter W).
Proof.
  split; [split |..].
  - intros h rw. apply (header_set (W := W)).
  - intros h h' rw. cbn. unfold rw_set_header. cbn. by rewrite set_header_set.
  - intros code rw. cbn. unfold rw_WriteHeader. cbn. rewrite (header_WriteHeader (W := W)). by destruct (rw_wroteHeader rw).
  - intros data rw. apply (header_Write (W := W)).
Qed.

(** The tracing writer records what the metrics writer records. *)
Definition same_record {W} (rw : responseWriter W) (mrw : metricsRW W) : Prop :=
  rw_w rw = mrw_w mrw /\ rw_statusCode rw = mrw_status mrw /\ rw_wroteHeader rw = mrw_done mrw /\
  (mrw_done mrw = false -> mrw_status mrw = 200).

Lemma same_record_op `{Writer W} op (rw : responseWriter W) mrw : same_record rw mrw -> same_record (run_op rw op) (run_op mrw op).
Proof.
  intros (Hw & Hs & Hd & H200). destruct op as [f | code | data]; unfold same_record; cbn.
  - by rewrite Hw.
  - unfold rw_WriteHeader. rewrite Hd. destruct (mrw_done mrw); cbn [negb rw_w rw_statusCode rw_wroteHeader]; rewrite Hw, ?Hs, ?Hd; by split_and!.
  - rewrite Hw, Hs. destruct (mrw_done mrw); split_and!; try done. by apply H200.
Qed.

Lemma same_record_ops `{Writer W} ops (rw : responseWriter W) mrw : same_record rw mrw -> same_record (run_ops ops rw) (run_ops ops mrw).
Proof. revert rw mrw. induction ops as [| op ops IH]; intros rw mrw Hs; [done |]. rewrite !run_ops_cons. by apply IH, same_record_op. Qed.

Lemma same_record_start {W} (w : W) :
  same_record {| rw_w := w; rw_statusCode := 200; rw_wroteHeader := false |} {| mrw_w := w; mrw_status := 200; mrw_done := false |}.
Proof. by split_and!. Qed.

(** The two capturing writers agree: whatever the handler does and whatever writer is
    below, tracing and metrics record the same status and pass on the same response. *)
Theorem tracing_agrees_with_metrics {W} `{Writer W} ops (w : W) :
  let rw := run_ops ops {| rw_w := w; rw_statusCode := 200; rw_wroteHeader := false |} in
  let mrw := run_ops ops {| mrw_w := w; mrw_status := 200; mrw_done := false |} in
  rw_w rw = mrw_w mrw /\ rw_statusCode rw = mrw_status mrw.
Proof. cbv zeta. by destruct (same_record_ops ops _ _ (same_record_start w)) as (? & ? & _). Qed.

(** The calls made on the span of a handler that follows a script. *)
Definition span_calls (url : string) (r : Request) (code : Z) (cacheStatus : string) : list span_call :=
  [SpanStart (r_Method r +:+ " " +:+ r_Path r) (r_Method r) (r_RequestURI r) (r_Host r) url; SpanStatusCode code]
   ++ (if String.eqb cacheStatus "" then [] else [SpanCacheStatus cacheStatus])
   ++ (if 500 <=? code then [SpanError ("HTTP " +:+ Itoa code)] else []) ++ [SpanEnd].

(** The header a script leaves. *)
Definition ops_header (ops : list wop) (hd : Header) : Header :=
  foldl (fun hd op => match op with OpHeader f => f hd | _ => hd end) hd ops.

Lemma run_ops_header `{WriterLaws W} ops (w : W) : w_header (run_ops ops w) = ops_header ops (w_header w).
Proof.
  revert w. induction ops as [| op ops IH]; intros w; [done |]. rewrite run_ops_cons, IH. unfold ops_header; cbn [foldl].
  destruct op as [f | code | data]; cbn [run_op]; by rewrite ?header_set, ?header_WriteHeader, ?header_Write.
Qed.

Lemma Trace_runs {S} add_span url (next : HttpHandler S) s r s' ops hd :
  runs_from hd next s r s' ops ->
  runs_from hd (TraceMiddleware add_span url next) s r
    (add_span (span_calls url r (first_code ops) (Header_Get (ops_header ops hd) "X-Cache")) s') ops.
Proof.
  intros Hn W HW HL w Hhd. unfold TraceMiddleware. rewrite (Hn _ tracing_writer tracing_laws) by done.
  destruct (same_record_ops ops _ _ (same_record_start w)) as (Ew & Es & _). cbn [w_header tracing_writer].
  rewrite Ew, Es, mrw_transparent, mrw_status_first by done. cbn [mrw_w]. by rewrite run_ops_header, Hhd.
Qed.

(** The span carries the status the client got, is marked as an error exactly from 500
    on, and is always ended, once, last. *)
Theorem span_reports_response url (next : HttpHandler (list span_call)) s s' (w : ResponseWriter) r ops :
  runs_from (w_header w) next s r s' ops -> w_status w = 0 -> codes_valid ops = true ->
  let '(calls, w') := TraceMiddleware (fun calls _ => calls) url next _ _ s w r in
  w' = run_ops ops w /\ SpanStatusCode (final_status w') ∈ calls /\
  (existsb (fun c => match c with SpanError _ => true | _ => false end) calls = (500 <=? final_status w')) /\
  exists front, calls = front ++ [SpanEnd] /\ ~ SpanEnd ∈ front.
Proof.
  intros Hn Hs Hok. rewrite (Trace_runs _ url next s r s' ops _ Hn _ _ _ w eq_refl). split; [done |].
  rewrite final_status_first by done. set (st := first_code ops). set (cs := Header_Get _ "X-Cache").
  split; [right; left |]. unfold span_calls. split.
  - cbn [app existsb orb]. destruct (String.eqb cs ""), (500 <=? st); done.
  - eexists. rewrite !app_assoc. split; [done |]. destruct (String.eqb cs ""), (500 <=? st); set_solver.
Qed.

(** The sampling rate in force is in (0, 1]; a configured rate of zero, documented as
    sampling nothing, samples everything. *)
Theorem sample_rate_defaults c :
  (exists m e, tc_SampleRate c = Fin m e) ->
  let rate := tc_SampleRate (defaults c) in
  flt (Fin 0 0) rate = true /\ fle rate (Fin 1 0) = true /\
  (fle (tc_SampleRate c) (Fin 0 0) = true -> rate = Fin 1 0) /\
  (flt (Fin 0 0) (tc_SampleRate c) = true -> fle (tc_SampleRate c) (Fin 1 0) = true -> rate = tc_SampleRate c).
Proof.
  intros (m & e & E). unfold defaults. cbn [tc_SampleRate]. rewrite E. cbn [fle flt].
  destruct (Qle_bool (fin_val m e) (fin_val 0 0)) eqn:E0; cbn [fle flt]; [by split_and! |].
  destruct (Qle_bool (fin_val m e) (fin_val 1 0)) eqn:E1; cbn [negb flt fle]; rewrite ?E0, ?E1; by split_and!.
Qed.

Definition teapot_ops : list wop := [OpHeader (fun h => Header_Set h "X-Cache" "MISS"); OpWriteHeader 502; OpWrite "bad"; OpWriteHeader 200].

Lemma span_reports_response_witness :
  SpanStatusCode 502 ∈ (TraceMiddleware (fun calls _ => calls) "http://h/a" (ops_handler (fun _ => teapot_ops)) _ _ [] new_writer (a_request "GET" ∅)).1.
Proof.
  refine (proj1 (proj2 (span_reports_response "http://h/a" (ops_handler (fun _ => teapot_ops)) [] [] new_writer (a_request "GET" ∅) teapot_ops
    (runs_runs_from _ _ _ _ _ _ (ops_handler_runs (fun _ => teapot_ops) [] (a_request "GET" ∅))) _ _))); reflexivity.
Defined.

Lemma sample_rate_defaults_witness :
  tc_SampleRate (defaults {| tc_Enabled := true; tc_Endpoint := ""; tc_SampleRate := Fin 0 0; tc_Insecure := true |}) = Fin 1 0.
Proof.
  refine (proj1 (proj2 (proj2 (sample_rate_defaults {| tc_Enabled := true; tc_Endpoint := ""; tc_SampleRate := Fin 0 0; tc_Insecure := true |} _))) _);
    [by exists 0, 0 | reflexivity].
Defined.
