(* ===== verification/Chain.v ===== *)
(** * Stacking middleware

    What the main program relies on when it puts one middleware around another: each turns
    a handler that follows a script into one that does ([runs_from]), and each keeps what
    the handler keeps of the shared state ([preserves]); so does the mux. The lemmas are
    stated for any shared state, so a stack is handled one layer at a time. *)

From S2P Require Import Prelude GoStrings Http Middleware Float Logging Metrics RateLimit Tracing.

Local Open Scope Z_scope.

(** ** The mux *)

(** [http.ServeMux]: patterns without a final slash match their path alone, [/] the rest. *)
Definition mux {S} (routes : list (string * HttpHandler S)) (root : HttpHandler S) : HttpHandler S := fun W _ s w r =>
  match List.find (fun route => String.eqb route.1 (r_Path r)) routes with
  | Some (_, h) => h W _ s w r
  | None => root W _ s w r
  end.

Lemma mux_root {S} (routes : list (string * HttpHandler S)) root W (HW : Writer W) s (w : W) r :
  r_Path r ∉ routes.*1 -> mux routes root _ _ s w r = root _ _ s w r.
Proof.
  intros Hp. unfold mux. destruct (List.find _ routes) as [[path h] |] eqn:E; [| done].
  apply List.find_some in E. destruct E as [Hin Hpath]. cbn in Hpath. apply String.eqb_eq in Hpath. subst path.
  exfalso. apply Hp, list_elem_of_fmap. exists (r_Path r, h). split; [done | by apply list_elem_of_In].
Qed.

Lemma mux_runs {S} hd (routes : list (string * HttpHandler S)) root s r s' ops :
  r_Path r ∉ routes.*1 -> runs_from hd root s r s' ops -> runs_from hd (mux routes root) s r s' ops.
Proof. intros Hp Hr W HW HL w Hw. rewrite mux_root by done. by apply Hr. Qed.

(** ** Scripts through the layers *)

Section layers.
Context `{Unicode} {S : Type}.
Implicit Types (next : HttpHandler S) (s : S).

(** The header CORS lets the handler start from. *)
Definition cors_header (allowedOrigins : string) (r : Request) (hd : Header) : Header :=
  let origins := parseOrigins allowedOrigins in
  let allowAll := match origins with [o] => String.eqb o "*" | _ => false end in
  let origin := Header_Get (r_Header r) "Origin" in
  if String.eqb allowedOrigins "" then hd
  else if negb (String.eqb origin "") then
    if allowAll then Header_Set hd "Access-Control-Allow-Origin" "*"
    else if originAllowed origin origins then Header_Add (Header_Set hd "Access-Control-Allow-Origin" origin) "Vary" "Origin"
    else hd
  else hd.

Definition preflight (r : Request) : bool :=
  String.eqb (r_Method r) "OPTIONS" && negb (String.eqb (Header_Get (r_Header r) "Access-Control-Request-Method") "").

Lemma CORS_runs allowedOrigins maxAge next s r s' ops hd :
  preflight r = false -> allowedOrigins <> ""%string ->
  runs_from (cors_header allowedOrigins r hd) next s r s' ops ->
  exists pre, (pre = [] /\ cors_header allowedOrigins r hd = hd \/ pre = [OpHeader (fun _ => cors_header allowedOrigins r hd)]) /\
    runs_from hd (CORS allowedOrigins maxAge next) s r s' (pre ++ ops).
Proof.
  intros Hpf Hne Hn. unfold cors_header, preflight in *.
  set (origins := parseOrigins allowedOrigins) in *. set (origin := Header_Get (r_Header r) "Origin") in *.
  rewrite (proj2 (String.eqb_neq _ _) Hne) in *.
  assert (Hset : forall g, runs_from (g hd) next s r s' ops ->
    forall W (HW : Writer W) (HL : WriterLaws W) (w : W), w_header w = hd ->
    next W HW s (w_set_header (g (w_header w)) w) r = (s', run_ops (OpHeader (fun _ => g hd) :: ops) w)).
  { intros g Hg W HW HL w Hw. rewrite run_ops_cons. cbn [run_op]. rewrite Hw. exact (Hg _ _ HL _ (header_set _ _)). }
  destruct (negb (String.eqb origin "")) eqn:Eo.
  - destruct (match origins with [o] => String.eqb o "*" | _ => false end) eqn:Ea;
      [| destruct (originAllowed origin origins) eqn:Eal].
    + eexists. split; [by right |]. intros W HW HL w Hw. unfold CORS. fold origins origin.
      rewrite (proj2 (String.eqb_neq _ _) Hne), Eo, Ea, Hpf. by apply (Hset (fun h => Header_Set h "Access-Control-Allow-Origin" "*")).
    + eexists. split; [by right |]. intros W HW HL w Hw. unfold CORS. fold origins origin.
      rewrite (proj2 (String.eqb_neq _ _) Hne), Eo, Ea, Eal, Hpf.
      by apply (Hset (fun h => Header_Add (Header_Set h "Access-Control-Allow-Origin" origin) "Vary" "Origin")).
    + exists []. split; [by left |]. intros W HW HL w Hw. unfold CORS. fold origins origin.
      rewrite (proj2 (String.eqb_neq _ _) Hne), Eo, Ea, Eal, Hpf. by apply Hn.
  - exists []. split; [by left |]. intros W HW HL w Hw. unfold CORS. fold origin.
    rewrite (proj2 (String.eqb_neq _ _) Hne), Eo, Hpf. by apply Hn.
Qed.

(** A client that has a token reaches the handler; one that has none gets a 429. *)
Lemma RateLimit_runs limiter set_limiter split now remoteAddr next s r s' ops hd :
  let '(l, ok) := Allow now (extractIP split remoteAddr r) (limiter s) in
  (ok = true -> runs_from hd next (set_limiter l s) r s' ops) ->
  runs_from hd (RateLimit limiter set_limiter split now remoteAddr next) s r
    (if ok then s' else set_limiter l s)
    (if ok then ops else [OpHeader (fun h => Header_Set h "Retry-After" "1");
       OpHeader (fun h => Header_Set (Header_Set (Header_Del h "Content-Length") "Content-Type" "text/plain; charset=utf-8") "X-Content-Type-Options" "nosniff");
       OpWriteHeader 429; OpWrite ("Too Many Requests" +:+ nl)]).
Proof.
  unfold RateLimit. destruct (Allow _ _ _) as [l ok] eqn:E. intros Hn W HW HL w Hw. rewrite E.
  destruct ok; cbn [negb]; [by apply Hn |]. done.
Qed.

(** ** What the layers keep *)

Definition preserves (I : S -> Prop) (h : HttpHandler S) : Prop :=
  forall W (HW : Writer W) s (w : W) r, I s -> I (h W HW s w r).1.

Variable I : S -> Prop.

Lemma mux_preserves routes root :
  Forall (fun route => preserves I route.2) routes -> preserves I root -> preserves I (mux routes root).
Proof.
  intros Hr Hroot W HW s w r Hs. unfold mux. destruct (List.find _ _) as [[path h] |] eqn:E; [| by apply Hroot].
  apply List.find_some in E. destruct E as [Hin _]. apply list_elem_of_In in Hin.
  rewrite Forall_forall in Hr. by apply (Hr _ Hin).
Qed.

Lemma AdminAuth_preserves `{UrlQuery} key next : preserves I next -> preserves I (AdminAuth key next).
Proof. intros Hn W HW s w r Hs. unfold AdminAuth. repeat case_match; auto. Qed.

Lemma Compress_preserves `{Compressor} next : preserves I next -> preserves I (Compress next).
Proof.
  intros Hn W HW s w r Hs. unfold Compress. destruct (selectEncoding r); [by apply Hn | |];
    match goal with |- context [next ?W' ?HW' s ?w' r] => pose proof (Hn W' HW' s w' r Hs); by destruct (next W' HW' s w' r) end.
Qed.

Lemma CORS_preserves allowedOrigins maxAge next : preserves I next -> preserves I (CORS allowedOrigins maxAge next).
Proof. intros Hn W HW s w r Hs. unfold CORS. repeat (case_match; auto). Qed.

Lemma RateLimit_preserves limiter set_limiter split now remoteAddr next :
  (forall s ip, I s -> I (set_limiter (Allow now ip (limiter s)).1 s)) ->
  preserves I next -> preserves I (RateLimit limiter set_limiter split now remoteAddr next).
Proof.
  intros Hl Hn W HW s w r Hs. unfold RateLimit. pose proof (Hl s (extractIP split remoteAddr r) Hs) as Hs'.
  destruct (Allow _ _ _) as [l ok]. cbn [fst] in Hs'. destruct (negb ok); [done | by apply Hn].
Qed.

Lemma Trace_preserves add_span url next :
  (forall calls s, I s -> I (add_span calls s)) -> preserves I next -> preserves I (TraceMiddleware add_span url next).
Proof.
  intros Ha Hn W HW s w r Hs. unfold TraceMiddleware.
  match goal with |- context [next ?W' ?HW' s ?w' r] => pose proof (Hn W' HW' s w' r Hs); destruct (next W' HW' s w' r) end. by apply Ha.
Qed.

Lemma Metrics_preserves upd start stop next :
  (forall code s, I s -> I (upd (Record_ (time_sub stop start) code) s)) ->
  preserves I next -> preserves I (RequestMetricsMiddleware_ServeHTTP upd start stop next).
Proof.
  intros Hu Hn W HW s w r Hs. unfold RequestMetricsMiddleware_ServeHTTP.
  match goal with |- context [next ?W' ?HW' s ?w' r] => pose proof (Hn W' HW' s w' r Hs); destruct (next W' HW' s w' r) end. by apply Hu.
Qed.

Lemma Log_preserves `{LogTime} upd random t0 t1 t2 remoteAddr (next : Ctx -> HttpHandler S) :
  (forall e s, I s -> I (upd (Access t2 e) s)) -> (forall ctx, preserves I (next ctx)) ->
  preserves I (LogMiddleware upd random t0 t1 t2 remoteAddr next).
Proof.
  intros Hu Hn W HW s w r Hs. unfold LogMiddleware.
  match goal with |- context [next ?c ?W' ?HW' s ?w' r] => pose proof (Hn c W' HW' s w' r Hs); destruct (next c W' HW' s w' r) end. by apply Hu.
Qed.

End layers.

Create HintDb preserves.
#[export] Hint Resolve mux_preserves AdminAuth_preserves Compress_preserves CORS_preserves : preserves.
