(* ===== verification/Purge.v ===== *)
(** * Distributed purge ([purge/distributed.go])

    A purge empties the memory of the edge that receives it and, unless it says it is
    local, is sent on to the edge's peers as a local one. The handler is modelled with the
    world it talks to: [post] sends a request to a peer and gives its answer. A network of
    edges, each behind [AdminAuth] as the main program mounts it, ties the knot. The
    goroutines of the fan-out take effect in any order, given as a schedule. *)

From S2P Require Import Prelude GoStrings Http Entry Shard Disk Cache Middleware Logging Metrics.

Local Open Scope Z_scope.

Record Distributor := { di_peers : list string; di_cache : Cache; di_apiKey : string }.

Definition New (c : Cache) (apiKey : string) : Distributor := {| di_peers := []; di_cache := c; di_apiKey := apiKey |}.

Definition SetPeers (peers : list string) (d : Distributor) : Distributor :=
  {| di_peers := peers; di_cache := di_cache d; di_apiKey := di_apiKey d |}.

Definition Peers (d : Distributor) : list string := di_peers d.

Definition purge_cache (d : Distributor) : Distributor :=
  {| di_peers := di_peers d; di_cache := Purge (di_cache d); di_apiKey := di_apiKey d |}.

Record purgeResult := { pr_Peer : string; pr_Status : string; pr_Error : string }.

(** [json.Marshal(purgeRequest{Distributed: b})] *)
Definition purgeRequest_json (distributed : bool) : string :=
  "{" +:+ quoted "distributed" +:+ ":" +:+ (if distributed then "true" else "false") +:+ "}".

(** [Decode] into the request: the value it sets the field to, if it sets it; the JSON of
    the answer. *)
Class PurgeJson := {
  decode_distributed : string -> option bool;
  encode_results : list purgeResult -> string
}.
Class PurgeJsonLaws `{PurgeJson} : Prop := {
  decode_purgeRequest : forall b, decode_distributed (purgeRequest_json b) = Some b
}.

(** ** Fan-out

    [sched] is the order in which the goroutines' requests take effect. *)
Definition fan_step {W A R} (call : A -> W -> W * R) (xs : list A) (st : W * list (nat * R)) (i : nat) : W * list (nat * R) :=
  match xs !! i with
  | None => st
  | Some x => let '(w, r) := call x st.1 in (w, st.2 ++ [(i, r)])
  end.
Definition fan_out {W A R} (call : A -> W -> W * R) (sched : list nat) (xs : list A) (w : W) : W * list (nat * R) :=
  foldl (fan_step call xs) (w, []) sched.

(** [results[idx] = r] for each call. *)
Definition collect {R} (zero : R) (n : nat) (out : list (nat * R)) : list R :=
  foldl (fun rs ir => <[ir.1 := ir.2]> rs) (replicate n zero) out.

Section purge.
Context `{PurgeJson} {W : Type}.
(** The outcome of sending a request: an error, or the status of the answer. *)
Variable post : string -> Request -> string -> W -> W * (string + Z).
Variable host_of : string -> string.

Definition peer_request (apiKey peerURL : string) : Request :=
  let h := Header_Set ∅ "Content-Type" "application/json" in
  let h := if String.eqb apiKey "" then h else Header_Set h "X-API-Key" apiKey in
  {| r_Method := "POST"; r_Host := host_of peerURL; r_Path := "/purge"; r_RawQuery := ""; r_RequestURI := "/purge"; r_Header := h |}.

Definition result_of (peerURL : string) (resp : string + Z) : purgeResult :=
  match resp with
  | inl err => {| pr_Peer := peerURL; pr_Status := "error"; pr_Error := err |}
  | inr code =>
      if negb (code =? 200) then {| pr_Peer := peerURL; pr_Status := "error"; pr_Error := "status " +:+ Itoa code |}
      else {| pr_Peer := peerURL; pr_Status := "ok"; pr_Error := "" |}
  end.

Definition purgePeer (apiKey peerURL : string) (w : W) : W * purgeResult :=
  let '(w, resp) := post peerURL (peer_request apiKey peerURL) (purgeRequest_json false) w in
  (w, result_of peerURL resp).

Definition no_result : purgeResult := {| pr_Peer := ""; pr_Status := ""; pr_Error := "" |}.

(** [ServePurge]: [purge_local] empties the receiver's cache, [peers] reads its list. *)
Definition ServePurge (purge_local : W -> W) (peers : W -> list string) (apiKey : string) (sched : list nat) (body : string)
  : HttpHandler W := fun _ _ st w r =>
  if negb (String.eqb (r_Method r) "POST") then (st, http_Error "Method Not Allowed" 405 w)
  else
    let distributed := default true (decode_distributed body) in
    let st := purge_local st in
    if negb distributed then
      (st, w_Write ("{" +:+ quoted "status" +:+ ":" +:+ quoted "purged" +:+ "," +:+ quoted "scope" +:+ ":" +:+ quoted "local" +:+ "}") (json_header w))
    else
      let peers := peers st in
      let '(st, out) := fan_out (purgePeer apiKey) sched peers st in
      (st, w_Write (encode_results (collect no_result (length peers) out) +:+ nl) (json_header w)).

End purge.

(** ** A network of edges *)

Section network.
Context `{PurgeJson} `{UrlQuery}.
Variable host_of : string -> string.
Variable sched : string -> list nat.          (* the schedule of each edge's fan-out *)
Variable fault : string -> option string.     (* why an edge cannot be reached *)

(** A request delivered to the edge at [url]; the fuel bounds the depth of the calls. *)
Fixpoint deliver (fuel : nat) (url : string) (r : Request) (body : string) (net : gmap string Distributor) : gmap string Distributor * (string + Z) :=
  match fuel with
  | O => (net, inl "deadline exceeded"%string)
  | S fuel =>
      match fault url, net !! url with
      | Some err, _ => (net, inl err)
      | None, None => (net, inl "no such host"%string)
      | None, Some d =>
          let serve := ServePurge (deliver fuel) host_of (alter purge_cache url)
            (fun net => match net !! url with Some d => Peers d | None => [] end) (di_apiKey d) (sched url) body in
          let '(net, w) := AdminAuth (di_apiKey d) serve _ _ net new_writer r in
          (net, inr (final_status w))
      end
  end.

End network.

(** ** Fan-out in any order *)

Section fan_out_facts.
Context {W A R : Type} (call : A -> W -> W * R).
(** Each call answers the same whatever calls went before. *)
Variable inv : W -> Prop.
Variable answer : A -> R.
Variable xs : list A.
Hypothesis Hcall : forall x w, x ∈ xs -> inv w -> inv (call x w).1 /\ (call x w).2 = answer x.

Lemma fan_out_answers sched w out :
  inv w ->
  let '(w', out') := foldl (fan_step call xs) (w, out) sched in
  inv w' /\ out' = out ++ omap (fun i => (fun x => (i, answer x)) <$> xs !! i) sched.
Proof.
  revert w out. induction sched as [| i sched IH]; intros w out Hi; cbn [foldl]; [by rewrite app_nil_r |].
  cbn [omap list_omap]. unfold fan_step at 2. cbn [fst snd]. destruct (xs !! i) as [x |] eqn:E; cbn [fmap option_fmap option_map].
  - destruct (Hcall x w (list_elem_of_lookup_2 _ _ _ E) Hi) as [Hi' Ha]. destruct (call x w) as [w1 r]. cbn [fst snd] in *. subst r.
    specialize (IH w1 (out ++ [(i, answer x)]) Hi'). destruct (foldl _ _ _) as [w' out']. destruct IH as [Hw ->].
    split; [done |]. by rewrite <- app_assoc.
  - exact (IH w out Hi).
Qed.

Lemma collect_lookup (zero : R) (rs : list R) (sched : list nat) k :
  NoDup sched ->
  foldl (fun rs ir => <[ir.1 := ir.2]> rs) rs (omap (fun i => (fun x => (i, answer x)) <$> xs !! i) sched) !! k
  = if decide (k ∈ sched /\ is_Some (xs !! k) /\ is_Some (rs !! k)) then answer <$> xs !! k else rs !! k.
Proof.
  revert rs. induction sched as [| i sched IH]; intros rs Hnd; cbn [omap list_omap foldl].
  { rewrite decide_False; [done | intros [Hk _]; by apply not_elem_of_nil in Hk]. }
  apply NoDup_cons in Hnd as [Hni Hnd]. destruct (xs !! i) as [x |] eqn:E; cbn [fmap option_fmap option_map foldl fst snd].
  - rewrite (IH _ Hnd). destruct (decide (k = i)) as [-> | Hne].
    + rewrite decide_False by tauto. destruct (decide (is_Some (rs !! i))) as [Hs | Hs].
      * rewrite list_lookup_insert_eq by (by apply lookup_lt_is_Some). rewrite decide_True; [by rewrite E |].
        split_and!; [left | by rewrite E | done].
      * rewrite list_insert_ge by (apply Nat.le_ngt; intros Hlt; by apply Hs, lookup_lt_is_Some). rewrite decide_False by tauto. done.
    + rewrite list_lookup_insert_ne by done. destruct (decide (k ∈ sched /\ _)) as [Hd | Hd].
      * rewrite decide_True; [done |]. destruct Hd as (? & ? & ?). split_and!; [by right | done | done].
      * rewrite decide_False; [done |]. intros (Hk & ? & ?). apply Hd. apply elem_of_cons in Hk as [-> | Hk]; done.
  - rewrite (IH _ Hnd). destruct (decide (k ∈ sched /\ _)) as [Hd | Hd].
    + rewrite decide_True; [done |]. destruct Hd as (? & ? & ?). split_and!; [by right | done | done].
    + rewrite decide_False; [done |]. intros (Hk & Hx & ?). apply Hd. apply elem_of_cons in Hk as [-> | Hk]; [| done].
      rewrite E in Hx. by destruct Hx.
Qed.

(** Whatever the order, the results collected are the answers in the order of the list. *)
Lemma fan_out_collect (zero : R) sched w :
  inv w -> sched ≡ₚ seq 0 (length xs) ->
  inv (fan_out call sched xs w).1 /\ collect zero (length xs) (fan_out call sched xs w).2 = map answer xs.
Proof.
  intros Hi Hs. unfold fan_out. pose proof (fan_out_answers sched w [] Hi) as Hf. destruct (foldl _ _ sched) as [w' out].
  destruct Hf as [Hw ->]. split; [done |]. cbn [snd app]. unfold collect. apply list_eq. intros k.
  rewrite (collect_lookup zero) by (rewrite Hs; apply NoDup_seq). rewrite list_lookup_fmap.
  destruct (xs !! k) as [x |] eqn:E; cbn [fmap option_fmap option_map].
  - pose proof (lookup_lt_Some _ _ _ E). rewrite decide_True; [done |]. split_and!; [| done |].
    + rewrite Hs. apply elem_of_seq. lia.
    + apply lookup_lt_is_Some. by rewrite length_replicate.
  - rewrite decide_False by (intros (_ & Hx & _); by destruct Hx).
    apply lookup_ge_None in E. apply lookup_ge_None. by rewrite length_replicate.
Qed.

End fan_out_facts.

(** Calls that do the same to the edge they are for, when it takes them: whatever the order,
    an edge that is called and takes it is changed once in effect, the others are not. *)
Section fan_out_alter.
Context {A R V : Type} (call : A -> gmap string V -> gmap string V * R) (xs : list A).
Variable target : A -> string.
Variable f : V -> V.
Variable hit : string -> bool.
Variable inv : gmap string V -> Prop.
Hypothesis f_twice : forall v, f (f v) = f v.
Hypothesis inv_alter : forall k w, inv w -> inv (alter f k w).
Hypothesis call_alters : forall x w, inv w -> (call x w).1 = if hit (target x) then alter f (target x) w else w.

Definition called (order : list nat) (u : string) : bool := existsb (fun i => bool_decide (target <$> xs !! i = Some u)) order.

Lemma fan_out_alter order w u :
  inv w -> (fan_out call order xs w).1 !! u = if called order u && hit u then f <$> w !! u else w !! u.
Proof.
  unfold fan_out. generalize (@nil (nat * R)). revert w. induction order as [| i order IH]; intros w out Hi; cbn [foldl called existsb]; [done |].
  unfold fan_step at 2. cbn [fst snd]. destruct (xs !! i) as [x |] eqn:E; cbn [fmap option_fmap option_map]; [| exact (IH w out Hi)].
  pose proof (call_alters x w Hi) as Hc. destruct (call x w) as [w1 r]. cbn [fst] in Hc. subst w1.
  rewrite IH by (by destruct (hit (target x)); [apply inv_alter |]). fold (called order u). destruct (decide (target x = u)) as [<- | Hne].
  - rewrite (bool_decide_true (Some (target x) = Some (target x))) by done. cbn [orb andb].
    destruct (hit (target x)); [| by rewrite andb_false_r]. rewrite andb_true_r, lookup_alter_eq.
    destruct (called order (target x)), (w !! target x); cbn; by rewrite ?f_twice.
  - rewrite (bool_decide_false (Some (target x) = Some u)) by congruence. cbn [orb].
    destruct (hit (target x)); [| done]. by rewrite lookup_alter_ne.
Qed.

End fan_out_alter.

Lemma sched_all {A} (sched : list nat) (xs : list A) i x : sched ≡ₚ seq 0 (length xs) -> xs !! i = Some x -> i ∈ sched.
Proof. intros Hs E. rewrite Hs. apply elem_of_seq. pose proof (lookup_lt_Some _ _ _ E). lia. Qed.

(** A schedule of all indices calls every element. *)
Lemma called_all {A} (f : A -> string) (edges : list A) sched addr :
  sched ≡ₚ seq 0 (length edges) ->
  called edges f sched addr = bool_decide (addr ∈ map f edges).
Proof.
  intros Hs. unfold called. apply eq_true_iff_eq. rewrite existsb_exists, bool_decide_eq_true. split.
  - intros (i & _ & Hi%bool_decide_eq_true). apply fmap_Some in Hi as (x & Hx & ->).
    apply list_elem_of_In, in_map, list_elem_of_In, list_elem_of_lookup. by exists i.
  - intros Hin%list_elem_of_In. apply in_map_iff in Hin as (x & <- & Hx%list_elem_of_In).
    apply list_elem_of_lookup in Hx as (i & Hi). exists i. split; [| by rewrite bool_decide_eq_true, Hi].
    apply list_elem_of_In. by apply (sched_all sched edges i x).
Qed.

(** ** Purging a network *)

Lemma Purge_twice c : Purge (Purge c) = Purge c.
Proof.
  assert (E : map shard_Clear (map shard_Clear (c_shards c)) = map shard_Clear (c_shards c)) by (rewrite map_map; by apply map_ext).
  unfold Purge, with_shards. cbn [c_shards]. by rewrite E.
Qed.

Lemma purge_cache_twice d : purge_cache (purge_cache d) = purge_cache d.
Proof. unfold purge_cache. cbn. by rewrite Purge_twice. Qed.

Section network_facts.
Context `{PurgeJson} `{!PurgeJsonLaws} `{UrlQuery}.
Variable host_of : string -> string.
Variable sched : string -> list nat.
Variable fault : string -> option string.
(** An empty query has no parameters. *)
Hypothesis query_empty : query_get "" "api_key" = ""%string.

(** The edge at [p] takes a purge sent with [key]. *)
Definition accepts (key : string) (d : Distributor) : bool := String.eqb (di_apiKey d) "" || String.eqb (di_apiKey d) key.
Definition reached (net : gmap string Distributor) (key p : string) : bool :=
  match fault p, net !! p with None, Some d => accepts key d | _, _ => false end.

(** What the sender is told. *)
Definition answer_of (net : gmap string Distributor) (key p : string) : string + Z :=
  match fault p, net !! p with
  | Some err, _ => inl err
  | None, None => inl "no such host"%string
  | None, Some d => if accepts key d then inr 200 else inr 401
  end.

Definition purge_at (p : string) (here : bool) (net : gmap string Distributor) : gmap string Distributor := if here then alter purge_cache p net else net.

(** A local purge: the edge alone is purged, and nothing is sent on, whatever the fuel. *)
Lemma deliver_local fuel key p net :
  deliver host_of sched fault (S fuel) p (peer_request host_of key p) (purgeRequest_json false) net
  = (purge_at p (reached net key p) net, answer_of net key p).
Proof.
  cbn [deliver]. unfold reached, answer_of, purge_at. destruct (fault p) as [err |]; [done |].
  destruct (net !! p) as [d |] eqn:E; [| done].
  assert (Hserve : forall f, ServePurge f host_of (alter purge_cache p) (fun net : gmap string Distributor => match net !! p with Some d => Peers d | None => [] end)
    (di_apiKey d) (sched p) (purgeRequest_json false) _ _ net new_writer (peer_request host_of key p)
    = (alter purge_cache p net, w_Write ("{" +:+ quoted "status" +:+ ":" +:+ quoted "purged" +:+ "," +:+ quoted "scope" +:+ ":" +:+ quoted "local" +:+ "}") (json_header new_writer))).
  { intros f. unfold ServePurge. cbn [peer_request r_Method String.eqb Ascii.eqb Bool.eqb negb]. by rewrite decode_purgeRequest. }
  assert (Hkey : Header_Get (r_Header (peer_request host_of key p)) "X-API-Key" = key).
  { unfold peer_request; cbn [r_Header]. destruct (String.eqb_spec key "") as [-> | Hne]; [done |]. apply Header_Get_Set. }
  unfold AdminAuth. rewrite Hkey. unfold accepts. destruct (String.eqb_spec (di_apiKey d) "") as [E0 | Hne]; cbn [orb].
  - by rewrite Hserve.
  - assert (Hk : (if String.eqb key "" then query_get (r_RawQuery (peer_request host_of key p)) "api_key" else key) = key).
    { cbn [peer_request r_RawQuery]. rewrite query_empty. by destruct (String.eqb_spec key "") as [-> |]. }
    rewrite Hk, String.eqb_sym. destruct (String.eqb (di_apiKey d) key); cbn [negb]; [by rewrite Hserve | done].
Qed.

(** Purges change neither who accepts nor the peers. *)
Definition same_edges (net net' : gmap string Distributor) : Prop :=
  forall u, (fun d => (di_peers d, di_apiKey d)) <$> net' !! u = (fun d => (di_peers d, di_apiKey d)) <$> net !! u.

Lemma same_edges_purge net net' p here : same_edges net net' -> same_edges net (purge_at p here net').
Proof.
  intros Hs u. unfold purge_at. destruct here; [| apply Hs]. rewrite <- Hs. destruct (decide (p = u)) as [-> | Hne].
  - rewrite lookup_alter_eq. by destruct (net' !! u).
  - by rewrite lookup_alter_ne.
Qed.

Lemma same_edges_reached net net' key p :
  same_edges net net' -> reached net' key p = reached net key p /\ answer_of net' key p = answer_of net key p.
Proof.
  intros Hs. specialize (Hs p). unfold reached, answer_of, accepts. destruct (fault p); [done |].
  destruct (net' !! p), (net !! p); cbn in Hs; try done. by injection Hs as _ ->.
Qed.

(** Whether the fan-out sends the purge to [u] and [u] takes it. *)
Definition targeted (net : gmap string Distributor) (key : string) (peers : list string) (order : list nat) (u : string) : bool :=
  called peers id order u && reached net key u.

Definition purge_where (S : string -> bool) (net net' : gmap string Distributor) : Prop :=
  forall u, net' !! u = if S u then purge_cache <$> net !! u else net !! u.

(** The fan-out of purges to peers, in any order. *)
Lemma fan_out_purges fuel key (peers : list string) (order : list nat) net0 net :
  same_edges net0 net ->
  purge_where (targeted net0 key peers order) net
    (fan_out (purgePeer (deliver host_of sched fault (S fuel)) host_of key) order peers net).1.
Proof.
  intros Hs u. apply (fan_out_alter _ peers id purge_cache (reached net0 key) (same_edges net0)); [apply purge_cache_twice | | | done].
  - intros k w Hw. by apply (same_edges_purge net0 w k true).
  - intros p w Hw. unfold purgePeer. rewrite deliver_local. cbn [fst]. by destruct (same_edges_reached net0 w key p Hw) as [-> _].
Qed.

(** A request the edge takes: a POST with its key in the header (or no key to check), whose
    body does not say it is local. *)
Definition distributed_purge (d : Distributor) (r : Request) (body : string) : Prop :=
  r_Method r = "POST"%string /\ default true (decode_distributed body) = true /\
  (di_apiKey d = ""%string \/ Header_Get (r_Header r) "X-API-Key" = di_apiKey d).

Lemma deliver_distributed fuel url r body net d :
  fault url = None -> net !! url = Some d -> distributed_purge d r body ->
  let net1 := alter purge_cache url net in
  let fo := fan_out (purgePeer (deliver host_of sched fault fuel) host_of (di_apiKey d)) (sched url) (di_peers d) net1 in
  deliver host_of sched fault (S fuel) url r body net = (fo.1, inr 200).
Proof.
  intros Hf E (Hm & Hd & Hkey). cbv zeta. cbn [deliver]. rewrite Hf, E.
  assert (Hpeers : match alter purge_cache url net !! url with Some d => Peers d | None => [] end = di_peers d)
    by (by rewrite lookup_alter_eq, E).
  set (serve := ServePurge _ _ _ _ _ _ _).
  assert (Hserve : serve _ _ net new_writer r =
    let fo := fan_out (purgePeer (deliver host_of sched fault fuel) host_of (di_apiKey d)) (sched url) (di_peers d) (alter purge_cache url net) in
    (fo.1, w_Write (encode_results (collect no_result (length (di_peers d)) fo.2) +:+ nl) (json_header new_writer))).
  { unfold serve, ServePurge. rewrite Hm. cbn [String.eqb Ascii.eqb Bool.eqb negb]. rewrite Hd. cbn [negb]. rewrite Hpeers.
    by destruct (fan_out _ _ _ _). }
  assert (Hauth : AdminAuth (di_apiKey d) serve _ _ net new_writer r = serve _ _ net new_writer r).
  { unfold AdminAuth. destruct (String.eqb_spec (di_apiKey d) "") as [E0 | Hne]; [done |].
    destruct Hkey as [Hk | Hk]; [done |]. rewrite Hk, (proj2 (String.eqb_neq _ _) Hne), String.eqb_refl. done. }
  rewrite Hauth, Hserve. done.
Qed.

(** C25: One distributed purge reaches the edge and each of its peers that is up and shares the
    key, exactly once in effect, and no other edge: whatever the topology (an edge may be
    its own peer, peers may list each other), whatever the order the goroutines run in and
    whatever fuel above two, so purges never circulate. *)
Theorem purge_reaches_network fuel url r body net d :
  fault url = None -> net !! url = Some d -> distributed_purge d r body ->
  sched url ≡ₚ seq 0 (length (di_peers d)) ->
  let '(net', resp) := deliver host_of sched fault (S (S fuel)) url r body net in
  resp = inr 200 /\
  purge_where (fun u => String.eqb u url || bool_decide (u ∈ di_peers d) && reached net (di_apiKey d) u) net net'.
Proof.
  intros Hf E Hr Hs. rewrite (deliver_distributed (S fuel) url r body net d Hf E Hr). split; [done |].
  pose proof (fan_out_purges fuel (di_apiKey d) (di_peers d) (sched url) net (alter purge_cache url net)
    (same_edges_purge net net url true ltac:(by intros u))) as Hp.
  intros u. rewrite (Hp u). unfold targeted.
  rewrite (called_all id (di_peers d) (sched url) u Hs), map_id.
  destruct (String.eqb_spec u url) as [-> | Hne]; cbn [orb].
  - rewrite lookup_alter_eq. destruct (_ && _); [| done]. destruct (net !! url); cbn; [by rewrite purge_cache_twice | done].
  - by rewrite lookup_alter_ne by congruence.
Qed.

(** The report is true: in whatever order the answers come, entry [i] is about peer [i],
    and says ok exactly when that peer was up, shared the key, and was purged. *)
Theorem purge_report_true fuel url net d :
  net !! url = Some d -> sched url ≡ₚ seq 0 (length (di_peers d)) ->
  let key := di_apiKey d in
  let out := (fan_out (purgePeer (deliver host_of sched fault (S fuel)) host_of key) (sched url) (di_peers d) (alter purge_cache url net)).2 in
  collect no_result (length (di_peers d)) out = map (fun p => result_of p (answer_of net key p)) (di_peers d) /\
  forall p, p ∈ di_peers d -> pr_Status (result_of p (answer_of net key p)) = (if reached net key p then "ok" else "error")%string.
Proof.
  intros E Hs. cbv zeta. split.
  - apply (fan_out_collect (purgePeer (deliver host_of sched fault (S fuel)) host_of (di_apiKey d)) (same_edges net)
      (fun p => result_of p (answer_of net (di_apiKey d) p)) (di_peers d)); [| | done].
    + intros p net' _ Hsame. unfold purgePeer. rewrite deliver_local. cbn [fst snd].
      destruct (same_edges_reached net net' (di_apiKey d) p Hsame) as [_ ->]. split; [by apply same_edges_purge | done].
    + apply (same_edges_purge net net url true). by intros u.
  - intros p _. unfold answer_of, reached. destruct (fault p); [done |]. destruct (net !! p) as [d' |]; [| done].
    by destruct (accepts (di_apiKey d) d').
Qed.

End network_facts.

(** ** A concrete network: two edges that list each other (and one itself), and one that
    does not share their key *)

#[local] Instance purge_json : PurgeJson :=
  {| decode_distributed s := if String.eqb s (purgeRequest_json false) then Some false
                             else if String.eqb s (purgeRequest_json true) then Some true else None;
     encode_results l := Itoa (Z.of_nat (length l)) |}.
#[local] Instance purge_json_laws : PurgeJsonLaws.
Proof. split. by intros []. Qed.
#[local] Instance no_query : UrlQuery := {| query_get _ _ := ""%string |}.

Definition edge_a : Distributor := SetPeers ["a"; "c"]%string (New tiny_cache "k").
Definition edge_b : Distributor := SetPeers ["a"; "b"; "c"]%string (New tiny_cache "k").
Definition edge_c : Distributor := SetPeers ["a"]%string (New tiny_cache "other").
Definition three_edges : gmap string Distributor := {["a" := edge_a; "b" := edge_b; "c" := edge_c]}%string.

Definition purge_request : Request := peer_request (fun u => u) "k" "b".

Lemma b_request : distributed_purge edge_b purge_request "".
Proof. split_and!; [done | done | by right]. Qed.

Lemma purge_reaches_network_witness :
  (deliver (fun u => u) (fun _ => [2; 0; 1]%nat) (fun _ => None) 2 "b" purge_request "" three_edges).2 = inr 200.
Proof.
  pose proof (purge_reaches_network (fun u => u) (fun _ => [2; 0; 1]%nat) (fun _ => None) eq_refl 0 "b" purge_request "" three_edges edge_b
    eq_refl eq_refl b_request (Permutation_cons_app [0; 1]%nat [] 2%nat (Permutation_refl _))) as Hp.
  destruct (deliver _ _ _ _ _ _ _ _) as [net' resp]. exact (proj1 Hp).
Defined.

Lemma purge_report_true_witness :
  map pr_Status (collect no_result 3 (fan_out (purgePeer (deliver (fun u => u) (fun _ => [2; 0; 1]%nat) (fun _ => None) 1) (fun u => u) "k")
    [2; 0; 1]%nat ["a"; "b"; "c"]%string (alter purge_cache "b"%string three_edges)).2) = ["ok"; "ok"; "error"]%string.
Proof.
  pose proof (purge_report_true (fun u => u) (fun _ => [2; 0; 1]%nat) (fun _ => None) eq_refl 0 "b" three_edges edge_b eq_refl
    (Permutation_cons_app [0; 1]%nat [] 2%nat (Permutation_refl _))) as Hp.
  exact (f_equal (map pr_Status) (proj1 Hp)).
Defined.
