(* ===== verification/Sync.v ===== *)
(** * Configuration and purge sync ([controlplane/sync/sync.go])

    The control plane pushes its snapshot and purges to every active edge of the store, one
    goroutine each ([Purge.fan_out], in any order). The edges of [MultiTenant.v], mounted
    behind [AdminAuth] as the edge's main program does, close the loop: what the control
    plane stores is what the edges route by. *)

From S2P Require Import Prelude GoStrings Http Cache Tenant MultiTenant Store Middleware Logging Metrics Purge.

Local Open Scope Z_scope.

Record Syncer := { sy_store : Store; sy_adminKey : string }.

Definition New (s : Store) (adminKey : string) : Syncer := {| sy_store := s; sy_adminKey := adminKey |}.

(** [json.Marshal] of the snapshot. *)
Class ConfigMarshal := { Marshal_EdgeConfig : EdgeConfig -> option string }.

Definition purge_body : string := purgeRequest_json false.

Section sync.
Context `{RangeOrder} `{ConfigMarshal} {W : Type}.
Variable post : string -> Request -> string -> W -> W * (string + Z).
Variable host_of : string -> string.

Definition push_request (adminKey baseAddr path : string) : Request :=
  {| r_Method := "POST"; r_Host := host_of baseAddr; r_Path := path; r_RawQuery := ""; r_RequestURI := path;
     r_Header := Header_Set (Header_Set ∅ "Content-Type" "application/json") "X-API-Key" adminKey |}.

(** [pushToEdge]: [None] for success. *)
Definition push_error (resp : string + Z) : option string :=
  match resp with
  | inl err => Some err
  | inr code => if 400 <=? code then Some ("HTTP " +:+ Itoa code) else None
  end.

Definition pushToEdge (sy : Syncer) (baseAddr path body : string) (w : W) : W * option string :=
  let '(w, resp) := post baseAddr (push_request (sy_adminKey sy) baseAddr path) body w in (w, push_error resp).

Definition active_edges (s : Store) : list EdgeNode := List.filter en_Active (ListEdges s).

Definition PushConfig (now : Z) (sched : list nat) (sy : Syncer) (w : W) : W :=
  let edges := active_edges (sy_store sy) in
  let config := BuildEdgeConfig now (sy_store sy) in
  match Marshal_EdgeConfig config with
  | None => w
  | Some data => (fan_out (fun e => pushToEdge sy (en_Addr e) "/edge/config" data) sched edges w).1
  end.

Definition name_error (e : EdgeNode) (err : option string) : option string := (fun err => en_Name e +:+ ": " +:+ err) <$> err.

(** [fmt.Errorf("purge failed on: %v", errors)] *)
Definition purge_failure (errors : list string) : string := "purge failed on: [" +:+ String.concat " " errors +:+ "]".

Definition PurgeAll (sched : list nat) (sy : Syncer) (w : W) : W * option string :=
  let edges := active_edges (sy_store sy) in
  let '(w, out) := fan_out (fun e w => let '(w, err) := pushToEdge sy (en_Addr e) "/purge" purge_body w in (w, name_error e err)) sched edges w in
  let errors := omap snd out in
  (w, match errors with [] => None | _ => Some (purge_failure errors) end).

End sync.

(** ** The edges the control plane pushes to *)

Record pushed_edge := { pe_key : string; pe_handler : MultiTenantCDN }.

Section edges.
Context `{ConfigJson} `{UrlQuery}.
Variable fault : string -> option string.

Definition set_handler (h : MultiTenantCDN) (e : pushed_edge) : pushed_edge := {| pe_key := pe_key e; pe_handler := h |}.

(** [/edge/config] on the edge at [addr]; other paths are not for this handler. *)
Definition config_endpoint (addr : string) (r : Request) (body : string) (w : gmap string pushed_edge) : gmap string pushed_edge * (string + Z) :=
  match fault addr, w !! addr with
  | Some err, _ => (w, inl err)
  | None, None => (w, inl "no such host"%string)
  | None, Some e =>
      if negb (String.eqb (r_Path r) "/edge/config") then (w, inr 404)
      else
        let '(h, rw) := AdminAuth (pe_key e) (fun _ _ h w r => HandleConfigPush h w (r_Method r) (Some body)) _ _ (pe_handler e) new_writer r in
        (<[addr := set_handler h e]> w, inr (final_status rw))
  end.

End edges.

(** ** What a push does *)

Section push_facts.
Context `{RangeOrder} `{ConfigMarshal} `{ConfigJson} `{UrlQuery}.
Variable fault : string -> option string.
Variable host_of : string -> string.

(** The edge at [addr] takes a push with [key]. *)
Definition takes_push (key : string) (w : gmap string pushed_edge) (addr : string) : bool :=
  match fault addr, w !! addr with
  | None, Some e => String.eqb (pe_key e) "" || String.eqb (pe_key e) key
  | _, _ => false
  end.

Definition configured (cfg : EdgeConfig) (e : pushed_edge) : pushed_edge := set_handler (UpdateConfig (pe_handler e) cfg) e.

Lemma push_one key addr data cfg w :
  key <> ""%string -> Unmarshal_EdgeConfig (take_bytes (Z.to_nat (Z.shiftl 10 20)) data) = Some cfg ->
  (config_endpoint fault addr (push_request host_of key addr "/edge/config") data w).1
  = if takes_push key w addr then alter (configured cfg) addr w else w.
Proof.
  intros Hkey Hu. unfold config_endpoint, takes_push. destruct (fault addr); [done |].
  destruct (w !! addr) as [e |] eqn:E; [| done]. cbn [push_request r_Path String.eqb Ascii.eqb Bool.eqb negb].
  assert (Hh : Header_Get (r_Header (push_request host_of key addr "/edge/config")) "X-API-Key" = key)
    by (unfold push_request; cbn [r_Header]; apply Header_Get_Set).
  assert (Hserve : HandleConfigPush (pe_handler e) new_writer (r_Method (push_request host_of key addr "/edge/config")) (Some data)
    = (UpdateConfig (pe_handler e) cfg, (HandleConfigPush (pe_handler e) new_writer "POST" (Some data)).2)).
  { unfold HandleConfigPush. cbn [push_request r_Method String.eqb Ascii.eqb Bool.eqb negb]. by rewrite Hu. }
  assert (Halter : <[addr := set_handler (UpdateConfig (pe_handler e) cfg) e]> w = alter (configured cfg) addr w).
  { apply map_eq. intros a. destruct (decide (addr = a)) as [-> | Hne].
    - by rewrite lookup_insert_eq, lookup_alter_eq, E.
    - by rewrite lookup_insert_ne, lookup_alter_ne. }
  assert (Hself : <[addr := set_handler (pe_handler e) e]> w = w) by (apply insert_id; rewrite E; by destruct e).
  unfold AdminAuth. rewrite Hh. destruct (String.eqb (pe_key e) ""); cbn [orb].
  - rewrite Hserve. cbn [fst]. exact Halter.
  - rewrite (proj2 (String.eqb_neq key "") Hkey), String.eqb_sym. destruct (String.eqb (pe_key e) key); cbn [negb fst].
    + rewrite Hserve. cbn [fst]. exact Halter.
    + exact Hself.
Qed.

(** Pushes change neither keys nor reachability, and the last configuration wins. *)
Lemma takes_push_configured key cfg addr addr' (w : gmap string pushed_edge) :
  takes_push key (alter (configured cfg) addr w) addr' = takes_push key w addr'.
Proof.
  unfold takes_push. destruct (fault addr'); [done |]. destruct (decide (addr = addr')) as [-> | Hne].
  - rewrite lookup_alter_eq. by destruct (w !! addr').
  - by rewrite lookup_alter_ne.
Qed.

Lemma configured_twice cfg e : configured cfg (configured cfg e) = configured cfg e.
Proof. done. Qed.

Lemma fan_out_pushes sy data cfg edges (sched : list nat) w addr :
  sy_adminKey sy <> ""%string -> Unmarshal_EdgeConfig (take_bytes (Z.to_nat (Z.shiftl 10 20)) data) = Some cfg ->
  (fan_out (fun e => pushToEdge (config_endpoint fault) host_of sy (en_Addr e) "/edge/config" data) sched edges w).1 !! addr
  = if called edges en_Addr sched addr && takes_push (sy_adminKey sy) w addr then configured cfg <$> w !! addr else w !! addr.
Proof.
  intros Hkey Hu.
  apply (fan_out_alter _ edges en_Addr (configured cfg) (takes_push (sy_adminKey sy) w) (fun w' => forall a, takes_push (sy_adminKey sy) w' a = takes_push (sy_adminKey sy) w a));
    [apply configured_twice | intros k w' Hw a; by rewrite takes_push_configured | | done].
  intros e w' Hw. unfold pushToEdge. pose proof (push_one (sy_adminKey sy) (en_Addr e) data cfg w' Hkey Hu) as Hone.
  destruct (config_endpoint _ _ _ _ _) as [w1 resp]. cbn [fst] in *. by rewrite Hone, Hw.
Qed.

End push_facts.

(** ** The contract between the control plane and the edges *)

Section sync_facts.
Context `{RangeOrder} `{ConfigMarshal} `{ConfigJson} `{UrlQuery}.
Variable fault : string -> option string.
Variable host_of : string -> string.

(** The snapshot survives the wire. *)
Definition wire_ok (cfg : EdgeConfig) : Prop :=
  exists data, Marshal_EdgeConfig cfg = Some data /\ Unmarshal_EdgeConfig (take_bytes (Z.to_nat (Z.shiftl 10 20)) data) = Some cfg.

(** A push installs the snapshot everywhere it should: after [PushConfig] every edge that
    is active in the store, up, and shares the key, routes by exactly the snapshot of the
    store, and every other edge keeps what it had, in whatever order the pushes land. *)
Theorem PushConfig_installs now sched sy (w : gmap string pushed_edge) :
  sy_adminKey sy <> ""%string -> wire_ok (BuildEdgeConfig now (sy_store sy)) ->
  sched ≡ₚ seq 0 (length (active_edges (sy_store sy))) ->
  forall addr,
    PushConfig (config_endpoint fault) host_of now sched sy w !! addr
    = if bool_decide (addr ∈ map en_Addr (active_edges (sy_store sy))) && takes_push fault (sy_adminKey sy) w addr
      then configured (BuildEdgeConfig now (sy_store sy)) <$> w !! addr else w !! addr.
Proof.
  intros Hkey (data & Hm & Hu) Hs addr. unfold PushConfig. rewrite Hm.
  rewrite (fan_out_pushes fault host_of sy data (BuildEdgeConfig now (sy_store sy)) _ sched w addr Hkey Hu).
  by rewrite (called_all en_Addr _ _ addr Hs).
Qed.

(** The edges route as the control plane says: after a push, an edge that took it finds a
    domain for a hostname exactly when the snapshot has one. *)
Theorem push_then_route now sched sy (w : gmap string pushed_edge) addr hostname e :
  sy_adminKey sy <> ""%string -> wire_ok (BuildEdgeConfig now (sy_store sy)) ->
  sched ≡ₚ seq 0 (length (active_edges (sy_store sy))) ->
  addr ∈ map en_Addr (active_edges (sy_store sy)) -> takes_push fault (sy_adminKey sy) w addr = true ->
  PushConfig (config_endpoint fault) host_of now sched sy w !! addr = Some e ->
  lookupDomain (mt_config (pe_handler e)) hostname = ec_Domains (BuildEdgeConfig now (sy_store sy)) !! hostname.
Proof.
  intros Hkey (data & Hm & Hu) Hs Hin Ht. unfold PushConfig. rewrite Hm.
  rewrite (fan_out_pushes fault host_of sy data (BuildEdgeConfig now (sy_store sy)) _ sched w addr Hkey Hu).
  rewrite (called_all en_Addr _ _ addr Hs), (bool_decide_true _ Hin), Ht. cbn [andb].
  intros He. apply fmap_Some in He as (e0 & _ & ->). done.
Qed.

(** ** Purging every edge *)

Lemma omap_of_fmap {A B C} (f : B -> option C) (g : A -> B) (l : list A) : omap f (g <$> l) = omap (fun x => f (g x)) l.
Proof. induction l as [| x l IH]; [done |]. cbn [fmap list_fmap omap list_omap]. destruct (f (g x)); by rewrite <- IH. Qed.

Lemma omap_lookup_seq {A B} (f : A -> option B) (xs : list A) : omap (fun i => xs !! i ≫= f) (seq 0 (length xs)) = omap f xs.
Proof.
  induction xs as [| x xs IH]; [done |]. cbn [length seq]. rewrite <- fmap_S_seq. cbn [omap list_omap].
  pose proof (omap_of_fmap (fun i => (x :: xs) !! i ≫= f) S (seq 0 (length xs))) as E. cbn [omap list_omap] in E |- *.
  cbn [lookup list_lookup mbind option_bind] in E |- *. rewrite E. 
  match type of IH with ?l = _ => change (match f x with Some y => y :: l | None => l end = match f x with Some y => y :: omap f xs | None => omap f xs end) end.
  by rewrite IH.
Qed.

Lemma omap_perm {A B} (f : A -> option B) (l l' : list A) : l ≡ₚ l' -> omap f l ≡ₚ omap f l'.
Proof. intros Hl. by rewrite Hl. Qed.

(** The errors collected from a fan-out, in some order, are those of the elements. *)
Lemma collected_errors {A B} (f : A -> option B) (xs : list A) sched :
  sched ≡ₚ seq 0 (length xs) -> omap snd (omap (fun i => (fun x => (i, f x)) <$> xs !! i) sched) ≡ₚ omap f xs.
Proof.
  intros Hs. assert (Hom : forall l : list nat, omap snd (omap (fun i => (fun x => (i, f x)) <$> xs !! i) l) = omap (fun i => xs !! i ≫= f) l).
  { induction l as [| i l IH]; [done |]. cbn [omap list_omap]. destruct (xs !! i) as [x |]; cbn; [| done].
    destruct (f x); by rewrite <- IH. }
  rewrite Hom, <- (omap_lookup_seq f xs). by apply omap_perm.
Qed.

Lemma no_errors {A B} (f : A -> option B) (xs : list A) errors :
  errors ≡ₚ omap f xs -> errors = [] <-> forall x, x ∈ xs -> f x = None.
Proof.
  intros He. assert (Hn : errors = [] <-> omap f xs = []).
  { split; intros E; rewrite E in He; [by apply Permutation_nil_l in He | by apply Permutation_nil_r in He]. }
  rewrite Hn. clear. induction xs as [| x xs IH]; [split; [intros _ x []%elem_of_nil | done] |]. cbn.
  destruct (f x) as [b |] eqn:E.
  - split; [done |]. intros Hx. rewrite (Hx x) in E by left. done.
  - rewrite IH. split; [intros Hx y [-> | Hy]%elem_of_cons; auto | intros Hx y Hy; apply Hx; by right].
Qed.

(** The outcome of a purge is honest: [PurgeAll] succeeds exactly when every active edge
    answered below 400, and otherwise names, in some order, exactly the edges that did not,
    each once, with what went wrong. *)
Theorem PurgeAll_reports {W} (post : string -> Request -> string -> W -> W * (string + Z)) (answer : string -> string + Z) sched sy w :
  (forall addr r body w, (post addr r body w).2 = answer addr) ->
  sched ≡ₚ seq 0 (length (active_edges (sy_store sy))) ->
  let failures := omap (fun e => name_error e (push_error (answer (en_Addr e)))) (active_edges (sy_store sy)) in
  exists errors, errors ≡ₚ failures /\
    (PurgeAll post host_of sched sy w).2 = (match errors with [] => None | _ => Some (purge_failure errors) end).
Proof.
  intros Hpost Hs. cbv zeta. set (edges := active_edges (sy_store sy)) in *. unfold PurgeAll. fold edges.
  set (call := fun e w => let '(w, err) := pushToEdge post host_of sy (en_Addr e) "/purge" purge_body w in (w, name_error e err)).
  set (ans := fun e => name_error e (push_error (answer (en_Addr e)))).
  pose proof (fan_out_answers call (fun _ => True) ans edges) as Hf.
  assert (Hcall : forall x w, x ∈ edges -> True -> True /\ (call x w).2 = ans x).
  { intros e w' _ _. split; [done |]. unfold call, ans, pushToEdge. pose proof (Hpost (en_Addr e) (push_request host_of (sy_adminKey sy) (en_Addr e) "/purge") purge_body w') as Hp.
    destruct (post _ _ _ _) as [w1 resp]. cbn [fst snd] in *. by subst resp. }
  specialize (Hf Hcall sched w [] I). unfold fan_out. destruct (foldl (fan_step call edges) (w, []) sched) as [w' out] eqn:Efold.
  destruct Hf as [_ ->]. exists (omap snd (omap (fun i => (fun x => (i, ans x)) <$> edges !! i) sched)). split; [| done].
  by apply (collected_errors ans).
Qed.

End sync_facts.

(** ** A concrete control plane: two active edges and one that was deactivated *)

#[local] Existing Instance list_order.

Definition node (id addr : string) (active : bool) : EdgeNode :=
  {| en_ID := id; en_Name := "edge-" +:+ id; en_Addr := addr; en_Region := ""; en_LastSeen := 0; en_Active := active |}.

Definition some_edges : Store :=
  {| s_data := set_edges {["1" := node "1" "http://a" true; "2" := node "2" "http://b" true; "3" := node "3" "http://c" false]}%string
                 (s_data two_domains); s_file := None |}.

Definition some_config : EdgeConfig := BuildEdgeConfig 5 some_edges.

#[local] Instance config_marshal : ConfigMarshal := {| Marshal_EdgeConfig _ := Some "cfg"%string |}.
#[local] Instance config_json : ConfigJson := {| Unmarshal_EdgeConfig s := if String.eqb s "cfg" then Some some_config else None |}.
#[local] Existing Instance no_query.

Definition all_edges : gmap string pushed_edge :=
  {["http://a" := {| pe_key := "k"; pe_handler := tiny_mt |}; "http://b" := {| pe_key := "k2"; pe_handler := tiny_mt |};
    "http://c" := {| pe_key := "k"; pe_handler := tiny_mt |}]}%string.

Lemma some_config_wire : wire_ok some_config.
Proof. exists "cfg"%string. by split. Qed.

Lemma PushConfig_installs_witness :
  PushConfig (config_endpoint (fun _ => None)) (fun u => u) 5 [0; 1]%nat (New some_edges "k") all_edges !! "http://b"%string
  = all_edges !! "http://b"%string.
Proof.
  refine (PushConfig_installs (fun _ => None) (fun u => u) 5 [0; 1]%nat (New some_edges "k") all_edges _ some_config_wire _ "http://b"%string);
    [discriminate | vm_compute; reflexivity].
Defined.

Lemma push_then_route_witness :
  lookupDomain (mt_config (pe_handler (configured some_config {| pe_key := "k"; pe_handler := tiny_mt |}))) "b.com"
  = ec_Domains some_config !! "b.com"%string.
Proof.
  refine (push_then_route (fun _ => None) (fun u => u) 5 [0; 1]%nat (New some_edges "k") all_edges "http://a" "b.com"
    (configured some_config {| pe_key := "k"; pe_handler := tiny_mt |}) _ some_config_wire _ _ _ _);
    [discriminate | vm_compute; reflexivity | | vm_compute; reflexivity.. ].
  apply (bool_decide_unpack _). vm_compute. exact I.
Defined.

Lemma PurgeAll_reports_witness :
  exists errors, errors ≡ₚ ["edge-2: HTTP 401"%string] /\
    (PurgeAll (fun addr _ _ n => (S n, if String.eqb addr "http://b" then inr 401 else inr 200)) (fun u => u) [0; 1]%nat
       (New some_edges "k") 0%nat).2 = match errors with [] => None | _ => Some (purge_failure errors) end.
Proof.
  refine (PurgeAll_reports (fun u => u) (fun addr _ _ n => (S n, if String.eqb addr "http://b" then inr 401 else inr 200))
    (fun addr => if String.eqb addr "http://b" then inr 401 else inr 200) [0; 1]%nat (New some_edges "k") 0%nat _ _);
    [intros; reflexivity | vm_compute; reflexivity].
Defined.
