(* ===== verification/Publish.v ===== *)
(** * From the control plane to the client ([controlplane/sync/sync.go], [handler/multitenant.go])

    What the whole system is for, in one theorem: a domain in the control plane's store is
    pushed to an edge, a client asks the edge for something under the domain's hostname, is
    served what the domain's origin answers, and the next client is served from the cache.
    Before it, what the multi-tenant handler does with a resource it does not have. *)

From S2P Require Import Prelude GoStrings CacheKey TinyLFU Entry Shard Disk Cache Contents Predictor Http CacheControl Paths Circuit Origin Handler Tenant MultiTenant Store Middleware Logging Metrics Purge Sync.

Local Open Scope Z_scope.

(** ** The multi-tenant handler past its guards *)

Section requests.
Context `{Hash64} `{HeaderCodec} `{!HeaderCodecLaws} `{DiskWorld} `{Unicode} `{HttpClient}.

(** The key [mt_ServeHTTP] looks up. *)
Definition mt_key (r : Request) : string := NormalizeKey (stripPort (r_Host r)) (r_Path r) (r_RawQuery r) "" ∅.

(** An ordinary request: no range, no condition, and the cache may answer. *)
Definition mt_plain (r : Request) : bool :=
  (String.eqb (r_Method r) "GET" || String.eqb (r_Method r) "HEAD") && mtIsValidPath (r_Path r) && negb (String.eqb (stripPort (r_Host r)) "") &&
  String.eqb (Header_Get (r_Header r) "Range") "" && negb (hasCacheDirective (Header_Get (r_Header r) "Cache-Control") "no-cache") &&
  String.eqb (Header_Get (r_Header r) "If-None-Match") "".

(** The configuration [h] has while the request is served, and its predictor's answer. *)
Definition mt_steady (ev : mt_env) (h : MultiTenantCDN) : Prop := forall n, me_config ev n = mt_config h.
Definition mt_unpredicted (h : MultiTenantCDN) (r : Request) : Prop :=
  forall p, mt_predictor h = Some p -> (IsLikelyUncacheable p (mt_key r)).2 = false.
Definition mt_queried (h : MultiTenantCDN) (r : Request) : MultiTenantCDN :=
  EnablePredictor h ((fun p => (IsLikelyUncacheable p (mt_key r)).1) <$> mt_predictor h).

(** [d] is what the configuration of [h] routes the host of [r] to, with no bypass rule for the path. *)
Definition mt_routed (h : MultiTenantCDN) (r : Request) (d : Domain) : Prop :=
  lookupDomain (mt_config h) (stripPort (r_Host r)) = Some d /\ d_Active d = true /\
  bypassed (r_Path r) (lookupRules (mt_config h) (d_ID d)) = false.

Lemma mt_unpredicted_queried h r : mt_unpredicted h r -> mt_unpredicted (mt_queried h r) r.
Proof.
  intros Hu p Hp. unfold mt_queried in Hp. cbn [mt_predictor EnablePredictor] in Hp.
  apply fmap_Some in Hp as (q & Hq & ->). rewrite query_same. by apply Hu.
Qed.

Lemma mt_ServeHTTP_plain {W} `{Writer W} ev h (w : W) r d :
  mt_plain r = true -> mt_steady ev h -> mt_routed h r d -> mt_unpredicted h r ->
  mt_ServeHTTP ev h w r
  = let '(c, entry) := mt_lookup ev (mt_cache h) r (mt_key r) in
    let h' := mt_with_cache c (mt_queried h r) in
    match entry with
    | Some entry => (h', mt_serve_cached ev w r entry)
    | None => mtFetchAndServe ev h' w r d (mt_key r) (lookupRules (mt_config h) (d_ID d))
    end.
Proof.
  unfold mt_plain. intros [[[[[Hm Hp]%andb_true_iff Hh]%andb_true_iff Hr]%andb_true_iff Hc]%andb_true_iff _]%andb_true_iff Hst (Hl & Ha & Hb) Hu.
  unfold mt_ServeHTTP. rewrite Hp. apply negb_true_iff in Hh, Hc. rewrite Hh.
  rewrite (Hst 0%nat), (Hst 1%nat), Hl, Ha, Hr, Hb, Hc. fold (mt_key r).
  assert (Hg : negb (String.eqb (r_Method r) "GET") && negb (String.eqb (r_Method r) "HEAD") = false) by (rewrite <- negb_orb; by rewrite Hm).
  rewrite Hg. cbn [negb]. unfold mt_queried, mt_unpredicted in *.
  destruct (mt_predictor h) as [p |]; cbn [fmap option_fmap option_map]; [| by destruct (mt_lookup _ _ _ _) as [c []]].
  specialize (Hu p eq_refl). destruct (IsLikelyUncacheable p (mt_key r)) as [p' b]. cbn in Hu. subst b. by destruct (mt_lookup _ _ _ _) as [c []].
Qed.

(** A fresh entry without [Vary] is served as a hit. *)
Lemma mt_serves_fresh ev h (w : ResponseWriter) r d e :
  unused w -> mt_plain r = true -> mt_steady ev h -> mt_routed h r d -> mt_unpredicted h r -> fresh_at (me_env ev) (mt_cache h) (mt_key r) e ->
  let out := mt_ServeHTTP ev h w r in
  w_status out.2 = e_StatusCode e /\ w_body out.2 = e_Body e /\ w_sent out.2 !! "X-Cache" = Some ["HIT"%string] /\
  mt_origin out.1 = mt_origin h.
Proof.
  intros Hw Hp Hst Hd Hu (Hg & Hv & He & Hs). cbv zeta. rewrite (mt_ServeHTTP_plain ev h w r d) by done.
  unfold mt_lookup. destruct (Get _ _ _) as [c f]. cbn in Hg. subst f. rewrite Hv. cbn [String.eqb negb andb fst snd].
  unfold mt_serve_cached. rewrite He. cbn [andb]. apply andb_true_iff in Hp as [_ Hn]. rewrite Hn. cbn [negb andb].
  destruct (serveEntry_sends (ev_now (me_env ev) 12) w e "HIT" Hw Hs) as (? & ? & ?). by split_and!.
Qed.

(** A resource the cache does not have, that its origin answers with a cacheable response. *)
Record mt_misses (ev : mt_env) (h : MultiTenantCDN) (r : Request) (d : Domain) (resp : Response) (ttl swr : Duration) : Prop := {
  mm_cache : cache_wf (mt_cache h);
  mm_miss : (Get (after 0 (me_env ev)) (mt_cache h) (mt_key r)).2 = None;
  mm_room : has_room (Get (after 0 (me_env ev)) (mt_cache h) (mt_key r)).1 (mt_key r);
  mm_breaker : (Circuit.Allow (ev_now (me_env ev) 20) (og_cb (mt_origin h))).2 = true;
  mm_flight : og_flights (mt_origin h) !! mt_key r = None;
  mm_answer : doFetch (mt_origin h) (mt_originURL d r) (set_host d (r_Header r)) = inr resp;
  mm_ttl : mtDetermineTTL h (rs_Header resp) d (lookupRules (mt_config h) (d_ID d)) (r_Path r) = (ttl, swr);
  mm_cacheable : cacheable ttl (rs_StatusCode resp) = true;
  mm_vary : Header_Get (rs_Header resp) "Vary" = ""%string
}.

(** A resource the cache does not have, that its origin answers: the breaker lets the
    request through, and no other fetch of it is under way. *)
Record mt_fetches (ev : mt_env) (h : MultiTenantCDN) (r : Request) (d : Domain) (resp : Response) (ttl swr : Duration) : Prop := {
  mf_miss : (Get (after 0 (me_env ev)) (mt_cache h) (mt_key r)).2 = None;
  mf_breaker : (Circuit.Allow (ev_now (me_env ev) 20) (og_cb (mt_origin h))).2 = true;
  mf_flight : og_flights (mt_origin h) !! mt_key r = None;
  mf_answer : doFetch (mt_origin h) (mt_originURL d r) (set_host d (r_Header r)) = inr resp;
  mf_status : rs_StatusCode resp <> 0;
  mf_ttl : mtDetermineTTL h (rs_Header resp) d (lookupRules (mt_config h) (d_ID d)) (r_Path r) = (ttl, swr)
}.

(** The answer is one to store: cacheable, without [Vary], with room for it and within the
    cache's limits. *)
Record mt_stores (ev : mt_env) (h : MultiTenantCDN) (r : Request) (resp : Response) (ttl swr : Duration) : Prop := {
  ms_cache : cache_wf (mt_cache h);
  ms_room : has_room (Get (after 0 (me_env ev)) (mt_cache h) (mt_key r)).1 (mt_key r);
  ms_cacheable : cacheable ttl (rs_StatusCode resp) = true;
  ms_vary : Header_Get (rs_Header resp) "Vary" = ""%string;
  ms_accepted : acceptable (Get (after 0 (me_env ev)) (mt_cache h) (mt_key r)).1 (mt_key r)
                  (response_entry (ev_now (me_env ev) 40) resp ttl swr (mt_key r)) = true
}.

Lemma mt_fetches_stores ev h r d resp ttl swr :
  mt_fetches ev h r d resp ttl swr -> mt_stores ev h r resp ttl swr -> mt_misses ev h r d resp ttl swr.
Proof. intros [] []. by constructor. Qed.

(** On a miss the client gets the origin's answer, stored or not. *)
Lemma mt_first_answer ev h (w : ResponseWriter) r d resp ttl swr :
  unused w -> mt_plain r = true -> mt_steady ev h -> mt_routed h r d -> mt_unpredicted h r -> mt_fetches ev h r d resp ttl swr ->
  let out := mt_ServeHTTP ev h w r in
  w_status out.2 = rs_StatusCode resp /\ w_body out.2 = rs_Body resp /\
  w_sent out.2 !! "X-Cache" = Some [if cacheable ttl (rs_StatusCode resp) then "MISS" else "BYPASS"]%string /\
  (cacheable ttl (rs_StatusCode resp) = false -> mt_cache out.1 = (Get (after 0 (me_env ev)) (mt_cache h) (mt_key r)).1).
Proof.
  intros Hw Hp Hst Hd Hu [Hmiss Hb Hfl Hans Hs Ht]. cbv zeta. rewrite (mt_ServeHTTP_plain ev h w r d) by done.
  unfold mt_lookup. destruct (Get _ _ _) as [c f]. cbn in Hmiss. subst f. cbn [fst snd].
  unfold mtFetchAndServe, mtFetchAndServe_fetched. cbn [mt_origin mt_with_cache mt_queried EnablePredictor].
  pose proof (Fetch_lead (ev_now (me_env ev) 20) (ev_now (me_env ev) 21) (mt_origin h) (mt_key r) (mt_originURL d r) (set_host d (r_Header r))
    (ev_joined (me_env ev)) Hfl Hb) as Hf.
  destruct (Fetch _ _ _ _ _ _ _) as [o res]. destruct Hf as [-> _]. rewrite Hans.
  change (mtDetermineTTL (mt_with_origin o (mt_with_cache c (mt_queried h r)))) with (mtDetermineTTL h). rewrite Ht.
  destruct (cacheable ttl (rs_StatusCode resp)).
  - set (k' := NormalizeKey _ _ _ (Header_Get _ "Vary") _). set (e := response_entry _ _ _ _ _). cbn [mt_cache mt_with_origin mt_with_cache].
    pose proof (put_both_content (ev_now (me_env ev) 41) (ev_now (me_env ev) 42) c (mt_key r) k' e) as [Hs1 Hb1].
    destruct (put_both _ _ _ _ _ _) as [c1 e1]. cbn [fst snd] in *.
    destruct (serveEntry_sends (ev_now (me_env ev) 43) w e1 "MISS" Hw) as (-> & -> & ->); [by rewrite Hs1 |]. by rewrite Hs1, Hb1.
  - cbn [fst snd]. destruct (serveResponse_sends w resp "BYPASS" Hw Hs) as (-> & -> & ->). done.
Qed.

(** On a miss the response is fetched, stored and served. *)
Lemma mt_ServeHTTP_miss {W} `{Writer W} ev h (w : W) r d resp ttl swr :
  mt_plain r = true -> mt_steady ev h -> mt_routed h r d -> mt_unpredicted h r -> mt_misses ev h r d resp ttl swr ->
  let c := (Get (after 0 (me_env ev)) (mt_cache h) (mt_key r)).1 in
  let e := response_entry (ev_now (me_env ev) 40) resp ttl swr (mt_key r) in
  let put := put_both (ev_now (me_env ev) 41) (ev_now (me_env ev) 42) c (mt_key r) (mt_key r) e in
  exists o, mt_ServeHTTP ev h w r
    = (mt_with_cache put.1 (mt_with_origin o (mt_with_cache c (mt_queried h r))), serveEntry (ev_now (me_env ev) 43) w put.2 "MISS").
Proof.
  intros Hp Hst Hd Hu [_ Hmiss _ Hb Hfl Hans Ht Hc Hv]. cbv zeta. rewrite (mt_ServeHTTP_plain ev h w r d) by done.
  unfold mt_lookup. destruct (Get _ _ _) as [c f]. cbn in Hmiss. subst f. cbn [fst snd]. unfold mtFetchAndServe, mtFetchAndServe_fetched. cbn [mt_origin mt_with_cache mt_queried EnablePredictor].
  pose proof (Fetch_lead (ev_now (me_env ev) 20) (ev_now (me_env ev) 21) (mt_origin h) (mt_key r) (mt_originURL d r) (set_host d (r_Header r))
    (ev_joined (me_env ev)) Hfl Hb) as Hf.
  destruct (Fetch _ _ _ _ _ _ _) as [o res]. destruct Hf as [-> _]. rewrite Hans. exists o.
  change (mtDetermineTTL (mt_with_origin o (mt_with_cache c (mt_queried h r)))) with (mtDetermineTTL h). rewrite Ht, Hc, Hv, NormalizeKey_novary.
  fold (mt_key r). cbn [mt_cache mt_with_origin mt_with_cache]. by destruct (put_both _ _ _ _ _ _).
Qed.

(** The first request is served the origin's answer and stores it, the second is served
    from the cache. *)
Lemma mt_miss_then_hit ev ev' h (w w' : ResponseWriter) r d resp ttl swr :
  unused w -> unused w' -> mt_plain r = true -> mt_steady ev h -> mt_steady ev' h -> mt_routed h r d -> mt_unpredicted h r ->
  mt_misses ev h r d resp ttl swr ->
  let e := response_entry (ev_now (me_env ev) 40) resp ttl swr (mt_key r) in
  acceptable (Get (after 0 (me_env ev)) (mt_cache h) (mt_key r)).1 (mt_key r) e = true ->
  (forall n, Entry_IsExpired (ev_now (me_env ev') n) e = false) ->
  let first := mt_ServeHTTP ev h w r in
  let second := mt_ServeHTTP ev' first.1 w' r in
  w_status first.2 = rs_StatusCode resp /\ w_body first.2 = rs_Body resp /\ w_sent first.2 !! "X-Cache" = Some ["MISS"%string] /\
  w_status second.2 = rs_StatusCode resp /\ w_body second.2 = rs_Body resp /\ w_sent second.2 !! "X-Cache" = Some ["HIT"%string] /\
  mt_origin second.1 = mt_origin first.1.
Proof.
  intros Hw Hw' Hp Hst Hst' Hd Hu Hm e Ha Hexp. cbv zeta. set (c := (Get (after 0 (me_env ev)) (mt_cache h) (mt_key r)).1) in *.
  assert (Hcs : isCacheableStatus (rs_StatusCode resp) = true) by (by destruct (proj1 (andb_true_iff _ _) (mm_cacheable _ _ _ _ _ _ _ Hm))).
  destruct (mt_ServeHTTP_miss ev h w r d resp ttl swr Hp Hst Hd Hu Hm) as [o ->]. fold c e.
  pose proof (stored_is_fresh (me_env ev') c (mt_key r) (ev_now (me_env ev) 41) (ev_now (me_env ev) 42) resp ttl swr (ev_now (me_env ev) 40)
    (Get_wf _ _ _ (mm_cache _ _ _ _ _ _ _ Hm)) (mm_room _ _ _ _ _ _ _ Hm) Hcs (mm_vary _ _ _ _ _ _ _ Hm) Ha Hexp) as Hfresh. fold e in Hfresh.
  pose proof (put_both_same (ev_now (me_env ev) 41) (ev_now (me_env ev) 42) c (mt_key r) e) as [Hs1 Hb1].
  destruct (put_both _ _ _ _ _ _) as [c1 e1]; cbn [fst snd] in *.
  destruct (serveEntry_sends (ev_now (me_env ev) 43) w e1 "MISS" Hw) as (-> & -> & ->); [rewrite Hs1; by apply cacheable_status_nonzero |].
  destruct (stored_form_facts c e) as (_ & Fb & Fs & _). set (h1 := mt_with_cache c1 _).
  assert (Hu1 : mt_unpredicted h1 r) by exact (mt_unpredicted_queried h r Hu).
  destruct (mt_serves_fresh ev' h1 w' r d _ Hw' Hp Hst' Hd Hu1 Hfresh) as (-> & -> & -> & ->). rewrite Fb, Fs, Hs1, Hb1. by split_and!.
Qed.

End requests.

(** ** From the store to the client *)

Section publish.
Context `{Hash64} `{HeaderCodec} `{!HeaderCodecLaws} `{DiskWorld} `{Unicode} `{HttpClient} `{StoreJson} `{RangeOrder} `{ConfigMarshal} `{ConfigJson} `{UrlQuery}.
Variable fault : string -> option string.
Variable host_of : string -> string.

(** The snapshot's rules for a domain are those of the store. *)
Lemma snapshot_rules now s did rule :
  rule ∈ lookupRules (Some (BuildEdgeConfig now s)) did -> exists k, sd_CacheRules (s_data s) !! k = Some rule /\ cr_DomainID rule = did.
Proof.
  cbn [lookupRules BuildEdgeConfig ec_Rules]. rewrite build_rules, lookup_empty. cbn [default app].
  intros Hr. apply list_elem_of_In, List.filter_In in Hr as [Hin E]. apply String.eqb_eq in E.
  apply list_elem_of_In, list_elem_of_fmap in Hin as ([k rule'] & -> & Hk). exists k. split; [by apply range_elem | done].
Qed.

(** A domain of the store is routed by every edge that took the snapshot. *)
Lemma pushed_domain_routed now sched sy edges addr e id d t r :
  sy_adminKey sy <> ""%string -> wire_ok (BuildEdgeConfig now (sy_store sy)) -> store_wf (s_data (sy_store sy)) ->
  sd_Domains (s_data (sy_store sy)) !! id = Some d -> d_Active d = true ->
  sd_Tenants (s_data (sy_store sy)) !! d_TenantID d = Some t -> t_Active t = true ->
  (forall k rule, sd_CacheRules (s_data (sy_store sy)) !! k = Some rule -> cr_DomainID rule = id -> cr_Bypass rule = false) ->
  sched ≡ₚ seq 0 (length (active_edges (sy_store sy))) ->
  addr ∈ map en_Addr (active_edges (sy_store sy)) -> takes_push fault (sy_adminKey sy) edges addr = true ->
  PushConfig (config_endpoint fault) host_of now sched sy edges !! addr = Some e ->
  stripPort (r_Host r) = d_Hostname d -> mt_routed (pe_handler e) r d.
Proof.
  intros Hkey Hw Hwf Hd Ha Ht Hta Hr Hs Hin Htk He Hh.
  rewrite (PushConfig_installs fault host_of now sched sy edges Hkey Hw Hs addr), (bool_decide_true _ Hin), Htk in He. cbn [andb] in He.
  apply fmap_Some in He as (e0 & _ & ->). cbn [configured set_handler pe_handler UpdateConfig mt_config]. split_and!; [| done |].
  - rewrite Hh. apply BuildEdgeConfig_domains; [done |]. by exists id, t.
  - apply not_true_iff_false. intros Hb. apply existsb_exists in Hb as (rule & Hrule & Hb). apply list_elem_of_In, snapshot_rules in Hrule as (k & Hk & Hid).
    rewrite (sw_did _ Hwf _ _ Hd) in Hid. rewrite (Hr k rule Hk Hid), andb_false_r in Hb. done.
Qed.

(** C3: A published domain is served: an active domain of an active tenant in the control
    plane's store, none of whose rules bypasses the cache, is pushed to the edges. The
    store has identifiers as keys and unique hostnames ([store_wf]), the control plane an
    administrator's key, and the snapshot survives its JSON within the edge's limit of 10
    MB ([wire_ok]). On an edge that took the push, and keeps that configuration, a plain
    GET or HEAD for its hostname, with or without a port (no range, no condition, no
    [no-cache], not predicted uncacheable), for a resource that the edge does not have, is
    answered with the status and body of the domain's origin,
    when the circuit is closed and no other fetch of it is under way: as a MISS when the
    response is cacheable, otherwise as a BYPASS that leaves nothing in the cache. When it
    is cacheable, without [Vary], within the cache's limits and there is room, the next
    such request that comes before it expires is served the same as a HIT, without reaching
    the origin. *)
Theorem publish_then_serve now sched sy edges addr e id d t ev ev' (w w' : ResponseWriter) r resp ttl swr :
  sy_adminKey sy <> ""%string -> wire_ok (BuildEdgeConfig now (sy_store sy)) -> store_wf (s_data (sy_store sy)) ->
  sd_Domains (s_data (sy_store sy)) !! id = Some d -> d_Active d = true ->
  sd_Tenants (s_data (sy_store sy)) !! d_TenantID d = Some t -> t_Active t = true ->
  (forall k rule, sd_CacheRules (s_data (sy_store sy)) !! k = Some rule -> cr_DomainID rule = id -> cr_Bypass rule = false) ->
  sched ≡ₚ seq 0 (length (active_edges (sy_store sy))) ->
  addr ∈ map en_Addr (active_edges (sy_store sy)) -> takes_push fault (sy_adminKey sy) edges addr = true ->
  PushConfig (config_endpoint fault) host_of now sched sy edges !! addr = Some e ->
  let h := pe_handler e in
  unused w -> unused w' -> mt_plain r = true -> stripPort (r_Host r) = d_Hostname d ->
  mt_steady ev h -> mt_steady ev' h -> mt_unpredicted h r -> mt_fetches ev h r d resp ttl swr ->
  let first := mt_ServeHTTP ev h w r in
  let second := mt_ServeHTTP ev' first.1 w' r in
  doFetch (mt_origin h) (TrimRightByte (d_OriginURL d) "/" +:+ r_RequestURI r) (set_host d (r_Header r)) = inr resp /\
  w_status first.2 = rs_StatusCode resp /\ w_body first.2 = rs_Body resp /\
  w_sent first.2 !! "X-Cache" = Some [if cacheable ttl (rs_StatusCode resp) then "MISS" else "BYPASS"]%string /\
  (cacheable ttl (rs_StatusCode resp) = false -> mt_cache first.1 = (Get (after 0 (me_env ev)) (mt_cache h) (mt_key r)).1) /\
  (mt_stores ev h r resp ttl swr ->
   (forall n, Entry_IsExpired (ev_now (me_env ev') n) (response_entry (ev_now (me_env ev) 40) resp ttl swr (mt_key r)) = false) ->
   w_status second.2 = rs_StatusCode resp /\ w_body second.2 = rs_Body resp /\ w_sent second.2 !! "X-Cache" = Some ["HIT"%string] /\
   mt_origin second.1 = mt_origin first.1).
Proof.
  intros Hkey Hwire Hwf Hd Ha Ht Hta Hr Hs Hin Htk He h Hw Hw' Hp Hh Hst Hst' Hu Hm.
  assert (Hrt : mt_routed h r d) by exact (pushed_domain_routed now sched sy edges addr e id d t r Hkey Hwire Hwf Hd Ha Ht Hta Hr Hs Hin Htk He Hh).
  destruct (mt_first_answer ev h w r d resp ttl swr Hw Hp Hst Hrt Hu Hm) as (Hf1 & Hf2 & Hf3 & Hf4).
  split; [exact (mf_answer _ _ _ _ _ _ _ Hm) |]. split_and!; [done.. |]. intros Hsto Hexp.
  pose proof (mt_miss_then_hit ev ev' h w w' r d resp ttl swr Hw Hw' Hp Hst Hst' Hrt Hu (mt_fetches_stores _ _ _ _ _ _ _ Hm Hsto)
    (ms_accepted _ _ _ _ _ _ Hsto) Hexp) as (_ & _ & _ & Hhit). exact Hhit.
Qed.

End publish.

(** ** A published domain *)

#[local] Existing Instances poly_hash64 bits_codec bits_codec_laws plain_disk ascii_unicode echo_client list_order config_marshal config_json no_query.

Lemma some_edges_wf : store_wf (s_data some_edges).
Proof.
  split; cbn; intros; repeat match goal with
    | E : <[_:=_]> _ !! _ = Some _ |- _ => apply lookup_insert_Some in E as [[<- <-] | [_ E]]
    | E : {[_:=_]} !! _ = Some _ |- _ => apply lookup_singleton_Some in E as [<- <-]
    end; done || (vm_compute; by eexists).
Qed.

Definition served_edge : pushed_edge := configured some_config {| pe_key := "k"; pe_handler := tiny_mt |}.
Definition at_edge (t : Z) : mt_env :=
  {| me_env := {| ev_now _ := t; ev_acquired := None; ev_joined := inl ErrCtx |}; me_config _ := Some some_config |}.
Definition get_x : Request := mt_get "a.com:8080" "/x".
Definition answer_x : Response := {| rs_StatusCode := 200; rs_Header := {["Content-Type" := ["text/plain"]]}; rs_Body := "http://origin-a/x" |}.

Lemma x_fetches :
  mt_fetches (at_edge 0) (pe_handler served_edge) get_x (sample_domain "1" "t1" "a.com" "http://origin-a") answer_x (300 * Second) 0.
Proof. constructor; [| | | | discriminate |]; vm_compute; reflexivity. Qed.

Lemma x_stores : mt_stores (at_edge 0) (pe_handler served_edge) get_x answer_x (300 * Second) 0.
Proof. constructor; [apply tiny_cache_wf | eexists; split; [| right; left] | | |]; vm_compute; reflexivity. Qed.

Lemma publish_then_serve_witness :
  let first := mt_ServeHTTP (at_edge 0) (pe_handler served_edge) new_writer get_x in
  let second := mt_ServeHTTP (at_edge Second) first.1 new_writer get_x in
  w_body first.2 = "http://origin-a/x"%string /\ w_body second.2 = "http://origin-a/x"%string /\ w_sent second.2 !! "X-Cache" = Some ["HIT"%string].
Proof.
  pose proof (publish_then_serve (fun _ => None) (fun u => u) 5 [0; 1]%nat (Sync.New some_edges "k") all_edges "http://a" served_edge
    "1" (sample_domain "1" "t1" "a.com" "http://origin-a") (sample_tenant "t1") (at_edge 0) (at_edge Second) new_writer new_writer get_x answer_x (300 * Second) 0) as Hp.
  assert (Hin : "http://a"%string ∈ map en_Addr (active_edges (sy_store (Sync.New some_edges "k")))) by (apply (bool_decide_unpack _); vm_compute; exact I).
  destruct Hp as (_ & _ & Hb1 & _ & _ & Hhit);
    [discriminate | exact some_config_wire | exact some_edges_wf | reflexivity | reflexivity | reflexivity | reflexivity
    | intros k rule; cbn; by rewrite lookup_empty | vm_compute; reflexivity | exact Hin | reflexivity | vm_compute; reflexivity
    | done | done | vm_compute; reflexivity | reflexivity | done | done | done | exact x_fetches |].
  destruct Hhit as (_ & Hb & Hx & _); [exact x_stores | intros n; vm_compute; reflexivity |]. split; [exact Hb1 | by split].
Defined.
