(* ===== verification/ControlPlane.v ===== *)
(** * The control plane and its edges ([controlplane/cmd/main.go], [controlplane/api/api.go],
      [controlplane/sync/sync.go], [handler/multitenant.go])

    The composition: the API changes the store and starts pushes, a push lists the edges,
    builds and encodes a snapshot and sends it to each, the edges poll as well, and an
    edge's own work (requests, purges) may change all of it but its configuration. Each of
    these is a step of one system, so that pushes, polls and requests interleave in every
    way the goroutines allow; the parts are the definitions of the other files. The ghost
    field records every store there has been. *)

From S2P Require Import Prelude GoStrings Http Circuit Origin Tenant Codec MultiTenant Store Api Middleware Logging Metrics Purge Sync.
From stdpp Require Import relations.

Local Open Scope Z_scope.

(** A goroutine that runs [PushConfig]: not started, the edges listed, the snapshot encoded
    and still to send to the edges of these indices. *)
Inductive push_state :=
  | PushWaiting
  | PushListed (edges : list EdgeNode)
  | PushSending (edges : list EdgeNode) (todo : list nat) (data : string).

(** The answer to an edge's poll, on its way. *)
Record poll_answer := { pa_addr : string; pa_status : Z; pa_body : option string }.

Record Plane := {
  pl_store : Store;
  pl_pushes : list push_state;
  pl_polls : list poll_answer;
  pl_edges : gmap string pushed_edge;
  pl_polled : gmap string Z;             (* the pollers' [lastVersion]s, 0 at first *)
  pl_history : list Store                (* ghost *)
}.

Section plane.
Context `{StoreJson} `{RangeOrder} `{UrlQuery} `{ConfigMarshal} `{ConfigJson}.
Variable sv : Server.
Variable fault : string -> option string.
Variable host_of : string -> string.

Definition syncer (s : Store) : Syncer := New s (sv_adminKey sv).

Definition with_push (i : nat) (ps : push_state) (p : Plane) : Plane :=
  {| pl_store := pl_store p; pl_pushes := <[i := ps]> (pl_pushes p); pl_polls := pl_polls p; pl_edges := pl_edges p;
     pl_polled := pl_polled p; pl_history := pl_history p |}.
Definition with_edges (edges : gmap string pushed_edge) (p : Plane) : Plane :=
  {| pl_store := pl_store p; pl_pushes := pl_pushes p; pl_polls := pl_polls p; pl_edges := edges;
     pl_polled := pl_polled p; pl_history := pl_history p |}.
Definition with_polls (polls : list poll_answer) (p : Plane) : Plane :=
  {| pl_store := pl_store p; pl_pushes := pl_pushes p; pl_polls := polls; pl_edges := pl_edges p;
     pl_polled := pl_polled p; pl_history := pl_history p |}.

(** One API request, and the push it starts. *)
Definition plane_request (io : store_io) (r : Request) (b : api_body) (p : Plane) : Plane :=
  let out := api_handler sv io (pl_store p) r b in
  {| pl_store := ao_store out; pl_pushes := pl_pushes p ++ (if ao_notify out then [PushWaiting] else []); pl_polls := pl_polls p;
     pl_edges := pl_edges p; pl_polled := pl_polled p; pl_history := ao_store out :: pl_history p |}.

(** [ListEdges] and the filter of a push. *)
Definition push_list (i : nat) (p : Plane) : Plane := with_push i (PushListed (active_edges (pl_store p))) p.

(** [BuildEdgeConfig] and its encoding; a push whose snapshot cannot be encoded is over. *)
Definition push_build (now : Z) (i : nat) (edges : list EdgeNode) (p : Plane) : Plane :=
  with_push i match Marshal_EdgeConfig (BuildEdgeConfig now (pl_store p)) with
              | Some data => PushSending edges (seq 0 (length edges)) data
              | None => PushSending edges [] ""
              end p.

(** One goroutine of a push: the request to the [j]-th edge. *)
Definition push_send (i j : nat) (edges : list EdgeNode) (todo : list nat) (data : string) (p : Plane) : Plane :=
  with_push i (PushSending edges todo data)
    (with_edges match edges !! j with
                | Some e => (pushToEdge (config_endpoint fault) host_of (syncer (pl_store p)) (en_Addr e) "/edge/config" data (pl_edges p)).1
                | None => pl_edges p
                end p).

(** The request of [ConfigPoller.poll], answered by the API. *)
Definition poll_request (key : string) : Request :=
  {| r_Method := "GET"; r_Host := ""; r_Path := "/api/v1/config"; r_RawQuery := ""; r_RequestURI := "/api/v1/config";
     r_Header := Header_Set ∅ "X-API-Key" key |}.
Definition poll_ask (io : store_io) (addr key : string) (p : Plane) : Plane :=
  let out := api_handler sv io (pl_store p) (poll_request key) {| ab_name := None; ab_domain := None; ab_rule := None; ab_edge := None |} in
  with_polls (pl_polls p ++ [{| pa_addr := addr; pa_status := ao_status out;
    pa_body := match ao_value out with VConfig cfg => Marshal_EdgeConfig cfg | _ => None end |}]) p.

(** The edge applies an answer. *)
Definition poll_apply (a : poll_answer) (p : Plane) : Plane :=
  match pl_edges p !! pa_addr a with
  | None => p
  | Some e =>
      let po := poll {| cp_handler := pe_handler e; cp_lastVersion := default 0 (pl_polled p !! pa_addr a) |} (Some (pa_status a, pa_body a)) in
      {| pl_store := pl_store p; pl_pushes := pl_pushes p; pl_polls := pl_polls p;
         pl_edges := <[pa_addr a := set_handler (cp_handler po) e]> (pl_edges p);
         pl_polled := <[pa_addr a := cp_lastVersion po]> (pl_polled p); pl_history := pl_history p |}
  end.

Inductive plane_step : Plane -> Plane -> Prop :=
  | ps_request p io r b : plane_step p (plane_request io r b p)
  | ps_list p i : pl_pushes p !! i = Some PushWaiting -> plane_step p (push_list i p)
  | ps_build p i now edges : pl_pushes p !! i = Some (PushListed edges) -> plane_step p (push_build now i edges p)
  | ps_send p i j edges todo todo' data :
      pl_pushes p !! i = Some (PushSending edges todo data) -> todo ≡ₚ j :: todo' -> plane_step p (push_send i j edges todo' data p)
  | ps_poll p io addr key : plane_step p (poll_ask io addr key p)
  | ps_answer p a polls : pl_polls p ≡ₚ a :: polls -> plane_step p (poll_apply a (with_polls polls p))
  | ps_lost p a polls : pl_polls p ≡ₚ a :: polls -> plane_step p (with_polls polls p)
  (* an edge serves requests, fetches, purges its cache: anything but its configuration *)
  | ps_edge p addr e h : pl_edges p !! addr = Some e -> mt_config h = mt_config (pe_handler e) ->
      plane_step p (with_edges (<[addr := set_handler h e]> (pl_edges p)) p).

(** A control plane before any push or poll. *)
Definition started (s : Store) (edges : gmap string pushed_edge) : Plane :=
  {| pl_store := s; pl_pushes := []; pl_polls := []; pl_edges := edges; pl_polled := ∅; pl_history := [s] |}.

End plane.

(** ** Only true snapshots *)

(** What a string is after [encoding/json] has written and read it: itself when it is
    ASCII; bytes that are not UTF-8 come back as the replacement character. *)
Class JsonText := {
  json_text : string -> string;
  json_text_ascii : forall s, is_ascii s = true -> json_text s = s
}.

Definition text_domain `{JsonText} (d : Domain) : Domain :=
  {| d_ID := json_text (d_ID d); d_TenantID := json_text (d_TenantID d); d_Hostname := json_text (d_Hostname d);
     d_OriginURL := json_text (d_OriginURL d); d_OriginHost := json_text (d_OriginHost d); d_OriginTimeout := d_OriginTimeout d;
     d_DefaultTTLSec := d_DefaultTTLSec d; d_MaxCacheEntryBytes := d_MaxCacheEntryBytes d;
     d_RespectOriginHeaders := d_RespectOriginHeaders d; d_CORSOrigins := json_text (d_CORSOrigins d); d_CORSMaxAge := d_CORSMaxAge d;
     d_TLSMode := json_text (d_TLSMode d); d_TLSCert := json_text (d_TLSCert d); d_TLSKey := json_text (d_TLSKey d);
     d_TLSAcmeDNS := d_TLSAcmeDNS d; d_RateLimitRPS := d_RateLimitRPS d; d_RateLimitBurst := d_RateLimitBurst d;
     d_Active := d_Active d; d_CreatedAt := d_CreatedAt d; d_UpdatedAt := d_UpdatedAt d |}.

Section snapshots.
Context `{StoreJson} `{RangeOrder} `{UrlQuery} `{ConfigMarshal} `{ConfigJson} `{JsonText}.
Variable sv : Server.
Variable fault : string -> option string.
Variable host_of : string -> string.

(** Reading a message, whole or cut off, gives an error or domains that were written, under
    their hostnames, with their strings as JSON keeps them. *)
Definition reads_back (cfg cfg' : EdgeConfig) : Prop := forall h' d',
  ec_Domains cfg' !! h' = Some d' -> exists h d, ec_Domains cfg !! h = Some d /\ h' = json_text h /\ d' = text_domain d.

Definition wire_faithful : Prop := forall cfg data cfg',
  Marshal_EdgeConfig cfg = Some data -> Unmarshal_EdgeConfig (take_bytes (Z.to_nat (Z.shiftl 10 20)) data) = Some cfg' -> reads_back cfg cfg'.

(** [cfg] is what was read of a snapshot of a store there has been, [data] one on the wire. *)
Definition true_snapshot (history : list Store) (cfg : EdgeConfig) : Prop :=
  exists s now, s ∈ history /\ reads_back (BuildEdgeConfig now s) cfg.
Definition true_data (history : list Store) (data : string) : Prop :=
  forall cfg, Unmarshal_EdgeConfig (take_bytes (Z.to_nat (Z.shiftl 10 20)) data) = Some cfg -> true_snapshot history cfg.

Record plane_ok (p : Plane) : Prop := {
  po_now : pl_store p ∈ pl_history p;
  po_edges : forall addr e cfg, pl_edges p !! addr = Some e -> mt_config (pe_handler e) = Some cfg -> true_snapshot (pl_history p) cfg;
  po_pushes : forall i edges todo data j, pl_pushes p !! i = Some (PushSending edges todo data) -> j ∈ todo -> true_data (pl_history p) data;
  po_polls : forall a data, a ∈ pl_polls p -> pa_body a = Some data -> true_data (pl_history p) data
}.

Lemma true_snapshot_mono s history cfg : true_snapshot history cfg -> true_snapshot (s :: history) cfg.
Proof. intros (s' & now & Hin & Hr). exists s', now. split; [by right | done]. Qed.
Lemma true_data_mono s history data : true_data history data -> true_data (s :: history) data.
Proof. intros Hd cfg Hu. by apply true_snapshot_mono, Hd. Qed.

Lemma marshalled_true now s data history :
  wire_faithful -> s ∈ history -> Marshal_EdgeConfig (BuildEdgeConfig now s) = Some data -> true_data history data.
Proof. intros Hw Hs Hm cfg Hu. exists s, now. split; [done |]. by apply (Hw _ _ _ Hm). Qed.

Lemma AdminAuth_cases {T} key (f : HttpHandler T) x (w : ResponseWriter) r :
  (AdminAuth key f _ _ x w r).1 = x \/ (AdminAuth key f _ _ x w r).1 = (f _ _ x w r).1.
Proof. unfold AdminAuth. repeat case_match; auto. Qed.

(** Sending to an edge gives it a configuration on the wire or leaves it. *)
Lemma send_true sy addr' data (edges : gmap string pushed_edge) history :
  true_data history data ->
  (forall addr e cfg, edges !! addr = Some e -> mt_config (pe_handler e) = Some cfg -> true_snapshot history cfg) ->
  forall addr e cfg, (pushToEdge (config_endpoint fault) host_of sy addr' "/edge/config" data edges).1 !! addr = Some e ->
    mt_config (pe_handler e) = Some cfg -> true_snapshot history cfg.
Proof.
  intros Hd Hold addr e cfg. unfold pushToEdge, config_endpoint. destruct (fault addr'); [apply Hold |].
  destruct (edges !! addr') as [e0 |] eqn:E; [| apply Hold]. cbn [push_request r_Path String.eqb Ascii.eqb Bool.eqb negb].
  assert (Hserve : forall h (w : ResponseWriter) r, mt_config (HandleConfigPush h w (r_Method r) (Some data)).1 = mt_config h \/
    exists cfg, mt_config (HandleConfigPush h w (r_Method r) (Some data)).1 = Some cfg /\ true_snapshot history cfg).
  { intros h w r. unfold HandleConfigPush. destruct (negb _); [by left |]. destruct (Unmarshal_EdgeConfig _) as [c |] eqn:Eu; [| by left].
    right. exists c. split; [done |]. by apply Hd. }
  match goal with |- context [AdminAuth ?k ?f _ _ ?h ?w ?r] => pose proof (AdminAuth_cases k f h w r) as Ha; destruct (AdminAuth k f _ _ h w r) as [h' rw] end.
  cbn [fst]. intros Hl Hc. destruct (decide (addr' = addr)) as [-> | Hne].
  - rewrite lookup_insert_eq in Hl. injection Hl as <-. cbn [set_handler pe_handler] in Hc. cbn [fst] in Ha.
    destruct Ha as [-> | ->]; [by apply (Hold addr e0) |].
    match type of Hc with mt_config (HandleConfigPush ?h ?w (r_Method ?r) _).1 = _ => destruct (Hserve h w r) as [Hh | (c & Hh & Ht)] end;
      [apply (Hold addr e0); congruence | congruence].
  - rewrite lookup_insert_ne in Hl by done. by apply (Hold addr e).
Qed.

(** A poll is answered with the snapshot, whatever its key. *)
Lemma poll_answered io st key b : ao_value (api_handler sv io st (poll_request key) b) = VConfig (BuildEdgeConfig (si_clk io 0) st).
Proof.
  assert (Hp : r_Path (poll_request key) = "/api/v1/config"%string) by done.
  assert (Hroute : api_handler sv io st (poll_request key) b = handleConfig io st (poll_request key)) by (unfold api_handler; by rewrite Hp).
  rewrite Hroute. done.
Qed.

Lemma poll_true h v status body history :
  (forall data, body = Some data -> true_data history data) ->
  let po := poll {| cp_handler := h; cp_lastVersion := v |} (Some (status, body)) in
  mt_config (cp_handler po) = mt_config h \/ exists cfg, mt_config (cp_handler po) = Some cfg /\ true_snapshot history cfg.
Proof.
  intros Hb. cbv zeta. unfold poll. destruct (negb _); [by left |]. destruct body as [data |]; [| by left].
  destruct (Unmarshal_EdgeConfig _) as [c |] eqn:Eu; [| by left]. destruct (_ <? _); [| by left]. right. exists c. split; [done |]. by apply (Hb data).
Qed.

Lemma lookup_with_push {A} (l : list A) i j x y : <[i := x]> l !! j = Some y -> (i = j /\ y = x) \/ l !! j = Some y.
Proof. intros Hl. apply list_lookup_insert_Some in Hl. naive_solver. Qed.

Lemma plane_step_ok p p' : wire_faithful -> plane_step sv fault host_of p p' -> plane_ok p -> plane_ok p'.
Proof.
  intros Hw Hs [I1 I2 I3 I4]. destruct Hs as [p io r b | p i Hi | p i now edges Hi | p i j edges todo todo' data Hi Ht | p io addr key | p a polls Hp | p a polls Hp | p addr0 e0 h E0 Hh].
  - split; cbn.
    + by left.
    + intros addr e cfg He Hc. eapply true_snapshot_mono, I2; eauto.
    + intros i edges todo data j Hi Hj. apply true_data_mono. apply lookup_app_Some in Hi. destruct Hi as [Hi | [_ Hi]]; [by eapply I3 |].
      destruct (ao_notify _); [| done]. destruct (i - length (pl_pushes p))%nat as [| [|]]; done.
    + intros a data Ha Hb. eapply true_data_mono, I4; eauto.
  - split; cbn; try done. intros i' edges todo data j Hl Hj. apply lookup_with_push in Hl. destruct Hl as [[_ [=]] | Hl]. by eapply I3.
  - split; cbn; try done. intros i' edges' todo data j Hl Hj. apply lookup_with_push in Hl. destruct Hl as [[_ Hl] | Hl]; [| by eapply I3].
    destruct (Marshal_EdgeConfig _) as [d |] eqn:Em; injection Hl as -> -> ->; [by eapply marshalled_true | by apply elem_of_nil in Hj].
  - split; cbn; try done.
    + destruct (edges !! j) as [e |]; [| done]. apply send_true; [| done]. eapply I3; [done |]. rewrite Ht. by left.
    + intros i' edges' todo2 data' j' Hl Hj. apply lookup_with_push in Hl. destruct Hl as [[_ [= -> -> ->]] | Hl]; [| by eapply I3].
      eapply I3; [exact Hi |]. rewrite Ht. by right.
  - unfold poll_ask. cbv zeta. rewrite poll_answered. generalize (ao_status (api_handler sv io (pl_store p) (poll_request key) {| ab_name := None; ab_domain := None; ab_rule := None; ab_edge := None |})). intros status.
    split; cbn; try done. intros a data Ha Hb. apply elem_of_app in Ha. destruct Ha as [Ha | Ha]; [by eapply I4 |].
    apply list_elem_of_singleton in Ha. subst a. cbn [pa_body] in Hb.
    by eapply marshalled_true.
  - assert (Ha : forall data, pa_body a = Some data -> true_data (pl_history p) data) by (intros data; apply I4; rewrite Hp; by left).
    unfold poll_apply. cbn [with_polls pl_edges pl_polled]. destruct (pl_edges p !! pa_addr a) as [e |] eqn:E.
    + pose proof (poll_true (pe_handler e) (default 0 (pl_polled p !! pa_addr a)) (pa_status a) (pa_body a) (pl_history p) Ha) as Hpo.
      cbv zeta. destruct (poll _ _) as [h v]. cbn [cp_handler] in Hpo. split; cbn; try done.
      * intros addr e' cfg Hl Hc. destruct (decide (pa_addr a = addr)) as [<- | Hne]; [| rewrite lookup_insert_ne in Hl by done; by eapply I2].
        rewrite lookup_insert_eq in Hl. injection Hl as <-. cbn in Hc.
        destruct Hpo as [Hh | (c & Hh & Ht)]; [rewrite Hh in Hc; by eapply I2 | congruence].
      * intros a' data Ha'. apply I4. rewrite Hp. by right.
    + split; cbn; try done. intros a' data Ha'. apply I4. rewrite Hp. by right.
  - split; cbn; try done. intros a' data Ha'. apply I4. rewrite Hp. by right.
  - split; cbn; try done. intros addr e cfg Hl Hc. destruct (decide (addr0 = addr)) as [<- | Hne]; [| rewrite lookup_insert_ne in Hl by done; by eapply I2].
    rewrite lookup_insert_eq in Hl. injection Hl as <-. cbn in Hc. rewrite Hh in Hc. by eapply I2.
Qed.

(** The store of a plane changes by store operations only. *)
Lemma plane_step_stored p p' : plane_step sv fault host_of p p' -> exists io, stored io (pl_store p) (pl_store p').
Proof.
  assert (Hsame : forall q, pl_store q = pl_store p -> exists io, stored io (pl_store p) (pl_store q)).
  { intros q ->. exists {| si_id_random := []; si_key_random := []; si_clk _ := 0; si_wr := Written |}. apply stored_same. }
  destruct 1; try by apply Hsame.
  - eexists. apply api_handler_stored.
  - apply Hsame. unfold poll_apply. by case_match.
Qed.

Lemma started_ok s edges : (forall addr e, edges !! addr = Some e -> mt_config (pe_handler e) = None) -> plane_ok (started s edges).
Proof. intros He. split; cbn; [by left | intros addr e cfg Hl; by rewrite (He addr e Hl) | done | intros a data Ha; by apply elem_of_nil in Ha]. Qed.

(** What an edge routes belongs to a store there has been. *)
Definition had_domain (history : list Store) (hostname : string) (d : Domain) : Prop :=
  exists st id d0 t, st ∈ history /\ sd_Domains (s_data st) !! id = Some d0 /\ d = text_domain d0 /\
    hostname = json_text (d_Hostname d0) /\ d_Active d0 = true /\
    sd_Tenants (s_data st) !! d_TenantID d0 = Some t /\ t_Active t = true.

Lemma plane_ok_routes p addr e hostname d :
  plane_ok p -> pl_edges p !! addr = Some e -> lookupDomain (mt_config (pe_handler e)) hostname = Some d ->
  had_domain (pl_history p) hostname d.
Proof.
  intros Hok Hl Hd. destruct (mt_config (pe_handler e)) as [cfg |] eqn:Ec; [| done]. cbn in Hd.
  destruct (po_edges p Hok addr e cfg Hl Ec) as (st & now & Hin & Hr). destruct (Hr hostname d Hd) as (h & d0 & E & -> & ->).
  pose proof (BuildEdgeConfig_routes now st h) as Hb. rewrite E in Hb. destruct Hb as (k & t & Hk & <- & Ha & Ht & Hta).
  exists st, k, d0, t. by split_and!.
Qed.

(** Edges route only what the control plane had: however requests, pushes, polls and
    losses interleave, a hostname an edge knows belongs to a domain that was, in one store
    the control plane has had, active with an active tenant. *)
Theorem edges_route_true_domains s edges p addr e hostname d :
  wire_faithful -> (forall addr e, edges !! addr = Some e -> mt_config (pe_handler e) = None) ->
  rtc (plane_step sv fault host_of) (started s edges) p ->
  pl_edges p !! addr = Some e -> lookupDomain (mt_config (pe_handler e)) hostname = Some d ->
  had_domain (pl_history p) hostname d.
Proof.
  intros Hw He Hr. apply plane_ok_routes.
  apply (rtc_invariant (plane_step sv fault host_of) plane_ok (started s edges)); [by apply started_ok | | done].
  intros p1 p2 Hok Hs. by apply (plane_step_ok p1).
Qed.

End snapshots.

(** ** [PushConfig] as a run of the system *)

Section push_run.
Context `{StoreJson} `{RangeOrder} `{UrlQuery} `{ConfigMarshal} `{ConfigJson}.
Variable sv : Server.
Variable fault : string -> option string.
Variable host_of : string -> string.

Lemma with_push_twice i x y edges p : with_push i y (with_edges edges (with_push i x p)) = with_push i y (with_edges edges p).
Proof. unfold with_push, with_edges. cbn. by rewrite list_insert_insert_eq. Qed.

(** The goroutines of a push, in any order. *)
Lemma sends_run (i : nat) (edges : list EdgeNode) (data : string) sched : forall p todo out,
  (i < length (pl_pushes p))%nat -> pl_pushes p !! i = Some (PushSending edges todo data) -> todo ≡ₚ sched ->
  rtc (plane_step sv fault host_of) p
    (with_push i (PushSending edges [] data)
       (with_edges (foldl (fan_step (fun e => pushToEdge (config_endpoint fault) host_of (syncer sv (pl_store p)) (en_Addr e) "/edge/config" data) edges)
                      (pl_edges p, out) sched).1 p)).
Proof.
  induction sched as [| j sched IH]; intros p todo out Hi Hp Ht.
  - apply Permutation_nil_r in Ht. subst todo. cbn [foldl fst].
    assert (E : with_push i (PushSending edges [] data) (with_edges (pl_edges p) p) = p); [| rewrite E; apply rtc_refl].
    unfold with_push, with_edges. cbn. rewrite list_insert_id by done. by destruct p.
  - cbn [foldl]. set (p1 := push_send sv fault host_of i j edges sched data p).
    assert (Hp1 : pl_pushes p1 !! i = Some (PushSending edges sched data)) by (unfold p1, push_send, with_push; cbn; by apply list_lookup_insert_eq).
    assert (Hl1 : (i < length (pl_pushes p1))%nat) by (unfold p1, push_send, with_push; cbn; by rewrite length_insert).
    assert (E2 : forall x w, with_push i x (with_edges w p1) = with_push i x (with_edges w p)).
    { intros x w. unfold p1, push_send. rewrite with_push_twice. by destruct (edges !! j). }
    eapply rtc_l; [by apply (ps_send sv fault host_of p i j edges todo sched data) |]. fold p1.
    unfold fan_step at 2. cbn [fst snd].
    destruct (edges !! j) as [e |] eqn:Ej.
    + destruct (pushToEdge _ _ _ (en_Addr e) _ data (pl_edges p)) as [w err] eqn:Ew.
      assert (E1 : pl_edges p1 = w) by (unfold p1, push_send; rewrite Ej; cbn; by rewrite Ew).
      specialize (IH p1 sched (out ++ [(j, err)]) Hl1 Hp1 (Permutation_refl _)). rewrite E1 in IH.
      rewrite E2 in IH. exact IH.
    + assert (E1 : pl_edges p1 = pl_edges p) by (unfold p1, push_send; by rewrite Ej).
      specialize (IH p1 sched out Hl1 Hp1 (Permutation_refl _)). rewrite E1, E2 in IH. exact IH.
Qed.

(** The push as one function is a behaviour of the system: in any state with a push
    waiting, [PushConfig] with any order of its sends is what a run of the small steps
    (listing, snapshot, one request per goroutine) does to the edges, and it changes
    nothing else, so what [Sync] proves of it holds of the interleaved system. *)
Theorem PushConfig_is_a_run now sched p i data :
  pl_pushes p !! i = Some PushWaiting -> Marshal_EdgeConfig (BuildEdgeConfig now (pl_store p)) = Some data ->
  sched ≡ₚ seq 0 (length (active_edges (pl_store p))) ->
  rtc (plane_step sv fault host_of) p
    (with_push i (PushSending (active_edges (pl_store p)) [] data)
       (with_edges (PushConfig (config_endpoint fault) host_of now sched (syncer sv (pl_store p)) (pl_edges p)) p)).
Proof.
  intros Hp Hm Hs. set (edges := active_edges (pl_store p)) in *. pose proof (lookup_lt_Some _ _ _ Hp) as Hi.
  set (p1 := with_push i (PushSending edges (seq 0 (length edges)) data) p).
  assert (Hp1 : pl_pushes p1 !! i = Some (PushSending edges (seq 0 (length edges)) data)) by by apply list_lookup_insert_eq.
  assert (Hl1 : (i < length (pl_pushes p1))%nat) by (unfold p1; cbn; by rewrite length_insert).
  etrans; [| etrans; [apply (sends_run i edges data sched p1 (seq 0 (length edges)) [] Hl1 Hp1); by symmetry |]].
  - eapply rtc_l; [by apply (ps_list sv fault host_of p i) |]. eapply rtc_l.
    + apply (ps_build sv fault host_of _ i now edges). by apply list_lookup_insert_eq.
    + unfold push_build. cbn [push_list with_push pl_store]. rewrite Hm. unfold p1, with_push. cbn. rewrite list_insert_insert_eq. apply rtc_refl.
  - unfold p1. rewrite with_push_twice. unfold PushConfig. fold edges. cbn [syncer New sy_store]. rewrite Hm. apply rtc_refl.
Qed.

End push_run.

(** ** Two changes, two pushes *)

#[local] Existing Instance version_store_json.
#[local] Existing Instance list_order.
#[local] Existing Instance no_query.

Definition one_edge : Store :=
  {| s_data := set_edges {["1" := node "1" "http://a" true]}%string (s_data two_domains); s_file := None |}.
Definition delete_domain (id : string) : Request := api_req "DELETE" ("/api/v1/domains/" +:+ id) "secret".
Definition after_first : Store := ao_store (api_handler plain_server (io_of [1]) one_edge (delete_domain "1") no_body).
Definition after_both : Store := ao_store (api_handler plain_server (io_of [1]) after_first (delete_domain "2") no_body).

(** The codec of [Codec.v], which keeps every string. *)
#[local] Instance text_marshal : ConfigMarshal := {| Marshal_EdgeConfig c := Some (write_text c) |}.
#[local] Instance text_json : ConfigJson := {| Unmarshal_EdgeConfig := read_text |}.
#[local] Instance text_kept : JsonText := {| json_text s := s; json_text_ascii s _ := eq_refl |}.

Definition up (_ : string) : option string := None.
Definition the_edge : gmap string pushed_edge := {["http://a" := {| pe_key := "secret"; pe_handler := tiny_mt |}]}%string.

(** The second push overtakes the first. *)
Definition plane1 : Plane := plane_request plain_server (io_of [1]) (delete_domain "1") no_body (started one_edge the_edge).
Definition plane2 : Plane := push_build 9 0 (active_edges after_first) (push_list 0 plane1).
Definition plane3 : Plane := plane_request plain_server (io_of [1]) (delete_domain "2") no_body plane2.
Definition plane4 : Plane := push_build 9 1 (active_edges after_both) (push_list 1 plane3).
Definition plane5 : Plane := push_send plain_server up id 1 0 (active_edges after_both) [] (write_text (BuildEdgeConfig 9 after_both)) plane4.
Definition overtaken : Plane := push_send plain_server up id 0 0 (active_edges after_first) [] (write_text (BuildEdgeConfig 9 after_first)) plane5.

Lemma overtaken_reachable : rtc (plane_step plain_server up id) (started one_edge the_edge) overtaken.
Proof.
  apply (rtc_l _ _ plane1); [apply ps_request |].
  apply (rtc_l _ _ (push_list 0 plane1)); [apply ps_list; vm_compute; reflexivity |].
  apply (rtc_l _ _ plane2); [apply ps_build; vm_compute; reflexivity |].
  apply (rtc_l _ _ plane3); [apply ps_request |].
  apply (rtc_l _ _ (push_list 1 plane3)); [apply ps_list; vm_compute; reflexivity |].
  apply (rtc_l _ _ plane4); [apply ps_build; vm_compute; reflexivity |].
  apply (rtc_l _ _ plane5); [apply (ps_send _ _ _ _ 1 0 (active_edges after_both) [0%nat] [] (write_text (BuildEdgeConfig 9 after_both))); [vm_compute; reflexivity | done] |].
  apply rtc_once, (ps_send _ _ _ _ 0 0 (active_edges after_first) [0%nat] [] (write_text (BuildEdgeConfig 9 after_first))); [vm_compute; reflexivity | done].
Qed.

(** A push that is overtaken rolls the edges back: two domains are deleted one after the
    other, the first push's snapshot arrives last, and although both requests were answered
    and both pushes are over the edge still routes the second domain. *)
Theorem stale_push_overtakes :
  exists p e d, rtc (plane_step plain_server up id) (started one_edge the_edge) p /\
    (forall i edges todo data, pl_pushes p !! i = Some (PushSending edges todo data) -> todo = []) /\
    pl_edges p !! "http://a"%string = Some e /\ lookupDomain (mt_config (pe_handler e)) "b.com" = Some d /\
    sd_Domains (s_data (pl_store p)) = ∅.
Proof.
  exists overtaken, {| pe_key := "secret"; pe_handler := UpdateConfig tiny_mt (BuildEdgeConfig 9 after_first) |},
    (sample_domain "2" "t2" "b.com" "http://origin-b").
  split_and!; [exact overtaken_reachable | | vm_compute; reflexivity.. ].
  intros [| [| i]] edges todo data; vm_compute; by intros [=].
Qed.

Lemma text_domain_kept d : text_domain d = d.
Proof. by destruct d. Qed.

Lemma text_cut n cfg data cfg' :
  Marshal_EdgeConfig cfg = Some data -> Unmarshal_EdgeConfig (take_bytes n data) = Some cfg' -> reads_back cfg cfg'.
Proof. intros [= <-] ->%read_cut h d E. exists h, d. by rewrite text_domain_kept. Qed.

Lemma text_faithful : wire_faithful.
Proof. intros cfg data cfg'. apply text_cut. Qed.

Lemma the_edge_fresh addr e : the_edge !! addr = Some e -> mt_config (pe_handler e) = None.
Proof. unfold the_edge. intros Hl. apply lookup_singleton_Some in Hl. by destruct Hl as [_ <-]. Qed.

Lemma edges_route_true_domains_witness :
  had_domain (pl_history overtaken) "b.com" (sample_domain "2" "t2" "b.com" "http://origin-b").
Proof.
  refine (edges_route_true_domains plain_server up id one_edge the_edge overtaken "http://a"
    {| pe_key := "secret"; pe_handler := UpdateConfig tiny_mt (BuildEdgeConfig 9 after_first) |} "b.com"
    (sample_domain "2" "t2" "b.com" "http://origin-b") text_faithful the_edge_fresh overtaken_reachable _ _); vm_compute; reflexivity.
Defined.

Lemma PushConfig_is_a_run_witness :
  rtc (plane_step plain_server up id) plane1
    (with_push 0 (PushSending (active_edges after_first) [] (write_text (BuildEdgeConfig 9 after_first)))
       (with_edges (PushConfig (config_endpoint up) id 9 [0%nat] (syncer plain_server after_first) the_edge) plane1)).
Proof.
  refine (PushConfig_is_a_run plain_server up id 9 [0%nat] plane1 0 (write_text (BuildEdgeConfig 9 after_first)) _ _ _); vm_compute; reflexivity.
Defined.
