(* ===== verification/Analytics.v ===== *)
(** * Analytics ([controlplane/analytics/analytics.go])

    The collector: per-hostname counters updated by batches of access-log entries, queries,
    and the statistics file. JSON and the file are parameters; what [encoding/json] keeps is
    a law: every exported field, and not [totalLatency], which is unexported. The entries of
    the map are pointers that only the collector holds ([Query] copies), so they are values
    here. *)

From S2P Require Import Prelude GoStrings Http Store Middleware Float Logging Metrics.

Local Open Scope Z_scope.
Local Open Scope go_scope.

Record LogEntry := {
  le_Timestamp : string; le_EdgeID : string; le_RequestID : string; le_Method : string; le_Host : string; le_Path : string;
  le_Status : Z; le_BytesSent : Z; le_DurationMs : f64; le_CacheStatus : string; le_ClientIP : string
}.

Record DomainStats := {
  ds_Hostname : string; ds_Requests : Z; ds_BytesServed : Z; ds_CacheHits : Z; ds_CacheMisses : Z;
  ds_Status2xx : Z; ds_Status3xx : Z; ds_Status4xx : Z; ds_Status5xx : Z;
  ds_AvgLatencyMs : f64; ds_P95LatencyMs : f64; ds_totalLatency : f64
}.

Definition new_stats (host : string) : DomainStats :=
  {| ds_Hostname := host; ds_Requests := 0; ds_BytesServed := 0; ds_CacheHits := 0; ds_CacheMisses := 0;
     ds_Status2xx := 0; ds_Status3xx := 0; ds_Status4xx := 0; ds_Status5xx := 0;
     ds_AvgLatencyMs := Fin 0 0; ds_P95LatencyMs := Fin 0 0; ds_totalLatency := Fin 0 0 |}.

Record Collector := { co_stats : gmap string DomainStats; co_dir : string }.

Definition is_hit (e : LogEntry) : bool := String.eqb (le_CacheStatus e) "HIT" || String.eqb (le_CacheStatus e) "STALE".
Definition is_miss (e : LogEntry) : bool := String.eqb (le_CacheStatus e) "MISS" || String.eqb (le_CacheStatus e) "BYPASS".
Definition in_class (lo hi : Z) (e : LogEntry) : bool := (lo <=? le_Status e) && (le_Status e <? hi).

Definition incr_if (b : bool) (n : Z) : Z := if b then n +i64 1 else n.

(** The body of the loop of [Ingest] on the statistics of the entry's host. *)
Definition count_entry (e : LogEntry) (ds : DomainStats) : DomainStats :=
  let requests := ds_Requests ds +i64 1 in
  let total := fadd (ds_totalLatency ds) (le_DurationMs e) in
  let c2 := in_class 200 300 e in
  let c3 := negb c2 && in_class 300 400 e in
  let c4 := negb c2 && negb c3 && in_class 400 500 e in
  let c5 := negb c2 && negb c3 && negb c4 && (500 <=? le_Status e) in
  {| ds_Hostname := ds_Hostname ds; ds_Requests := requests; ds_BytesServed := ds_BytesServed ds +i64 le_BytesSent e;
     ds_CacheHits := incr_if (is_hit e) (ds_CacheHits ds);
     ds_CacheMisses := incr_if (negb (is_hit e) && is_miss e) (ds_CacheMisses ds);
     ds_Status2xx := incr_if c2 (ds_Status2xx ds); ds_Status3xx := incr_if c3 (ds_Status3xx ds);
     ds_Status4xx := incr_if c4 (ds_Status4xx ds); ds_Status5xx := incr_if c5 (ds_Status5xx ds);
     ds_AvgLatencyMs := if 0 <? requests then fdiv total (f_of_Z requests) else ds_AvgLatencyMs ds;
     ds_P95LatencyMs := ds_P95LatencyMs ds; ds_totalLatency := total |}.

Definition ingest_entry (stats : gmap string DomainStats) (e : LogEntry) : gmap string DomainStats :=
  <[le_Host e := count_entry e (default (new_stats (le_Host e)) (stats !! le_Host e))]> stats.

Definition Ingest (entries : list LogEntry) (c : Collector) : Collector :=
  {| co_stats := foldl ingest_entry (co_stats c) entries; co_dir := co_dir c |}.

Definition Query `{RangeOrder} (hostname : string) (c : Collector) : list DomainStats :=
  List.filter (fun ds => String.eqb hostname "" || String.eqb (ds_Hostname ds) hostname) (range_ (co_stats c)).*2.

(** ** The statistics file *)

(** [MarshalIndent] fails on an infinite or undefined number; [Unmarshal] into a map keeps
    what the file does not mention. *)
Class StatsJson := {
  Marshal_stats : gmap string DomainStats -> option string;
  Unmarshal_stats : string -> gmap string DomainStats -> gmap string DomainStats;
  encode_stats : list DomainStats -> string;
  stats_textual : gmap string DomainStats -> Prop     (* every hostname is valid UTF-8 *)
}.

(** What is lost: the unexported field. *)
Definition persisted (ds : DomainStats) : DomainStats :=
  {| ds_Hostname := ds_Hostname ds; ds_Requests := ds_Requests ds; ds_BytesServed := ds_BytesServed ds;
     ds_CacheHits := ds_CacheHits ds; ds_CacheMisses := ds_CacheMisses ds; ds_Status2xx := ds_Status2xx ds;
     ds_Status3xx := ds_Status3xx ds; ds_Status4xx := ds_Status4xx ds; ds_Status5xx := ds_Status5xx ds;
     ds_AvgLatencyMs := ds_AvgLatencyMs ds; ds_P95LatencyMs := ds_P95LatencyMs ds; ds_totalLatency := Fin 0 0 |}.

Class StatsJsonLaws `{StatsJson} : Prop := {
  stats_roundtrip : forall m s, stats_textual m -> Marshal_stats m = Some s -> Unmarshal_stats s ∅ = persisted <$> m
}.

Section files.
Context `{StatsJson}.

(** [flushStats]; the file is given by its content, and [write] says what [WriteFile] leaves. *)
Definition flushStats (write : option string -> string -> option string) (c : Collector) (file : option string) : option string :=
  if String.eqb (co_dir c) "" then file
  else match Marshal_stats (co_stats c) with None => file | Some data => write file data end.

Definition loadStats (c : Collector) (file : option string) : Collector :=
  if String.eqb (co_dir c) "" then c
  else match file with None => c | Some data => {| co_stats := Unmarshal_stats data (co_stats c); co_dir := co_dir c |} end.

(** The goroutine [NewCollector] starts: every minute, the collector as it is then is flushed. *)
Definition flush_loop (write : option string -> string -> option string) (events : list (tick Collector)) (file : option string) : option string :=
  ticker_loop (flushStats write) events file.

(** [NewCollector]; [mkdir] is the error of [MkdirAll]. *)
Definition NewCollector (mkdir : option string) (dataDir : string) (file : option string) : option string + Collector :=
  match (if String.eqb dataDir "" then None else mkdir) with
  | Some err => inl (Some err)
  | None => inr (loadStats {| co_stats := ∅; co_dir := dataDir |} file)
  end.

Definition Close (write : option string -> string -> option string) (c : Collector) (file : option string) : option string :=
  flushStats write c file.

(** ** The handlers *)

(** [HandleIngest]; [body] is the batch decoded, [None] for invalid JSON. *)
Definition HandleIngest (body : option (list LogEntry)) {W} `{Writer W} (c : Collector) (w : W) (r : Request) : Collector * W :=
  if negb (String.eqb (r_Method r) "POST") then (c, http_Error "Method Not Allowed" 405 w)
  else
    match body with
    | None => (c, http_Error "invalid JSON" 400 w)
    | Some entries =>
        (Ingest entries c, w_Write ("{" +:+ quoted "accepted" +:+ ":" +:+ Itoa (Z.of_nat (length entries)) +:+ "}") (json_header w))
    end.

Definition HandleQuery `{RangeOrder} `{UrlQuery} {W} `{Writer W} (c : Collector) (w : W) (r : Request) : W :=
  w_Write (encode_stats (Query (query_get (r_RawQuery r) "hostname") c) +:+ nl) (json_header w).

End files.

(** ** What the counters count *)

Definition of_host (host : string) (e : LogEntry) : bool := String.eqb (le_Host e) host.

Lemma incr_if_cnt (P Q : LogEntry -> bool) e l :
  Q e = P e -> Z.of_nat (length l) < max_i64 -> incr_if (Q e) (cnt P l) = cnt P (l ++ [e]).
Proof.
  intros HQ Hl. rewrite cnt_app, cnt_one, <- HQ. pose proof (cnt_le P l). unfold incr_if.
  destruct (Q e); [apply i64_small; unfold in_i64, min_i64; lia | lia].
Qed.

Record counts_ok (host : string) (l : list LogEntry) (ds : DomainStats) : Prop := {
  ok_host : ds_Hostname ds = host;
  ok_requests : ds_Requests ds = cnt (of_host host) l;
  ok_hits : ds_CacheHits ds = cnt (fun e => of_host host e && is_hit e) l;
  ok_misses : ds_CacheMisses ds = cnt (fun e => of_host host e && is_miss e) l;
  ok_2xx : ds_Status2xx ds = cnt (fun e => of_host host e && in_class 200 300 e) l;
  ok_3xx : ds_Status3xx ds = cnt (fun e => of_host host e && in_class 300 400 e) l;
  ok_4xx : ds_Status4xx ds = cnt (fun e => of_host host e && in_class 400 500 e) l;
  ok_5xx : ds_Status5xx ds = cnt (fun e => of_host host e && (500 <=? le_Status e)) l
}.

Lemma classes e :
  let c2 := in_class 200 300 e in let c3 := negb c2 && in_class 300 400 e in
  let c4 := negb c2 && negb c3 && in_class 400 500 e in
  c3 = in_class 300 400 e /\ c4 = in_class 400 500 e /\ (negb c2 && negb c3 && negb c4 && (500 <=? le_Status e)) = (500 <=? le_Status e).
Proof. cbv zeta. unfold in_class. zbool; cbn; split_and!; done || lia. Qed.

Lemma hit_not_miss e : negb (is_hit e) && is_miss e = is_miss e.
Proof.
  unfold is_hit, is_miss. destruct (String.eqb_spec (le_CacheStatus e) "HIT") as [-> | _]; [done |].
  by destruct (String.eqb_spec (le_CacheStatus e) "STALE") as [-> | _].
Qed.

Lemma count_entry_ok host l e ds :
  le_Host e = host -> Z.of_nat (length l) < max_i64 -> counts_ok host l ds -> counts_ok host (l ++ [e]) (count_entry e ds).
Proof.
  intros Hh Hl [H1 H2 H3 H4 H5 H6 H7 H8]. assert (Hoh : of_host host e = true) by (unfold of_host; by apply String.eqb_eq).
  destruct (classes e) as (E3 & E4 & E5). split; cbn [count_entry ds_Hostname ds_Requests ds_CacheHits ds_CacheMisses ds_Status2xx ds_Status3xx ds_Status4xx ds_Status5xx].
  - done.
  - rewrite H2. change (incr_if true (cnt (of_host host) l) = cnt (of_host host) (l ++ [e])).
    exact (incr_if_cnt (of_host host) (fun _ => true) e l (eq_sym Hoh) Hl).
  - rewrite H3. apply (incr_if_cnt _ is_hit); [by rewrite Hoh | done].
  - rewrite H4, hit_not_miss. apply (incr_if_cnt _ is_miss); [by rewrite Hoh | done].
  - rewrite H5. apply (incr_if_cnt _ (in_class 200 300)); [by rewrite Hoh | done].
  - rewrite H6, E3. apply (incr_if_cnt _ (in_class 300 400)); [by rewrite Hoh | done].
  - rewrite H7, E4. apply (incr_if_cnt _ (in_class 400 500)); [by rewrite Hoh | done].
  - rewrite H8, E5. apply (incr_if_cnt _ (fun e => 500 <=? le_Status e)); [by rewrite Hoh | done].
Qed.

Lemma counts_ok_other host l e ds : le_Host e <> host -> counts_ok host l ds -> counts_ok host (l ++ [e]) ds.
Proof.
  intros Hh [H1 H2 H3 H4 H5 H6 H7 H8]. assert (Hoh : of_host host e = false) by (unfold of_host; by apply String.eqb_neq).
  split; rewrite ?cnt_app, ?cnt_one, ?Hoh; cbn [andb]; rewrite ?Z.add_0_r; done.
Qed.

(** The statistics are exact: after any batches of entries, a hostname has statistics
    exactly when an entry names it, and they count its requests, its cache hits and misses
    and its responses by class, whatever the entries of other hostnames between them. *)
Theorem Ingest_counts batches dir host :
  let l := concat batches in
  Z.of_nat (length l) <= max_i64 ->
  let c := foldl (fun c entries => Ingest entries c) {| co_stats := ∅; co_dir := dir |} batches in
  match co_stats c !! host with
  | Some ds => counts_ok host l ds /\ existsb (of_host host) l = true
  | None => existsb (of_host host) l = false
  end.
Proof.
  cbv zeta. intros Hl.
  assert (Hc : forall batches (c : Collector), co_stats (foldl (fun c entries => Ingest entries c) c batches) = foldl ingest_entry (co_stats c) (concat batches)).
  { clear. induction batches as [| b batches IH]; intros c; [done |]. cbn [foldl concat]. rewrite IH, foldl_app. done. }
  rewrite Hc. cbn [co_stats]. clear Hc. revert Hl. generalize (concat batches). clear batches. intros l.
  induction l as [| e l IH] using rev_ind; intros Hl; [done |].
  rewrite length_app in Hl; cbn [length] in Hl. specialize (IH ltac:(lia)). rewrite foldl_app. cbn [foldl]. unfold ingest_entry at 1.
  rewrite existsb_app. cbn [existsb]. rewrite orb_false_r. destruct (decide (le_Host e = host)) as [Eh | Hne].
  - rewrite Eh, lookup_insert_eq. assert (Hoh : of_host host e = true) by (unfold of_host; by apply String.eqb_eq).
    rewrite Hoh, orb_true_r. split; [| done]. apply count_entry_ok; [done | lia |].
    destruct (foldl ingest_entry ∅ l !! host) as [ds |]; [by destruct IH |].
    assert (Hz : forall P, cnt (fun e => of_host host e && P e) l = 0).
    { intros P. apply cnt_none. intros x Hx. destruct (of_host host x) eqn:Ex; [| done]. exfalso. apply not_true_iff_false in IH. apply IH. apply existsb_exists. exists x.
      split; [by apply list_elem_of_In | done]. }
    split; cbn [new_stats default]; try (symmetry; apply Hz); [done |].
    specialize (Hz (fun _ => true)). cbn [new_stats ds_Requests]. symmetry. rewrite <- Hz. apply cnt_ext. intros x _. by rewrite andb_true_r.
  - rewrite lookup_insert_ne by done. assert (Hoh : of_host host e = false) by (unfold of_host; by apply String.eqb_neq).
    rewrite Hoh, orb_false_r. destruct (foldl ingest_entry ∅ l !! host) as [ds |]; [| done].
    destruct IH as [Hok Hex]. split; [by apply counts_ok_other | done].
Qed.

(** ** Restarts *)

Section restart.
Context `{StatsJson} `{!StatsJsonLaws}.

Lemma persisted_counts host l ds : counts_ok host l ds -> counts_ok host l (persisted ds).
Proof. by intros []. Qed.

(** A restart keeps the counters: closing and starting again gives every hostname the
    statistics it had, and so exact counters, but for the latency total, which is not
    written: the next request's latency alone is averaged over all the requests counted. *)
Theorem restart_keeps_counts c file e ds :
  co_dir c <> ""%string -> stats_textual (co_stats c) -> is_Some (Marshal_stats (co_stats c)) ->
  co_stats c !! le_Host e = Some ds -> 0 <= ds_Requests ds < max_i64 ->
  exists c', NewCollector None (co_dir c) (Close (fun _ data => Some data) c file) = inr c' /\
    co_stats c' = persisted <$> co_stats c /\
    (forall host l ds, co_stats c !! host = Some ds -> counts_ok host l ds ->
       exists ds', co_stats c' !! host = Some ds' /\ counts_ok host l ds' /\ ds_AvgLatencyMs ds' = ds_AvgLatencyMs ds) /\
    ds_AvgLatencyMs <$> co_stats (Ingest [e] c') !! le_Host e
    = Some (fdiv (fadd (Fin 0 0) (le_DurationMs e)) (f_of_Z (ds_Requests ds + 1))).
Proof.
  intros Hdir Ht [data Hm] Eds Hr. unfold NewCollector, Close, flushStats, loadStats.
  rewrite (proj2 (String.eqb_neq _ _) Hdir), Hm. cbn [co_dir co_stats]. rewrite (proj2 (String.eqb_neq _ _) Hdir).
  rewrite (stats_roundtrip _ _ Ht Hm). eexists. split; [done |]. cbn [co_stats]. split; [done |]. split.
  - intros host l ds' E Hok. exists (persisted ds'). rewrite lookup_fmap, E. split_and!; [done | by apply persisted_counts | done].
  - unfold Ingest. cbn [foldl co_stats]. unfold ingest_entry. rewrite lookup_insert_eq, lookup_fmap, Eds.
    cbn [fmap option_fmap option_map from_option id count_entry ds_AvgLatencyMs persisted ds_Requests ds_totalLatency].
    rewrite i64_small by (unfold in_i64, min_i64; lia). by rewrite (proj2 (Z.ltb_lt 0 (ds_Requests ds + 1))) by lia.
Qed.

End restart.

(** ** Concrete traffic *)

Definition entry (host : string) (status : Z) (cache : string) (ms : Z) : LogEntry :=
  {| le_Timestamp := ""; le_EdgeID := "e1"; le_RequestID := ""; le_Method := "GET"; le_Host := host; le_Path := "/"; le_Status := status;
     le_BytesSent := 10; le_DurationMs := f_of_Z ms; le_CacheStatus := cache; le_ClientIP := "" |}.

Definition some_batches : list (list LogEntry) :=
  [[entry "a.com" 200 "MISS" 40; entry "b.com" 404 "MISS" 7]; [entry "a.com" 200 "HIT" 2; entry "a.com" 502 "STALE-ERROR" 9]]%string.

Lemma Ingest_counts_witness :
  let c := foldl (fun c entries => Ingest entries c) {| co_stats := ∅; co_dir := "d" |} some_batches in
  match co_stats c !! "a.com"%string with
  | Some ds => counts_ok "a.com" (concat some_batches) ds /\ existsb (of_host "a.com") (concat some_batches) = true
  | None => existsb (of_host "a.com") (concat some_batches) = false
  end.
Proof. refine (Ingest_counts some_batches "d" "a.com" _). vm_compute. discriminate. Defined.

Definition one_host : gmap string DomainStats := ingest_entry ∅ (entry "a.com" 200 "MISS" 40).

#[local] Instance stats_json : StatsJson :=
  {| Marshal_stats _ := Some "x"%string; Unmarshal_stats s _ := persisted <$> one_host; encode_stats _ := ""%string;
     stats_textual m := m = one_host |}.
#[local] Instance stats_json_laws : StatsJsonLaws.
Proof. split. by intros m s ->. Qed.

Lemma restart_keeps_counts_witness :
  exists c', NewCollector None "d" (Close (fun _ data => Some data) {| co_stats := one_host; co_dir := "d" |} None) = inr c' /\
    co_stats c' = persisted <$> one_host.
Proof.
  destruct (restart_keeps_counts {| co_stats := one_host; co_dir := "d" |} None (entry "a.com" 200 "HIT" 2)
    (count_entry (entry "a.com" 200 "MISS" 40) (new_stats "a.com"))) as (c' & Hn & Hc & _);
    [discriminate | reflexivity | by eexists | vm_compute; reflexivity | vm_compute; split; congruence || discriminate | by exists c'].
Defined.
