(* ===== verification/Config.v ===== *)
(** * Edge configuration ([config/config.go])

    The fields of [Config] by type, the defaults of the flags, the overlay of environment
    variables and the validation. The command line is given as the assignments the [flag]
    package made; [strconv.ParseFloat], [time.ParseDuration] and [url.Parse] are parameters,
    [strconv.ParseBool], [Atoi] and [ParseInt] in base 10 are defined. *)

From S2P Require Import Prelude GoStrings Float.

Local Open Scope Z_scope.

(** ** The structure

    One constructor per field; a configuration gives each field a value of its type. *)

Inductive str_field :=
  | ListenAddr | OriginURL | OriginHostOverride | DiskCacheDir | TLSCertFile | TLSKeyFile
  | TLSAutoDomain | AdminAddr | AdminAPIKey | CORSOrigins | LogLevel | ControlPlaneURL
  | TracingEndpoint.
#[global] Instance str_field_eq_dec : EqDecision str_field.
Proof. solve_decision. Defined.

Inductive dur_field :=
  | DefaultTTL | OriginTimeout | CoalesceTimeout | DrainDelay | ConfigPollInterval | PredictorDecay.
#[global] Instance dur_field_eq_dec : EqDecision dur_field.
Proof. solve_decision. Defined.

Inductive int_field :=
  | MaxCacheItems | DiskCacheMaxMB | RateLimitBurst | MaxCacheEntryBytes | CORSMaxAge | MaxIdleConnsPerHost
  | MaxCacheKeyLen | PredictorCapacity.
#[global] Instance int_field_eq_dec : EqDecision int_field.
Proof. solve_decision. Defined.

Inductive float_field :=
  | RateLimitRPS | TracingSampleRate.
#[global] Instance float_field_eq_dec : EqDecision float_field.
Proof. solve_decision. Defined.

Inductive bool_field :=
  | TLSEnabled | TLSAuto | HTTPSRedirect | CompressionEnabled | CompressHeaders | TracingEnabled
  | TracingInsecure | PredictorEnabled.
#[global] Instance bool_field_eq_dec : EqDecision bool_field.
Proof. solve_decision. Defined.

Record Config := {
  c_str : str_field -> string; c_dur : dur_field -> Duration; c_int : int_field -> Z;
  c_float : float_field -> f64; c_bool : bool_field -> bool
}.

Inductive field := FStr (f : str_field) | FDur (f : dur_field) | FInt (f : int_field) | FFloat (f : float_field) | FBool (f : bool_field).
#[global] Instance field_eq_dec : EqDecision field.
Proof. solve_decision. Defined.

(** [cfg.f = v] *)
Inductive assignment :=
  | SetStr (f : str_field) (v : string) | SetDur (f : dur_field) (v : Duration) | SetInt (f : int_field) (v : Z)
  | SetFloat (f : float_field) (v : f64) | SetBool (f : bool_field) (v : bool).

Definition upd {A B} `{EqDecision A} (f : A) (v : B) (g : A -> B) : A -> B := fun f' => if decide (f = f') then v else g f'.

Definition assign (cfg : Config) (a : assignment) : Config :=
  match a with
  | SetStr f v => {| c_str := upd f v (c_str cfg); c_dur := c_dur cfg; c_int := c_int cfg; c_float := c_float cfg; c_bool := c_bool cfg |}
  | SetDur f v => {| c_str := c_str cfg; c_dur := upd f v (c_dur cfg); c_int := c_int cfg; c_float := c_float cfg; c_bool := c_bool cfg |}
  | SetInt f v => {| c_str := c_str cfg; c_dur := c_dur cfg; c_int := upd f v (c_int cfg); c_float := c_float cfg; c_bool := c_bool cfg |}
  | SetFloat f v => {| c_str := c_str cfg; c_dur := c_dur cfg; c_int := c_int cfg; c_float := upd f v (c_float cfg); c_bool := c_bool cfg |}
  | SetBool f v => {| c_str := c_str cfg; c_dur := c_dur cfg; c_int := c_int cfg; c_float := c_float cfg; c_bool := upd f v (c_bool cfg) |}
  end.

(** ** Defaults of the flags *)

Definition default_str (f : str_field) : string :=
  match f with
  | ListenAddr => ":8080"%string
  | OriginURL => ""%string
  | OriginHostOverride => ""%string
  | DiskCacheDir => ""%string
  | TLSCertFile => ""%string
  | TLSKeyFile => ""%string
  | TLSAutoDomain => ""%string
  | AdminAddr => ""%string
  | AdminAPIKey => ""%string
  | CORSOrigins => ""%string
  | LogLevel => "info"%string
  | ControlPlaneURL => ""%string
  | TracingEndpoint => "localhost:4317"%string
  end.

Definition default_dur (f : dur_field) : Duration :=
  match f with
  | DefaultTTL => 5 * Minute
  | OriginTimeout => 30 * Second
  | CoalesceTimeout => 30 * Second
  | DrainDelay => 5 * Second
  | ConfigPollInterval => 30 * Second
  | PredictorDecay => 5 * Minute
  end.

Definition default_int (f : int_field) : Z :=
  match f with
  | MaxCacheItems => 10000
  | DiskCacheMaxMB => 1024
  | RateLimitBurst => 50
  | MaxCacheEntryBytes => 10485760
  | CORSMaxAge => 86400
  | MaxIdleConnsPerHost => 100
  | MaxCacheKeyLen => 8192
  | PredictorCapacity => 10000
  end.

Definition default_float (f : float_field) : f64 :=
  match f with
  | RateLimitRPS => Fin 0 0
  | TracingSampleRate => Fin 1 0
  end.

Definition default_bool (f : bool_field) : bool :=
  match f with
  | TLSEnabled => false
  | TLSAuto => false
  | HTTPSRedirect => true
  | CompressionEnabled => true
  | CompressHeaders => false
  | TracingEnabled => false
  | TracingInsecure => true
  | PredictorEnabled => true
  end.

Definition default_config : Config :=
  {| c_str := default_str; c_dur := default_dur; c_int := default_int; c_float := default_float; c_bool := default_bool |}.

(** ** The environment *)

Definition env_table : list (string * field) :=
  [("CDN_LISTEN", FStr ListenAddr); ("CDN_ORIGIN", FStr OriginURL); ("CDN_ORIGIN_HOST", FStr OriginHostOverride);
   ("CDN_DEFAULT_TTL", FDur DefaultTTL); ("CDN_MAX_CACHE_ITEMS", FInt MaxCacheItems);
   ("CDN_DISK_CACHE_DIR", FStr DiskCacheDir); ("CDN_DISK_CACHE_MAX_MB", FInt DiskCacheMaxMB);
   ("CDN_ORIGIN_TIMEOUT", FDur OriginTimeout); ("CDN_TLS", FBool TLSEnabled); ("CDN_TLS_CERT", FStr TLSCertFile);
   ("CDN_TLS_KEY", FStr TLSKeyFile); ("CDN_TLS_AUTO", FBool TLSAuto); ("CDN_TLS_AUTO_DOMAIN", FStr TLSAutoDomain);
   ("CDN_HTTPS_REDIRECT", FBool HTTPSRedirect); ("CDN_COMPRESS", FBool CompressionEnabled);
   ("CDN_ADMIN_LISTEN", FStr AdminAddr); ("CDN_ADMIN_API_KEY", FStr AdminAPIKey);
   ("CDN_RATE_LIMIT_RPS", FFloat RateLimitRPS); ("CDN_RATE_LIMIT_BURST", FInt RateLimitBurst);
   ("CDN_MAX_CACHE_ENTRY_BYTES", FInt MaxCacheEntryBytes); ("CDN_COALESCE_TIMEOUT", FDur CoalesceTimeout);
   ("CDN_CORS_ORIGINS", FStr CORSOrigins); ("CDN_CORS_MAX_AGE", FInt CORSMaxAge); ("CDN_LOG_LEVEL", FStr LogLevel);
   ("CDN_MAX_IDLE_CONNS_PER_HOST", FInt MaxIdleConnsPerHost); ("CDN_DRAIN_DELAY", FDur DrainDelay);
   ("CDN_MAX_CACHE_KEY_LEN", FInt MaxCacheKeyLen); ("CDN_COMPRESS_HEADERS", FBool CompressHeaders);
   ("CDN_CONTROL_PLANE", FStr ControlPlaneURL); ("CDN_CONFIG_POLL_INTERVAL", FDur ConfigPollInterval);
   ("CDN_TRACING", FBool TracingEnabled); ("CDN_TRACING_ENDPOINT", FStr TracingEndpoint);
   ("CDN_TRACING_SAMPLE_RATE", FFloat TracingSampleRate); ("CDN_TRACING_INSECURE", FBool TracingInsecure);
   ("CDN_PREDICTOR", FBool PredictorEnabled); ("CDN_PREDICTOR_CAPACITY", FInt PredictorCapacity);
   ("CDN_PREDICTOR_DECAY", FDur PredictorDecay)]%string.

Class ConfigParsers := {
  ParseFloat : string -> option f64;
  ParseDuration : string -> option Duration;
  url_Parse : string -> string + (string * string)      (* an error, or the scheme and the host *)
}.

(** [strconv.ParseBool] *)
Definition ParseBool (s : string) : option bool :=
  if bool_decide (s ∈ ["1"; "t"; "T"; "TRUE"; "true"; "True"]%string) then Some true
  else if bool_decide (s ∈ ["0"; "f"; "F"; "FALSE"; "false"; "False"]%string) then Some false
  else None.

(** ** Validation *)

Inductive config_err :=
  | ErrOriginRequired | ErrOriginInvalid (err : string) | ErrOriginScheme (scheme : string) | ErrOriginHost
  | ErrTLSAutoDomain | ErrTLSFiles | ErrMaxCacheItems | ErrOriginTimeout | ErrCoalesceTimeout | ErrRateLimitRPS | ErrRateLimitBurst
  | ErrLogLevel (level : string).

Section load.
Context `{ConfigParsers}.

(** [envStr], [envDuration], [envInt], [envInt64], [envFloat64] and [envBool]: what an
    environment variable assigns; nothing when it is empty or does not parse. *)
Definition env_assign (f : field) (v : string) : option assignment :=
  if String.eqb v "" then None
  else
    match f with
    | FStr f => Some (SetStr f v)
    | FDur f => SetDur f <$> ParseDuration v
    | FInt f => SetInt f <$> Atoi v
    | FFloat f => SetFloat f <$> ParseFloat v
    | FBool f => SetBool f <$> ParseBool v
    end.

Definition apply_env_var (Getenv : string -> string) (cfg : Config) (entry : string * field) : Config :=
  match env_assign entry.2 (Getenv entry.1) with None => cfg | Some a => assign cfg a end.

Definition applyEnv (Getenv : string -> string) (cfg : Config) : Config := foldl (apply_env_var Getenv) cfg env_table.

(** The checks after the origin's, in order; [None] when all pass. *)
Definition validate_rest (cfg : Config) : option config_err :=
  if c_bool cfg TLSEnabled && c_bool cfg TLSAuto && String.eqb (c_str cfg TLSAutoDomain) "" then Some ErrTLSAutoDomain
  else if c_bool cfg TLSEnabled && negb (c_bool cfg TLSAuto) && (String.eqb (c_str cfg TLSCertFile) "" || String.eqb (c_str cfg TLSKeyFile) "")
       then Some ErrTLSFiles
  else if c_int cfg MaxCacheItems <=? 0 then Some ErrMaxCacheItems
  else if c_dur cfg OriginTimeout <=? 0 then Some ErrOriginTimeout
  else if c_dur cfg CoalesceTimeout <=? 0 then Some ErrCoalesceTimeout
  else if flt (c_float cfg RateLimitRPS) (Fin 0 0) then Some ErrRateLimitRPS
  else if (c_int cfg RateLimitBurst <=? 0) && flt (Fin 0 0) (c_float cfg RateLimitRPS) then Some ErrRateLimitBurst
  else if bool_decide (c_str cfg LogLevel ∈ ["debug"; "info"; "error"]%string) then None
  else Some (ErrLogLevel (c_str cfg LogLevel)).

(** The placeholder origin when there is a control plane and no origin. *)
Definition placed (cfg : Config) : Config :=
  if negb (String.eqb (c_str cfg ControlPlaneURL) "") && String.eqb (c_str cfg OriginURL) ""
  then assign cfg (SetStr OriginURL "http://localhost") else cfg.

Definition validate (cfg : Config) : config_err + Config :=
  let cfg := placed cfg in
  if String.eqb (c_str cfg OriginURL) "" then inl ErrOriginRequired
  else
    match url_Parse (c_str cfg OriginURL) with
    | inl err => inl (ErrOriginInvalid err)
    | inr (scheme, host) =>
        if negb (String.eqb scheme "http") && negb (String.eqb scheme "https") then inl (ErrOriginScheme scheme)
        else if String.eqb host "" then inl ErrOriginHost
        else
          let cfg := assign cfg (SetStr OriginURL (TrimRightByte (c_str cfg OriginURL) "/")) in
          match validate_rest cfg with Some err => inl err | None => inr cfg end
    end.

Definition Load (flags : list assignment) (Getenv : string -> string) : config_err + Config :=
  validate (applyEnv Getenv (foldl assign default_config flags)).

End load.

(** ** The environment takes precedence *)

Definition field_of (a : assignment) : field :=
  match a with SetStr f _ => FStr f | SetDur f _ => FDur f | SetInt f _ => FInt f | SetFloat f _ => FFloat f | SetBool f _ => FBool f end.

(** The field of the assignment has its value. *)
Definition field_is (cfg : Config) (a : assignment) : Prop :=
  match a with
  | SetStr f v => c_str cfg f = v | SetDur f v => c_dur cfg f = v | SetInt f v => c_int cfg f = v
  | SetFloat f v => c_float cfg f = v | SetBool f v => c_bool cfg f = v
  end.

Definition same_field (f : field) (cfg cfg' : Config) : Prop :=
  match f with
  | FStr f => c_str cfg f = c_str cfg' f | FDur f => c_dur cfg f = c_dur cfg' f | FInt f => c_int cfg f = c_int cfg' f
  | FFloat f => c_float cfg f = c_float cfg' f | FBool f => c_bool cfg f = c_bool cfg' f
  end.

#[export] Instance same_field_equiv f : Equivalence (same_field f).
Proof. destruct f; (split; [intros c; reflexivity | intros c c' Hs; by symmetry | intros c c' c'' Hs Hs'; by etransitivity]). Qed.

Lemma assign_sets cfg a : field_is (assign cfg a) a.
Proof. destruct a; cbn; unfold upd; by rewrite decide_True. Qed.

Lemma assign_other cfg a f : field_of a <> f -> same_field f cfg (assign cfg a).
Proof. destruct a, f; cbn; intros Hne; try done; unfold upd; rewrite decide_False; congruence. Qed.

Lemma field_is_same cfg cfg' a : same_field (field_of a) cfg cfg' -> field_is cfg a -> field_is cfg' a.
Proof. destruct a; cbn; congruence. Qed.

Section env_facts.
Context `{ConfigParsers} (Getenv : string -> string).

Lemma env_assign_field f v a : env_assign f v = Some a -> field_of a = f.
Proof.
  unfold env_assign. destruct (String.eqb v ""); [done |].
  destruct f; [by intros [= <-] | ..]; intros (x & _ & ->)%fmap_Some; done.
Qed.

Lemma apply_env_other cfg entry f : entry.2 <> f -> same_field f cfg (apply_env_var Getenv cfg entry).
Proof.
  intros Hne. unfold apply_env_var. destruct (env_assign _ _) as [a |] eqn:E; [| reflexivity].
  apply assign_other. by rewrite (env_assign_field _ _ _ E).
Qed.

Lemma apply_table_other table cfg f : f ∉ table.*2 -> same_field f cfg (foldl (apply_env_var Getenv) cfg table).
Proof.
  revert cfg. induction table as [| entry table IH]; intros cfg Hni; [reflexivity |]. cbn [foldl fmap list_fmap] in *.
  etransitivity; [apply (apply_env_other _ entry); set_solver | apply IH; set_solver].
Qed.

(** What a table assigns, when it names each field once. *)
Lemma apply_table table cfg k f :
  NoDup table.*2 -> (k, f) ∈ table ->
  let cfg' := foldl (apply_env_var Getenv) cfg table in
  match env_assign f (Getenv k) with Some a => field_is cfg' a | None => same_field f cfg cfg' end.
Proof.
  revert cfg. induction table as [| entry table IH]; intros cfg Hnd Hin; [by apply not_elem_of_nil in Hin |].
  cbn [foldl fmap list_fmap] in *. apply NoDup_cons in Hnd as [Hni Hnd]. apply elem_of_cons in Hin as [<- | Hin].
  - cbn [snd] in Hni. pose proof (apply_table_other table (apply_env_var Getenv cfg (k, f)) f Hni) as Hrest.
    destruct (env_assign f (Getenv k)) as [a |] eqn:E.
    + assert (Ea : apply_env_var Getenv cfg (k, f) = assign cfg a) by (unfold apply_env_var; cbn [fst snd]; by rewrite E).
      rewrite Ea in *. rewrite <- (env_assign_field _ _ _ E) in Hrest. exact (field_is_same _ _ a Hrest (assign_sets cfg a)).
    + assert (Ea : apply_env_var Getenv cfg (k, f) = cfg) by (unfold apply_env_var; cbn [fst snd]; by rewrite E).
      by rewrite Ea in *.
  - specialize (IH (apply_env_var Getenv cfg entry) Hnd Hin). cbv zeta in IH.
    destruct (env_assign f (Getenv k)); [done |]. etransitivity; [| exact IH]. apply apply_env_other.
    intros <-. apply Hni. apply list_elem_of_fmap. by exists (k, entry.2).
Qed.

Lemma env_table_NoDup : NoDup env_table.*2.
Proof. apply (bool_decide_unpack _). vm_compute. exact I. Qed.

Lemma env_table_complete f : exists k, (k, f) ∈ env_table.
Proof.
  assert (Hall : forall g, g ∈ env_table.*2 -> exists k, (k, g) ∈ env_table).
  { intros g ([k g'] & -> & Hin)%list_elem_of_fmap. by exists k. }
  apply Hall. destruct f as [[] | [] | [] | [] | []]; apply (bool_decide_unpack _); vm_compute; exact I.
Qed.

(** The environment wins field by field: every field of the configuration has one
    variable, and after the overlay it has the variable's value when that is not empty and
    parses at the field's type, and the flag's value otherwise, independently of the other
    variables. *)
Theorem env_takes_precedence cfg f :
  exists k, (k, f) ∈ env_table /\
    match env_assign f (Getenv k) with
    | Some a => field_is (applyEnv Getenv cfg) a
    | None => same_field f cfg (applyEnv Getenv cfg)
    end.
Proof.
  destruct (env_table_complete f) as [k Hk]. exists k. split; [done |].
  apply (apply_table env_table cfg k f env_table_NoDup Hk).
Qed.

End env_facts.

(** ** What a loaded configuration satisfies *)

Record config_valid `{ConfigParsers} (cfg : Config) : Prop := {
  cv_origin : exists url scheme host, c_str cfg OriginURL = TrimRightByte url "/" /\ url_Parse url = inr (scheme, host) /\
                (scheme = "http" \/ scheme = "https")%string /\ host <> ""%string;
  cv_tls : c_bool cfg TLSEnabled = true ->
    if c_bool cfg TLSAuto then c_str cfg TLSAutoDomain <> ""%string
    else c_str cfg TLSCertFile <> ""%string /\ c_str cfg TLSKeyFile <> ""%string;
  cv_items : 0 < c_int cfg MaxCacheItems;
  cv_origin_timeout : 0 < c_dur cfg OriginTimeout;
  cv_coalesce_timeout : 0 < c_dur cfg CoalesceTimeout;
  cv_rate : flt (c_float cfg RateLimitRPS) (Fin 0 0) = false;
  cv_burst : flt (Fin 0 0) (c_float cfg RateLimitRPS) = true -> 0 < c_int cfg RateLimitBurst;
  cv_level : c_str cfg LogLevel ∈ ["debug"; "info"; "error"]%string
}.

Section valid.
Context `{ConfigParsers}.

Lemma validate_rest_valid cfg url scheme host :
  c_str cfg OriginURL = TrimRightByte url "/" -> url_Parse url = inr (scheme, host) ->
  (scheme = "http" \/ scheme = "https")%string -> host <> ""%string ->
  validate_rest cfg = None -> config_valid cfg.
Proof.
  intros Hu Hp Hs Hh. unfold validate_rest.
  destruct (c_bool cfg TLSEnabled && c_bool cfg TLSAuto && _) eqn:E1; [done |].
  destruct (c_bool cfg TLSEnabled && negb (c_bool cfg TLSAuto) && _) eqn:E2; [done |].
  destruct (Z.leb_spec (c_int cfg MaxCacheItems) 0) as [| E3]; [done |].
  destruct (Z.leb_spec (c_dur cfg OriginTimeout) 0) as [| E4]; [done |].
  destruct (Z.leb_spec (c_dur cfg CoalesceTimeout) 0) as [| E5]; [done |].
  destruct (flt (c_float cfg RateLimitRPS) (Fin 0 0)) eqn:E6; [done |].
  destruct ((c_int cfg RateLimitBurst <=? 0) && _) eqn:E7; [done |].
  destruct (bool_decide _) eqn:E8; [| done]. intros _. apply bool_decide_eq_true in E8.
  split; try done.
  - by exists url, scheme, host.
  - intros Ht. rewrite Ht in E1, E2. cbn [andb] in E1, E2. destruct (c_bool cfg TLSAuto); cbn [negb andb] in E1, E2.
    + by apply String.eqb_neq.
    + apply orb_false_iff in E2 as [Ec Ek]. split; by apply String.eqb_neq.
  - intros Hr. rewrite Hr, andb_true_r in E7. by apply Z.leb_gt.
Qed.

Lemma valid_validate_rest cfg : config_valid cfg -> validate_rest cfg = None.
Proof.
  intros [_ Ht Hi Ho Hc Hr Hb Hl]. unfold validate_rest.
  assert (E1 : c_bool cfg TLSEnabled && c_bool cfg TLSAuto && String.eqb (c_str cfg TLSAutoDomain) "" = false).
  { destruct (c_bool cfg TLSEnabled); [| done]. specialize (Ht eq_refl). destruct (c_bool cfg TLSAuto); [| done]. cbn. by apply String.eqb_neq. }
  assert (E2 : c_bool cfg TLSEnabled && negb (c_bool cfg TLSAuto) && (String.eqb (c_str cfg TLSCertFile) "" || String.eqb (c_str cfg TLSKeyFile) "") = false).
  { destruct (c_bool cfg TLSEnabled); [| done]. specialize (Ht eq_refl). destruct (c_bool cfg TLSAuto); [done |]. cbn.
    destruct Ht as [Hk Hf]. apply orb_false_iff. split; by apply String.eqb_neq. }
  rewrite E1, E2, (proj2 (Z.leb_gt _ _) Hi), (proj2 (Z.leb_gt _ _) Ho), (proj2 (Z.leb_gt _ _) Hc), Hr, bool_decide_true by done.
  destruct (flt (Fin 0 0) (c_float cfg RateLimitRPS)); [| by rewrite andb_false_r].
  by rewrite (proj2 (Z.leb_gt _ _) (Hb eq_refl)).
Qed.

Definition good_origin (url : string) : Prop :=
  url <> ""%string /\ exists scheme host, url_Parse url = inr (scheme, host) /\ (scheme = "http" \/ scheme = "https")%string /\ host <> ""%string.

Lemma validate_spec cfg0 cfg' :
  let cfg := placed cfg0 in
  validate cfg0 = inr cfg' <->
  good_origin (c_str cfg OriginURL) /\ cfg' = assign cfg (SetStr OriginURL (TrimRightByte (c_str cfg OriginURL) "/")) /\ config_valid cfg'.
Proof.
  cbv zeta. unfold validate. generalize (placed cfg0) as cfg. clear cfg0. intros cfg. unfold good_origin.
  set (cfg2 := assign cfg _). assert (E2 : c_str cfg2 OriginURL = TrimRightByte (c_str cfg OriginURL) "/").
  { unfold cfg2. cbn. unfold upd. by rewrite decide_True. }
  clearbody cfg2. revert E2. generalize (c_str cfg OriginURL) as u. intros u E2.
  destruct (String.eqb_spec u "") as [E | Hne]; [split; [done | by intros [[? _] _]] |].
  destruct (url_Parse u) as [err | [scheme host]] eqn:Eu; [split; [done | by intros [(_ & s & h & ? & _) _]] |].
  destruct (negb (String.eqb scheme "http") && negb (String.eqb scheme "https")) eqn:Es.
  { split; [done |]. intros ((_ & s & h & [= -> ->] & [-> | ->] & _) & _); done. }
  destruct (String.eqb_spec host "") as [-> | Hh]; [split; [done | by intros [(_ & s & h & [= <- <-] & _ & Hh) _]] |].
  assert (Hs : scheme = "http"%string \/ scheme = "https"%string).
  { apply andb_false_iff in Es as [Es | Es]; apply negb_false_iff, String.eqb_eq in Es; [by left | by right]. }
  destruct (validate_rest cfg2) as [err |] eqn:Er.
  - split; [done |]. intros (_ & -> & Hv). by rewrite (valid_validate_rest _ Hv) in Er.
  - split; [| by intros (_ & -> & _)]. intros [= <-]. split; [split; [done | by exists scheme, host] |]. split; [done |].
    by apply (validate_rest_valid cfg2 u scheme host).
Qed.

Lemma Load_validate flags Getenv : Load flags Getenv = validate (applyEnv Getenv (foldl assign default_config flags)).
Proof. reflexivity. Qed.

Lemma Load_sound flags Getenv cfg' : Load flags Getenv = inr cfg' -> config_valid cfg'.
Proof. intros Hl. rewrite Load_validate in Hl. by apply validate_spec in Hl as (_ & _ & ?). Qed.

(** *** What the flags and the environment ask for, field by field *)

(** The variable of each field, as the flags are documented. *)
Definition variable (f : field) : string :=
  match f with
  | FStr f => match f with
      | ListenAddr => "CDN_LISTEN" | OriginURL => "CDN_ORIGIN" | OriginHostOverride => "CDN_ORIGIN_HOST"
      | DiskCacheDir => "CDN_DISK_CACHE_DIR" | TLSCertFile => "CDN_TLS_CERT" | TLSKeyFile => "CDN_TLS_KEY"
      | TLSAutoDomain => "CDN_TLS_AUTO_DOMAIN" | AdminAddr => "CDN_ADMIN_LISTEN" | AdminAPIKey => "CDN_ADMIN_API_KEY"
      | CORSOrigins => "CDN_CORS_ORIGINS" | LogLevel => "CDN_LOG_LEVEL" | ControlPlaneURL => "CDN_CONTROL_PLANE"
      | TracingEndpoint => "CDN_TRACING_ENDPOINT" end
  | FDur f => match f with
      | DefaultTTL => "CDN_DEFAULT_TTL" | OriginTimeout => "CDN_ORIGIN_TIMEOUT"
      | CoalesceTimeout => "CDN_COALESCE_TIMEOUT" | DrainDelay => "CDN_DRAIN_DELAY"
      | ConfigPollInterval => "CDN_CONFIG_POLL_INTERVAL" | PredictorDecay => "CDN_PREDICTOR_DECAY" end
  | FInt f => match f with
      | MaxCacheItems => "CDN_MAX_CACHE_ITEMS" | DiskCacheMaxMB => "CDN_DISK_CACHE_MAX_MB"
      | RateLimitBurst => "CDN_RATE_LIMIT_BURST" | MaxCacheEntryBytes => "CDN_MAX_CACHE_ENTRY_BYTES"
      | CORSMaxAge => "CDN_CORS_MAX_AGE" | MaxIdleConnsPerHost => "CDN_MAX_IDLE_CONNS_PER_HOST"
      | MaxCacheKeyLen => "CDN_MAX_CACHE_KEY_LEN" | PredictorCapacity => "CDN_PREDICTOR_CAPACITY" end
  | FFloat f => match f with
      | RateLimitRPS => "CDN_RATE_LIMIT_RPS" | TracingSampleRate => "CDN_TRACING_SAMPLE_RATE" end
  | FBool f => match f with
      | TLSEnabled => "CDN_TLS" | TLSAuto => "CDN_TLS_AUTO" | HTTPSRedirect => "CDN_HTTPS_REDIRECT"
      | CompressionEnabled => "CDN_COMPRESS" | CompressHeaders => "CDN_COMPRESS_HEADERS"
      | TracingEnabled => "CDN_TRACING" | TracingInsecure => "CDN_TRACING_INSECURE"
      | PredictorEnabled => "CDN_PREDICTOR" end
  end%string.

(** A variable that is set and reads as a value of the field's type. *)
Definition overrides (f : field) (v : string) (a : assignment) : Prop :=
  v <> ""%string /\
  match f, a with
  | FStr f, SetStr f' x => f' = f /\ x = v
  | FDur f, SetDur f' x => f' = f /\ ParseDuration v = Some x
  | FInt f, SetInt f' x => f' = f /\ Atoi v = Some x
  | FFloat f, SetFloat f' x => f' = f /\ ParseFloat v = Some x
  | FBool f, SetBool f' x => f' = f /\ ParseBool v = Some x
  | _, _ => False
  end.

Definition last_flag (f : field) (flags : list assignment) : option assignment :=
  last (filter (fun a => field_of a = f) flags).

(** Each field has the value of its variable; when that is not set or does not read, the
    last one on the command line; and when there is none, the default. *)
Definition effective (flags : list assignment) (Getenv : string -> string) (cfg : Config) : Prop :=
  forall f,
    (exists a, overrides f (Getenv (variable f)) a /\ field_is cfg a) \/
    ((forall a, ~ overrides f (Getenv (variable f)) a) /\
     match last_flag f flags with Some a => field_is cfg a | None => same_field f default_config cfg end).

(** With a control plane the origin may be left out. *)
Definition origin_of (cfg : Config) : string :=
  if negb (String.eqb (c_str cfg ControlPlaneURL) "") && String.eqb (c_str cfg OriginURL) ""
  then "http://localhost" else c_str cfg OriginURL.

(** The configuration to be loaded: what is asked for, with the origin less its trailing
    slashes, when it satisfies what is checked. *)
Definition loads (flags : list assignment) (Getenv : string -> string) (cfg' : Config) : Prop :=
  exists cfg, effective flags Getenv cfg /\ good_origin (origin_of cfg) /\
    c_str cfg' OriginURL = TrimRightByte (origin_of cfg) "/" /\
    (forall f, f <> FStr OriginURL -> same_field f cfg cfg') /\ config_valid cfg'.

Lemma env_assign_overrides f v a : env_assign f v = Some a <-> overrides f v a.
Proof.
  unfold env_assign, overrides. destruct (String.eqb_spec v ""); [split; [done | by intros [? _]] |].
  destruct f, a; rewrite ?fmap_Some; split; try (by intros [= <- <-]); try (by intros (x & Hx & [= <- <-])); try done;
    try (by intros [_ [-> ->]]); try (intros [_ [-> Hx]]; eauto); try (by intros (x & _ & ?)); by intros [_ []].
Qed.

Lemma env_table_variable f : (variable f, f) ∈ env_table.
Proof. destruct f as [[] | [] | [] | [] | []]; apply (bool_decide_unpack _); vm_compute; exact I. Qed.

Lemma flags_last flags f : forall cfg,
  match last_flag f flags with
  | Some a => field_is (foldl assign cfg flags) a
  | None => same_field f cfg (foldl assign cfg flags)
  end.
Proof.
  unfold last_flag. induction flags as [| a flags IH] using rev_ind; intros cfg; [by destruct f |].
  rewrite filter_app, foldl_app. cbn [foldl]. destruct (decide (field_of a = f)) as [<- | Hne].
  - rewrite filter_cons_True, filter_nil, last_snoc by done. apply assign_sets.
  - rewrite filter_cons_False, filter_nil, app_nil_r by done. specialize (IH cfg). destruct (last _) as [a' |] eqn:E.
    + apply (field_is_same (foldl assign cfg flags)); [| done]. apply assign_other. apply last_Some_elem_of, list_elem_of_filter in E as [-> _]. done.
    + etransitivity; [exact IH | by apply assign_other].
Qed.

Lemma applyEnv_effective flags Getenv : effective flags Getenv (applyEnv Getenv (foldl assign default_config flags)).
Proof.
  intros f. pose proof (flags_last flags f default_config) as Hf. set (cfg := foldl assign default_config flags) in *.
  assert (Hv : match env_assign f (Getenv (variable f)) with
               | Some a => field_is (applyEnv Getenv cfg) a | None => same_field f cfg (applyEnv Getenv cfg) end)
    by apply (apply_table Getenv env_table cfg _ f env_table_NoDup (env_table_variable f)).
  clearbody cfg.
  destruct (env_assign f (Getenv (variable f))) as [a |] eqn:E; [left | right].
  - exists a. by apply env_assign_overrides in E.
  - split; [intros a Ha%env_assign_overrides; congruence |]. destruct (last_flag f flags) as [a |] eqn:El.
    + apply (field_is_same cfg); [| done]. unfold last_flag in El.
      apply last_Some_elem_of, list_elem_of_filter in El as [-> _]. done.
    + by etransitivity.
Qed.

Lemma field_is_inj f cfg cfg' a a' v : overrides f v a -> overrides f v a' -> field_is cfg a -> field_is cfg' a' -> same_field f cfg cfg'.
Proof. intros [_ Ha] [_ Ha']. destruct f, a, a'; cbn in *; try done; destruct Ha as [-> Ha], Ha' as [-> Ha']; congruence. Qed.

Lemma field_is_both f cfg cfg' a : field_of a = f -> field_is cfg a -> field_is cfg' a -> same_field f cfg cfg'.
Proof. intros <-. destruct a; cbn; congruence. Qed.

(** What is asked for is one configuration. *)
Lemma effective_unique flags Getenv cfg cfg' : effective flags Getenv cfg -> effective flags Getenv cfg' -> forall f, same_field f cfg cfg'.
Proof.
  intros He He' f. destruct (He f) as [(a & Ha & Hf) | [Hno Hf]], (He' f) as [(a' & Ha' & Hf') | [Hno' Hf']];
    [exact (field_is_inj _ _ _ _ _ _ Ha Ha' Hf Hf') | by destruct (Hno' a) | by destruct (Hno a') |].
  destruct (last_flag f flags) as [a |] eqn:El.
  - unfold last_flag in El. apply last_Some_elem_of, list_elem_of_filter in El as [E _]. by eapply field_is_both.
  - by etransitivity; [symmetry |].
Qed.

Lemma config_valid_ext cfg cfg' : (forall f, same_field f cfg cfg') -> config_valid cfg -> config_valid cfg'.
Proof.
  intros He [H1 H2 H3 H4 H5 H6 H7 H8].
  pose proof (fun f => He (FStr f)) as Es. pose proof (fun f => He (FDur f)) as Ed. pose proof (fun f => He (FInt f)) as Ei.
  pose proof (fun f => He (FFloat f)) as Ef. pose proof (fun f => He (FBool f)) as Eb. cbn in Es, Ed, Ei, Ef, Eb.
  split; rewrite <- ?Es, <- ?Ed, <- ?Ei, <- ?Ef, <- ?Eb; done.
Qed.

Lemma origin_of_placed cfg : c_str (placed cfg) OriginURL = origin_of cfg.
Proof. unfold placed, origin_of. destruct (_ && _); [apply (assign_sets _ (SetStr OriginURL _)) | done]. Qed.

Lemma placed_other cfg f : f <> FStr OriginURL -> same_field f cfg (placed cfg).
Proof. intros Hf. unfold placed. destruct (_ && _); [by apply assign_other | reflexivity]. Qed.

(** C31: The type of a configuration: [Load] returns a configuration exactly when what the
    flags and the environment ask for passes the checks of [validate], and returns that.
    Field by field the value is that of the environment variable when it is set and reads
    at the field's type, then the last flag, then the default; the origin, a placeholder
    when there is a control plane instead, is an http(s) URL with a host and loses its
    trailing slashes; certificate files or a domain come with TLS; the cache size, the
    timeouts, and the burst of a limiter that is on are positive, the rate is not negative,
    and the log level is one of three. Nothing else is checked ([sample_rate_unchecked]). *)
Theorem Load_valid flags Getenv :
  match Load flags Getenv with
  | inr cfg' => loads flags Getenv cfg'
  | inl _ => forall cfg', ~ loads flags Getenv cfg'
  end.
Proof.
  set (cfg0 := applyEnv Getenv (foldl assign default_config flags)).
  assert (He0 : effective flags Getenv cfg0) by apply applyEnv_effective.
  pose proof (validate_spec cfg0) as Hv. cbv zeta in Hv. rewrite origin_of_placed in Hv.
  set (cfg1 := assign (placed cfg0) _) in Hv.
  assert (H1 : c_str cfg1 OriginURL = TrimRightByte (origin_of cfg0) "/") by (apply (assign_sets (placed cfg0) (SetStr OriginURL _))).
  assert (H2 : forall f, f <> FStr OriginURL -> same_field f cfg0 cfg1).
  { intros f Hf. etransitivity; [by apply placed_other | by apply assign_other]. }
  clearbody cfg1. rewrite Load_validate. fold cfg0. destruct (validate cfg0) as [err | cfg'].
  - intros cfg' (cfg & He & Ho & Hu & Hs & Hval). pose proof (effective_unique _ _ _ _ He0 He) as Hsame.
    assert (Eo : origin_of cfg = origin_of cfg0).
    { unfold origin_of. by rewrite <- (Hsame (FStr ControlPlaneURL) : c_str cfg0 _ = c_str cfg _), <- (Hsame (FStr OriginURL) : c_str cfg0 _ = c_str cfg _). }
    assert (Hc : inl err = inr cfg1 :> config_err + Config); [| done]. apply Hv. rewrite <- Eo. split; [done |]. split; [done |].
    apply (config_valid_ext cfg'); [| done]. intros f. destruct (decide (f = FStr OriginURL)) as [-> | Hf]; [cbn; congruence |].
    rewrite <- (Hs f Hf), <- (Hsame f). by apply H2.
  - destruct (proj1 (Hv cfg') eq_refl) as (Ho & -> & Hval). by exists cfg0.
Qed.

(** The sample rate is documented as 0.0 to 1.0; any other is accepted as it is. *)
Theorem sample_rate_unchecked rate :
  url_Parse "http://o" = inr ("http", "o")%string ->
  exists cfg, Load [SetStr OriginURL "http://o"; SetFloat TracingSampleRate rate] (fun _ => ""%string) = inr cfg /\
    c_float cfg TracingSampleRate = rate.
Proof.
  intros Hu.
  assert (Ho : c_str (applyEnv (fun _ => ""%string) (foldl assign default_config [SetStr OriginURL "http://o"; SetFloat TracingSampleRate rate])) OriginURL
    = "http://o"%string) by reflexivity.
  rewrite Load_validate. unfold validate. change (placed (applyEnv _ _)) with (applyEnv (fun _ => ""%string)
    (foldl assign default_config [SetStr OriginURL "http://o"; SetFloat TracingSampleRate rate])).
  rewrite Ho, Hu. eexists. split; reflexivity.
Qed.

End valid.
