(* ===== verification/Certs.v ===== *)
(** * Certificates ([controlplane/certs/manager.go], [controlplane/certs/handler.go])

    The manager: metadata and key pairs by hostname, the files they are kept in, custom,
    self-signed and ACME certificates, renewal, and the HTTP handlers. Not in the
    repository, and parameters here: parsing and signing certificates, JSON, joining paths,
    and the [autocert] client, a state machine that may ask the host policy. Each operation
    is given the outcome of its writes, its readings of the clock and its new key. *)

From S2P Require Import Prelude GoStrings Paths Http Store Middleware Logging Metrics.

Local Open Scope Z_scope.

Record CertInfo := {
  ci_Hostname : string; ci_NotBefore : Z; ci_NotAfter : Z; ci_Issuer : string; ci_AutoRenew : bool; ci_Source : string
}.

(** What is read of a parsed certificate. *)
Record leaf := { lf_NotBefore : Z; lf_NotAfter : Z; lf_IssuerCN : string }.

Class CertLib := {
  tls_cert : Type;
  X509KeyPair : string -> string -> string + tls_cert;
  ParseLeaf : tls_cert -> string + leaf;
  (** [autocert.Manager.GetCertificate]: it asks the policy before a new certificate. *)
  autocert : Type;
  autocert_Get : autocert -> (string -> option string) -> string -> autocert * (string + tls_cert);
  (** A new [autocert.Manager]: the contact, the directory of its cache, the directory asked
      when it is not the default. *)
  new_autocert : string -> string -> option string -> autocert;
  Marshal_certs : gmap string CertInfo -> option string;
  Unmarshal_certs : string -> gmap string CertInfo -> gmap string CertInfo
}.

(** The outcome of [os.WriteFile]: an error leaves the file alone or with some content. *)
Inductive write_outcome := WriteOk | WriteErr (err : string) (left : option string).

Record cert_io := {
  io_now : nat -> Z;
  io_write : nat -> write_outcome;
  io_sign : string + (string * string)   (* an error, or the PEM of a new certificate and its key *)
}.

Record ManagerConfig := { mc_DataDir : string; mc_ACMEEmail : string; mc_ACMEDirectory : string; mc_SelfSignedOnly : bool }.

Record Manager `{CertLib} := {
  m_dir : string;
  m_certs : gmap string CertInfo;
  m_tlsCerts : gmap string tls_cert;
  m_acme : option autocert;
  m_selfSignedOnly : bool;
  m_files : gmap string string            (* the files under the data directory *)
}.

Definition day30 : Duration := 30 * 24 * Hour.
Definition year : Duration := 365 * 24 * Hour.

Section manager.
Context `{CertLib}.

Definition with_certs (certs : gmap string CertInfo) (m : Manager) : Manager :=
  {| m_dir := m_dir m; m_certs := certs; m_tlsCerts := m_tlsCerts m; m_acme := m_acme m;
     m_selfSignedOnly := m_selfSignedOnly m; m_files := m_files m |}.
Definition with_tls (certs : gmap string tls_cert) (m : Manager) : Manager :=
  {| m_dir := m_dir m; m_certs := m_certs m; m_tlsCerts := certs; m_acme := m_acme m;
     m_selfSignedOnly := m_selfSignedOnly m; m_files := m_files m |}.
Definition with_files (files : gmap string string) (m : Manager) : Manager :=
  {| m_dir := m_dir m; m_certs := m_certs m; m_tlsCerts := m_tlsCerts m; m_acme := m_acme m;
     m_selfSignedOnly := m_selfSignedOnly m; m_files := files |}.
Definition with_acme (am : autocert) (m : Manager) : Manager :=
  {| m_dir := m_dir m; m_certs := m_certs m; m_tlsCerts := m_tlsCerts m; m_acme := Some am;
     m_selfSignedOnly := m_selfSignedOnly m; m_files := m_files m |}.

Definition certPath (m : Manager) (hostname : string) : string := filepath_Join [m_dir m; hostname +:+ ".crt"].
Definition keyPath (m : Manager) (hostname : string) : string := filepath_Join [m_dir m; hostname +:+ ".key"].
Definition metadataPath (m : Manager) : string := filepath_Join [m_dir m; "metadata.json"].

(** [os.WriteFile] and its error. *)
Definition WriteFile (out : write_outcome) (path data : string) (m : Manager) : Manager * option string :=
  match out with
  | WriteOk => (with_files (<[path := data]> (m_files m)) m, None)
  | WriteErr err None => (m, Some err)
  | WriteErr err (Some s) => (with_files (<[path := s]> (m_files m)) m, Some err)
  end.

Definition saveMetadata (out : write_outcome) (m : Manager) : Manager :=
  match Marshal_certs (m_certs m) with
  | None => m
  | Some data => (WriteFile out (metadataPath m) data m).1
  end.

Definition loadMetadata (m : Manager) : Manager :=
  match m_files m !! metadataPath m with
  | None => m
  | Some data => with_certs (Unmarshal_certs data (m_certs m)) m
  end.

(** The key pair of a hostname on disk. *)
Definition disk_cert (m : Manager) (hostname : string) : option tls_cert :=
  match m_files m !! certPath m hostname, m_files m !! keyPath m hostname with
  | Some certPEM, Some keyPEM => match X509KeyPair certPEM keyPEM with inl _ => None | inr cert => Some cert end
  | _, _ => None
  end.

Definition loadCertsFromDisk `{RangeOrder} (m : Manager) : Manager :=
  foldl (fun m' hostname => match disk_cert m hostname with
                            | Some cert => with_tls (<[hostname := cert]> (m_tlsCerts m')) m'
                            | None => m'
                            end) m (range_ (m_certs m)).*1.

(** [NewManagerWithConfig] on the files there; [mkdir] is the error of [os.MkdirAll]. *)
Definition NewManagerWithConfig `{RangeOrder} (mkdir : option string) (files : gmap string string) (cfg : ManagerConfig) : string + Manager :=
  let certsDir := filepath_Join [mc_DataDir cfg; "certs"] in
  match mkdir with
  | Some err => inl ("certs: create dir: " +:+ err)
  | None =>
      let am := if mc_SelfSignedOnly cfg then None
                else Some (new_autocert (mc_ACMEEmail cfg) (filepath_Join [certsDir; "acme-cache"])
                             (if String.eqb (mc_ACMEDirectory cfg) "" then None else Some (mc_ACMEDirectory cfg))) in
      inr (loadCertsFromDisk (loadMetadata
        {| m_dir := certsDir; m_certs := ∅; m_tlsCerts := ∅; m_acme := am; m_selfSignedOnly := mc_SelfSignedOnly cfg; m_files := files |}))
  end.

Definition NewManager `{RangeOrder} (mkdir : option string) (files : gmap string string) (dataDir : string) : string + Manager :=
  NewManagerWithConfig mkdir files {| mc_DataDir := dataDir; mc_ACMEEmail := ""; mc_ACMEDirectory := ""; mc_SelfSignedOnly := true |}.

(** [acmeHostPolicy]: the error, if any. *)
Definition acmeHostPolicy (m : Manager) (host : string) : option string :=
  match m_certs m !! host with
  | Some info => if String.eqb (ci_Source info) "acme" then None else Some ("host " +:+ quoted host +:+ " not allowed for ACME")
  | None => Some ("host " +:+ quoted host +:+ " not allowed for ACME")
  end.

Definition GetCertificate (serverName : string) (m : Manager) : Manager * (string + tls_cert) :=
  match m_tlsCerts m !! serverName with
  | Some cert => (m, inr cert)
  | None =>
      match m_acme m, m_certs m !! serverName with
      | Some am, Some info =>
          if String.eqb (ci_Source info) "acme" then
            let '(am, res) := autocert_Get am (acmeHostPolicy m) serverName in (with_acme am m, res)
          else (m, inl ("no certificate for " +:+ serverName))
      | _, _ => (m, inl ("no certificate for " +:+ serverName))
      end
  end.

(** Metadata and key pair recorded together, under the lock. *)
Definition record_cert (hostname : string) (info : CertInfo) (cert : tls_cert) (m : Manager) : Manager :=
  with_tls (<[hostname := cert]> (m_tlsCerts m)) (with_certs (<[hostname := info]> (m_certs m)) m).

Definition StoreCert (io : cert_io) (hostname certPEM keyPEM : string) (m : Manager) : Manager * option string :=
  match X509KeyPair certPEM keyPEM with
  | inl err => (m, Some ("invalid cert/key pair: " +:+ err))
  | inr tlsCert =>
      match ParseLeaf tlsCert with
      | inl err => (m, Some ("parse certificate: " +:+ err))
      | inr lf =>
          match WriteFile (io_write io 0) (certPath m hostname) certPEM m with
          | (m, Some err) => (m, Some ("write cert: " +:+ err))
          | (m, None) =>
              match WriteFile (io_write io 1) (keyPath m hostname) keyPEM m with
              | (m, Some err) => (m, Some ("write key: " +:+ err))
              | (m, None) =>
                  let info := {| ci_Hostname := hostname; ci_NotBefore := lf_NotBefore lf; ci_NotAfter := lf_NotAfter lf;
                                 ci_Issuer := lf_IssuerCN lf; ci_AutoRenew := false; ci_Source := "custom" |} in
                  (saveMetadata (io_write io 2) (record_cert hostname info tlsCert m), None)
              end
          end
      end
  end.

(** [ProvisionSelfSigned]; [zero] is the empty certificate it stores if its own PEM did not parse. *)
Definition ProvisionSelfSigned (zero : tls_cert) (io : cert_io) (hostname : string) (m : Manager) : Manager * option string :=
  match io_sign io with
  | inl err => (m, Some err)
  | inr (certPEM, keyPEM) =>
      match WriteFile (io_write io 0) (certPath m hostname) certPEM m with
      | (m, Some err) => (m, Some ("write cert: " +:+ err))
      | (m, None) =>
          match WriteFile (io_write io 1) (keyPath m hostname) keyPEM m with
          | (m, Some err) => (m, Some ("write key: " +:+ err))
          | (m, None) =>
              let tlsCert := match X509KeyPair certPEM keyPEM with inl _ => zero | inr cert => cert end in
              let info := {| ci_Hostname := hostname; ci_NotBefore := io_now io 0; ci_NotAfter := io_now io 1 + year;
                             ci_Issuer := "self-signed"; ci_AutoRenew := false; ci_Source := "self-signed" |} in
              (saveMetadata (io_write io 2) (record_cert hostname info tlsCert m), None)
          end
      end
  end.

(** [ci.AutoRenew = true; ci.Source = "acme"] *)
Definition mark_auto (ci : CertInfo) : CertInfo :=
  {| ci_Hostname := ci_Hostname ci; ci_NotBefore := ci_NotBefore ci; ci_NotAfter := ci_NotAfter ci; ci_Issuer := ci_Issuer ci;
     ci_AutoRenew := true; ci_Source := "acme" |}.

Definition ProvisionACME (zero : tls_cert) (io : cert_io) (hostname : string) (m : Manager) : Manager * option string :=
  if match m_certs m !! hostname with Some info => io_now io 2 + day30 <? ci_NotAfter info | None => false end then (m, None)
  else if m_selfSignedOnly m || match m_acme m with None => true | Some _ => false end then
    match ProvisionSelfSigned zero io hostname m with
    | (m, Some err) => (m, Some err)
    | (m, None) => (saveMetadata (io_write io 3) (with_certs (alter mark_auto hostname (m_certs m)) m), None)
    end
  else
    let pending := {| ci_Hostname := hostname; ci_NotBefore := zero_time; ci_NotAfter := zero_time; ci_Issuer := "";
                      ci_AutoRenew := true; ci_Source := "acme" |} in
    let m := saveMetadata (io_write io 0) (with_certs (<[hostname := pending]> (m_certs m)) m) in
    match m_acme m with
    | None => (m, None)
    | Some am =>
        let '(am, res) := autocert_Get am (acmeHostPolicy m) hostname in
        let m := with_acme am m in
        match res with
        | inl err => (saveMetadata (io_write io 1) (with_certs (delete hostname (m_certs m)) m),
                      Some ("certs: ACME provision for " +:+ hostname +:+ ": " +:+ err))
        | inr cert =>
            match ParseLeaf cert with
            | inl err => (m, Some ("certs: parse ACME cert for " +:+ hostname +:+ ": " +:+ err))
            | inr lf =>
                let info := {| ci_Hostname := hostname; ci_NotBefore := lf_NotBefore lf; ci_NotAfter := lf_NotAfter lf;
                               ci_Issuer := lf_IssuerCN lf; ci_AutoRenew := true; ci_Source := "acme" |} in
                (saveMetadata (io_write io 1) (record_cert hostname info cert m), None)
            end
        end
    end.

Definition DeleteCert (io : cert_io) (hostname : string) (m : Manager) : Manager :=
  let m := with_tls (delete hostname (m_tlsCerts m)) (with_certs (delete hostname (m_certs m)) m) in
  let m := with_files (delete (keyPath m hostname) (delete (certPath m hostname) (m_files m))) m in
  saveMetadata (io_write io 0) m.

Definition ListCerts `{RangeOrder} (m : Manager) : list CertInfo := (range_ (m_certs m)).*2.
Definition GetCertInfo (hostname : string) (m : Manager) : option CertInfo := m_certs m !! hostname.
Definition HasCert (now : Z) (hostname : string) (m : Manager) : bool :=
  match m_certs m !! hostname with Some ci => now <? ci_NotAfter ci | None => false end.

(** [checkRenewals]; [now] is the clock during the scan, [ios] the outcomes of each renewal. *)
Definition to_renew `{RangeOrder} (now : Z) (m : Manager) : list string :=
  (List.filter (fun kv : string * CertInfo => ci_AutoRenew kv.2 && (ci_NotAfter kv.2 <? now + day30)) (range_ (m_certs m))).*1.
Definition checkRenewals `{RangeOrder} (zero : tls_cert) (now : Z) (ios : string -> cert_io) (m : Manager) : Manager :=
  foldl (fun m hostname => (ProvisionACME zero (ios hostname) hostname m).1) m (to_renew now m).

(** [renewalLoop]; a tick brings the clock and the outcomes of its renewals. *)
Definition renewalLoop `{RangeOrder} (zero : tls_cert) (events : list (tick (Z * (string -> cert_io)))) (m : Manager) : Manager :=
  ticker_loop (fun a => checkRenewals zero a.1 a.2) events m.

(** ** The handlers *)

Inductive cert_value :=
  | CVList (l : list CertInfo) | CVInfo (i : option CertInfo) | CVError (msg : string) | CVDeleted.

(** The decoded body of a POST. *)
Record cert_body := { cb_Hostname : string; cb_Mode : string; cb_CertPEM : string; cb_KeyPEM : string }.

Definition HandleCerts `{RangeOrder} (zero : tls_cert) (io : cert_io) (body : option cert_body) (m : Manager) (r : Request)
  : Manager * Z * cert_value :=
  if String.eqb (r_Method r) "GET" then (m, 200, CVList (ListCerts m))
  else if String.eqb (r_Method r) "POST" then
    match body with
    | None => (m, 400, CVError "hostname is required")
    | Some b =>
        if String.eqb (cb_Hostname b) "" then (m, 400, CVError "hostname is required")
        else
          let done res code := match res with
                               | (m, Some err) => (m, code, CVError err)
                               | (m, None) => (m, 201, CVInfo (GetCertInfo (cb_Hostname b) m))
                               end in
          if String.eqb (cb_Mode b) "custom" then
            if String.eqb (cb_CertPEM b) "" || String.eqb (cb_KeyPEM b) "" then (m, 400, CVError "cert_pem and key_pem required for custom mode")
            else done (StoreCert io (cb_Hostname b) (cb_CertPEM b) (cb_KeyPEM b) m) 400
          else if String.eqb (cb_Mode b) "self-signed" then done (ProvisionSelfSigned zero io (cb_Hostname b) m) 500
          else if String.eqb (cb_Mode b) "acme" || String.eqb (cb_Mode b) "" then done (ProvisionACME zero io (cb_Hostname b) m) 500
          else (m, 400, CVError ("invalid mode: " +:+ cb_Mode b))
    end
  else (m, 405, CVError "method not allowed").

Definition lastSeg (path : string) : string :=
  let path := TrimRightByte path "/" in
  let i := LastIndexByte path "/" in
  if i <? 0 then path else drop_bytes (Z.to_nat (i + 1)) path.

Definition HandleCert (io : cert_io) (m : Manager) (r : Request) : Manager * Z * cert_value :=
  let hostname := lastSeg (r_Path r) in
  if String.eqb (r_Method r) "GET" then
    match GetCertInfo hostname m with
    | None => (m, 404, CVError "certificate not found")
    | Some info => (m, 200, CVInfo (Some info))
    end
  else if String.eqb (r_Method r) "DELETE" then (DeleteCert io hostname m, 200, CVDeleted)
  else (m, 405, CVError "method not allowed").

End manager.

(** ** Lemmas *)

Section facts.
Context `{CertLib}.

Lemma WriteFile_keeps out path data m :
  let m' := (WriteFile out path data m).1 in
  m_dir m' = m_dir m /\ m_certs m' = m_certs m /\ m_tlsCerts m' = m_tlsCerts m /\ m_acme m' = m_acme m /\ m_selfSignedOnly m' = m_selfSignedOnly m.
Proof. by destruct out as [| err [s |]]. Qed.

Lemma WriteFile_ok path data m : WriteFile WriteOk path data m = (with_files (<[path := data]> (m_files m)) m, None).
Proof. done. Qed.

Lemma saveMetadata_keeps out m :
  let m' := saveMetadata out m in
  m_dir m' = m_dir m /\ m_certs m' = m_certs m /\ m_tlsCerts m' = m_tlsCerts m /\ m_acme m' = m_acme m /\ m_selfSignedOnly m' = m_selfSignedOnly m.
Proof. unfold saveMetadata. destruct (Marshal_certs (m_certs m)); [apply WriteFile_keeps | done]. Qed.

(** What an operation does to the two maps: it records one hostname, or nothing. *)
Definition recorded_at (hostname : string) (info : CertInfo) (cert : tls_cert) (m m' : Manager) : Prop :=
  m_certs m' = <[hostname := info]> (m_certs m) /\ m_tlsCerts m' = <[hostname := cert]> (m_tlsCerts m) /\
  m_acme m' = m_acme m /\ m_selfSignedOnly m' = m_selfSignedOnly m.
Definition unchanged (m m' : Manager) : Prop :=
  m_certs m' = m_certs m /\ m_tlsCerts m' = m_tlsCerts m /\ m_acme m' = m_acme m /\ m_selfSignedOnly m' = m_selfSignedOnly m.

Lemma write_pair_keeps io hostname certPEM keyPEM m (k : Manager -> Manager * option string) (m' : Manager) err :
  match WriteFile (io_write io 0) (certPath m hostname) certPEM m with
  | (m, Some err) => (m, Some ("write cert: " +:+ err))
  | (m, None) =>
      match WriteFile (io_write io 1) (keyPath m hostname) keyPEM m with
      | (m, Some err) => (m, Some ("write key: " +:+ err))
      | (m, None) => k m
      end
  end = (m', err) ->
  (unchanged m m' /\ is_Some err) \/
  (io_write io 0 = WriteOk /\ io_write io 1 = WriteOk /\ exists m2, unchanged m m2 /\ k m2 = (m', err)).
Proof.
  pose proof (WriteFile_keeps (io_write io 0) (certPath m hostname) certPEM m) as (_ & A1 & A2 & A3 & A4).
  destruct (WriteFile (io_write io 0) _ _ m) as [m1 [e1 |]] eqn:E1; cbn [fst] in *; [intros [= <- <-]; left; split; [by split_and! | done] |].
  pose proof (WriteFile_keeps (io_write io 1) (keyPath m1 hostname) keyPEM m1) as (_ & B1 & B2 & B3 & B4).
  destruct (WriteFile (io_write io 1) _ _ m1) as [m2 [e2 |]] eqn:E2; cbn [fst] in *.
  - intros [= <- <-]. left. split; [split_and!; congruence | done].
  - intros Hk. right. split_and!; [by destruct (io_write io 0) as [| ? []] | by destruct (io_write io 1) as [| ? []] |].
    exists m2. split; [split_and!; congruence | done].
Qed.

Lemma saved_record out hostname info cert m0 m :
  unchanged m0 m -> recorded_at hostname info cert m0 (saveMetadata out (record_cert hostname info cert m)).
Proof.
  intros (A1 & A2 & A3 & A4). destruct (saveMetadata_keeps out (record_cert hostname info cert m)) as (_ & B1 & B2 & B3 & B4).
  unfold recorded_at. rewrite B1, B2, B3, B4. cbn. by rewrite A1, A2, A3, A4.
Qed.


Lemma ProvisionSelfSigned_cases zero io hostname m :
  let '(m', err) := ProvisionSelfSigned zero io hostname m in
  match err with
  | Some _ => unchanged m m'
  | None => exists info cert, recorded_at hostname info cert m m' /\ ci_NotAfter info = io_now io 1 + year
  end.
Proof.
  unfold ProvisionSelfSigned. destruct (io_sign io) as [e | [certPEM keyPEM]]; [done |].
  match goal with |- let '(_, _) := ?t in _ => destruct t as [m' err] eqn:E end.
  apply write_pair_keeps in E. destruct E as [[Hu [e ->]] | (_ & _ & m2 & Hu & [= <- <-])]; [done |].
  do 2 eexists. split; [by apply saved_record | done].
Qed.

Lemma StoreCert_cases io hostname certPEM keyPEM m :
  let '(m', err) := StoreCert io hostname certPEM keyPEM m in
  unchanged m m' \/ exists info cert, recorded_at hostname info cert m m'.
Proof.
  unfold StoreCert. destruct (X509KeyPair certPEM keyPEM) as [e | cert]; [by left |].
  destruct (ParseLeaf cert) as [e | lf]; [by left |].
  match goal with |- let '(_, _) := ?t in _ => destruct t as [m' err] eqn:E end.
  apply write_pair_keeps in E. destruct E as [[Hu _] | (_ & _ & m2 & Hu & [= <- <-])]; [by left |].
  right. do 2 eexists. by apply saved_record.
Qed.

(** The self-signed fallback of [ProvisionACME]. *)
Lemma ProvisionACME_selfsigned zero io hostname m :
  m_selfSignedOnly m = true ->
  let '(m', err) := ProvisionACME zero io hostname m in
  unchanged m m' \/
  exists info cert, recorded_at hostname info cert m m' /\ ci_NotAfter info = io_now io 1 + year /\ ci_AutoRenew info = true /\ err = None.
Proof.
  intros Hs. unfold ProvisionACME. destruct (match m_certs m !! hostname with Some _ => _ | None => _ end); [by left |].
  rewrite Hs. cbn [orb]. pose proof (ProvisionSelfSigned_cases zero io hostname m) as Hc.
  destruct (ProvisionSelfSigned zero io hostname m) as [m1 [e |]]; [by left |]. destruct Hc as (info & cert & (E1 & E2 & E3 & E4) & Hn).
  right. exists (mark_auto info), cert.
  destruct (saveMetadata_keeps (io_write io 3) (with_certs (alter mark_auto hostname (m_certs m1)) m1)) as (_ & B1 & B2 & B3 & B4).
  split_and!; [| done | done | done]. unfold recorded_at. rewrite B1, B2, B3, B4. cbn [with_certs m_certs m_tlsCerts m_acme m_selfSignedOnly].
  rewrite E1, E2, E3, E4. split_and!; try done. by rewrite alter_insert_eq || (apply map_eq; intros h; destruct (decide (hostname = h)) as [-> | Hne];
    [by rewrite lookup_alter_eq, !lookup_insert_eq | by rewrite lookup_alter_ne, !lookup_insert_ne]).
Qed.

(** ** Served and listed *)

(** Hostnames with a key pair have metadata; one with metadata has a pair, unless it was
    loaded without one, when the manager [m0] was made, and nothing has recorded it since. *)
Definition consistent (m0 m : Manager) : Prop := forall h,
  (is_Some (m_tlsCerts m !! h) -> is_Some (m_certs m !! h)) /\
  (is_Some (m_certs m !! h) -> is_Some (m_tlsCerts m !! h) \/ (disk_cert m0 h = None /\ m_certs m !! h = m_certs m0 !! h)).

Lemma recorded_consistent hostname info cert m0 m m' : recorded_at hostname info cert m m' -> consistent m0 m -> consistent m0 m'.
Proof.
  intros (E1 & E2 & _) Hc h. rewrite E1, E2. destruct (decide (hostname = h)) as [-> | Hne].
  - rewrite !lookup_insert_eq. split; [by eexists | left; by eexists].
  - rewrite !lookup_insert_ne by done. apply Hc.
Qed.

Lemma unchanged_consistent m0 m m' : unchanged m m' -> consistent m0 m -> consistent m0 m'.
Proof. intros (E1 & E2 & _) Hc h. rewrite E1, E2. apply Hc. Qed.

Inductive cert_op :=
  | COStore (io : cert_io) (hostname certPEM keyPEM : string)
  | COSelfSigned (io : cert_io) (hostname : string)
  | COACME (io : cert_io) (hostname : string)
  | CODelete (io : cert_io) (hostname : string)
  | CORenew (now : Z) (ios : string -> cert_io).

Definition cert_step `{RangeOrder} (zero : tls_cert) (m : Manager) (op : cert_op) : Manager :=
  match op with
  | COStore io h c k => (StoreCert io h c k m).1
  | COSelfSigned io h => (ProvisionSelfSigned zero io h m).1
  | COACME io h => (ProvisionACME zero io h m).1
  | CODelete io h => DeleteCert io h m
  | CORenew now ios => checkRenewals zero now ios m
  end.

(** A manager that [NewManager] made, as [m0], and that has run since: no ACME client. *)
Definition self_signed_ok (m0 m : Manager) : Prop := m_selfSignedOnly m = true /\ m_acme m = None /\ consistent m0 m.

Lemma unchanged_ok m0 m m' : unchanged m m' -> self_signed_ok m0 m -> self_signed_ok m0 m'.
Proof.
  intros Hu (Hs & Ha & Hc). split_and!; [| | by apply (unchanged_consistent m0 m)]; destruct Hu as (_ & _ & E3 & E4); congruence.
Qed.

Lemma recorded_ok hostname info cert m0 m m' : recorded_at hostname info cert m m' -> self_signed_ok m0 m -> self_signed_ok m0 m'.
Proof.
  intros Hr (Hs & Ha & Hc). split_and!; [| | by apply (recorded_consistent _ _ _ _ _ _ Hr)]; destruct Hr as (_ & _ & E3 & E4); congruence.
Qed.

Lemma ACME_keeps_ok m0 zero io hostname m : self_signed_ok m0 m -> self_signed_ok m0 (ProvisionACME zero io hostname m).1.
Proof.
  intros Hok. pose proof (ProvisionACME_selfsigned zero io hostname m (proj1 Hok)) as Hp.
  destruct (ProvisionACME zero io hostname m) as [m' err]. destruct Hp as [Hu | (info & cert & Hr & _)];
    [by apply (unchanged_ok m0 m) | by apply (recorded_ok _ _ _ _ _ _ Hr)].
Qed.

Lemma delete_keeps_ok m0 io hostname m : self_signed_ok m0 m -> self_signed_ok m0 (DeleteCert io hostname m).
Proof.
  intros (Hs & Ha & Hc). unfold DeleteCert.
  match goal with |- self_signed_ok _ (saveMetadata ?o ?m1) => destruct (saveMetadata_keeps o m1) as (_ & B1 & B2 & B3 & B4) end.
  split_and!; [by rewrite B4 | by rewrite B3 |]. intros h'. rewrite B1, B2. cbn. destruct (decide (hostname = h')) as [-> | Hne].
  - rewrite !lookup_delete_eq. split; by intros [].
  - rewrite !lookup_delete_ne by done. apply Hc.
Qed.

Lemma renew_keeps_ok m0 zero ios l m :
  self_signed_ok m0 m -> self_signed_ok m0 (foldl (fun m hostname => (ProvisionACME zero (ios hostname) hostname m).1) m l).
Proof. revert m. induction l as [| h l IH]; intros m Hok; [done |]. apply IH, ACME_keeps_ok, Hok. Qed.

Lemma cert_step_ok `{RangeOrder} m0 zero m op : self_signed_ok m0 m -> self_signed_ok m0 (cert_step zero m op).
Proof.
  intros Hok. destruct op as [io h c k | io h | io h | io h | now ios]; cbn [cert_step].
  - pose proof (StoreCert_cases io h c k m) as Hp. destruct (StoreCert io h c k m) as [m' err].
    destruct Hp as [Hu | (info & cert & Hr)]; [by apply (unchanged_ok m0 m) | by apply (recorded_ok _ _ _ _ _ _ Hr)].
  - pose proof (ProvisionSelfSigned_cases zero io h m) as Hp. destruct (ProvisionSelfSigned zero io h m) as [m' [e |]];
      [by apply (unchanged_ok m0 m) | destruct Hp as (info & cert & Hr & _); by apply (recorded_ok _ _ _ _ _ _ Hr)].
  - by apply ACME_keeps_ok.
  - by apply delete_keeps_ok.
  - by apply renew_keeps_ok.
Qed.

(** What [loadCertsFromDisk] loads: the pairs that are there and parse. *)
Lemma load_loop `{RangeOrder} (m : Manager) l : forall m1,
  let m' := foldl (fun m' hostname => match disk_cert m hostname with
                                      | Some cert => with_tls (<[hostname := cert]> (m_tlsCerts m')) m'
                                      | None => m'
                                      end) m1 l in
  m_dir m' = m_dir m1 /\ m_certs m' = m_certs m1 /\ m_acme m' = m_acme m1 /\ m_selfSignedOnly m' = m_selfSignedOnly m1 /\ m_files m' = m_files m1 /\
  forall h, m_tlsCerts m' !! h = match (if decide (h ∈ l) then disk_cert m h else None) with Some c => Some c | None => m_tlsCerts m1 !! h end.
Proof.
  induction l as [| x l IH]; intros m1; cbn [foldl]; cbv zeta.
  { by split_and!. }
  destruct (IH (match disk_cert m x with Some cert => with_tls (<[x := cert]> (m_tlsCerts m1)) m1 | None => m1 end)) as (E1 & E2 & E3 & E4 & E5 & E6).
  split_and!; [rewrite E1 | rewrite E2 | rewrite E3 | rewrite E4 | rewrite E5 |]; [by destruct (disk_cert m x).. |].
  intros h. rewrite E6. destruct (decide (x = h)) as [-> | Hne].
  - rewrite (decide_True (P := h ∈ h :: l)) by by left. destruct (disk_cert m h) as [c |]; cbn [with_tls m_tlsCerts]; case_decide; try done.
    by rewrite lookup_insert_eq.
  - assert (Hiff : h ∈ x :: l <-> h ∈ l) by (rewrite elem_of_cons; naive_solver). rewrite (decide_ext _ _ _ _ Hiff).
    destruct (disk_cert m x); [cbn; by rewrite lookup_insert_ne | done].
Qed.

Lemma loadMetadata_keeps m :
  m_acme (loadMetadata m) = m_acme m /\ m_selfSignedOnly (loadMetadata m) = m_selfSignedOnly m /\ m_tlsCerts (loadMetadata m) = m_tlsCerts m.
Proof. unfold loadMetadata. by destruct (m_files m !! metadataPath m). Qed.

Lemma NewManager_ok `{RangeOrder} files dataDir m0 : NewManager None files dataDir = inr m0 -> self_signed_ok m0 m0.
Proof.
  intros [= <-]. set (m := loadMetadata _).
  assert (Hm : m_acme m = None /\ m_selfSignedOnly m = true /\ m_tlsCerts m = ∅) by apply loadMetadata_keeps.
  clearbody m. destruct Hm as (Ha & Hs & Ht). unfold loadCertsFromDisk.
  destruct (load_loop m (range_ (m_certs m)).*1 m) as (E1 & E2 & E3 & E4 & E5 & E6). set (m0 := foldl _ _ _) in *.
  split_and!; [congruence | congruence |]. intros h.
  assert (Hd : disk_cert m0 h = disk_cert m h) by (unfold disk_cert, certPath, keyPath; by rewrite E1, E5).
  assert (Hin : h ∈ (range_ (m_certs m)).*1 <-> is_Some (m_certs m !! h)).
  { rewrite list_elem_of_fmap. split; [intros ([k i] & -> & Hk%range_elem); by exists i | intros [i Hi]; exists (h, i); split; [done | by apply range_elem]]. }
  rewrite E6, E2, Hd, Ht, lookup_empty. split.
  - case_decide as Hl; [intros _; by apply Hin | by intros []].
  - intros Hsome. rewrite decide_True by by apply Hin. destruct (disk_cert m h); [left; by eexists | by right].
Qed.

(** C34: Served and listed agree: from a start of the manager as the control plane's main
    program makes it (self-signed certificates only, on any files), whatever is stored,
    provisioned, deleted and renewed and whichever writes fail, a hostname that is served a
    certificate is listed, and one that is listed is served, with one exception: its
    metadata were loaded at the start without a key pair that can be read, and nothing has
    changed them since. *)
Theorem served_iff_listed `{RangeOrder} zero files dataDir m0 ops hostname :
  NewManager None files dataDir = inr m0 ->
  let m := foldl (cert_step zero) m0 ops in
  let served := exists cert, (GetCertificate hostname m).2 = inr cert in
  let listed := is_Some (GetCertInfo hostname m) in
  (served -> listed) /\
  (listed -> served \/ (disk_cert m0 hostname = None /\ GetCertInfo hostname m = GetCertInfo hostname m0)).
Proof.
  intros Hnew. cbv zeta. pose proof (NewManager_ok files dataDir m0 Hnew) as Hok.
  assert (Hm : self_signed_ok m0 (foldl (cert_step zero) m0 ops)).
  { generalize Hok. generalize m0 at 2 4. induction ops as [| op ops IH]; intros m Hm; [done |]. by apply IH, cert_step_ok. }
  destruct Hm as (_ & Ha & Hc). destruct (Hc hostname) as [H1 H2]. unfold GetCertInfo, GetCertificate. rewrite Ha. split.
  - intros [cert Hcert]. apply H1. destruct (m_tlsCerts _ !! hostname); [by eexists | done].
  - intros Hl. destruct (H2 Hl) as [[cert ->] | Hlost]; [left; by eexists | by right].
Qed.

(** The exception: metadata without a key pair are loaded, and the hostname is listed as
    having a certificate, while every handshake for it fails. *)
Theorem listed_without_pair `{RangeOrder} files dataDir m0 hostname info now :
  NewManager None files dataDir = inr m0 -> GetCertInfo hostname m0 = Some info -> disk_cert m0 hostname = None -> now < ci_NotAfter info ->
  HasCert now hostname m0 = true /\ info ∈ ListCerts m0 /\ (GetCertificate hostname m0).2 = inl ("no certificate for " +:+ hostname).
Proof.
  intros Hnew Hi Hd Hn. destruct (NewManager_ok files dataDir m0 Hnew) as (_ & Ha & _). unfold GetCertInfo in Hi.
  unfold HasCert, ListCerts, GetCertificate. rewrite Hi, Ha. split_and!; [by apply Z.ltb_lt | |].
  - apply list_elem_of_fmap. exists (hostname, info). split; [done | by apply range_elem].
  - revert Hd. revert Hnew. intros [= <-]. unfold loadCertsFromDisk. set (m := loadMetadata _).
    assert (Ht : m_tlsCerts m = ∅) by apply loadMetadata_keeps.
    destruct (load_loop m (range_ (m_certs m)).*1 m) as (E1 & _ & _ & _ & E5 & E6). set (m0 := foldl _ _ _) in *.
    intros Hd. assert (Hd' : disk_cert m hostname = None) by (unfold disk_cert, certPath, keyPath in *; by rewrite <- E1, <- E5).
    rewrite E6, Hd', Ht, lookup_empty. by destruct (decide _).
Qed.

(** ** Renewal *)

(** A renewal that meets no error, its clock not before [now]. *)
Definition renewal_ok (now : Z) (io : cert_io) : Prop :=
  (forall n, io_write io n = WriteOk) /\ (forall n, now <= io_now io n) /\ exists pems, io_sign io = inr pems.

Lemma ProvisionACME_renews zero now io hostname info m :
  m_selfSignedOnly m = true -> renewal_ok now io -> m_certs m !! hostname = Some info -> ci_NotAfter info < now + day30 ->
  exists info' cert, recorded_at hostname info' cert m (ProvisionACME zero io hostname m).1 /\
    now + year <= ci_NotAfter info' /\ ci_AutoRenew info' = true.
Proof.
  intros Hs (Hw & Hnow & [certPEM keyPEM] & Hk) Hl Hna. pose proof (ProvisionACME_selfsigned zero io hostname m Hs) as Hp.
  pose proof (Hnow 1%nat) as H1. pose proof (Hnow 2%nat) as H2. unfold ProvisionACME in *. rewrite Hl in *.
  rewrite (proj2 (Z.ltb_ge _ _)) in * by lia. rewrite Hs in *. cbn [orb] in *.
  pose proof (ProvisionSelfSigned_cases zero io hostname m) as Hc.
  assert (Herr : (ProvisionSelfSigned zero io hostname m).2 = None) by (unfold ProvisionSelfSigned; by rewrite Hk, !Hw).
  destruct (ProvisionSelfSigned zero io hostname m) as [m1 [e |]]; [done |]. destruct Hc as (i1 & c1 & (E1 & E2 & E3 & E4) & Hn).
  destruct (saveMetadata_keeps (io_write io 3) (with_certs (alter mark_auto hostname (m_certs m1)) m1)) as (_ & B1 & B2 & B3 & B4).
  exists (mark_auto i1), c1. cbn [fst]. split_and!; [| cbn; lia | done]. unfold recorded_at. rewrite B1, B2, B3, B4.
  cbn [with_certs m_certs m_tlsCerts m_acme m_selfSignedOnly]. rewrite E1, E2, E3, E4. split_and!; try done.
  apply map_eq; intros h; destruct (decide (hostname = h)) as [-> | Hne];
    [by rewrite lookup_alter_eq, !lookup_insert_eq | by rewrite lookup_alter_ne, !lookup_insert_ne].
Qed.

Lemma to_renew_spec `{RangeOrder} now m h :
  h ∈ to_renew now m <-> exists info, m_certs m !! h = Some info /\ ci_AutoRenew info = true /\ ci_NotAfter info < now + day30.
Proof.
  unfold to_renew. rewrite list_elem_of_fmap. split.
  - intros ([h' info] & -> & Hin). apply list_elem_of_In, List.filter_In in Hin. destruct Hin as [Hin Hb].
    apply list_elem_of_In in Hin. rewrite range_perm in Hin. apply elem_of_map_to_list in Hin. cbn in *.
    apply andb_true_iff in Hb. destruct Hb as [Ha Hn]. exists info. split_and!; [done | done | by apply Z.ltb_lt].
  - intros (info & Hl & Ha & Hn). exists (h, info). split; [done |]. apply list_elem_of_In, List.filter_In. split.
    + apply list_elem_of_In. rewrite range_perm. by apply elem_of_map_to_list.
    + cbn. rewrite Ha. by apply Z.ltb_lt.
Qed.

Lemma List_filter_sublist {A} (f : A -> bool) l : sublist (List.filter f l) l.
Proof. induction l as [| a l IH]; [done |]. cbn. destruct (f a); by constructor. Qed.

Lemma to_renew_NoDup `{RangeOrder} now m : NoDup (to_renew now m).
Proof.
  unfold to_renew. eapply sublist_NoDup; [| apply fmap_sublist, List_filter_sublist].
  rewrite range_perm. apply NoDup_fst_map_to_list.
Qed.

(** Hostname [h] was renewed by [m']: fresh metadata, renewed again later, and a key pair. *)
Definition renewed (now : Z) (h : string) (m' : Manager) : Prop :=
  exists info, m_certs m' !! h = Some info /\ now + year <= ci_NotAfter info /\ ci_AutoRenew info = true /\ is_Some (m_tlsCerts m' !! h).

(** Renewing a list of hostnames: each of them gets a fresh certificate, the others keep theirs. *)
Lemma renew_list zero now ios l : forall m,
  NoDup l -> m_selfSignedOnly m = true -> (forall h, renewal_ok now (ios h)) ->
  (forall h, h ∈ l -> exists info, m_certs m !! h = Some info /\ ci_NotAfter info < now + day30) ->
  let m' := foldl (fun m hostname => (ProvisionACME zero (ios hostname) hostname m).1) m l in
  (forall h, h ∈ l -> renewed now h m') /\
  (forall h, h ∉ l -> m_certs m' !! h = m_certs m !! h /\ m_tlsCerts m' !! h = m_tlsCerts m !! h).
Proof.
  induction l as [| h l IH]; intros m Hnd Hs Hok Hl; cbn [foldl]; cbv zeta.
  { split; [by intros h Hh; apply elem_of_nil in Hh | done]. }
  apply NoDup_cons in Hnd. destruct Hnd as [Hh Hnd].
  destruct (Hl h (list_elem_of_here _ _)) as (info & Hinfo & Hna).
  destruct (ProvisionACME_renews zero now (ios h) h info m Hs (Hok h) Hinfo Hna) as (info' & cert & (E1 & E2 & _ & E4) & Hfresh & Hauto).
  set (m1 := (ProvisionACME zero (ios h) h m).1) in *. destruct (IH m1 Hnd) as [Hin Hout]; [congruence | done | |].
  { intros h' Hh'. rewrite E1, lookup_insert_ne by set_solver. apply Hl. by apply list_elem_of_further. }
  split.
  - intros h' Hh'. apply elem_of_cons in Hh'. destruct Hh' as [-> | Hh']; [| by apply Hin].
    destruct (Hout h Hh) as [O1 O2]. exists info'. rewrite O1, O2, E1, E2, !lookup_insert_eq. by eauto.
  - intros h' Hh'. apply not_elem_of_cons in Hh'. destruct Hh' as [Hne Hh']. destruct (Hout h' Hh') as [-> ->].
    by rewrite E1, E2, !lookup_insert_ne by done.
Qed.

(** A renewal pass that meets no error leaves no certificate near its end: with
    self-signed certificates, every automatically renewed one within thirty days of its
    end is replaced by one good for a year that is served and stays renewed, and no other
    hostname changes. *)
Theorem renewals_keep_valid `{RangeOrder} zero now ios m h info :
  m_selfSignedOnly m = true -> (forall h, renewal_ok now (ios h)) -> m_certs m !! h = Some info ->
  let m' := checkRenewals zero now ios m in
  if ci_AutoRenew info && (ci_NotAfter info <? now + day30) then renewed now h m'
  else m_certs m' !! h = m_certs m !! h /\ m_tlsCerts m' !! h = m_tlsCerts m !! h.
Proof.
  intros Hs Hok Hl. cbv zeta. unfold checkRenewals.
  destruct (renew_list zero now ios (to_renew now m) m (to_renew_NoDup now m) Hs Hok) as [Hin Hout].
  { intros h' Hh'. apply to_renew_spec in Hh'. destruct Hh' as (i & ? & _ & ?). eauto. }
  destruct (ci_AutoRenew info && (ci_NotAfter info <? now + day30)) eqn:E.
  - apply Hin, to_renew_spec. apply andb_true_iff in E. destruct E as [Ha Hn%Z.ltb_lt]. eauto.
  - apply Hout. intros (i & Hi & Ha & Hn)%to_renew_spec. rewrite Hl in Hi. injection Hi as <-.
    rewrite Ha, (proj2 (Z.ltb_lt _ _) Hn) in E. done.
Qed.

(** One failed ACME renewal ends all renewals: the hostname's metadata is deleted while
    the old certificate goes on being served, so it is not listed, no later pass renews it,
    and the ACME client is not asked for it again. *)
Theorem acme_failed_renewal_forgets `{RangeOrder} zero io hostname m am info cert am' err :
  m_selfSignedOnly m = false -> m_acme m = Some am -> m_certs m !! hostname = Some info -> m_tlsCerts m !! hostname = Some cert ->
  ci_NotAfter info <= io_now io 2 + day30 ->
  (forall policy, autocert_Get am policy hostname = (am', inl err)) ->
  let m' := (ProvisionACME zero io hostname m).1 in
  (GetCertificate hostname m').2 = inr cert /\ GetCertInfo hostname m' = None /\ forall now, hostname ∉ to_renew now m'.
Proof.
  intros Hs Ha Hl Ht Hna Hg. cbv zeta.
  enough (Hm : m_certs (ProvisionACME zero io hostname m).1 !! hostname = None /\ m_tlsCerts (ProvisionACME zero io hostname m).1 !! hostname = Some cert).
  { destruct Hm as [Hc Ht']. unfold GetCertificate, GetCertInfo. rewrite Ht', Hc. split_and!; [done | done |].
    intros now (i & Hi & _)%to_renew_spec. congruence. }
  unfold ProvisionACME. rewrite Hl, (proj2 (Z.ltb_ge _ _)), Hs, Ha by lia. cbn [orb].
  set (m0 := with_certs _ m). destruct (saveMetadata_keeps (io_write io 0) m0) as (_ & B1 & B2 & B3 & B4).
  rewrite B3. cbn [m0 with_certs m_acme]. rewrite Ha, Hg. cbn [fst].
  match goal with |- m_certs (saveMetadata ?o ?m1) !! _ = _ /\ _ => destruct (saveMetadata_keeps o m1) as (_ & C1 & C2 & _) end.
  rewrite C1, C2. cbn [with_certs with_acme m_certs m_tlsCerts]. rewrite lookup_delete_eq, B2. by split.
Qed.

End facts.

(** ** A concrete manager *)

#[local] Existing Instance list_order.

(** A library that takes any named pair; its ACME client always fails. *)
#[local] Instance some_lib : CertLib := {|
  tls_cert := string * string;
  X509KeyPair c k := if String.eqb c "" then inl "no PEM data"%string else inr (c, k);
  ParseLeaf _ := inr {| lf_NotBefore := 0; lf_NotAfter := 100 * 24 * Hour; lf_IssuerCN := "ca" |};
  autocert := unit;
  new_autocert _ _ _ := tt;
  autocert_Get am _ _ := (am, inl "rate limited"%string);
  Marshal_certs _ := Some "{}"%string;
  Unmarshal_certs _ m := m
|}.

Definition good_io (now : Z) : cert_io :=
  {| io_now _ := now; io_write _ := WriteOk; io_sign := inr ("pem", "key")%string |}.

Definition old_info (auto : bool) : CertInfo :=
  {| ci_Hostname := "h"; ci_NotBefore := 0; ci_NotAfter := 5; ci_Issuer := "ca"; ci_AutoRenew := auto; ci_Source := "acme" |}.

Definition a_manager (selfSigned : bool) : Manager :=
  {| m_dir := "/certs"; m_certs := {["h" := old_info true]}%string; m_tlsCerts := {["h" := ("c", "k")]}%string;
     m_acme := if selfSigned then None else Some tt; m_selfSignedOnly := selfSigned; m_files := ∅ |}.

Lemma good_renewal now : renewal_ok now (good_io now).
Proof. split_and!; [done | intros n; cbn; lia | by eexists]. Qed.

(** From an empty directory a certificate is provisioned, another one deleted: the first
    is served and listed, the second neither. *)
Definition empty_start : Manager :=
  {| m_dir := "/d/certs"; m_certs := ∅; m_tlsCerts := ∅; m_acme := None; m_selfSignedOnly := true; m_files := ∅ |}.
Definition cert_ops : list cert_op := [COSelfSigned (good_io 3) "h"; COStore (good_io 3) "g" "c" "k"; CODelete (good_io 4) "g"].

Lemma served_iff_listed_witness :
  let m := foldl (cert_step ("", "")%string) empty_start cert_ops in
  (exists cert, (GetCertificate "h" m).2 = inr cert) /\ is_Some (GetCertInfo "h" m) /\
  (GetCertInfo "g" m = None /\ ~ exists cert, (GetCertificate "g" m).2 = inr cert).
Proof.
  intros m. pose proof (fun h => served_iff_listed ("", "")%string ∅ "/d" empty_start cert_ops h eq_refl) as T. cbv zeta in T. fold m in T.
  assert (Hs : exists cert, (GetCertificate "h" m).2 = inr cert) by (eexists; vm_compute; reflexivity).
  assert (Hg : GetCertInfo "g" m = None) by (vm_compute; reflexivity).
  split; [exact Hs |]. split; [exact (proj1 (T "h"%string) Hs) |]. split; [exact Hg |].
  intros Hserved. pose proof (proj1 (T "g"%string) Hserved) as Hl. rewrite Hg in Hl. by destruct Hl.
Defined.

Lemma renewals_keep_valid_witness :
  renewed 3 "h" (checkRenewals ("", "")%string 3 (fun _ => good_io 3) (a_manager true)).
Proof.
  refine (renewals_keep_valid ("", "")%string 3 (fun _ => good_io 3) (a_manager true) "h" (old_info true) eq_refl (fun _ => good_renewal 3) _).
  vm_compute. reflexivity.
Defined.

Lemma acme_failed_renewal_forgets_witness :
  (GetCertificate "h" (ProvisionACME ("", "")%string (good_io 3) "h" (a_manager false)).1).2 = inr ("c", "k")%string /\
  GetCertInfo "h" (ProvisionACME ("", "")%string (good_io 3) "h" (a_manager false)).1 = None /\
  forall now, "h"%string ∉ to_renew now (ProvisionACME ("", "")%string (good_io 3) "h" (a_manager false)).1.
Proof.
  refine (acme_failed_renewal_forgets ("", "")%string (good_io 3) "h" (a_manager false) tt (old_info true) ("c", "k")%string tt "rate limited"
    eq_refl eq_refl _ _ _ _); [vm_compute; reflexivity | vm_compute; reflexivity | vm_compute; discriminate | intros; reflexivity].
Defined.

(** ** File names *)

(** A hostname with dot-dot segments names files outside the manager's directory. *)
Lemma hostname_escapes `{CertLib} (m : Manager) :
  m_dir m = "cp-data/certs"%string -> certPath m "../../main" = "main.crt"%string /\ keyPath m "../../main" = "main.key"%string.
Proof. intros E. unfold certPath, keyPath. rewrite E. by vm_compute. Qed.

Definition new_manager : Manager :=
  {| m_dir := "cp-data/certs"; m_certs := ∅; m_tlsCerts := ∅; m_acme := None; m_selfSignedOnly := true; m_files := ∅ |}.
Lemma hostname_escapes_witness : certPath new_manager "../../main" = "main.crt"%string.
Proof. exact (proj1 (hostname_escapes new_manager eq_refl)). Defined.

(** ** Metadata without a pair *)

(** A library whose metadata file lists one hostname. *)
Definition listing_lib : CertLib := {|
  tls_cert := tls_cert (CertLib := some_lib); X509KeyPair := X509KeyPair (CertLib := some_lib); ParseLeaf := ParseLeaf (CertLib := some_lib);
  autocert := unit; new_autocert _ _ _ := tt; autocert_Get am _ _ := (am, inl "rate limited"%string);
  Marshal_certs _ := Some "{}"%string;
  Unmarshal_certs _ _ := {["h" := old_info false]}%string
|}.

Lemma listed_without_pair_witness :
  exists m0, @NewManager listing_lib _ None {["/d/certs/metadata.json" := "{}"]}%string "/d" = inr m0 /\ HasCert 3 "h" m0 = true /\
    (GetCertificate "h" m0).2 = inl "no certificate for h"%string.
Proof.
  eexists. split; [reflexivity |].
  refine (let T := @listed_without_pair listing_lib _ {["/d/certs/metadata.json" := "{}"]}%string "/d" _ "h" (old_info false) 3 eq_refl _ _ _ in
    conj (proj1 T) (proj2 (proj2 T))); vm_compute; reflexivity.
Defined.
