(* ===== verification/Program.v ===== *)
(** * The control plane's main program ([controlplane/cmd/main.go])

    Its flags and environment, what it opens and when it refuses to start, the handlers it
    wires into the API, and the routes of its listener, over the state its parts keep: the
    system of [ControlPlane.v] (the store, the pushes under way, the edges), the statistics
    and their file, and the certificates. An edge answers on two paths here, [/edge/config]
    and [/purge]. The dashboard's files are embedded, a parameter; so is the text of each
    JSON answer. *)

From S2P Require Import Prelude GoStrings Entry Shard Disk Cache Http Circuit Origin Tenant Codec MultiTenant Store Api Middleware Float Logging Metrics Chain Purge Sync ControlPlane Analytics Certs.
From stdpp Require Import relations.

Local Open Scope Z_scope.

(** ** Flags, environment and start *)

Record cp_flags := { listen : string; adminKey : string; dataDir : string }.

Definition default_flags : cp_flags := {| listen := ":9090"; adminKey := ""; dataDir := "./cp-data" |}.

(** Environment variables that are set win over flags. *)
Definition env_overrides (Getenv : string -> string) (f : cp_flags) : cp_flags :=
  let pick v d := if String.eqb v "" then d else v in
  {| listen := pick (Getenv "CP_LISTEN"%string) (listen f); adminKey := pick (Getenv "CP_ADMIN_KEY"%string) (adminKey f);
     dataDir := pick (Getenv "CP_DATA_DIR"%string) (dataDir f) |}.

(** What opening each part meets: the error of making its directory, and its files. *)
Record cp_boot_io := {
  cb_store_mkdir : option string; cb_store_file : string + option string;
  cb_stats_mkdir : option string; cb_stats_file : option string;
  cb_certs_mkdir : option string; cb_certs_files : gmap string string
}.

Inductive cp_fatal := NoAdminKey | StoreInit (e : open_err) | AnalyticsInit (err : option string) | CertsInit (err : string).

(** The JSON of an answer. *)
Class ApiJson := { encode_api : api_value -> string; encode_cert : cert_value -> string }.

(** The parts' state; [pg_stats] is the content of stats.json. *)
Record Program `{CertLib} := { pg_plane : Plane; pg_collector : Collector; pg_stats : option string; pg_certs : Manager }.

(** What a request brings. *)
Record cp_io `{CertLib} := {
  ci_store : store_io;
  ci_body : api_body;                       (* decoded, for each API handler *)
  ci_entries : option (list LogEntry);      (* for the collector *)
  ci_cert : cert_io; ci_cert_body : option cert_body; ci_zero : tls_cert;
  ci_sched : list nat                       (* the order of a purge's goroutines *)
}.

Section program.
Context `{StoreJson} `{RangeOrder} `{UrlQuery} `{ConfigMarshal} `{ConfigJson} `{StatsJson} `{CertLib} `{ApiJson} `{PurgeJson}.
Variable fault : string -> option string.
Variable host_of : string -> string.
(** The peers of an edge, in the order they are posted to, and the posting. *)
Variable peers_of : string -> list string.
Variable peer_sched : string -> list nat.
Variable peer_post : string -> Request -> string -> gmap string pushed_edge -> gmap string pushed_edge * (string + Z).
(** [http.FileServer] on the embedded files. *)
Variable dashboard : forall W, Writer W -> W -> Request -> W.

Definition set_pg_plane (p : Plane) (s : Program) : Program :=
  {| pg_plane := p; pg_collector := pg_collector s; pg_stats := pg_stats s; pg_certs := pg_certs s |}.
Definition set_pg_collector (c : Collector) (s : Program) : Program :=
  {| pg_plane := pg_plane s; pg_collector := c; pg_stats := pg_stats s; pg_certs := pg_certs s |}.
Definition set_pg_stats (f : option string) (s : Program) : Program :=
  {| pg_plane := pg_plane s; pg_collector := pg_collector s; pg_stats := f; pg_certs := pg_certs s |}.
Definition set_pg_certs (m : Manager) (s : Program) : Program :=
  {| pg_plane := pg_plane s; pg_collector := pg_collector s; pg_stats := pg_stats s; pg_certs := m |}.

(** [apiServer], wired. *)
Definition apiServer (key : string) : Server := SetCertsHandlers true true (SetPurgeHandler true (SetAnalyticsHandlers true true (Api.New key true))).

(** [main] up to its listener, with the edges there are. *)
Definition cp_main (io : cp_boot_io) (Getenv : string -> string) (flags : cp_flags) (edges : gmap string pushed_edge)
  : cp_fatal + cp_flags * Program :=
  let f := env_overrides Getenv flags in
  if String.eqb (adminKey f) "" then inl NoAdminKey
  else match Store.New (cb_store_mkdir io) (cb_store_file io) with
       | inl e => inl (StoreInit e)
       | inr st =>
           match NewCollector (cb_stats_mkdir io) (dataDir f) (cb_stats_file io) with
           | inl e => inl (AnalyticsInit e)
           | inr collector =>
               match NewManager (cb_certs_mkdir io) (cb_certs_files io) (dataDir f) with
               | inl e => inl (CertsInit e)
               | inr certMgr => inr (f, {| pg_plane := started st edges; pg_collector := collector; pg_stats := cb_stats_file io; pg_certs := certMgr |})
               end
           end
       end.

(** ** The edges as the control plane meets them *)

Definition purged (e : pushed_edge) : pushed_edge := set_handler (mt_with_cache (Purge (mt_cache (pe_handler e))) (pe_handler e)) e.

(** The edge at [addr], asked for [/purge] or [/edge/config]. *)
Definition edge_endpoint (addr : string) (r : Request) (body : string) (w : gmap string pushed_edge) : gmap string pushed_edge * (string + Z) :=
  if negb (String.eqb (r_Path r) "/purge") then config_endpoint fault addr r body w
  else
    match fault addr, w !! addr with
    | Some err, _ => (w, inl err)
    | None, None => (w, inl "no such host"%string)
    | None, Some e =>
        let '(w, rw) := AdminAuth (pe_key e) (ServePurge peer_post host_of (alter purged addr) (fun _ => peers_of addr) (pe_key e) (peer_sched addr) body)
                          _ _ w new_writer r in
        (w, inr (final_status rw))
    end.

(** ** The handlers *)

Definition write_api {W} `{Writer W} (out : api_out) (w : W) : W :=
  match ao_value out with
  | VNotFound => http_Error "404 page not found" 404 w
  | v => w_Write (encode_api v +:+ nl) (WriteHeader (ao_status out) (json_header w))
  end.

Definition msg_json (field msg : string) : string := "{" +:+ quoted field +:+ ":" +:+ quoted msg +:+ "}".

(** The purge handler [main] sets: 405, 502 with the error, or done. *)
Definition purge_handler (sv : Server) (io : cp_io) : HttpHandler Program := fun W _ s w r =>
  if negb (String.eqb (r_Method r) "POST") then (s, w_Write (msg_json "error" "method not allowed") (WriteHeader 405 (json_header w)))
  else
    let p := pg_plane s in
    let '(edges, err) := PurgeAll edge_endpoint host_of (ci_sched io) (syncer sv (pl_store p)) (pl_edges p) in
    let s := set_pg_plane (with_edges edges p) s in
    match err with
    | Some err => (s, w_Write (encode_api (VMsg "error" err) +:+ nl) (WriteHeader 502 (json_header w)))
    | None => (s, w_Write (encode_api (VMsg "status" "purged") +:+ nl) (json_header w))
    end.

(** How the certificate handlers answer. *)
Definition write_cert {W} `{Writer W} (status : Z) (v : cert_value) (w : W) : W :=
  match v with
  | CVError msg => if status =? 405 then w_Write (msg_json "error" "method not allowed") (WriteHeader 405 (json_header w))
                   else w_Write (encode_api (VMsg "error" msg) +:+ nl) (WriteHeader status (json_header w))
  | CVDeleted => w_Write (msg_json "status" "deleted") (json_header w)
  | _ => w_Write (encode_cert v +:+ nl) (if status =? 200 then json_header w else WriteHeader status (json_header w))
  end.

Definition wired_serve (sv : Server) (io : cp_io) (h : wired_handler) : HttpHandler Program := fun W _ s w r =>
  match h with
  | AnalyticsIngest => let '(c, w) := HandleIngest (ci_entries io) (pg_collector s) w r in (set_pg_collector c s, w)
  | AnalyticsQuery => (s, HandleQuery (pg_collector s) w r)
  | PurgeHandler => purge_handler sv io W _ s w r
  | CertsHandler => let '(m, status, v) := HandleCerts (ci_zero io) (ci_cert io) (ci_cert_body io) (pg_certs s) r in
                    (set_pg_certs m s, write_cert status v w)
  | CertHandler => let '(m, status, v) := HandleCert (ci_cert io) (pg_certs s) r in (set_pg_certs m s, write_cert status v w)
  end.

(** [apiServer.Handler()] *)
Definition serve_api (sv : Server) (io : cp_io) : HttpHandler Program := fun W _ s w r =>
  let out := api_handler sv (ci_store io) (pl_store (pg_plane s)) r (ci_body io) in
  let s := set_pg_plane (plane_request sv (ci_store io) r (ci_body io) (pg_plane s)) s in
  match ao_value out with
  | VWired h => wired_serve sv io h W _ s w r
  | _ => (s, write_api out w)
  end.

Definition health : HttpHandler Program := fun W _ s w _ => (s, w_Write "ok" (WriteHeader 200 w)).

(** The listener's mux. *)
Definition cp_mux (sv : Server) (io : cp_io) : HttpHandler Program :=
  mux [("/livez", health); ("/readyz", health)]%string (fun W _ s w r =>
    if HasPrefix (r_Path r) "/api/" then serve_api sv io W _ s w r else (s, dashboard W _ w r)).

(** ** Everything that happens: requests, pushes and polls and what the edges do, the
    minute's flush, the day's renewals *)
Inductive program_step (sv : Server) : Program -> Program -> Prop :=
  | pg_request s io r : program_step sv s (cp_mux sv io _ _ s new_writer r).1
  | pg_net s p : plane_step sv fault host_of (pg_plane s) p -> program_step sv s (set_pg_plane p s)
  | pg_flush s write : program_step sv s (set_pg_stats (flushStats write (pg_collector s) (pg_stats s)) s)
  | pg_renew s zero now ios : program_step sv s (set_pg_certs (checkRenewals zero now ios (pg_certs s)) s).

End program.

(** ** Who may change what *)

Section facts.
Context `{StoreJson} `{RangeOrder} `{UrlQuery} `{ConfigMarshal} `{ConfigJson} `{StatsJson} `{CertLib} `{ApiJson} `{PurgeJson}.
Variable fault : string -> option string.
Variable host_of : string -> string.
Variable peers_of : string -> list string.
Variable peer_sched : string -> list nat.
Variable peer_post : string -> Request -> string -> gmap string pushed_edge -> gmap string pushed_edge * (string + Z).
Variable dashboard : forall W, Writer W -> W -> Request -> W.
Abbreviation serve := (cp_mux fault host_of peers_of peer_sched peer_post dashboard).
Abbreviation endpoint := (edge_endpoint fault host_of peers_of peer_sched peer_post).

(** [main] starts, or says why not: with a key and every part opened it runs on the store
    the file holds, the counters and the certificates on disk; the environment wins. *)
Theorem cp_main_starts io Getenv flags edges f s :
  cp_main io Getenv flags edges = inr (f, s) <->
  f = env_overrides Getenv flags /\ adminKey f <> ""%string /\
  exists st, Store.New (cb_store_mkdir io) (cb_store_file io) = inr st /\ pg_plane s = started st edges /\
    NewCollector (cb_stats_mkdir io) (dataDir f) (cb_stats_file io) = inr (pg_collector s) /\ pg_stats s = cb_stats_file io /\
    NewManager (cb_certs_mkdir io) (cb_certs_files io) (dataDir f) = inr (pg_certs s).
Proof.
  unfold cp_main. cbv zeta. set (f0 := env_overrides Getenv flags). destruct (String.eqb_spec (adminKey f0) "") as [E | Hne].
  { split; [done |]. by intros (-> & Hk & _). }
  destruct (Store.New _ _) as [e | st] eqn:Es; [split; [done | by intros (_ & _ & st & [=] & _)] |].
  destruct (NewCollector _ (dataDir f0) _) as [e | c] eqn:Ec.
  { split; [done |]. intros (-> & _ & st' & _ & _ & E & _). fold f0 in E. by rewrite Ec in E. }
  destruct (NewManager _ _ (dataDir f0)) as [e | m] eqn:Em.
  { split; [done |]. intros (-> & _ & st' & _ & _ & _ & _ & E). fold f0 in E. by rewrite Em in E. }
  split.
  - intros [= <- <-]. split_and!; [done | done |]. exists st. by split_and!.
  - intros (-> & _ & st' & [= <-] & Hp & Hc & Hst & Hm). fold f0 in Hc, Hm. rewrite Ec in Hc. rewrite Em in Hm. injection Hc as ->. injection Hm as ->.
    do 2 f_equal. destruct s. cbn in *. by subst.
Qed.

Lemma cp_main_runs io Getenv flags edges f s :
  cp_main io Getenv flags edges = inr (f, s) -> adminKey f <> ""%string /\ exists st, pg_plane s = started st edges.
Proof. intros Hm. apply cp_main_starts in Hm as (_ & Hk & st & _ & Hp & _). split; [done | by exists st]. Qed.

(** The mux by the path. *)
Lemma cp_mux_api sv io W (HW : Writer W) s (w : W) r :
  HasPrefix (r_Path r) "/api/" = true -> serve sv io W _ s w r = serve_api fault host_of peers_of peer_sched peer_post sv io W _ s w r.
Proof.
  intros Hp. unfold cp_mux. rewrite mux_root; [by rewrite Hp |].
  cbn. intros [E | [E | []%elem_of_nil]%elem_of_cons]%elem_of_cons; by rewrite E in Hp.
Qed.

Lemma cp_mux_other sv io W (HW : Writer W) s (w : W) r :
  HasPrefix (r_Path r) "/api/" = false -> (serve sv io W _ s w r).1 = s.
Proof.
  intros Hp. unfold cp_mux, mux. destruct (List.find _ _) as [[path h] |] eqn:E; [| by rewrite Hp].
  apply List.find_some in E. destruct E as [[E | [E | []]] _]; by injection E as <- <-.
Qed.

(** C19: Nobody without a key changes the control plane: a request whose key is neither the
    administrator's nor a tenant's leaves the store, the edges, the pushes under way and
    the certificates alone, whatever the path; the statistics change on the ingest path
    only; and under /api/ it is refused, but for that path and the configuration snapshot. *)
Theorem stranger_changes_nothing sv io s r :
  ~ known_key sv (pl_store (pg_plane s)) r ->
  let out := serve sv io _ _ s new_writer r in
  pl_store (pg_plane out.1) = pl_store (pg_plane s) /\ pl_edges (pg_plane out.1) = pl_edges (pg_plane s) /\
  pl_pushes (pg_plane out.1) = pl_pushes (pg_plane s) /\ pg_certs out.1 = pg_certs s /\
  (r_Path r <> "/api/v1/analytics/ingest"%string -> pg_collector out.1 = pg_collector s /\
     (HasPrefix (r_Path r) "/api/" = true -> r_Path r <> "/api/v1/config"%string -> w_status out.2 = 401 \/ w_status out.2 = 404)).
Proof.
  intros Hk. cbv zeta. destruct (HasPrefix (r_Path r) "/api/") eqn:Hp; [| by rewrite cp_mux_other by done].
  rewrite cp_mux_api by done. unfold serve_api, plane_request.
  destruct (stranger_answer sv (ci_store io) (pl_store (pg_plane s)) r (ci_body io) Hk) as [-> | [-> | [[Hc ->] | [Hi ->]]]].
  - cbn. rewrite app_nil_r. split_and!; auto.
  - cbn. rewrite app_nil_r. split_and!; auto.
  - unfold handleConfig. destruct (negb _); cbn; rewrite app_nil_r; split_and!; try done; intros _; by split.
  - unfold handleAnalyticsIngest, call_wired. destruct (sv_analyticsIngest sv); cbn; [| rewrite app_nil_r; split_and!; try done; intros Hne; by destruct (Hne Hi)].
    destruct (HandleIngest _ _ _ _) as [c w']. cbn. rewrite app_nil_r. split_and!; auto. intros Hne. by destruct (Hne Hi).
Qed.

(** ** The purge of every edge *)

Section purge.
Context `{!PurgeJsonLaws}.

(** What the sender of a purge is told by the edge at [addr]. *)
Definition purge_answer (key : string) (w : gmap string pushed_edge) (addr : string) : string + Z :=
  match fault addr, w !! addr with
  | Some err, _ => inl err
  | None, None => inl "no such host"%string
  | None, Some _ => if takes_push fault key w addr then inr 200 else inr 401
  end.

Lemma purged_twice e : purged (purged e) = purged e.
Proof.
  unfold purged, set_handler, mt_with_cache. cbn. by rewrite Purge_twice.
Qed.

Lemma purge_one key addr w :
  key <> ""%string ->
  endpoint addr (push_request host_of key addr "/purge") purge_body w
  = (if takes_push fault key w addr then alter purged addr w else w, purge_answer key w addr).
Proof.
  intros Hkey. unfold edge_endpoint, purge_answer, takes_push. cbn [push_request r_Path String.eqb Ascii.eqb Bool.eqb negb].
  destruct (fault addr); [done |]. destruct (w !! addr) as [e |] eqn:E; [| done].
  set (sp := ServePurge _ _ _ _ _ _ _).
  assert (Hserve : sp _ _ w new_writer (push_request host_of key addr "/purge")
    = (alter purged addr w, w_Write ("{" +:+ quoted "status" +:+ ":" +:+ quoted "purged" +:+ "," +:+ quoted "scope" +:+ ":" +:+ quoted "local" +:+ "}") (json_header new_writer)))
    by (unfold sp, ServePurge; cbn [push_request r_Method String.eqb Ascii.eqb Bool.eqb negb]; unfold purge_body; by rewrite decode_purgeRequest).
  assert (Hh : Header_Get (r_Header (push_request host_of key addr "/purge")) "X-API-Key" = key) by (unfold push_request; cbn [r_Header]; apply Header_Get_Set).
  unfold AdminAuth. rewrite Hh. destruct (String.eqb (pe_key e) ""); cbn [orb]; [by rewrite Hserve |].
  rewrite (proj2 (String.eqb_neq key "") Hkey), String.eqb_sym. destruct (String.eqb (pe_key e) key); cbn [negb]; [by rewrite Hserve | done].
Qed.

Lemma takes_push_purged key addr addr' (w : gmap string pushed_edge) :
  takes_push fault key (alter purged addr w) addr' = takes_push fault key w addr' /\
  purge_answer key (alter purged addr w) addr' = purge_answer key w addr'.
Proof.
  assert (Ht : takes_push fault key (alter purged addr w) addr' = takes_push fault key w addr').
  { unfold takes_push. destruct (fault addr'); [done |]. destruct (decide (addr = addr')) as [-> | Hne].
    - rewrite lookup_alter_eq. by destruct (w !! addr').
    - by rewrite lookup_alter_ne. }
  split; [done |]. unfold purge_answer. rewrite Ht. destruct (fault addr'); [done |].
  destruct (decide (addr = addr')) as [-> | Hne]; [rewrite lookup_alter_eq; by destruct (w !! addr') | by rewrite lookup_alter_ne].
Qed.

(** An edge that is up and takes the key answers well, and only such an edge. *)
Lemma purge_answer_ok key w addr : push_error (purge_answer key w addr) = None <-> takes_push fault key w addr = true.
Proof.
  unfold purge_answer, takes_push. destruct (fault addr); [done |]. destruct (w !! addr) as [e |]; [| done].
  by destruct (_ || _).
Qed.

(** [PurgeAll]: who is purged, and whether it reports success. *)
Lemma PurgeAll_purges sched sy w :
  sy_adminKey sy <> ""%string -> sched ≡ₚ seq 0 (length (active_edges (sy_store sy))) ->
  let edges := active_edges (sy_store sy) in
  let '(w', err) := PurgeAll endpoint host_of sched sy w in
  (forall addr, w' !! addr = if bool_decide (addr ∈ map en_Addr edges) && takes_push fault (sy_adminKey sy) w addr then purged <$> w !! addr else w !! addr) /\
  (err = None <-> forall e, e ∈ edges -> takes_push fault (sy_adminKey sy) w (en_Addr e) = true).
Proof.
  intros Hkey Hs. cbv zeta. set (edges := active_edges (sy_store sy)) in *. set (key := sy_adminKey sy) in *. unfold PurgeAll. fold edges.
  set (call := fun e w => let '(w, err) := pushToEdge endpoint host_of sy (en_Addr e) "/purge" purge_body w in (w, name_error e err)).
  set (same := fun w' : gmap string pushed_edge => forall a, takes_push fault key w' a = takes_push fault key w a /\ purge_answer key w' a = purge_answer key w a).
  assert (Hcall : forall e w', same w' -> call e w' = (if takes_push fault key w (en_Addr e) then alter purged (en_Addr e) w' else w',
      name_error e (push_error (purge_answer key w (en_Addr e))))).
  { intros e w' Hw. unfold call, pushToEdge. fold key. rewrite purge_one by done. by destruct (Hw (en_Addr e)) as [-> ->]. }
  assert (Hsame : forall k w', same w' -> same (alter purged k w')) by (intros k w' Hw a; destruct (takes_push_purged key k a w') as [-> ->]; apply Hw).
  assert (Hw0 : same w) by done.
  pose proof (fun addr => fan_out_alter call edges en_Addr purged (takes_push fault key w) same purged_twice Hsame
    ltac:(intros e w' Hw; by rewrite (Hcall e w' Hw)) sched w addr Hw0) as Hedges.
  pose proof (fan_out_answers call same (fun e => name_error e (push_error (purge_answer key w (en_Addr e)))) edges
    ltac:(intros e w' _ Hw; rewrite (Hcall e w' Hw); split; [cbn; by destruct (takes_push fault key w (en_Addr e)); [apply Hsame |] | done]) sched w [] Hw0) as Hans.
  unfold fan_out in *. destruct (foldl (fan_step call edges) (w, []) sched) as [w' out]. destruct Hans as [_ ->]. split.
  - intros addr. cbn [fst] in Hedges. rewrite Hedges, (called_all en_Addr edges sched addr Hs). done.
  - cbn [app]. pose proof (no_errors _ edges _ (collected_errors (fun e => name_error e (push_error (purge_answer key w (en_Addr e)))) edges sched Hs)) as Hn.
    assert (Hok : forall e, name_error e (push_error (purge_answer key w (en_Addr e))) = None <-> takes_push fault key w (en_Addr e) = true)
      by (intros e; unfold name_error; rewrite fmap_None; apply purge_answer_ok).
    setoid_rewrite Hok in Hn. rewrite <- Hn. by destruct (omap snd _).
Qed.

(** C20: The customer's purge: with the administrator's key or any tenant's, a POST empties the
    cache of every active edge that is up and shares the key, of no other edge and of
    nothing else of an edge, in whatever order the requests land; it is answered 200
    exactly when every active edge took it, and 502 otherwise. *)
Theorem customer_purge sv io s r :
  sv_purgeHandler sv = true -> sv_adminKey sv <> ""%string -> known_key sv (pl_store (pg_plane s)) r ->
  r_Path r = "/api/v1/purge"%string -> r_Method r = "POST"%string ->
  let edges := active_edges (pl_store (pg_plane s)) in
  let takes := takes_push fault (sv_adminKey sv) (pl_edges (pg_plane s)) in
  ci_sched io ≡ₚ seq 0 (length edges) ->
  let out := serve sv io _ _ s new_writer r in
  (forall addr, pl_edges (pg_plane out.1) !! addr
     = if bool_decide (addr ∈ map en_Addr edges) && takes addr then purged <$> pl_edges (pg_plane s) !! addr else pl_edges (pg_plane s) !! addr) /\
  w_status out.2 = (if forallb (fun e => takes (en_Addr e)) edges then 200 else 502) /\
  pl_store (pg_plane out.1) = pl_store (pg_plane s).
Proof.
  intros Hset Hkey Hk Hp Hm. cbv zeta. intros Hs. rewrite cp_mux_api by (by rewrite Hp).
  unfold serve_api, plane_request. assert (Hapi : api_handler sv (ci_store io) (pl_store (pg_plane s)) r (ci_body io)
    = {| ao_store := pl_store (pg_plane s); ao_status := 0; ao_value := VWired PurgeHandler; ao_notify := false |}).
  { unfold api_handler. rewrite Hp. cbn [String.eqb Ascii.eqb Bool.eqb]. rewrite api_auth_passes by done. unfold handlePurge. by rewrite Hset. }
  rewrite Hapi. cbn [ao_value wired_serve]. unfold purge_handler. rewrite Hm. cbn [String.eqb Ascii.eqb Bool.eqb negb set_pg_plane pg_plane pl_store pl_edges ao_store].
  pose proof (PurgeAll_purges (ci_sched io) (syncer sv (pl_store (pg_plane s))) (pl_edges (pg_plane s)) Hkey Hs) as Hpurge.
  cbn [syncer New sy_store sy_adminKey] in Hpurge. change (New (pl_store (pg_plane s)) (sv_adminKey sv)) with (syncer sv (pl_store (pg_plane s))) in Hpurge.
  destruct (PurgeAll _ _ _ _ _) as [w' err]. destruct Hpurge as [Hedges Herr].
  assert (Hall : forallb (fun e => takes_push fault (sv_adminKey sv) (pl_edges (pg_plane s)) (en_Addr e)) (active_edges (pl_store (pg_plane s))) = true <-> err = None).
  { rewrite forallb_forall, Herr. split; intros Ha e He; by apply Ha, list_elem_of_In. }
  destruct (forallb _ _), err as [err |]; try (by split_and!).
  - exfalso. by pose proof (proj1 Hall eq_refl).
  - exfalso. by pose proof (proj2 Hall eq_refl).
Qed.

(** ** The program and the system of control plane and edges *)

(** A purge is a run of steps of the edges. *)
Lemma with_edges_same p : with_edges (pl_edges p) p = p.
Proof. by destruct p. Qed.

Lemma purge_edge_steps sv addr p : rtc (plane_step sv fault host_of) p (with_edges (alter purged addr (pl_edges p)) p).
Proof.
  destruct (pl_edges p !! addr) as [e |] eqn:E.
  - assert (Ha : alter purged addr (pl_edges p) = <[addr := purged e]> (pl_edges p)).
    { apply map_eq. intros a. destruct (decide (addr = a)) as [<- | Hne]; [by rewrite lookup_alter_eq, lookup_insert_eq, E | by rewrite lookup_alter_ne, lookup_insert_ne]. }
    rewrite Ha. apply rtc_once. by apply ps_edge.
  - assert (Ha : alter purged addr (pl_edges p) = pl_edges p).
    { apply map_eq. intros a. destruct (decide (addr = a)) as [<- | Hne]; [by rewrite lookup_alter_eq, E | by rewrite lookup_alter_ne]. }
    rewrite Ha, with_edges_same. apply rtc_refl.
Qed.

Lemma purges_run sv sy (edges : list EdgeNode) sched : forall p out,
  sy_adminKey sy <> ""%string ->
  rtc (plane_step sv fault host_of) p
    (with_edges (foldl (fan_step (fun e w => let '(w, err) := pushToEdge endpoint host_of sy (en_Addr e) "/purge" purge_body w in (w, name_error e err)) edges)
                   (pl_edges p, out) sched).1 p).
Proof.
  induction sched as [| i sched IH]; intros p out Hkey; cbn [foldl fst]; [rewrite with_edges_same; apply rtc_refl |].
  unfold fan_step at 2. cbn [fst snd]. destruct (edges !! i) as [e |]; [| by apply IH].
  unfold pushToEdge at 2. rewrite purge_one by done.
  destruct (takes_push fault (sy_adminKey sy) (pl_edges p) (en_Addr e)); [| by apply IH].
  etrans; [apply (purge_edge_steps sv (en_Addr e)) |]. exact (IH (with_edges (alter purged (en_Addr e) (pl_edges p)) p) _ Hkey).
Qed.

Lemma PurgeAll_is_a_run sv sched p :
  sv_adminKey sv <> ""%string ->
  rtc (plane_step sv fault host_of) p (with_edges (PurgeAll endpoint host_of sched (syncer sv (pl_store p)) (pl_edges p)).1 p).
Proof.
  intros Hkey. pose proof (purges_run sv (syncer sv (pl_store p)) (active_edges (pl_store p)) sched p [] Hkey) as Hrun.
  unfold PurgeAll, fan_out. cbn [syncer New sy_store] in *. by destruct (foldl _ _ _) as [w out].
Qed.

(** The whole program is the system of control plane and edges, and more: whatever
    requests come, with the statistics and the certificates they change, whatever is
    pushed, polled, purged, flushed and renewed, the store, the pushes and the edges are
    where steps of that system lead. *)
Lemma program_refines_plane sv s s' :
  sv_adminKey sv <> ""%string ->
  rtc (program_step fault host_of peers_of peer_sched peer_post dashboard sv) s s' ->
  rtc (plane_step sv fault host_of) (pg_plane s) (pg_plane s').
Proof.
  intros Hkey Hr. induction Hr as [| s s1 s2 Hs _ IH]; [apply rtc_refl |]. etrans; [| exact IH]. clear IH.
  destruct Hs as [s io r | s p Hp | s write | s zero now ios]; [| by apply rtc_once | apply rtc_refl | apply rtc_refl].
  destruct (HasPrefix (r_Path r) "/api/") eqn:Hp; [| rewrite cp_mux_other by done; apply rtc_refl].
  rewrite cp_mux_api by done. unfold serve_api. eapply rtc_l; [apply (ps_request sv fault host_of _ (ci_store io) r (ci_body io)) |].
  set (p1 := plane_request sv (ci_store io) r (ci_body io) (pg_plane s)). set (sp := set_pg_plane p1 s).
  destruct (ao_value _) as [| | | | | | | | | | | | | h]; try apply rtc_refl. destruct h; cbn [wired_serve].
  - destruct (HandleIngest _ _ _ _) as [c w]. apply rtc_refl.
  - apply rtc_refl.
  - unfold purge_handler. destruct (negb _); [apply rtc_refl |].
    pose proof (PurgeAll_is_a_run sv (ci_sched io) (pg_plane sp) Hkey) as Hrun.
    by destruct (PurgeAll _ _ _ _ _) as [w' [err |]].
  - destruct (HandleCerts _ _ _ _ _) as [[m st] v]. apply rtc_refl.
  - destruct (HandleCert _ _ _) as [[m st] v]. apply rtc_refl.
Qed.

(** C18: End to end, edges route only what the control plane had: from any start of the control
    plane with edges that have no configuration yet, whatever requests come to its listener,
    however pushes, polls, losses and the edges' own work interleave, a hostname an edge
    knows belongs to a domain that was, in one store the control plane has had, active with
    an active tenant; the edge has that domain as it is, but for bytes that are not UTF-8,
    which JSON replaces. *)
Theorem program_routes_true `{JsonText} io Getenv flags edges f s s' addr e hostname d :
  wire_faithful -> (forall addr e, edges !! addr = Some e -> mt_config (pe_handler e) = None) ->
  cp_main io Getenv flags edges = inr (f, s) ->
  rtc (program_step fault host_of peers_of peer_sched peer_post dashboard (apiServer (adminKey f))) s s' ->
  pl_edges (pg_plane s') !! addr = Some e -> lookupDomain (mt_config (pe_handler e)) hostname = Some d ->
  exists st id d0 t, st ∈ pl_history (pg_plane s') /\ sd_Domains (s_data st) !! id = Some d0 /\ d = text_domain d0 /\
    hostname = json_text (d_Hostname d0) /\ (is_ascii (d_Hostname d0) = true -> hostname = d_Hostname d0) /\ d_Active d0 = true /\
    sd_Tenants (s_data st) !! d_TenantID d0 = Some t /\ t_Active t = true.
Proof.
  intros Hw He Hmain Hr Hl Hd. apply cp_main_runs in Hmain as (Hkey & st0 & Hp). apply program_refines_plane in Hr; [| done].
  cut (had_domain (pl_history (pg_plane s')) hostname d).
  { intros (st & id & d0 & t & Hin & E & -> & -> & Ha & Ht & Hta). exists st, id, d0, t. split_and!; try done. apply json_text_ascii. }
  refine (plane_ok_routes _ addr e hostname d _ Hl Hd).
  apply (rtc_invariant (plane_step (apiServer (adminKey f)) fault host_of) plane_ok (pg_plane s)); [rewrite Hp; by apply started_ok | | done].
  intros p1 p2 Hok Hs. by apply (plane_step_ok (apiServer (adminKey f)) fault host_of p1).
Qed.

Lemma plane_keys sv p p' :
  rtc (plane_step sv fault host_of) p p' -> keys_issued (s_data (pl_store p)) -> keys_issued (s_data (pl_store p')).
Proof.
  induction 1 as [| p p1 p2 Hs _ IH]; [done |]. intros Hk. apply IH. destruct (plane_step_stored _ _ _ _ _ Hs) as [io [-> | [op ->]]]; [done |].
  by apply store_step_keys.
Qed.

(** Every key the control plane accepts is the administrator's or one it made itself: from
    a start without a store file, however it runs, a request with any other key, and one
    without a key, is a stranger's. *)
Theorem keys_are_issued io Getenv flags edges f s s' r :
  cp_main io Getenv flags edges = inr (f, s) -> cb_store_file io = inr None ->
  rtc (program_step fault host_of peers_of peer_sched peer_post dashboard (apiServer (adminKey f))) s s' ->
  known_key (apiServer (adminKey f)) (pl_store (pg_plane s')) r ->
  extractAPIKey r <> ""%string /\ (extractAPIKey r = adminKey f \/ exists random, extractAPIKey r = genAPIKey random).
Proof.
  intros Hmain Hf Hr. apply cp_main_starts in Hmain as (_ & Hkey & st & Hst & Hp & _). rewrite Hf in Hst.
  unfold Store.New in Hst. destruct (cb_store_mkdir io); [done |]. injection Hst as <-.
  apply program_refines_plane in Hr; [| done]. apply plane_keys in Hr; [| rewrite Hp; cbn; intros k t Hk; done].
  intros [E | (k & t & Ht & E)].
  - rewrite E. cbn. split; [done | by left].
  - destruct (Hr k t Ht) as [random Eg]. rewrite <- E, Eg. split; [done | right; by eexists].
Qed.

End purge.

End facts.

(** ** A concrete control plane *)

#[local] Existing Instances list_order Purge.no_query text_marshal text_json text_kept some_lib stats_json purge_json purge_json_laws.
#[local] Instance api_text : ApiJson := {| encode_api _ := "{}"%string; encode_cert _ := "{}"%string |}.
(** One file, the store with an edge. *)
#[local] Instance one_file : StoreJson :=
  {| Marshal_store _ := Some "saved"%string; Unmarshal_store s := if String.eqb s "db" then Some (s_data one_edge) else None; store_textual _ := True |}.

Definition files_there : cp_boot_io :=
  {| cb_store_mkdir := None; cb_store_file := inr (Some "db"%string); cb_stats_mkdir := None; cb_stats_file := None;
     cb_certs_mkdir := None; cb_certs_files := ∅ |}.
Definition secret_flags : cp_flags := {| listen := ":9090"; adminKey := "secret"; dataDir := "" |}.
Definition no_env (_ : string) : string := "".
Definition boot_program : cp_fatal + cp_flags * Program := cp_main files_there no_env secret_flags the_edge.
Definition program0 : Program :=
  {| pg_plane := started {| s_data := s_data one_edge; s_file := Some "db"%string |} the_edge; pg_collector := {| co_stats := ∅; co_dir := "" |};
     pg_stats := None; pg_certs := {| m_dir := "certs"; m_certs := ∅; m_tlsCerts := ∅; m_acme := None; m_selfSignedOnly := true; m_files := ∅ |} |}.

Lemma program0_boots : cp_main files_there no_env secret_flags the_edge = inr (secret_flags, program0).
Proof. reflexivity. Qed.

Definition an_io : cp_io :=
  {| ci_store := io_of [1]; ci_body := no_body; ci_entries := None; ci_cert := good_io 0; ci_cert_body := None; ci_zero := ("", "")%string; ci_sched := [0%nat] |}.
Abbreviation ask := (cp_mux up id (fun _ => []) (fun _ => []) (fun _ _ _ w => (w, inr 200)) (fun W _ w _ => http_Error "404 page not found" 404 w) (apiServer "secret") an_io ResponseWriter _).

(** A guess of a key. *)
Lemma stranger_changes_nothing_witness :
  w_status (ask program0 new_writer (api_req "DELETE" "/api/v1/domains/1" "guess")).2 = 401 \/
  w_status (ask program0 new_writer (api_req "DELETE" "/api/v1/domains/1" "guess")).2 = 404.
Proof.
  refine (proj2 (proj2 (proj2 (proj2 (proj2 (stranger_changes_nothing up id (fun _ => []) (fun _ => []) (fun _ _ _ w => (w, inr 200))
    (fun W _ w _ => http_Error "404 page not found" 404 w) (apiServer "secret") an_io program0 (api_req "DELETE" "/api/v1/domains/1" "guess") _)))) _) _ _);
    [| discriminate | reflexivity | discriminate].
  intros [E | (k & t & Ht & Ek)]; [revert E; vm_compute; discriminate |].
  assert (Hin : (k, t) ∈ map_to_list (sd_Tenants (s_data one_edge))) by by apply elem_of_map_to_list.
  revert Hin Ek. vm_compute. intros Hin. repeat (apply elem_of_cons in Hin; destruct Hin as [[= -> ->] | Hin]; [vm_compute; discriminate |]). by apply elem_of_nil in Hin.
Defined.

(** A purge with a tenant's key. *)
Lemma customer_purge_witness : w_status (ask program0 new_writer (api_req "POST" "/api/v1/purge" "cdnk_t1")).2 = 200.
Proof.
  refine (proj1 (proj2 (customer_purge up id (fun _ => []) (fun _ => []) (fun _ _ _ w => (w, inr 200))
    (fun W _ w _ => http_Error "404 page not found" 404 w) (apiServer "secret") an_io program0 (api_req "POST" "/api/v1/purge" "cdnk_t1")
    eq_refl _ _ eq_refl eq_refl _))); [discriminate | right; exists "t1"%string, (sample_tenant "t1"); split; reflexivity | vm_compute; reflexivity].
Defined.

(** A domain is deleted over HTTP and the push reaches the edge. *)
Definition program1 : Program := (ask program0 new_writer (delete_domain "1")).1.
Definition program2 : Program := set_pg_plane (push_list 0 (pg_plane program1)) program1.
Definition listed_edges : list EdgeNode := active_edges (pl_store (pg_plane program1)).
Definition program3 : Program := set_pg_plane (push_build 9 0 listed_edges (pg_plane program2)) program2.
Definition program4 : Program := set_pg_plane (push_send (apiServer "secret") up id 0 0 listed_edges [] (write_text (BuildEdgeConfig 9 after_first)) (pg_plane program3)) program3.

Lemma program4_runs :
  rtc (program_step up id (fun _ => []) (fun _ => []) (fun _ _ _ w => (w, inr 200)) (fun W _ w _ => http_Error "404 page not found" 404 w) (apiServer "secret"))
    program0 program4.
Proof.
  eapply rtc_l; [apply (pg_request up id _ _ _ _ (apiServer "secret") program0 an_io (delete_domain "1")) |].
  eapply rtc_l; [apply pg_net, (ps_list _ _ _ (pg_plane program1) 0); vm_compute; reflexivity |].
  eapply rtc_l; [apply pg_net, (ps_build _ _ _ (pg_plane program2) 0 9 listed_edges); vm_compute; reflexivity |].
  eapply rtc_l; [apply pg_net, (ps_send _ _ _ (pg_plane program3) 0 0 listed_edges [0%nat] [] (write_text (BuildEdgeConfig 9 after_first))); vm_compute; reflexivity |].
  apply rtc_refl.
Qed.

(** The push is under way over the concrete codec, and the edge has what was written. *)
Lemma program_routes_true_witness :
  exists st id d0 t, st ∈ pl_history (pg_plane program4) /\ sd_Domains (s_data st) !! id = Some d0 /\
    sample_domain "2" "t2" "b.com" "http://origin-b" = text_domain d0 /\ "b.com"%string = json_text (d_Hostname d0) /\
    (is_ascii (d_Hostname d0) = true -> "b.com"%string = d_Hostname d0) /\ d_Active d0 = true /\
    sd_Tenants (s_data st) !! d_TenantID d0 = Some t /\ t_Active t = true.
Proof.
  refine (program_routes_true up id (fun _ => []) (fun _ => []) (fun _ _ _ w => (w, inr 200)) (fun W _ w _ => http_Error "404 page not found" 404 w)
    files_there no_env secret_flags the_edge secret_flags program0 program4 "http://a"
    {| pe_key := "secret"; pe_handler := UpdateConfig tiny_mt (BuildEdgeConfig 9 after_first) |} "b.com"
    (sample_domain "2" "t2" "b.com" "http://origin-b") text_faithful the_edge_fresh program0_boots program4_runs _ _); vm_compute; reflexivity.
Defined.
