(* ===== verification/Handshake.v ===== *)
(** * The handshake offload listener ([handshake/offload.go])

    The goroutines of an [OffloadListener] (the accept loop, the workers, the callers of
    [Accept], the drainer that [Close] starts) as program counters, and their atomic
    actions on the shared channels and counters as a step relation. A [select] with
    several ready cases takes any of them, as in Go, and its [default] only when none is.
    What the inner listener yields and how a TLS handshake ends are choices of the
    environment. The ghost fields record what became of every connection. *)

From S2P Require Import Prelude.
From stdpp Require Import relations.

Local Open Scope Z_scope.

(** A connection is known by a number. *)
Abbreviation conn := nat (only parsing).

Record Config := { Workers : Z; QueueSize : Z; HandshakeTimeout : Z }.

(** The defaults of [NewOffloadListener]. *)
Definition with_defaults (numCPU : Z) (cfg : Config) : Config :=
  {| Workers := if Workers cfg <=? 0 then (if numCPU * 2 <? 2 then 2 else numCPU * 2) else Workers cfg;
     QueueSize := if QueueSize cfg <=? 0 then 1024 else QueueSize cfg;
     HandshakeTimeout := if HandshakeTimeout cfg <=? 0 then 10 * 1000000000 else HandshakeTimeout cfg |}.

Inductive acceptResult := ARConn (c : conn) | ARErr (err : string).

(** An error of [inner.Accept]; a timeout is retried. *)
Record accept_error := { ae_msg : string; ae_timeout : bool }.

(** How the calls of [handshake] end. *)
Record tls_outcome := { to_deadline : option string; to_handshake : option string; to_clear : option string }.

(** The [tlsConfig] of a listener, as the ways a handshake under it can end; [None] for a
    listener without. *)
Definition tls_behaviour : Type := option (tls_outcome -> Prop).
Definition possible (tlsConfig : tls_behaviour) (o : tls_outcome) : Prop :=
  match tlsConfig with None => True | Some ends => ends o end.

(** [handshake]: the error; the deadline is set before the handshake and cleared after it. *)
Definition handshake (tlsConfig : tls_behaviour) (o : tls_outcome) : option string :=
  match tlsConfig with
  | None => None
  | Some _ =>
       match to_deadline o with
       | Some err => Some err
       | None => match to_handshake o with
                 | Some err => Some err
                 | None => to_clear o
                 end
       end
  end.

(** Where a goroutine is. *)
Inductive accept_pc :=
  | ALoop                           (* the top of the loop *)
  | AAccept                         (* in [inner.Accept] *)
  | AErr (err : accept_error)       (* it returned an error *)
  | AForward (err : string)         (* at the [select] that forwards it *)
  | AEnqueue (raw : conn)           (* at the [select] that enqueues *)
  | ACount                          (* enqueued, before [queued.Add(1)] *)
  | AReturn                         (* returning: the deferred calls *)
  | ADone.

Inductive worker_pc :=
  | WRecv                           (* [range l.inbox] *)
  | WCount (raw : conn)             (* received, before [queued.Add(-1)] *)
  | WHandshake (raw : conn)
  | WSend (c : conn)                (* counted as completed, at the [select] *)
  | WDone.

Inductive close_pc := CIdle | CClosing | CWait | CDrain | CDone.

Record OffloadListener := {
  l_inbox : list conn; l_inboxClosed : bool;
  l_outbox : list acceptResult; l_outboxClosed : bool;
  l_closed : bool;                 (* the channel [closed] *)
  l_innerClosed : bool;
  l_queued : Z; l_completed : Z; l_failed : Z;
  l_accept : accept_pc; l_workers : list worker_pc; l_close : close_pc;
  (* ghost: taken from the inner listener, handed to callers of [Accept], closed, and how
     many of those the accept loop closed because of [Close] *)
  g_accepted : list conn; g_delivered : list conn; g_closed : list conn; g_shut : Z
}.

Definition NewOffloadListener (cfg : Config) : OffloadListener :=
  {| l_inbox := []; l_inboxClosed := false; l_outbox := []; l_outboxClosed := false; l_closed := false; l_innerClosed := false;
     l_queued := 0; l_completed := 0; l_failed := 0;
     l_accept := ALoop; l_workers := replicate (Z.to_nat (Workers cfg)) WRecv; l_close := CIdle;
     g_accepted := []; g_delivered := []; g_closed := []; g_shut := 0 |}.

(** [Stats] *)
Definition Stats (l : OffloadListener) : Z * Z * Z := (l_queued l, l_completed l, l_failed l).

(** ** Updates *)

Definition set_accept (pc : accept_pc) (l : OffloadListener) : OffloadListener :=
  {| l_inbox := l_inbox l; l_inboxClosed := l_inboxClosed l; l_outbox := l_outbox l; l_outboxClosed := l_outboxClosed l;
     l_closed := l_closed l; l_innerClosed := l_innerClosed l; l_queued := l_queued l; l_completed := l_completed l;
     l_failed := l_failed l; l_accept := pc; l_workers := l_workers l; l_close := l_close l;
     g_accepted := g_accepted l; g_delivered := g_delivered l; g_closed := g_closed l; g_shut := g_shut l |}.
Definition set_worker (i : nat) (pc : worker_pc) (l : OffloadListener) : OffloadListener :=
  {| l_inbox := l_inbox l; l_inboxClosed := l_inboxClosed l; l_outbox := l_outbox l; l_outboxClosed := l_outboxClosed l;
     l_closed := l_closed l; l_innerClosed := l_innerClosed l; l_queued := l_queued l; l_completed := l_completed l;
     l_failed := l_failed l; l_accept := l_accept l; l_workers := <[i := pc]> (l_workers l); l_close := l_close l;
     g_accepted := g_accepted l; g_delivered := g_delivered l; g_closed := g_closed l; g_shut := g_shut l |}.
Definition set_close (pc : close_pc) (l : OffloadListener) : OffloadListener :=
  {| l_inbox := l_inbox l; l_inboxClosed := l_inboxClosed l; l_outbox := l_outbox l; l_outboxClosed := l_outboxClosed l;
     l_closed := l_closed l; l_innerClosed := l_innerClosed l; l_queued := l_queued l; l_completed := l_completed l;
     l_failed := l_failed l; l_accept := l_accept l; l_workers := l_workers l; l_close := pc;
     g_accepted := g_accepted l; g_delivered := g_delivered l; g_closed := g_closed l; g_shut := g_shut l |}.
Definition set_channels (inbox : list conn) (outbox : list acceptResult) (l : OffloadListener) : OffloadListener :=
  {| l_inbox := inbox; l_inboxClosed := l_inboxClosed l; l_outbox := outbox; l_outboxClosed := l_outboxClosed l;
     l_closed := l_closed l; l_innerClosed := l_innerClosed l; l_queued := l_queued l; l_completed := l_completed l;
     l_failed := l_failed l; l_accept := l_accept l; l_workers := l_workers l; l_close := l_close l;
     g_accepted := g_accepted l; g_delivered := g_delivered l; g_closed := g_closed l; g_shut := g_shut l |}.
Definition set_closings (inboxClosed outboxClosed closed innerClosed : bool) (l : OffloadListener) : OffloadListener :=
  {| l_inbox := l_inbox l; l_inboxClosed := inboxClosed; l_outbox := l_outbox l; l_outboxClosed := outboxClosed;
     l_closed := closed; l_innerClosed := innerClosed; l_queued := l_queued l; l_completed := l_completed l;
     l_failed := l_failed l; l_accept := l_accept l; l_workers := l_workers l; l_close := l_close l;
     g_accepted := g_accepted l; g_delivered := g_delivered l; g_closed := g_closed l; g_shut := g_shut l |}.
Definition add_counts (queued completed failed : Z) (l : OffloadListener) : OffloadListener :=
  {| l_inbox := l_inbox l; l_inboxClosed := l_inboxClosed l; l_outbox := l_outbox l; l_outboxClosed := l_outboxClosed l;
     l_closed := l_closed l; l_innerClosed := l_innerClosed l; l_queued := l_queued l + queued; l_completed := l_completed l + completed;
     l_failed := l_failed l + failed; l_accept := l_accept l; l_workers := l_workers l; l_close := l_close l;
     g_accepted := g_accepted l; g_delivered := g_delivered l; g_closed := g_closed l; g_shut := g_shut l |}.
Definition note (accepted delivered closed : list conn) (shut : Z) (l : OffloadListener) : OffloadListener :=
  {| l_inbox := l_inbox l; l_inboxClosed := l_inboxClosed l; l_outbox := l_outbox l; l_outboxClosed := l_outboxClosed l;
     l_closed := l_closed l; l_innerClosed := l_innerClosed l; l_queued := l_queued l; l_completed := l_completed l;
     l_failed := l_failed l; l_accept := l_accept l; l_workers := l_workers l; l_close := l_close l;
     g_accepted := accepted ++ g_accepted l; g_delivered := delivered ++ g_delivered l; g_closed := closed ++ g_closed l;
     g_shut := g_shut l + shut |}.

Definition Close_conn (c : conn) : OffloadListener -> OffloadListener := note [] [] [c] 0.

(** A buffered channel takes one more element. *)
Definition room {A} (cfg : Config) (ch : list A) : bool := Z.of_nat (length ch) <? QueueSize cfg.

(** ** The atomic actions *)

(** [acceptLoop] *)
Inductive accept_step (cfg : Config) : OffloadListener -> OffloadListener -> Prop :=
  | acc_exit l : l_accept l = ALoop -> l_closed l = true -> accept_step cfg l (set_accept AReturn l)
  | acc_call l : l_accept l = ALoop -> l_closed l = false -> accept_step cfg l (set_accept AAccept l)
  | acc_conn l raw : l_accept l = AAccept -> l_innerClosed l = false ->
      accept_step cfg l (note [raw] [] [] 0 (set_accept (AEnqueue raw) l))
  | acc_err l err : l_accept l = AAccept -> accept_step cfg l (set_accept (AErr err) l)
  | acc_err_closed l err : l_accept l = AErr err -> l_closed l = true -> accept_step cfg l (set_accept AReturn l)
  | acc_err_timeout l err : l_accept l = AErr err -> l_closed l = false -> ae_timeout err = true ->
      accept_step cfg l (set_accept ALoop l)
  | acc_err_final l err : l_accept l = AErr err -> l_closed l = false -> ae_timeout err = false ->
      accept_step cfg l (set_accept (AForward (ae_msg err)) l)
  | acc_forward l err : l_accept l = AForward err -> room cfg (l_outbox l) = true ->
      accept_step cfg l (set_accept AReturn (set_channels (l_inbox l) (l_outbox l ++ [ARErr err]) l))
  | acc_forward_closed l err : l_accept l = AForward err -> l_closed l = true -> accept_step cfg l (set_accept AReturn l)
  | acc_enqueue l raw : l_accept l = AEnqueue raw -> room cfg (l_inbox l) = true ->
      accept_step cfg l (set_accept ACount (set_channels (l_inbox l ++ [raw]) (l_outbox l) l))
  | acc_count l : l_accept l = ACount -> accept_step cfg l (set_accept ALoop (add_counts 1 0 0 l))
  | acc_shut l raw : l_accept l = AEnqueue raw -> l_closed l = true ->
      accept_step cfg l (set_accept AReturn (note [] [] [raw] 1 l))
  | acc_drop l raw : l_accept l = AEnqueue raw -> l_closed l = false -> room cfg (l_inbox l) = false ->
      accept_step cfg l (set_accept ALoop (Close_conn raw (add_counts 0 0 1 l)))
  | acc_return l : l_accept l = AReturn ->
      accept_step cfg l (set_accept ADone (set_closings true (l_outboxClosed l) (l_closed l) (l_innerClosed l) l)).

(** [worker], the [i]-th *)
Inductive worker_step (cfg : Config) (tlsConfig : tls_behaviour) (i : nat) : OffloadListener -> OffloadListener -> Prop :=
  | wrk_recv l raw inbox : l_workers l !! i = Some WRecv -> l_inbox l = raw :: inbox ->
      worker_step cfg tlsConfig i l (set_worker i (WCount raw) (set_channels inbox (l_outbox l) l))
  | wrk_exit l : l_workers l !! i = Some WRecv -> l_inbox l = [] -> l_inboxClosed l = true ->
      worker_step cfg tlsConfig i l (set_worker i WDone l)
  | wrk_count l raw : l_workers l !! i = Some (WCount raw) ->
      worker_step cfg tlsConfig i l (set_worker i (WHandshake raw) (add_counts (-1) 0 0 l))
  | wrk_failed l raw o err : l_workers l !! i = Some (WHandshake raw) -> possible tlsConfig o -> handshake tlsConfig o = Some err ->
      worker_step cfg tlsConfig i l (set_worker i WRecv (Close_conn raw (add_counts 0 0 1 l)))
  | wrk_completed l raw o : l_workers l !! i = Some (WHandshake raw) -> possible tlsConfig o -> handshake tlsConfig o = None ->
      worker_step cfg tlsConfig i l (set_worker i (WSend raw) (add_counts 0 1 0 l))
  | wrk_send l c : l_workers l !! i = Some (WSend c) -> room cfg (l_outbox l) = true ->
      worker_step cfg tlsConfig i l (set_worker i WRecv (set_channels (l_inbox l) (l_outbox l ++ [ARConn c]) l))
  | wrk_closed l c : l_workers l !! i = Some (WSend c) -> l_closed l = true ->
      worker_step cfg tlsConfig i l (set_worker i WDone (Close_conn c l)).

(** What [Accept] does with what it received. *)
Definition take (r : acceptResult) (l : OffloadListener) : OffloadListener :=
  match r with ARConn c => note [] [c] [] 0 l | ARErr _ => l end.

(** A caller of [Accept]: its state and its answer. *)
Inductive Accept_step : OffloadListener -> OffloadListener -> string + conn -> Prop :=
  | Accept_result l r outbox : l_outbox l = r :: outbox ->
      Accept_step l (take r (set_channels (l_inbox l) outbox l)) (match r with ARConn c => inr c | ARErr err => inl err end)
  | Accept_drained l : l_outbox l = [] -> l_outboxClosed l = true -> Accept_step l l (inl "use of closed network connection"%string)
  | Accept_closed l : l_closed l = true -> Accept_step l l (inl "use of closed network connection"%string).

(** [Close] and the goroutine it starts. *)
Definition drained (r : acceptResult) (l : OffloadListener) : OffloadListener :=
  match r with ARConn c => Close_conn c l | ARErr _ => l end.

Inductive close_step : OffloadListener -> OffloadListener -> Prop :=
  | cls_once l : l_close l = CIdle ->
      close_step l (set_close CClosing (set_closings (l_inboxClosed l) (l_outboxClosed l) true (l_innerClosed l) l))
  | cls_again l : l_close l <> CIdle -> close_step l l
  | cls_inner l : l_close l = CClosing ->
      close_step l (set_close CWait (set_closings (l_inboxClosed l) (l_outboxClosed l) (l_closed l) true l))
  | cls_waited l : l_close l = CWait -> l_accept l = ADone -> Forall (eq WDone) (l_workers l) ->
      close_step l (set_close CDrain (set_closings (l_inboxClosed l) true (l_closed l) (l_innerClosed l) l))
  | cls_drain l r outbox : l_close l = CDrain -> l_outbox l = r :: outbox ->
      close_step l (drained r (set_channels (l_inbox l) outbox l))
  | cls_done l : l_close l = CDrain -> l_outbox l = [] -> close_step l (set_close CDone l).

Inductive step (cfg : Config) (tlsConfig : tls_behaviour) : OffloadListener -> OffloadListener -> Prop :=
  | step_accept l l' : accept_step cfg l l' -> step cfg tlsConfig l l'
  | step_worker i l l' : worker_step cfg tlsConfig i l l' -> step cfg tlsConfig l l'
  | step_Accept l l' res : Accept_step l l' res -> step cfg tlsConfig l l'
  | step_close l l' : close_step l l' -> step cfg tlsConfig l l'.

(** The states a listener can reach. *)
Definition reachable (numCPU : Z) (cfg : Config) (tlsConfig : tls_behaviour) : OffloadListener -> Prop :=
  rtc (step (with_defaults numCPU cfg) tlsConfig) (NewOffloadListener (with_defaults numCPU cfg)).

(** ** Counting *)

Definition accept_held (pc : accept_pc) : list conn := match pc with AEnqueue raw => [raw] | _ => [] end.
Definition worker_held (pc : worker_pc) : list conn :=
  match pc with WCount raw | WHandshake raw | WSend raw => [raw] | WRecv | WDone => [] end.
(** Connections a worker holds that it has not counted as completed. *)
Definition worker_pending (pc : worker_pc) : list conn := match pc with WCount raw | WHandshake raw => [raw] | _ => [] end.
Definition worker_uncounted (pc : worker_pc) : list conn := match pc with WCount raw => [raw] | _ => [] end.
Definition accept_uncounted (pc : accept_pc) : Z := match pc with ACount => 1 | _ => 0 end.
Definition ready_conn (r : acceptResult) : list conn := match r with ARConn c => [c] | ARErr _ => [] end.

(** Every connection taken from the inner listener, by where it is now. *)
Definition whereabouts (l : OffloadListener) : list conn :=
  l_inbox l ++ accept_held (l_accept l) ++ (l_workers l ≫= worker_held) ++ (l_outbox l ≫= ready_conn) ++ g_delivered l ++ g_closed l.

(** Replacing an element of a list changes what it contributes. *)
Lemma bind_insert {A B} (f : A -> list B) (l : list A) i x y :
  l !! i = Some x -> (<[i := y]> l ≫= f) ++ f x ≡ₚ (l ≫= f) ++ f y.
Proof.
  revert i. induction l as [| z l IH]; intros [| i] Hi; cbn in *; [done | done | |].
  - injection Hi as ->. solve_Permutation.
  - rewrite <- !app_assoc. by rewrite IH.
Qed.

Record inv (cfg : Config) (l : OffloadListener) : Prop := {
  inv_conns : whereabouts l ≡ₚ g_accepted l;
  inv_inbox : Z.of_nat (length (l_inbox l)) <= QueueSize cfg;
  inv_outbox : Z.of_nat (length (l_outbox l)) <= QueueSize cfg;
  inv_queued : l_queued l = Z.of_nat (length (l_inbox l)) + Z.of_nat (length (l_workers l ≫= worker_uncounted)) - accept_uncounted (l_accept l);
  inv_counts : Z.of_nat (length (g_accepted l)) =
    l_completed l + l_failed l + g_shut l + Z.of_nat (length (l_inbox l)) + Z.of_nat (length (l_workers l ≫= worker_pending)) +
    Z.of_nat (length (accept_held (l_accept l)));
  inv_inboxClosed : l_inboxClosed l = true -> l_accept l = ADone;
  inv_outboxClosed : l_outboxClosed l = true -> l_accept l = ADone /\ Forall (eq WDone) (l_workers l);
  inv_shut : l_closed l = false -> g_shut l = 0
}.

(** Occurrences of a connection, and the sum of a measure over the workers. *)
Definition occ (c : conn) (l : list conn) : Z := Z.of_nat (count_occ Nat.eq_dec l c).
Definition one (c x : conn) : Z := if decide (x = c) then 1 else 0.

Lemma occ_nil c : occ c [] = 0. Proof. done. Qed.
Lemma occ_cons c x l : occ c (x :: l) = one c x + occ c l.
Proof.
  unfold occ, one. destruct (decide (x = c)) as [E | E]; [rewrite count_occ_cons_eq by done | rewrite count_occ_cons_neq by done]; lia.
Qed.
Lemma occ_app c l k : occ c (l ++ k) = occ c l + occ c k.
Proof. unfold occ. rewrite count_occ_app. lia. Qed.
Lemma occ_permutation l k : l ≡ₚ k <-> forall c, occ c l = occ c k.
Proof.
  rewrite (Permutation_count_occ Nat.eq_dec). unfold occ. split; intros Hc c; specialize (Hc c); lia.
Qed.
Lemma occ_bind_insert {A} (f : A -> list conn) (l : list A) i x y c :
  l !! i = Some x -> occ c (<[i := y]> l ≫= f) + occ c (f x) = occ c (l ≫= f) + occ c (f y).
Proof. intros Hi. rewrite <- !occ_app. by apply occ_permutation, bind_insert. Qed.
Lemma length_bind_insert {A B} (f : A -> list B) (l : list A) i x y :
  l !! i = Some x -> Z.of_nat (length (<[i := y]> l ≫= f)) + Z.of_nat (length (f x)) = Z.of_nat (length (l ≫= f)) + Z.of_nat (length (f y)).
Proof. intros Hi. pose proof (Permutation_length (bind_insert f l i x y Hi)) as Hp. rewrite !length_app in Hp. lia. Qed.

Lemma bind_nil {A B} (f : A -> list B) : [] ≫= f = []. Proof. done. Qed.

Create Rewrite HintDb counting.
#[local] Hint Rewrite occ_nil occ_cons occ_app @length_app @length_cons @length_nil @bind_app @bind_cons @bind_nil : counting.

(** Reads a goal about an updated listener as arithmetic on what was there. *)
Ltac by_counting :=
  unfold whereabouts, Close_conn, room in *;
  cbn [set_accept set_worker set_close set_channels set_closings add_counts note l_inbox l_inboxClosed l_outbox l_outboxClosed
       l_closed l_innerClosed l_queued l_completed l_failed l_accept l_workers l_close g_accepted g_delivered g_closed g_shut] in *;
  repeat match goal with
         | H : l_accept ?l = _ |- _ => rewrite H in *; clear H
         | H : l_inbox ?l = _ |- _ => rewrite H in *; clear H
         | H : l_outbox ?l = _ |- _ => rewrite H in *; clear H
         | H : (_ <? _) = true |- _ => apply Z.ltb_lt in H
         end;
  try (lazymatch goal with |- _ ≡ₚ _ => rewrite occ_permutation in * end; let c := fresh "c" in intros c; repeat match goal with H : forall c, occ c _ = occ c _ |- _ => specialize (H c) end;
       repeat match goal with H : ?ws !! ?i = Some ?x |- context [<[?i := ?y]> ?ws ≫= ?f] => pose proof (occ_bind_insert f ws i x y c H); clear H end);
  repeat match goal with H : ?ws !! ?i = Some ?x |- context [<[?i := ?y]> ?ws ≫= ?f] => pose proof (length_bind_insert f ws i x y H);
           generalize dependent (<[i := y]> ws ≫= f); intros end;
  cbn [accept_held accept_uncounted worker_held worker_pending worker_uncounted ready_conn] in *;
  autorewrite with counting in *; cbn [ready_conn] in *; autorewrite with counting in *; lia.

(** What a step leaves alone. *)
Ltac frame := try (cbn in *; first [congruence | by intros; match goal with H : l_closed _ = false -> _ |- _ => rewrite H by congruence end | by auto]).

Lemma accept_step_inv cfg l l' : accept_step cfg l l' -> inv cfg l -> inv cfg l'.
Proof.
  intros Hs [I1 I2 I3 I4 I5 I6 I7 I8].
  assert (Hopen : l_accept l <> ADone) by (destruct Hs; congruence).
  assert (O1 : l_inboxClosed l = false) by (destruct (l_inboxClosed l); [by exfalso; auto | done]).
  assert (O2 : l_outboxClosed l = false) by (destruct (l_outboxClosed l); [by exfalso; destruct (I7 eq_refl) | done]).
  destruct Hs.
  all: constructor.
  all: try by_counting.
  all: frame.
Qed.

Lemma worker_step_inv cfg tlsConfig i l l' : worker_step cfg tlsConfig i l l' -> inv cfg l -> inv cfg l'.
Proof.
  intros Hs [I1 I2 I3 I4 I5 I6 I7 I8].
  assert (O2 : l_outboxClosed l = false).
  { destruct (l_outboxClosed l); [exfalso | done]. destruct (I7 eq_refl) as [_ Hd]. rewrite Forall_lookup in Hd.
    destruct Hs as [l raw inbox Hi | l Hi | l raw Hi | l raw o err Hi | l raw o Hi | l c Hi | l c Hi]; specialize (Hd _ _ Hi); discriminate. }
  destruct Hs.
  all: constructor.
  all: try by_counting.
  all: frame.
Qed.

Lemma Accept_step_inv cfg l l' res : Accept_step l l' res -> inv cfg l -> inv cfg l'.
Proof.
  intros Hs [I1 I2 I3 I4 I5 I6 I7 I8]. destruct Hs as [l r outbox E | |]; [destruct r | by constructor | by constructor].
  all: constructor; cbn [take].
  all: try by_counting.
  all: frame.
Qed.

Lemma close_step_inv cfg l l' : close_step l l' -> inv cfg l -> inv cfg l'.
Proof.
  intros Hs [I1 I2 I3 I4 I5 I6 I7 I8]. destruct Hs as [| | | | l r |]; [| by constructor | | | destruct r |].
  all: constructor; cbn [drained].
  all: try by_counting.
  all: frame.
Qed.

Lemma step_inv cfg tlsConfig l l' : step cfg tlsConfig l l' -> inv cfg l -> inv cfg l'.
Proof. intros []; eauto using accept_step_inv, worker_step_inv, Accept_step_inv, close_step_inv. Qed.

Lemma replicate_bind_nil {A B} (f : A -> list B) n x : f x = [] -> replicate n x ≫= f = [].
Proof. intros Hf. induction n as [| n IH]; [done |]. cbn. by rewrite Hf, IH. Qed.

Lemma NewOffloadListener_inv cfg : 0 <= QueueSize cfg -> inv cfg (NewOffloadListener cfg).
Proof. intros Hq. constructor; cbn; rewrite ?replicate_bind_nil by done; try done; lia. Qed.

Lemma with_defaults_pos numCPU cfg : 0 < QueueSize (with_defaults numCPU cfg) /\ 0 < Workers (with_defaults numCPU cfg).
Proof. cbn. repeat case_match; rewrite ?Z.leb_le, ?Z.leb_gt, ?Z.ltb_lt, ?Z.ltb_ge in *; lia. Qed.

Lemma reachable_inv numCPU cfg tlsConfig l : reachable numCPU cfg tlsConfig l -> inv (with_defaults numCPU cfg) l.
Proof.
  intros Hr. unfold reachable in Hr. apply (rtc_ind_r (fun l => inv (with_defaults numCPU cfg) l)) in Hr; [done | |].
  - apply NewOffloadListener_inv. pose proof (with_defaults_pos numCPU cfg). lia.
  - intros l1 l2 _ Hs. by apply (step_inv _ tlsConfig).
Qed.

(** ** The listener's guarantees *)

(** C10: No connection is lost or served twice: in every reachable state each connection
    taken from the inner listener is in exactly one place (queued, held by a goroutine,
    ready, delivered or closed), both channels are within their capacity, and nobody is
    about to send on a closed channel. *)
Theorem conn_conserved numCPU cfg tlsConfig l :
  reachable numCPU cfg tlsConfig l ->
  whereabouts l ≡ₚ g_accepted l /\
  Z.of_nat (length (l_inbox l)) <= QueueSize (with_defaults numCPU cfg) /\
  Z.of_nat (length (l_outbox l)) <= QueueSize (with_defaults numCPU cfg) /\
  (forall raw, l_inboxClosed l = true -> l_accept l <> AEnqueue raw) /\
  (l_outboxClosed l = true -> (forall err, l_accept l <> AForward err) /\ forall i c, l_workers l !! i <> Some (WSend c)).
Proof.
  intros Hr. destruct (reachable_inv _ _ _ _ Hr) as [I1 I2 I3 _ _ I6 I7 _]. split_and!; [done | done | done | |].
  - intros raw Hc. by rewrite (I6 Hc).
  - intros Hc. destruct (I7 Hc) as [-> Hd]. split; [done |]. intros i c Hi. rewrite Forall_lookup in Hd. discriminate (Hd _ _ Hi).
Qed.

(** The statistics balance: every connection accepted is counted as completed, as
    failed, was closed by the accept loop because of [Close], or is still on its way; and
    [queued] is the depth of the queue but for the goroutines between a channel operation
    and its count, so it may read minus one but never less. *)
Theorem stats_balance numCPU cfg tlsConfig l :
  reachable numCPU cfg tlsConfig l ->
  let '(queued, completed, failed) := Stats l in
  let on_the_way := Z.of_nat (length (l_inbox l ++ accept_held (l_accept l) ++ (l_workers l ≫= worker_pending))) in
  Z.of_nat (length (g_accepted l)) = completed + failed + g_shut l + on_the_way /\
  queued = Z.of_nat (length (l_inbox l)) + Z.of_nat (length (l_workers l ≫= worker_uncounted)) - accept_uncounted (l_accept l) /\
  -1 <= queued /\ (l_closed l = false -> g_shut l = 0).
Proof.
  intros Hr. destruct (reachable_inv _ _ _ _ Hr) as [_ _ _ I4 I5 _ _ I8]. cbn. rewrite !length_app.
  split_and!; [lia | done | | done]. rewrite I4. destruct (l_accept l); cbn; lia.
Qed.

(** The ready connections can be delivered. *)
Lemma deliver_ready cfg tlsConfig l :
  exists l', rtc (step cfg tlsConfig) l l' /\ l_outbox l' = [] /\ l_inbox l' = l_inbox l /\ l_workers l' = l_workers l /\
    g_delivered l' ≡ₚ (l_outbox l ≫= ready_conn) ++ g_delivered l.
Proof.
  remember (l_outbox l) as outbox eqn:E. revert l E. induction outbox as [| r outbox IH]; intros l E.
  - exists l. by rewrite <- E.
  - destruct (IH (take r (set_channels (l_inbox l) outbox l))) as (l' & Hs & Ho & Hi & Hw & Hd); [by destruct r |].
    exists l'. split_and!; [| done | by destruct r | by destruct r |].
    + eapply rtc_l; [by eapply step_Accept, Accept_result | done].
    + rewrite Hd. destruct r; cbn; [| done]. by rewrite Permutation_middle.
Qed.

(** A handshake that goes well. *)
Definition all_well : tls_outcome := {| to_deadline := None; to_handshake := None; to_clear := None |}.

Lemma all_well_succeeds tlsConfig : handshake tlsConfig all_well = None.
Proof. by destruct tlsConfig. Qed.

(** A worker that is free serves the next connection, if its handshake succeeds. *)
Lemma serve_next cfg tlsConfig l i raw inbox :
  possible tlsConfig all_well -> 0 < QueueSize cfg -> l_workers l !! i = Some WRecv -> l_inbox l = raw :: inbox ->
  exists l', rtc (step cfg tlsConfig) l l' /\ l_workers l' !! i = Some WRecv /\ l_inbox l' = inbox /\ raw ∈ g_delivered l'.
Proof.
  intros Hok Hq Hw Hi. destruct (deliver_ready cfg tlsConfig l) as (l1 & Hs1 & Ho1 & Hi1 & Hw1 & _).
  assert (Hin : (i < length (l_workers l1))%nat) by (rewrite Hw1; by eapply lookup_lt_Some).
  eexists. split; [| split; [| split]].
  - etrans; [exact Hs1 |].
    eapply rtc_l; [eapply step_worker, (wrk_recv _ _ i); [by rewrite Hw1 | by rewrite Hi1] |].
    eapply rtc_l; [eapply step_worker, (wrk_count _ _ i); by apply list_lookup_insert_eq |].
    eapply rtc_l; [eapply step_worker, (wrk_completed _ _ i _ _ all_well);
      [cbn; rewrite list_insert_insert_eq; by apply list_lookup_insert_eq | exact Hok | apply all_well_succeeds] |].
    eapply rtc_l; [eapply step_worker, (wrk_send _ _ i);
      [cbn; rewrite !list_insert_insert_eq; by apply list_lookup_insert_eq | cbn; rewrite Ho1; by apply Z.ltb_lt] |].
    eapply rtc_l; [eapply step_Accept, Accept_result; cbn; by rewrite Ho1 | apply rtc_refl].
  - cbn. rewrite !list_insert_insert_eq. by apply list_lookup_insert_eq.
  - done.
  - apply list_elem_of_here.
Qed.

(** The queue is served: from every state with a free worker, each queued
    connection can reach a caller of [Accept], with the callers that call and the clients
    that complete their handshake. *)
Theorem queue_served numCPU cfg tlsConfig l i raw :
  possible tlsConfig all_well -> l_workers l !! i = Some WRecv -> raw ∈ l_inbox l ->
  exists l', rtc (step (with_defaults numCPU cfg) tlsConfig) l l' /\ raw ∈ g_delivered l'.
Proof.
  intros Hok Hw Hin. destruct (with_defaults_pos numCPU cfg) as [Hq _]. remember (l_inbox l) as inbox eqn:E. revert l E Hw.
  induction Hin as [raw inbox | raw x inbox _ IH]; intros l E Hw.
  - destruct (serve_next _ tlsConfig l i raw inbox Hok Hq Hw (eq_sym E)) as (l' & Hs & _ & _ & Hd). by exists l'.
  - destruct (serve_next _ tlsConfig l i x inbox Hok Hq Hw (eq_sym E)) as (l1 & Hs & Hw1 & Hi1 & _).
    destruct (IH l1 (eq_sym Hi1) Hw1) as (l' & Hs' & Hd). exists l'. split; [by etrans | done].
Qed.

(** ** When no handshake can succeed *)

Definition never_succeeds (tlsConfig : tls_behaviour) : Prop := forall o, possible tlsConfig o -> handshake tlsConfig o <> None.

(** Nothing is ready, about to be, or delivered. *)
Record nothing_ready (l : OffloadListener) : Prop := {
  nr_outbox : forall c, ARConn c ∉ l_outbox l;
  nr_workers : forall i c, l_workers l !! i <> Some (WSend c);
  nr_delivered : g_delivered l = [];
  nr_completed : l_completed l = 0
}.

Lemma step_nothing_ready cfg tlsConfig l l' :
  never_succeeds tlsConfig -> step cfg tlsConfig l l' -> nothing_ready l -> nothing_ready l'.
Proof.
  intros Hn Hs [H1 H2 H3 H4].
  assert (Hw : forall i pc, (forall c, pc <> WSend c) -> forall j c, <[i:=pc]> (l_workers l) !! j <> Some (WSend c)).
  { intros i pc Hpc j c. destruct (decide (i = j)) as [-> | Hne]; [| by rewrite list_lookup_insert_ne].
    destruct (decide (j < length (l_workers l))%nat) as [Hl | Hl]; [rewrite list_lookup_insert_eq by done; congruence |].
    rewrite list_insert_ge by lia. apply H2. }
  destruct Hs as [l l' Hs | i l l' Hs | l l' res Hs | l l' Hs]; destruct Hs; try by constructor; cbn; auto.
  1: { constructor; cbn; auto. intros c. rewrite not_elem_of_app. split; [apply H1 |]. set_solver. }
  1-4: constructor; cbn; auto; lia.
  - by destruct (Hn o).
  - exfalso. by apply (H2 i c).
  - match goal with E : l_outbox l = _ |- _ => rewrite E in H1 end. destruct r as [c | err]; [exfalso; apply (H1 c); set_solver |].
    constructor; cbn; auto. intros c. specialize (H1 c). set_solver.
  - match goal with E : l_outbox l = _ |- _ => rewrite E in H1 end. destruct r as [c | err]; [exfalso; apply (H1 c); set_solver |].
    constructor; cbn; auto. intros c. specialize (H1 c). set_solver.
Qed.

Lemma NewOffloadListener_ready cfg : nothing_ready (NewOffloadListener cfg).
Proof. constructor; cbn; try done; [set_solver |]. intros i c Hi. apply lookup_replicate in Hi as [? _]. discriminate. Qed.

(** A listener whose TLS configuration lets no handshake succeed delivers no connection,
    whatever the clients do. *)
Lemma never_delivers numCPU cfg tlsConfig l :
  never_succeeds tlsConfig -> reachable numCPU cfg tlsConfig l -> nothing_ready l.
Proof.
  intros Hn Hr. unfold reachable in Hr. apply (rtc_ind_r nothing_ready) in Hr; [done | |].
  - apply NewOffloadListener_ready.
  - intros l1 l2 _ Hs. by apply (step_nothing_ready _ _ _ _ Hn Hs).
Qed.

(** ** A listener closed with a connection queued *)

Definition one_worker : Config := {| Workers := 1; QueueSize := 16; HandshakeTimeout := 0 |}.

Definition leaked : OffloadListener :=
  {| l_inbox := [2%nat]; l_inboxClosed := true; l_outbox := []; l_outboxClosed := true; l_closed := true; l_innerClosed := true;
     l_queued := 1; l_completed := 1; l_failed := 0; l_accept := ADone; l_workers := [WDone]; l_close := CDone;
     g_accepted := [2; 1]%nat; g_delivered := []; g_closed := [1%nat]; g_shut := 0 |}.


Ltac accept_does tac := eapply rtc_l; [apply step_accept; tac; reflexivity |].
Ltac worker_does tac := eapply rtc_l; [apply (step_worker _ _ 0); tac; reflexivity |].
Ltac close_does tac := eapply rtc_l; [apply step_close; tac |].

(** Two connections are queued; the worker has done the first when the listener closes,
    sees that and returns. *)
Lemma leaked_reachable numCPU tlsConfig : possible tlsConfig all_well -> reachable numCPU one_worker tlsConfig leaked.
Proof.
  intros Hok. unfold reachable. cbn.
  accept_does ltac:(apply acc_call). accept_does ltac:(apply (acc_conn _ _ 1%nat)).
  accept_does ltac:(apply (acc_enqueue _ _ 1%nat)). accept_does ltac:(apply acc_count).
  accept_does ltac:(apply acc_call). accept_does ltac:(apply (acc_conn _ _ 2%nat)).
  accept_does ltac:(apply (acc_enqueue _ _ 2%nat)). accept_does ltac:(apply acc_count).
  worker_does ltac:(apply (wrk_recv _ _ _ _ 1%nat [2%nat])). worker_does ltac:(apply (wrk_count _ _ _ _ 1%nat)).
  eapply rtc_l; [apply (step_worker _ _ 0), (wrk_completed _ _ _ _ 1%nat all_well); [reflexivity | exact Hok | apply all_well_succeeds] |].
  close_does ltac:(by apply cls_once). worker_does ltac:(apply (wrk_closed _ _ _ _ 1%nat)).
  accept_does ltac:(apply acc_exit). accept_does ltac:(apply acc_return).
  close_does ltac:(by apply cls_inner). close_does ltac:(by apply cls_waited; [| | repeat constructor]).
  close_does ltac:(by apply cls_done). apply rtc_refl.
Qed.

Lemma leaked_final cfg tlsConfig l : rtc (step cfg tlsConfig) leaked l -> l = leaked.
Proof.
  intros Hr. remember leaked as l0 eqn:E. induction Hr as [| l0 l1 l2 Hs _ IH]; [done |]. subst l0.
  enough (l1 = leaked) as E by (rewrite <- E; exact (IH E)). remember leaked as l0 eqn:E. destruct Hs as [? ? Hs | i ? ? Hs | ? ? ? Hs | ? ? Hs].
  - destruct Hs; subst; discriminate.
  - destruct i as [| i]; destruct Hs; subst; discriminate.
  - destruct Hs; subst; [discriminate | done | done].
  - destruct Hs; subst; [discriminate | done | discriminate..].
Qed.

(** [Close] leaks queued connections: with one worker, a listener can be closed so that
    everything has stopped, the drainer included, while a connection is still in the
    queue; it is never closed nor delivered after that. *)
Theorem close_leaks_queued numCPU tlsConfig :
  possible tlsConfig all_well ->
  exists l, reachable numCPU one_worker tlsConfig l /\ l_close l = CDone /\
    (forall l', rtc (step (with_defaults numCPU one_worker) tlsConfig) l l' ->
      2%nat ∈ g_accepted l' /\ 2%nat ∈ l_inbox l' /\ ~ (2%nat ∈ g_closed l') /\ ~ (2%nat ∈ g_delivered l')).
Proof.
  intros Hok. exists leaked. split_and!; [by apply leaked_reachable | done |]. intros l' Hr. rewrite (leaked_final _ _ _ Hr). cbn.
  split_and!; set_solver.
Qed.

(** ** Witnesses *)

(** Handshakes that end in any way. *)
Definition some_tls : tls_behaviour := Some (fun _ => True).

Lemma close_leaks_queued_witness :
  exists l, reachable 4 one_worker some_tls l /\ l_close l = CDone /\
    (forall l', rtc (step (with_defaults 4 one_worker) some_tls) l l' ->
      2%nat ∈ g_accepted l' /\ 2%nat ∈ l_inbox l' /\ ~ (2%nat ∈ g_closed l') /\ ~ (2%nat ∈ g_delivered l')).
Proof. exact (close_leaks_queued 4 some_tls I). Defined.

Lemma conn_conserved_witness :
  whereabouts leaked ≡ₚ [2; 1]%nat /\ Z.of_nat (length (l_inbox leaked)) <= 16 /\ Z.of_nat (length (l_outbox leaked)) <= 16 /\
  (forall raw, l_inboxClosed leaked = true -> l_accept leaked <> AEnqueue raw) /\
  (l_outboxClosed leaked = true -> (forall err, l_accept leaked <> AForward err) /\ forall i c, l_workers leaked !! i <> Some (WSend c)).
Proof. exact (conn_conserved 4 one_worker some_tls leaked (leaked_reachable 4 some_tls I)). Defined.

Lemma stats_balance_witness :
  Z.of_nat 2 = 1 + 0 + 0 + Z.of_nat 1 /\ 1 = Z.of_nat 1 + Z.of_nat 0 - 0 /\ -1 <= 1 /\ (true = false -> 0 = 0).
Proof. exact (stats_balance 4 one_worker some_tls leaked (leaked_reachable 4 some_tls I)). Defined.

Lemma queue_served_witness :
  exists l', rtc (step (with_defaults 4 one_worker) some_tls) (set_channels [7; 8]%nat [] (NewOffloadListener one_worker)) l' /\ 8%nat ∈ g_delivered l'.
Proof. refine (queue_served 4 one_worker some_tls (set_channels [7; 8]%nat [] (NewOffloadListener one_worker)) 0 8%nat I eq_refl _). cbn. right. left. Defined.
