(* ===== verification/Upgrade.v ===== *)
(** * Graceful binary upgrade ([upgrade/upgrade.go])

    The listener a process starts with, the environment a child gets, the upgrade itself
    and the child's readiness signal. The operating system is a parameter: files, turning
    a descriptor into a listener, binding an address under a control function, a
    listener's [File] where it has one; each system call of an upgrade and each socket
    option is given its outcome. *)

From S2P Require Import Prelude GoStrings.

Local Open Scope Z_scope.

Definition EnvUpgradeFD : string := "CDN_UPGRADE_FD".
Definition EnvUpgradeReady : string := "CDN_UPGRADE_READY_FD".

(** [key=value]: the value, when [e] is an entry for [key]. *)
Definition env_value (key e : string) : option string :=
  if String.eqb (take_bytes (String.length key + 1) e) (key +:+ "=") then Some (drop_bytes (String.length key + 1) e) else None.

(** [os.Getenv] on an environment: the first entry of the key, empty when there is none. *)
Fixpoint Getenv (env : list string) (key : string) : string :=
  match env with
  | [] => EmptyString
  | e :: env => match env_value key e with Some v => v | None => Getenv env key end
  end.

(** The files of a process, and what can be made of them. *)
Inductive sockopt := SO_REUSEADDR | SO_REUSEPORT.
#[global] Instance sockopt_eq_dec : EqDecision sockopt. Proof. solve_decision. Defined.

(** A socket before it is bound: the options set on it. *)
Definition sockopts : Type := list (sockopt * Z).

Class UpgradeOS := {
  file : Type;
  listener : Type;
  (** [net.FileListener] *)
  FileListener : file -> string + listener;
  (** [net.ListenConfig]'s [Listen] on tcp: what [Control] does to the socket and its error, and the address *)
  ListenConfig_Listen : (sockopts -> sockopts * option string) -> string -> string + listener;
  (** the listener as a [filer]: absent when its type has no [File] method *)
  as_filer : listener -> option (string + file);
  (** [fmt]'s %q *)
  Quote : string -> string
}.

(** [Control] is called before the socket is bound, and its error is [Listen]'s: a
    listener's socket has the options [Control] left on it. *)
Class UpgradeOSLaws `{UpgradeOS} := {
  options : listener -> sockopts;
  listen_controlled control addr ln : ListenConfig_Listen control addr = inr ln -> control [] = (options ln, None)
}.

(** The outcomes of the system calls of [reusePortControl]: the raw connection's [Control],
    which runs the function unless it fails, and each option. *)
Record control_io := { ci_control : option string; ci_set : sockopt -> Z -> option string }.

Definition SetsockoptInt (io : control_io) (opt : sockopt) (v : Z) (sock : sockopts) : sockopts * option string :=
  match ci_set io opt v with Some err => (sock, Some err) | None => (sock ++ [(opt, v)], None) end.

Definition reusePortControl (io : control_io) (sock : sockopts) : sockopts * option string :=
  match ci_control io with
  | Some err => (sock, Some err)
  | None =>
      match SetsockoptInt io SO_REUSEADDR 1 sock with
      | (sock, Some err) => (sock, Some ("upgrade: SO_REUSEADDR: " +:+ err))
      | (sock, None) =>
          match SetsockoptInt io SO_REUSEPORT 1 sock with
          | (sock, Some err) => (sock, Some ("upgrade: SO_REUSEPORT: " +:+ err))
          | (sock, None) => (sock, None)
          end
      end
  end.

(** A started process: the descriptors from 3 on are its [ExtraFiles]. *)
Record process `{UpgradeOS} := { p_exe : string; p_args : list string; p_env : list string; p_files : list file }.

Section upgrade.
Context `{UpgradeOS}.

(** The open file behind a descriptor; the standard ones do not matter here. *)
Definition open_fd (p : process) (fd : Z) : option file := if fd <? 3 then None else p_files p !! Z.to_nat (fd - 3).

(** [os.NewFile] returns nil for a negative descriptor, and [FileListener] fails on one that is not open. *)
Definition inheritedListener (p : process) (fdStr : string) : string + listener :=
  match Atoi fdStr with
  | None => inl ("upgrade: invalid fd " +:+ Quote fdStr)
  | Some fd =>
      if fd <? 0 then inl ("upgrade: cannot open fd " +:+ Itoa fd)
      else match match open_fd p fd with Some f => FileListener f | None => inl "bad file descriptor"%string end with
           | inl err => inl ("upgrade: FileListener fd " +:+ Itoa fd +:+ ": " +:+ err)
           | inr ln => inr ln
           end
  end.

Definition newReusePortListener (io : control_io) (addr : string) : string + listener := ListenConfig_Listen (reusePortControl io) addr.

Definition Listener (io : control_io) (p : process) (addr : string) : string + listener :=
  let fdStr := Getenv (p_env p) EnvUpgradeFD in
  if negb (String.eqb fdStr "") then inheritedListener p fdStr else newReusePortListener io addr.

Definition listenerFile (ln : listener) : string + file :=
  match as_filer ln with None => inl "listener does not support File()"%string | Some f => f end.

(** The entries [buildChildEnv] leaves out. *)
Definition upgrade_entry (e : string) : bool :=
  ((String.length EnvUpgradeFD <? String.length e)%nat && String.eqb (take_bytes (String.length EnvUpgradeFD + 1) e) (EnvUpgradeFD +:+ "=")) ||
  ((String.length EnvUpgradeReady <? String.length e)%nat && String.eqb (take_bytes (String.length EnvUpgradeReady + 1) e) (EnvUpgradeReady +:+ "=")).

Definition buildChildEnv (listenerFD readyFD : Z) (env : list string) : list string :=
  List.filter (fun e => negb (upgrade_entry e)) env ++ [EnvUpgradeFD +:+ "=" +:+ Itoa listenerFD; EnvUpgradeReady +:+ "=" +:+ Itoa readyFD].

Record Upgrader := { u_ln : listener; u_ready : bool (* the channel is closed *) }.

Definition New (ln : listener) : Upgrader := {| u_ln := ln; u_ready := false |}.
Definition ReadySignal (u : Upgrader) : bool := u_ready u.

(** How the wait for the child ends: it closes its end or writes to it, it dies, the read fails. *)
Inductive ready_read := ReadEOF | ReadByte | ReadChildDied | ReadErr (err : string).

(** The outcomes of an upgrade's system calls. *)
Record upgrade_io := {
  io_pipe : string + (file * file);    (* the read end and the write end *)
  io_exe : string + string;
  io_start : option string;
  io_read : ready_read
}.

(** A goroutine that returns, or panics. *)
Inductive result := Returned (err : option string) | Panicked (msg : string).

(** [doUpgrade] in the process [p]: the child started, the upgrader and the result. *)
Definition doUpgrade (io : upgrade_io) (p : process) (u : Upgrader) : option process * Upgrader * result :=
  match listenerFile (u_ln u) with
  | inl err => (None, u, Returned (Some ("upgrade: extract listener fd: " +:+ err)))
  | inr lnFile =>
      match io_pipe io with
      | inl err => (None, u, Returned (Some ("upgrade: create ready pipe: " +:+ err)))
      | inr (_, readyW) =>
          match io_exe io with
          | inl err => (None, u, Returned (Some ("upgrade: resolve executable: " +:+ err)))
          | inr exe =>
              let cmd := {| p_exe := exe; p_args := exe :: tail (p_args p); p_env := buildChildEnv 3 4 (p_env p); p_files := [lnFile; readyW] |} in
              match io_start io with
              | Some err => (None, u, Returned (Some ("upgrade: start child: " +:+ err)))
              | None =>
                  (* whatever the read of the pipe returned *)
                  if u_ready u then (Some cmd, u, Panicked "close of closed channel")
                  else (Some cmd, {| u_ln := u_ln u; u_ready := true |}, Returned None)
              end
          end
      end
  end.

(** What [ListenForUpgrade] wakes up to. *)
Inductive wake := WakeSignal (io : upgrade_io) | WakeCancelled (err : string).
Definition ListenForUpgrade (ev : wake) (p : process) (u : Upgrader) : option process * Upgrader * result :=
  match ev with
  | WakeCancelled err => (None, u, Returned (Some err))
  | WakeSignal io => doUpgrade io p u
  end.

(** [SignalReady]: the file it closes, and the error. *)
Definition SignalReady (close : option file -> option string) (p : process) : option file * option string :=
  let fdStr := Getenv (p_env p) EnvUpgradeReady in
  if String.eqb fdStr "" then (None, None)
  else match Atoi fdStr with
       | None => (None, Some ("upgrade: invalid ready fd " +:+ Quote fdStr))
       | Some fd => if fd <? 0 then (None, Some ("upgrade: cannot open ready fd " +:+ Itoa fd))
                    else (open_fd p fd, close (open_fd p fd))
       end.

Definition IsUpgrade (p : process) : bool := negb (String.eqb (Getenv (p_env p) EnvUpgradeFD) "").

(** ** The child's environment *)

Lemma take_length_app s t : take_bytes (String.length s) (s +:+ t) = s.
Proof. induction s as [| c s IH]; [by destruct t |]. cbn. by rewrite IH. Qed.
Lemma drop_length_app s t : drop_bytes (String.length s) (s +:+ t) = t.
Proof. induction s as [| c s IH]; [by destruct t |]. cbn. by rewrite IH. Qed.

Lemma env_value_Some key e v : env_value key e = Some v <-> e = key +:+ "=" +:+ v.
Proof.
  unfold env_value. assert (Hl : (String.length key + 1)%nat = String.length (key +:+ "=")).
  { induction key as [| c key IH]; [done |]. cbn in *. by rewrite IH. }
  rewrite Hl. split.
  - case_match eqn:E; [| done]. intros [= <-]. apply String.eqb_eq in E. rewrite <- (take_drop_bytes (String.length (key +:+ "=")) e) at 1.
    by rewrite E, str_app_assoc.
  - intros ->. rewrite <- str_app_assoc, take_length_app, drop_length_app. by rewrite String.eqb_refl.
Qed.

(** No [=] in a key. *)
Definition env_key (key : string) : Prop := str_forall (fun c => negb (Ascii.eqb c "=")) key = true.

Lemma env_key_split key key' v v' : env_key key -> env_key key' -> key +:+ "=" +:+ v = key' +:+ "=" +:+ v' -> key = key' /\ v = v'.
Proof.
  unfold env_key. revert key'. induction key as [| c key IH]; intros [| c' key'] Hk Hk' E; cbn in *.
  - split; congruence.
  - injection E as <- _. done.
  - injection E as -> _. done.
  - injection E as -> E. apply andb_true_iff in Hk as [_ Hk], Hk' as [_ Hk']. destruct (IH key' Hk Hk' E) as [-> ->]. done.
Qed.

Lemma upgrade_entry_spec e : upgrade_entry e = true <-> exists v, e = EnvUpgradeFD +:+ "=" +:+ v \/ e = EnvUpgradeReady +:+ "=" +:+ v.
Proof.
  unfold upgrade_entry. rewrite orb_true_iff, !andb_true_iff.
  assert (Hv : forall key, String.eqb (take_bytes (String.length key + 1) e) (key +:+ "=") = true <-> exists v, e = key +:+ "=" +:+ v).
  { intros key. setoid_rewrite <- env_value_Some. unfold env_value. case_match; split; try done; [by eexists | by intros []]. }
  rewrite !Hv. split.
  - intros [[_ [v ->]] | [_ [v ->]]]; exists v; auto.
  - intros [v [-> | ->]]; [left | right]; (split; [done | by eexists]).
Qed.

Lemma buildChildEnv_other l r env key :
  env_key key -> key <> EnvUpgradeFD -> key <> EnvUpgradeReady -> Getenv (buildChildEnv l r env) key = Getenv env key.
Proof.
  intros Hk H1 H2. unfold buildChildEnv. induction env as [| e env IH].
  - cbn [List.filter app Getenv]. assert (Hn : forall K v, env_key K -> key <> K -> env_value key (K +:+ "=" +:+ v) = None).
    { intros K v HK Hne. destruct (env_value key _) eqn:E; [| done]. apply env_value_Some in E. by destruct (env_key_split _ _ _ _ HK Hk E). }
    by rewrite (Hn EnvUpgradeFD), (Hn EnvUpgradeReady).
  - cbn [List.filter]. destruct (upgrade_entry e) eqn:Eu; cbn [negb].
    + rewrite IH. cbn. destruct (env_value key e) as [v |] eqn:E; [| done]. exfalso. apply env_value_Some in E. apply upgrade_entry_spec in Eu.
      destruct Eu as [w [Ew | Ew]]; rewrite E in Ew;
        [apply (env_key_split key EnvUpgradeFD) in Ew | apply (env_key_split key EnvUpgradeReady) in Ew]; try done; by destruct Ew.
    + cbn. destruct (env_value key e); [done | exact IH].
Qed.

Lemma buildChildEnv_fds l r env :
  Getenv (buildChildEnv l r env) EnvUpgradeFD = Itoa l /\ Getenv (buildChildEnv l r env) EnvUpgradeReady = Itoa r.
Proof.
  unfold buildChildEnv. induction env as [| e env IH].
  - split; [done |]. cbn [List.filter app Getenv]. destruct (env_value EnvUpgradeReady (EnvUpgradeFD +:+ "=" +:+ Itoa l)) eqn:E.
    + apply env_value_Some in E. discriminate E.
    + by rewrite (proj2 (env_value_Some _ _ (Itoa r)) eq_refl).
  - cbn [List.filter]. destruct (upgrade_entry e) eqn:Eu; [exact IH |]. cbn.
    assert (Hn : forall K, K = EnvUpgradeFD \/ K = EnvUpgradeReady -> env_value K e = None).
    { intros K HK. destruct (env_value K e) as [v |] eqn:E; [| done]. apply env_value_Some in E.
      rewrite (proj2 (upgrade_entry_spec e)) in Eu; [done |]. exists v. by destruct HK as [-> | ->]; auto. }
    by rewrite !Hn by auto.
Qed.

(** The child takes over: the process an upgrade starts serves on the parent's listener
    whatever upgrade variables the parent itself was started with, its readiness signal
    closes the pipe the parent waits on, it knows it is an upgrade, it runs the parent's
    arguments, and every other variable of its environment is the parent's. *)
Theorem upgrade_child_inherits io p u child u' res close :
  doUpgrade io p u = (Some child, u', res) ->
  exists lnFile readyR readyW, listenerFile (u_ln u) = inr lnFile /\ io_pipe io = inr (readyR, readyW) /\
    (forall ctl addr, Listener ctl child addr = match FileListener lnFile with
                                        | inl err => inl ("upgrade: FileListener fd 3: " +:+ err)
                                        | inr ln => inr ln
                                        end) /\
    SignalReady close child = (Some readyW, close (Some readyW)) /\ IsUpgrade child = true /\ tail (p_args child) = tail (p_args p) /\
    forall key, env_key key -> key <> EnvUpgradeFD -> key <> EnvUpgradeReady -> Getenv (p_env child) key = Getenv (p_env p) key.
Proof.
  unfold doUpgrade. destruct (listenerFile (u_ln u)) as [| lnFile]; [done |]. destruct (io_pipe io) as [| [readyR readyW]]; [done |].
  destruct (io_exe io) as [| exe]; [done |]. destruct (io_start io); [done |]. intros E.
  assert (child = {| p_exe := exe; p_args := exe :: tail (p_args p); p_env := buildChildEnv 3 4 (p_env p); p_files := [lnFile; readyW] |}) as ->
    by (destruct (u_ready u); congruence). clear E.
  exists lnFile, readyR, readyW. destruct (buildChildEnv_fds 3 4 (p_env p)) as [E1 E2].
  unfold Listener, SignalReady, IsUpgrade. cbn [p_env p_args]. rewrite E1, E2.
  split_and!; try done. intros. by apply buildChildEnv_other.
Qed.

(** An upgrade that fails leaves the old process serving: on every error no child was
    started and the ready signal is as it was; without an error the child was started
    and the signal is given. *)
Theorem upgrade_all_or_nothing io p u :
  u_ready u = false ->
  let '(child, u', res) := doUpgrade io p u in
  match res with
  | Returned (Some _) => child = None /\ u' = u
  | Returned None => is_Some child /\ ReadySignal u' = true /\ io_start io = None
  | Panicked _ => False
  end.
Proof.
  intros Hr. unfold doUpgrade. destruct (listenerFile (u_ln u)) as [| lnFile]; [done |]. destruct (io_pipe io) as [| [readyR readyW]]; [done |].
  destruct (io_exe io) as [| exe]; [done |]. destruct (io_start io); [done |]. rewrite Hr. by split_and!.
Qed.

(** A child that dies before it is ready is taken for ready: [ListenForUpgrade] returns
    without an error and the ready signal is given even though the child died, and that is
    what the main program takes to shut the old process down. *)
Theorem dead_child_counts_as_ready io p u lnFile fds exe :
  u_ready u = false -> listenerFile (u_ln u) = inr lnFile -> io_pipe io = inr fds -> io_exe io = inr exe -> io_start io = None ->
  io_read io = ReadChildDied ->
  exists child, ListenForUpgrade (WakeSignal io) p u = (Some child, {| u_ln := u_ln u; u_ready := true |}, Returned None).
Proof.
  intros Hr Hl Hp He Hs _. destruct fds. cbn. unfold doUpgrade. rewrite Hl, Hp, He, Hs, Hr. by eexists.
Qed.

(** A second upgrade of the same process panics: the channel it closes is closed. *)
Theorem second_upgrade_panics io io' p u child u' :
  doUpgrade io p u = (Some child, u', Returned None) -> io_pipe io' = io_pipe io -> io_exe io' = io_exe io -> io_start io' = None ->
  exists child', doUpgrade io' p u' = (Some child', u', Panicked "close of closed channel").
Proof.
  unfold doUpgrade. destruct (listenerFile (u_ln u)) as [| lnFile] eqn:El; [done |]. destruct (io_pipe io) as [| [readyR readyW]]; [done |].
  destruct (io_exe io) as [| exe]; [done |]. destruct (io_start io); [done |]. destruct (u_ready u); [done |].
  intros [= <- <-] Hp He Hs. rewrite Hp, He, Hs. cbn. rewrite El. by eexists.
Qed.

(** A process that was not started by an upgrade serves on a socket that shares its
    address: both options are set on it, and when one cannot be set there is no listener. *)
Theorem fresh_listener_shares `{!UpgradeOSLaws} io p addr ln :
  IsUpgrade p = false -> Listener io p addr = inr ln -> options ln = [(SO_REUSEADDR, 1); (SO_REUSEPORT, 1)].
Proof.
  unfold IsUpgrade, Listener, newReusePortListener. intros ->%negb_false_iff Hl%listen_controlled. cbn [negb] in Hl.
  revert Hl. unfold reusePortControl, SetsockoptInt. destruct (ci_control io), (ci_set io SO_REUSEADDR 1), (ci_set io SO_REUSEPORT 1); cbn; congruence.
Qed.

End upgrade.

(** ** A concrete system *)

#[local] Instance some_os : UpgradeOS := {|
  file := string; listener := string;
  FileListener f := if String.eqb f "socket" then inr "inherited"%string else inl "not a socket"%string;
  ListenConfig_Listen control addr := match (control []).2 with None => inr addr | Some err => inl err end;
  as_filer ln := Some (inr "socket"%string);
  Quote s := s
|}.

Definition old_process : process :=
  {| p_exe := "/edge"; p_args := ["edge"; "-v"]%string; p_env := ["HOME=/"; "CDN_UPGRADE_FD=9"]%string; p_files := [] |}.
Definition good_upgrade (r : ready_read) : upgrade_io :=
  {| io_pipe := inr ("r", "w")%string; io_exe := inr "/edge2"%string; io_start := None; io_read := r |}.
Definition new_process : process :=
  {| p_exe := "/edge2"; p_args := ["/edge2"; "-v"]%string; p_env := ["HOME=/"; "CDN_UPGRADE_FD=3"; "CDN_UPGRADE_READY_FD=4"]%string;
     p_files := ["socket"; "w"]%string |}.

Lemma upgrade_child_inherits_witness :
  exists lnFile readyR readyW, listenerFile "old"%string = inr lnFile /\ @inr string _ ("r", "w")%string = inr (readyR, readyW) /\
    (forall ctl addr, Listener ctl new_process addr = match FileListener lnFile with
                                        | inl err => inl ("upgrade: FileListener fd 3: " +:+ err)
                                        | inr ln => inr ln
                                        end) /\
    SignalReady (fun _ => None) new_process = (Some readyW, None) /\ IsUpgrade new_process = true /\ ["-v"]%string = ["-v"]%string /\
    forall key, env_key key -> key <> EnvUpgradeFD -> key <> EnvUpgradeReady -> Getenv (p_env new_process) key = Getenv (p_env old_process) key.
Proof.
  refine (upgrade_child_inherits (good_upgrade ReadEOF) old_process (New "old"%string) new_process
    {| u_ln := "old"%string; u_ready := true |} (Returned None) (fun _ => None) _).
  vm_compute. reflexivity.
Defined.

Lemma upgrade_all_or_nothing_witness :
  is_Some (Some new_process) /\ ReadySignal {| u_ln := "old"%string; u_ready := true |} = true /\ @None string = None.
Proof. exact (upgrade_all_or_nothing (good_upgrade ReadEOF) old_process (New "old"%string) eq_refl). Defined.

Lemma dead_child_counts_as_ready_witness :
  exists child, ListenForUpgrade (WakeSignal (good_upgrade ReadChildDied)) old_process (New "old"%string)
    = (Some child, {| u_ln := "old"%string; u_ready := true |}, Returned None).
Proof.
  exact (dead_child_counts_as_ready (good_upgrade ReadChildDied) old_process (New "old"%string) "socket"%string ("r", "w")%string "/edge2"%string
    eq_refl eq_refl eq_refl eq_refl eq_refl eq_refl).
Defined.

Lemma second_upgrade_panics_witness :
  exists child', doUpgrade (good_upgrade ReadEOF) old_process {| u_ln := "old"%string; u_ready := true |}
    = (Some child', {| u_ln := "old"%string; u_ready := true |}, Panicked "close of closed channel").
Proof.
  refine (second_upgrade_panics (good_upgrade ReadEOF) (good_upgrade ReadEOF) old_process (New "old"%string) new_process
    {| u_ln := "old"%string; u_ready := true |} _ eq_refl eq_refl eq_refl).
  vm_compute. reflexivity.
Defined.

(** Sockets are known by their options and address. *)
#[local] Instance socket_os : UpgradeOS := {|
  file := string; listener := sockopts * string;
  FileListener f := inl "not a socket"%string;
  ListenConfig_Listen control addr := match control [] with (opts, None) => inr (opts, addr) | (_, Some err) => inl err end;
  as_filer ln := Some (inr "socket"%string);
  Quote s := s
|}.
#[local] Program Instance socket_os_laws : UpgradeOSLaws := {| options := fst |}.
Next Obligation. cbn. intros control addr ln. destruct (control []) as [opts [err |]]; [done | by intros [= <-]]. Qed.

Lemma fresh_listener_shares_witness : options (H := socket_os) ([(SO_REUSEADDR, 1); (SO_REUSEPORT, 1)], ":8080"%string) = [(SO_REUSEADDR, 1); (SO_REUSEPORT, 1)].
Proof.
  exact (fresh_listener_shares (H := socket_os) {| ci_control := None; ci_set _ _ := None |}
    {| p_exe := "/edge"; p_args := []; p_env := []; p_files := [] |} ":8080"%string _ eq_refl eq_refl).
Defined.
