(* ===== verification/Edge.v ===== *)
(** * The edge's main program ([main.go])

    The state the parts of a running edge share, how it is built from the configuration,
    the stack of middleware around the data plane's handler, which handler answers which
    path of the main and of the admin listener, how the servers are set up, what SIGHUP
    reloads, the background workers, and readiness through start and shutdown. Each
    request runs to its end before the next one starts: what interleaving does inside the
    stampede lock, the origin client and the listener is the matter of their files. A peer
    a purge is posted to is another process. Request paths are those [http.ServeMux]
    dispatches without redirecting to their clean form. The lines the parts log besides
    the access log, and sockets, are not modelled. *)

From S2P Require Import Prelude GoStrings CacheKey TinyLFU Entry Disk Cache Predictor Http CacheControl Circuit Origin Handler Tenant MultiTenant Parts Store Api Middleware Float Logging Metrics RateLimit Tracing Chain Purge Config.

Local Open Scope Z_scope.

(** What one edge keeps: [c], [origin] and the predictor ([ed_plane]), the revalidations
    spawned and not yet run, [met], [dist]'s peers, [logger], [mtHandler]'s configuration and
    the poller's last version, the limiter, the finished spans, and [hsListener.Stats()]. *)
Record Edge := {
  ed_plane : plane;
  ed_spawned : list revalidation;
  ed_ready : bool;
  ed_ReqMet : RequestMetrics;
  ed_peers : list string;
  ed_logger : Logger;
  ed_config : option EdgeConfig;
  ed_polled : Z;
  ed_limiter : option Limiter;
  ed_spans : list (list span_call);
  ed_stats : Z * Z * Z
}.

Definition ed_cache (e : Edge) : Cache := pl_cache (ed_plane e).
Definition ed_origin (e : Edge) : Origin := pl_origin (ed_plane e).

Definition set_plane (x : plane) (spawned : list revalidation) (e : Edge) : Edge :=
  {| ed_plane := x; ed_spawned := spawned; ed_ready := ed_ready e; ed_ReqMet := ed_ReqMet e; ed_peers := ed_peers e; ed_logger := ed_logger e;
     ed_config := ed_config e; ed_polled := ed_polled e; ed_limiter := ed_limiter e; ed_spans := ed_spans e; ed_stats := ed_stats e |}.
Definition set_met (ready : bool) (rm : RequestMetrics) (e : Edge) : Edge :=
  {| ed_plane := ed_plane e; ed_spawned := ed_spawned e; ed_ready := ready; ed_ReqMet := rm; ed_peers := ed_peers e; ed_logger := ed_logger e;
     ed_config := ed_config e; ed_polled := ed_polled e; ed_limiter := ed_limiter e; ed_spans := ed_spans e; ed_stats := ed_stats e |}.
Definition set_peers (peers : list string) (e : Edge) : Edge :=
  {| ed_plane := ed_plane e; ed_spawned := ed_spawned e; ed_ready := ed_ready e; ed_ReqMet := ed_ReqMet e; ed_peers := peers; ed_logger := ed_logger e;
     ed_config := ed_config e; ed_polled := ed_polled e; ed_limiter := ed_limiter e; ed_spans := ed_spans e; ed_stats := ed_stats e |}.
Definition set_logger (l : Logger) (e : Edge) : Edge :=
  {| ed_plane := ed_plane e; ed_spawned := ed_spawned e; ed_ready := ed_ready e; ed_ReqMet := ed_ReqMet e; ed_peers := ed_peers e; ed_logger := l;
     ed_config := ed_config e; ed_polled := ed_polled e; ed_limiter := ed_limiter e; ed_spans := ed_spans e; ed_stats := ed_stats e |}.
Definition set_config (cfg : option EdgeConfig) (polled : Z) (e : Edge) : Edge :=
  {| ed_plane := ed_plane e; ed_spawned := ed_spawned e; ed_ready := ed_ready e; ed_ReqMet := ed_ReqMet e; ed_peers := ed_peers e; ed_logger := ed_logger e;
     ed_config := cfg; ed_polled := polled; ed_limiter := ed_limiter e; ed_spans := ed_spans e; ed_stats := ed_stats e |}.
Definition set_limiter (l : option Limiter) (e : Edge) : Edge :=
  {| ed_plane := ed_plane e; ed_spawned := ed_spawned e; ed_ready := ed_ready e; ed_ReqMet := ed_ReqMet e; ed_peers := ed_peers e; ed_logger := ed_logger e;
     ed_config := ed_config e; ed_polled := ed_polled e; ed_limiter := l; ed_spans := ed_spans e; ed_stats := ed_stats e |}.
Definition add_span (calls : list span_call) (e : Edge) : Edge :=
  {| ed_plane := ed_plane e; ed_spawned := ed_spawned e; ed_ready := ed_ready e; ed_ReqMet := ed_ReqMet e; ed_peers := ed_peers e; ed_logger := ed_logger e;
     ed_config := ed_config e; ed_polled := ed_polled e; ed_limiter := ed_limiter e; ed_spans := ed_spans e ++ [calls]; ed_stats := ed_stats e |}.

Definition set_stats (st : Z * Z * Z) (e : Edge) : Edge :=
  {| ed_plane := ed_plane e; ed_spawned := ed_spawned e; ed_ready := ed_ready e; ed_ReqMet := ed_ReqMet e; ed_peers := ed_peers e; ed_logger := ed_logger e;
     ed_config := ed_config e; ed_polled := ed_polled e; ed_limiter := ed_limiter e; ed_spans := ed_spans e; ed_stats := st |}.

(** [met], as its handlers see it, and [met.SetReady]. *)
Definition met (e : Edge) : Metrics.Handler :=
  {| mh_cache := ed_cache e; mh_origin := ed_origin e; mh_ready := ed_ready e; mh_ReqMet := ed_ReqMet e |}.
Definition set_ready (ready : bool) (e : Edge) : Edge := set_met (mh_ready (SetReady ready (met e))) (ed_ReqMet e) e.

(** ** Building an edge *)

Definition multiTenant (cfg : Config.Config) : bool := negb (String.eqb (c_str cfg ControlPlaneURL) "").
Definition rate_limited (cfg : Config.Config) : bool := flt (Fin 0 0) (c_float cfg RateLimitRPS).

(** [cache.Options] from the configuration; the shift of the megabytes wraps around. *)
Definition cache_options (cfg : Config.Config) : Options :=
  {| o_MaxItems := c_int cfg MaxCacheItems; o_MaxEntryBytes := c_int cfg MaxCacheEntryBytes; o_MaxKeyLen := c_int cfg MaxCacheKeyLen;
     o_DiskDir := c_str cfg DiskCacheDir; o_DiskMaxBytes := i64 (Z.shiftl (c_int cfg DiskCacheMaxMB) 20); o_NumShards := 0;
     o_CompressHeaders := c_bool cfg CompressHeaders |}.

Definition tracing_config (cfg : Config.Config) : Tracing.Config :=
  {| tc_Enabled := true; tc_Endpoint := c_str cfg TracingEndpoint; tc_SampleRate := c_float cfg TracingSampleRate; tc_Insecure := c_bool cfg TracingInsecure |}.

Definition split_peers (peers : string) (d : list string) : list string := if String.eqb peers "" then d else Split "," peers.

(** The configuration of [handler.New]. *)
Definition cdn_config (cfg : Config.Config) : Handler.Config := {| cfg_OriginURL := c_str cfg OriginURL; cfg_DefaultTTL := c_dur cfg DefaultTTL |}.

(** The outside world when the process starts: the outcome of building the exporter and its
    resource, the disk, the environment and the clock. *)
Record boot_io := {
  bi_exporter : option string; bi_resource : option string;
  bi_mkdir_ok : bool; bi_files : gmap string dirent;
  bi_Getenv : string -> string;
  bi_now : nat -> Z
}.

Section main.
Context `{Hash64} `{HeaderCodec} `{DiskWorld} `{Unicode} `{HttpClient} `{HttpTime} `{PurgeJson} `{FloatFormat} `{MetricsJson} `{LogTime}
  `{UrlQuery} `{ConfigJson} `{Compressor}.

(** [mtHandler] or [cdn]: what the data plane's handler is made of. *)
Definition data_plane (fuel : nat) (c : Cache) (origin : Origin) (cfg : Config.Config) : option plane :=
  if multiTenant cfg then
    let mtHandler := NewMultiTenant c origin (c_dur cfg DefaultTTL) in
    if c_bool cfg PredictorEnabled
    then p ← NewPredictor fuel (c_int cfg PredictorCapacity) (c_dur cfg PredictorDecay); Some (mt_plane (EnablePredictor mtHandler (Some p)))
    else Some (mt_plane mtHandler)
  else
    cdn ← Handler.New fuel c origin (cdn_config cfg) (c_bool cfg PredictorEnabled) (c_int cfg PredictorCapacity) (c_dur cfg PredictorDecay);
    Some (cdn_plane cdn).

(** What [main] builds before it serves: an error is [log.Fatalf]'s; [None] when the fuel of
    [NewPredictor]'s loop runs out. *)
Definition boot (fuel : nat) (io : boot_io) (cfg : Config.Config) : option (string + Edge) :=
  let logger := SetLevel (c_str cfg LogLevel) Logging.New in
  match (if c_bool cfg TracingEnabled then Init (bi_exporter io) (bi_resource io) "cdn-edge" (tracing_config cfg) else inr Noop) with
  | inl err => Some (inl ("failed to initialize tracing: " +:+ err))
  | inr _ =>
      let logger := if c_bool cfg TracingEnabled
                    then Info_ (bi_now io 0%nat) ("OpenTelemetry tracing enabled, endpoint: " +:+ c_str cfg TracingEndpoint) [] logger else logger in
      match NewWithOptions (bi_mkdir_ok io) (bi_files io) (cache_options cfg) with
      | None => Some (inl "failed to initialize cache"%string)
      | Some c =>
          let origin := NewOrigin (c_int cfg MaxCacheEntryBytes) (c_str cfg OriginHostOverride) in
          let peers := split_peers (bi_Getenv io "CDN_PURGE_PEERS") [] in
          plane ← data_plane fuel c origin cfg;
          let logger := if multiTenant cfg
                        then Info_ (bi_now io 1%nat) ("multi-tenant mode enabled, control plane: " +:+ c_str cfg ControlPlaneURL) [] logger else logger in
          let logger := if c_bool cfg PredictorEnabled then Info_ (bi_now io 2%nat) "uncacheable-URL predictor enabled" [] logger else logger in
          Some (inr {| ed_plane := plane; ed_spawned := []; ed_ready := false; ed_ReqMet := NewRequestMetrics; ed_peers := peers;
                       ed_logger := logger; ed_config := None; ed_polled := 0;
                       ed_limiter := if rate_limited cfg then Some (RateLimit.New (c_float cfg RateLimitRPS) (c_int cfg RateLimitBurst)) else None;
                       ed_spans := []; ed_stats := (0, 0, 0) |})
      end
  end.
(** ** The data plane's handler *)

(** What a request brings besides its fields: the environment of the handler, the remote
    address, the URL as sent, the readings of the clock by each layer, and what the admin
    endpoints read. *)
Record admin_io := {
  ai_rs : runtime_stats;
  ai_body : string;
  ai_sched : list nat;
  ai_level : option string;
  ai_urls : option (list string);
  ai_warm : nat -> env * string;
  ai_warm_encode : list warm_status -> string
}.

Record request_io := {
  ri_env : env;
  ri_remote : string;
  ri_url : string;
  ri_limit_now : Z;
  ri_start : Z; ri_stop : Z;
  ri_random : list Z;
  ri_t0 : Z; ri_t1 : Z; ri_t2 : Z;
  ri_admin : admin_io
}.

(** The rest of the world, a request posted to a peer, and [net.SplitHostPort]. *)
Context {World : Type}.
Abbreviation state := (Edge * World)%type.
Variable post : string -> Request -> string -> World -> World * (string + Z).
Variable host_of : string -> string.
Variable SplitHostPort : string -> option string.

Definition on_edge (f : Edge -> Edge) (s : state) : state := (f s.1, s.2).

(** [cdn], and [mtHandler], on the state of the edge. *)
Definition cdn_of (cfg : Config.Config) (e : Edge) : CDN :=
  {| h_cache := ed_cache e; h_origin := ed_origin e; h_cfg := cdn_config cfg; h_predictor := pl_predictor (ed_plane e) |}.
Definition mt_of (cfg : Config.Config) (e : Edge) : MultiTenantCDN :=
  {| mt_config := ed_config e; mt_cache := ed_cache e; mt_origin := ed_origin e; mt_defaultTTL := c_dur cfg DefaultTTL;
     mt_predictor := pl_predictor (ed_plane e) |}.

Definition cdn_handler (cfg : Config.Config) (io : request_io) : HttpHandler state := fun W _ s w r =>
  let out := ServeHTTP (ri_env io) (cdn_of cfg s.1) w r in
  (on_edge (set_plane (cdn_plane (o_cdn out)) (ed_spawned s.1 ++ o_async out)) s, o_w out).

Definition mt_handler (cfg : Config.Config) (io : request_io) : HttpHandler state := fun W _ s w r =>
  let '(h, w) := mt_ServeHTTP {| me_env := ri_env io; me_config := fun _ => ed_config s.1 |} (mt_of cfg s.1) w r in
  (on_edge (set_plane (mt_plane h) (ed_spawned s.1)) s, w).

(** [rl] *)
Definition limiter_of (cfg : Config.Config) (s : state) : Limiter :=
  default (RateLimit.New (c_float cfg RateLimitRPS) (c_int cfg RateLimitBurst)) (ed_limiter s.1).

Definition upd_metrics (f : RequestMetrics -> RequestMetrics) : state -> state := on_edge (fun e => set_met (ed_ready e) (f (ed_ReqMet e)) e).
Definition upd_logger (f : Logger -> Logger) : state -> state := on_edge (fun e => set_logger (f (ed_logger e)) e).

(** [appHandler], the layers in the order [main] puts them on. *)
Definition tenant_layer (cfg : Config.Config) (io : request_io) : HttpHandler state :=
  if multiTenant cfg then mt_handler cfg io else cdn_handler cfg io.
Definition compress_layer (cfg : Config.Config) (io : request_io) : HttpHandler state :=
  if c_bool cfg CompressionEnabled then Compress (tenant_layer cfg io) else tenant_layer cfg io.
Definition cors_layer (cfg : Config.Config) (io : request_io) : HttpHandler state :=
  if negb (String.eqb (c_str cfg CORSOrigins) "") then CORS (c_str cfg CORSOrigins) (c_int cfg CORSMaxAge) (compress_layer cfg io)
  else compress_layer cfg io.
Definition limit_layer (cfg : Config.Config) (io : request_io) : HttpHandler state :=
  if rate_limited cfg
  then RateLimit (limiter_of cfg) (fun l => on_edge (set_limiter (Some l))) SplitHostPort (ri_limit_now io) (ri_remote io) (cors_layer cfg io)
  else cors_layer cfg io.
Definition trace_layer (cfg : Config.Config) (io : request_io) : HttpHandler state :=
  if c_bool cfg TracingEnabled then TraceMiddleware (fun calls => on_edge (add_span calls)) (ri_url io) (limit_layer cfg io) else limit_layer cfg io.
Definition appHandler (cfg : Config.Config) (io : request_io) : HttpHandler state :=
  RequestMetricsMiddleware_ServeHTTP upd_metrics (ri_start io) (ri_stop io) (trace_layer cfg io).

(** ** The admin endpoints *)

Definition serve_purge (cfg : Config.Config) (io : admin_io) : HttpHandler state :=
  ServePurge (fun url r b s => let '(w, res) := post url r b s.2 in ((s.1, w), res)) host_of
    (on_edge (fun e => set_plane {| pl_cache := Purge (ed_cache e); pl_origin := ed_origin e; pl_predictor := pl_predictor (ed_plane e) |} (ed_spawned e) e))
    (fun s => ed_peers s.1) (c_str cfg AdminAPIKey) (ai_sched io) (ai_body io).

(** [warmer.ServeHTTP] *)
Definition serve_warm (cfg : Config.Config) (io : admin_io) : HttpHandler state := fun W _ s w r =>
  let '(c, o, w) := Warm_ServeHTTP (ai_warm io) (ed_cache s.1) (ed_origin s.1) (cdn_config cfg) w (r_Method r) (ai_urls io) (ai_warm_encode io) in
  (on_edge (fun e => set_plane {| pl_cache := c; pl_origin := o; pl_predictor := pl_predictor (ed_plane e) |} (ed_spawned e) e) s, w).

Definition serve_loglevel (io : admin_io) : HttpHandler state := fun W _ s w r =>
  let '(l, w) := LogLevelHandler (ai_level io) (ed_logger s.1) w r in (on_edge (set_logger l) s, w).

(** A handler that only answers. *)
Definition answers (f : forall W, Writer W -> Edge -> W -> W) : HttpHandler state := fun W _ s w _ => (s, f W _ s.1 w).

Definition mountAdmin (cfg : Config.Config) (io : admin_io) : list (string * HttpHandler state) :=
  [ ("/livez", answers (fun W _ _ w => ServeLiveness w));
    ("/readyz", answers (fun W _ e w => ServeReadiness (met e) w));
    ("/health", answers (fun W _ _ w => ServeLiveness w));
    ("/metrics", AdminAuth (c_str cfg AdminAPIKey) (answers (fun W _ e w => ServePrometheus (ai_rs io) (met e) w)));
    ("/metrics.json", AdminAuth (c_str cfg AdminAPIKey) (answers (fun W _ e w => ServeJSONMetrics (ai_rs io) (met e) w)));
    ("/purge", AdminAuth (c_str cfg AdminAPIKey) (serve_purge cfg io));
    ("/warm", AdminAuth (c_str cfg AdminAPIKey) (serve_warm cfg io));
    ("/loglevel", AdminAuth (c_str cfg AdminAPIKey) (serve_loglevel io)) ]%string.

Definition serve_config (cfg : Config.Config) (io : admin_io) : HttpHandler state := fun W _ s w r =>
  let '(h, w) := HandleConfigPush (mt_of cfg s.1) w (r_Method r) (Some (ai_body io)) in
  (on_edge (fun e => set_config (mt_config h) (ed_polled e) e) s, w).

(** [{"queued":q,"completed":c,"failed":f}] *)
Definition serve_handshake_stats : HttpHandler state := answers (fun W _ e w =>
  let '(q, c, f) := ed_stats e in
  w_Write ("{" +:+ quoted "queued" +:+ ":" +:+ Itoa q +:+ "," +:+ quoted "completed" +:+ ":" +:+ Itoa c +:+ "," +:+
           quoted "failed" +:+ ":" +:+ Itoa f +:+ "}") (json_header w)).

(** Is there a separate admin listener? *)
Definition separate_admin (cfg : Config.Config) : bool :=
  negb (String.eqb (c_str cfg AdminAddr) "") && negb (String.eqb (c_str cfg AdminAddr) (c_str cfg ListenAddr)).

(** The routes of [mainMux] other than [/]. *)
Definition main_routes (cfg : Config.Config) (io : admin_io) : list (string * HttpHandler state) :=
  (if separate_admin cfg then [] else mountAdmin cfg io) ++
  (if multiTenant cfg then [("/edge/config"%string, AdminAuth (c_str cfg AdminAPIKey) (serve_config cfg io))] else []) ++
  (if c_bool cfg TLSEnabled && negb (c_bool cfg TLSAuto)
   then [("/handshake-stats"%string, AdminAuth (c_str cfg AdminAPIKey) serve_handshake_stats)] else []).

Definition mainMux (cfg : Config.Config) (io : request_io) : HttpHandler state := mux (main_routes cfg (ri_admin io)) (appHandler cfg io).
Definition not_found : HttpHandler state := answers (fun W _ _ w => http_Error "404 page not found" 404 w).
Definition adminMux (cfg : Config.Config) (io : admin_io) : option (HttpHandler state) :=
  if separate_admin cfg then Some (mux (mountAdmin cfg io) not_found) else None.

(** Around all: structured access logging. *)
Definition mainHandler (cfg : Config.Config) (io : request_io) : HttpHandler state :=
  LogMiddleware upd_logger (ri_random io) (ri_t0 io) (ri_t1 io) (ri_t2 io) (ri_remote io) (fun _ => mainMux cfg io).

(** ** Background work and signals *)

(** A tick of the predictor's decay, of the limiter's sweep and of the poller; a revalidation
    spawned earlier runs. *)
Definition decay_tick (e : Edge) : Edge :=
  match pl_predictor (ed_plane e) with
  | Some p => set_plane {| pl_cache := ed_cache e; pl_origin := ed_origin e; pl_predictor := Some (Rotate p) |} (ed_spawned e) e
  | None => e
  end.
Definition sweep_tick (now : Z) (e : Edge) : Edge := set_limiter (cleanup now <$> ed_limiter e) e.
Definition poll_tick (cfg : Config.Config) (resp : option (Z * option string)) (e : Edge) : Edge :=
  let p := poll {| cp_handler := mt_of cfg e; cp_lastVersion := ed_polled e |} resp in
  set_config (mt_config (cp_handler p)) (cp_lastVersion p) e.
Definition run_revalidation (cfg : Config.Config) (ev : env) (rv : revalidation) (rest : list revalidation) (e : Edge) : Edge :=
  set_plane (cdn_plane (revalidateAsync ev (cdn_of cfg e) rv)) rest e.

(** One SIGHUP, the environment and the clock at the time. *)
Definition sighup (Getenv : string -> string) (now : nat -> Z) (e : Edge) : Edge :=
  let e := set_logger (Info_ (now 0%nat) "received SIGHUP, reloading configuration" [] (ed_logger e)) e in
  let lvl := Getenv "CDN_LOG_LEVEL"%string in
  let e := if String.eqb lvl "" then e
           else set_logger (Info_ (now 1%nat) ("log level changed to " +:+ lvl) [] (SetLevel lvl (ed_logger e))) e in
  let peers := Getenv "CDN_PURGE_PEERS"%string in
  if String.eqb peers "" then e
  else let e := set_peers (Split "," peers) e in set_logger (Info_ (now 2%nat) "purge peers updated" [] (ed_logger e)) e.

(** What happens besides start, shutdown and requests on the main listener, in any order:
    requests on the admin listener, reloads, background work, and whatever the rest of the
    world does. *)
Inductive work (cfg : Config.Config) : state -> state -> Prop :=
  | bg_admin s io admin r : adminMux cfg io = Some admin -> work cfg s (admin _ _ s new_writer r).1
  | bg_sighup s Getenv now : work cfg s (on_edge (sighup Getenv now) s)
  | bg_decay s : 0 < c_dur cfg PredictorDecay -> work cfg s (on_edge decay_tick s)
  | bg_sweep s now : work cfg s (on_edge (sweep_tick now) s)
  | bg_poll s resp : multiTenant cfg = true -> work cfg s (on_edge (poll_tick cfg resp) s)
  | bg_revalidate s ev rv front rest : ed_spawned s.1 = front ++ rv :: rest ->
      work cfg s (on_edge (run_revalidation cfg ev rv (front ++ rest)) s)
  | bg_world s st : work cfg s (s.1, st).

Inductive background (cfg : Config.Config) : state -> state -> Prop :=
  | bg_request s io r : background cfg s (mainHandler cfg io _ _ s new_writer r).1
  | bg_work s s' : work cfg s s' -> background cfg s s'.

(** The life of a process: the goroutine that serves sets it ready, [main] waits for the
    signal, sets it not ready, drains and shuts down; [R] goes on in between. *)
Inductive phase := Running | Draining | Stopped.
Record life := { lf_phase : phase; lf_serving : bool; lf_state : state }.

Inductive life_with (R : state -> state -> Prop) : life -> life -> Prop :=
  | life_serve ph s : ph <> Stopped ->
      life_with R {| lf_phase := ph; lf_serving := false; lf_state := s |}
                  {| lf_phase := ph; lf_serving := true; lf_state := on_edge (set_ready true) s |}
  | life_sigterm sv s :
      life_with R {| lf_phase := Running; lf_serving := sv; lf_state := s |}
                  {| lf_phase := Draining; lf_serving := sv; lf_state := on_edge (set_ready false) s |}
  | life_shutdown sv s :
      life_with R {| lf_phase := Draining; lf_serving := sv; lf_state := s |} {| lf_phase := Stopped; lf_serving := sv; lf_state := s |}
  | life_background ph sv s s' : ph <> Stopped -> R s s' ->
      life_with R {| lf_phase := ph; lf_serving := sv; lf_state := s |} {| lf_phase := ph; lf_serving := sv; lf_state := s' |}.

Definition life_step (cfg : Config.Config) : life -> life -> Prop := life_with (background cfg).

End main.

(** ** Authentication *)

Section facts.
Context `{Hash64} `{HeaderCodec} `{DiskWorld} `{Unicode} `{HttpClient} `{HttpTime} `{PurgeJson} `{FloatFormat} `{MetricsJson} `{LogTime}
  `{UrlQuery} `{ConfigJson} `{Compressor}.
Context {World : Type}.
Variable post : string -> Request -> string -> World -> World * (string + Z).
Variable host_of : string -> string.
Variable split : string -> option string.
Abbreviation state := (Edge * World)%type.
Implicit Types (h : HttpHandler state) (s : state).

Definition probes : list string := ["/livez"; "/readyz"; "/health"]%string.

(** The key [AdminAuth] compares. *)
Definition presented_key (r : Request) : string :=
  let key := Header_Get (r_Header r) "X-API-Key" in if String.eqb key "" then query_get (r_RawQuery r) "api_key" else key.

(** A handler that turns away whoever does not present the key. *)
Definition guarded (key : string) h : Prop :=
  forall W (HW : Writer W) s (w : W) r, presented_key r <> key -> h W HW s w r = (s, http_Error "Unauthorized" 401 w).

Lemma AdminAuth_guarded key h : key <> ""%string -> guarded key (AdminAuth key h).
Proof.
  intros Hk W HW s w r Hr. unfold AdminAuth. rewrite (proj2 (String.eqb_neq _ _) Hk). unfold presented_key in Hr. cbv zeta in *.
  by rewrite (proj2 (String.eqb_neq _ _) Hr).
Qed.

Lemma mountAdmin_guarded cfg io :
  c_str cfg AdminAPIKey <> ""%string ->
  Forall (fun route => route.1 ∈ probes \/ guarded (c_str cfg AdminAPIKey) route.2) (mountAdmin post host_of cfg io).
Proof.
  intros Hk. unfold mountAdmin. repeat (constructor; [first [right; by apply AdminAuth_guarded | left; cbn; set_solver] |]). constructor.
Qed.

Lemma main_routes_guarded cfg io :
  c_str cfg AdminAPIKey <> ""%string ->
  Forall (fun route => route.1 ∈ probes \/ guarded (c_str cfg AdminAPIKey) route.2) (main_routes post host_of cfg io).
Proof.
  intros Hk. unfold main_routes. rewrite !Forall_app. split_and!.
  - destruct (separate_admin cfg); [constructor | by apply mountAdmin_guarded].
  - destruct (multiTenant cfg); [apply Forall_singleton; right; by apply AdminAuth_guarded | constructor].
  - destruct (_ && _); [apply Forall_singleton; right; by apply AdminAuth_guarded | constructor].
Qed.

(** What a mux of guarded routes answers without the key. *)
Lemma mux_guarded key (routes : list (string * HttpHandler state)) root {W} `{Writer W} s (w : W) r :
  Forall (fun route => route.1 ∈ probes \/ guarded key route.2) routes ->
  presented_key r <> key -> r_Path r ∉ probes ->
  mux routes root _ _ s w r = if bool_decide (r_Path r ∈ routes.*1) then (s, http_Error "Unauthorized" 401 w) else root _ _ s w r.
Proof.
  intros Hg Hk Hp. case_bool_decide as Hin; [| by apply mux_root]. unfold mux.
  destruct (List.find _ routes) as [[path h] |] eqn:E.
  - apply List.find_some in E. destruct E as [Hr E]. cbn in E. apply String.eqb_eq in E. subst path. apply list_elem_of_In in Hr.
    rewrite Forall_forall in Hg. destruct (Hg _ Hr) as [? | Hh]; [done |]. by apply Hh.
  - apply list_elem_of_fmap in Hin. destruct Hin as ([path h] & Hpath & Hin).
    apply list_elem_of_In in Hin. apply (List.find_none _ _ E) in Hin. cbn in *. subst path. by rewrite String.eqb_refl in Hin.
Qed.

(** C24: Without the key nothing administrative happens: when an admin key is set, a request
    that does not present it changes nothing on either listener unless the data plane
    answers it: every mounted path but the three probes answers 401, on any writer, and
    leaves the whole state (cache, peers, log level, tenant configuration) as it was. *)
Theorem admin_needs_key cfg io {W} `{Writer W} s (w : W) r :
  c_str cfg AdminAPIKey <> ""%string -> presented_key r <> c_str cfg AdminAPIKey -> r_Path r ∉ probes ->
  mainMux post host_of split cfg io _ _ s w r
    = (if bool_decide (r_Path r ∈ (main_routes post host_of cfg (ri_admin io)).*1) then (s, http_Error "Unauthorized" 401 w)
       else appHandler split cfg io _ _ s w r) /\
  forall admin, adminMux post host_of cfg (ri_admin io) = Some admin ->
    (admin _ _ s w r).1 = s /\ (r_Path r ∈ (mountAdmin post host_of cfg (ri_admin io)).*1 -> (admin _ _ s w r).2 = http_Error "Unauthorized" 401 w).
Proof.
  intros Hk Hr Hp. split; [apply (mux_guarded (c_str cfg AdminAPIKey)); [by apply main_routes_guarded | done | done] |].
  intros admin. unfold adminMux. case_match; [| done]. intros [= <-].
  rewrite (mux_guarded (c_str cfg AdminAPIKey)) by (done || by apply mountAdmin_guarded).
  destruct (bool_decide_reflect (r_Path r ∈ (mountAdmin post host_of cfg (ri_admin io)).*1)); by split.
Qed.

(** A request to a probe, or to an endpoint left open, on the listener that has the admin routes. *)
Lemma mainMux_admin cfg io {W} `{Writer W} s (w : W) r h :
  separate_admin cfg = false ->
  List.find (fun route => String.eqb route.1 (r_Path r)) (mountAdmin post host_of cfg (ri_admin io)) = Some (r_Path r, h) ->
  mainMux post host_of split cfg io _ _ s w r = h _ _ s w r.
Proof.
  intros Hs Hf. unfold mainMux, mux, main_routes. rewrite Hs.
  enough (Happ : forall l l' : list (string * HttpHandler state),
    List.find (fun route => String.eqb route.1 (r_Path r)) l = Some (r_Path r, h) ->
    List.find (fun route => String.eqb route.1 (r_Path r)) (l ++ l') = Some (r_Path r, h)) by (by rewrite (Happ _ _ Hf)).
  clear. intros l l'. induction l as [| route l IH]; [done |]. cbn. by destruct (String.eqb route.1 (r_Path r)).
Qed.

(** Without a key set anyone purges: on an edge with no admin key and no separate admin
    listener, which is the default, a POST to /purge that any client of the data port
    sends empties the cache. *)
Theorem unset_key_opens_purge cfg io s (w : ResponseWriter) r :
  c_str cfg AdminAPIKey = ""%string -> c_str cfg AdminAddr = ""%string -> r_Path r = "/purge"%string -> r_Method r = "POST"%string ->
  decode_distributed (ai_body (ri_admin io)) = Some false ->
  ed_cache (mainHandler post host_of split cfg io _ _ s w r).1.1 = Purge (ed_cache s.1).
Proof.
  intros Hk Ha Hp Hm Hd. unfold mainHandler, LogMiddleware.
  rewrite (mainMux_admin _ _ _ _ _ (AdminAuth (c_str cfg AdminAPIKey) (serve_purge post host_of cfg (ri_admin io))));
    [| unfold separate_admin; by rewrite Ha | rewrite Hp; done].
  unfold AdminAuth. rewrite Hk. cbn [String.eqb]. unfold serve_purge, ServePurge. rewrite Hm, Hd. done.
Qed.

(** SIGHUP reloads the log level and the purge peers and nothing else: not the rate
    limits, which its comment lists; a variable that is empty or a level that is unknown
    keeps the old setting. *)
Theorem sighup_reloads Getenv now e :
  let e' := sighup Getenv now e in
  ed_peers e' = split_peers (Getenv "CDN_PURGE_PEERS"%string) (ed_peers e) /\
  lg_level (ed_logger e') = lg_level (SetLevel (Getenv "CDN_LOG_LEVEL"%string) (ed_logger e)) /\
  ed_limiter e' = ed_limiter e /\ ed_plane e' = ed_plane e /\ ed_config e' = ed_config e /\ ed_ready e' = ed_ready e.
Proof.
  cbv zeta. unfold sighup, split_peers. assert (Hi : forall t m l, lg_level (Info_ t m [] l) = lg_level l) by (intros; unfold Info_; by case_match).
  assert (Hlev : forall a b l, lg_level l = lg_level a -> lg_level (SetLevel b l) = lg_level (SetLevel b a))
    by (intros a b l E; unfold SetLevel; by repeat case_match).
  destruct (String.eqb_spec (Getenv "CDN_LOG_LEVEL"%string) "") as [El | El]; destruct (String.eqb (Getenv "CDN_PURGE_PEERS"%string) "") eqn:Ep;
    cbn; rewrite ?Hi, ?El; split_and!; try done; by apply Hlev, Hi.
Qed.

End facts.

(** ** A concrete edge *)

#[local] Existing Instances poly_hash64 bits_codec bits_codec_laws plain_disk ascii_unicode echo_client mark_compressor.
#[local] Instance no_http_time : HttpTime := {| ParseTime _ := None |}.
#[local] Instance plain_log_time : LogTime := {| rfc3339nano := Itoa |}.
#[local] Instance no_params : UrlQuery := {| query_get _ _ := ""%string |}.
#[local] Instance no_config : ConfigJson := {| Unmarshal_EdgeConfig _ := None |}.
#[local] Instance purge_bodies : PurgeJson :=
  {| decode_distributed s := if String.eqb s "local" then Some false else None; encode_results _ := ""%string |}.
#[local] Instance float_digits : FloatFormat := {| fmt_fixed1 _ := "0.0"%string; fmt_g _ := "0"%string |}.
#[local] Instance metrics_text : MetricsJson := {| encode_metrics _ := "{}"%string |}.

Definition no_post (url : string) (r : Request) (b : string) (st : unit) : unit * (string + Z) := (st, inr 200).

Definition keyed (key : string) : Config.Config := assign default_config (SetStr AdminAPIKey key).
Definition an_edge (ready : bool) : Edge :=
  {| ed_plane := {| pl_cache := tiny_cache; pl_origin := NewOrigin 0 ""; pl_predictor := None |}; ed_spawned := []; ed_ready := ready;
     ed_ReqMet := NewRequestMetrics; ed_peers := ["http://b"]%string; ed_logger := Logging.New; ed_config := None; ed_polled := 0;
     ed_limiter := None; ed_spans := []; ed_stats := (0, 0, 0) |}.
Definition an_io (body : string) : request_io :=
  {| ri_env := ev_at 0; ri_remote := "10.0.0.1:99"; ri_url := "/a"; ri_limit_now := 1; ri_start := 2; ri_stop := 3; ri_random := [1; 2];
     ri_t0 := 0; ri_t1 := 5; ri_t2 := 6;
     ri_admin := {| ai_rs := {| rs_NumGoroutine := 1; rs_HeapAlloc := 1; rs_NumGC := 0 |}; ai_body := body; ai_sched := []; ai_level := Some "debug"%string;
       ai_urls := None; ai_warm := fun _ => (ev_at 0, ""%string); ai_warm_encode := fun _ => ""%string |} |}.
Definition to_path (method path : string) : Request :=
  {| r_Method := method; r_Host := "h"; r_Path := path; r_RawQuery := ""; r_RequestURI := path; r_Header := ∅ |}.

Lemma admin_needs_key_witness :
  mainMux no_post (fun u => u) (fun a => Some a) (keyed "k") (an_io "local") _ _ (an_edge true, tt) new_writer (to_path "POST" "/purge")
    = ((an_edge true, tt), http_Error "Unauthorized" 401 new_writer).
Proof.
  refine (proj1 (admin_needs_key no_post (fun u => u) (fun a => Some a) (keyed "k") (an_io "local") (an_edge true, tt) new_writer (to_path "POST" "/purge") _ _ _));
    [discriminate | discriminate | set_solver].
Defined.

Lemma unset_key_opens_purge_witness :
  ed_cache (mainHandler no_post (fun u => u) (fun a => Some a) default_config (an_io "local") _ _ (an_edge true, tt) new_writer (to_path "POST" "/purge")).1.1
  = Purge (ed_cache (an_edge true)).
Proof.
  exact (unset_key_opens_purge no_post (fun u => u) (fun a => Some a) default_config (an_io "local") (an_edge true, tt) new_writer (to_path "POST" "/purge")
    eq_refl eq_refl eq_refl eq_refl eq_refl).
Defined.
