(* ===== verification/Running.v ===== *)
(** * A running edge ([main.go])

    What the life of an edge does to what it keeps. Every handler of either listener and
    every background worker changes the state by a few kinds of update ([closed_under]); a
    property closed under those holds for as long as the process lives. Two are: the
    readiness flag, which only start and shutdown change, and [evolved], which says that
    each component is where a sequence of its own operations leads, so the theorems of the
    component files hold inside the running edge. *)

From S2P Require Import Prelude GoStrings CacheKey TinyLFU Entry Disk Cache Predictor Http CacheControl Circuit Origin Handler Tenant MultiTenant Parts Store Api Middleware Float Logging Metrics RateLimit Tracing Chain Purge Config Edge.

Local Open Scope Z_scope.

Section running.
Context `{Hash64} `{HeaderCodec} `{DiskWorld} `{Unicode} `{HttpClient} `{HttpTime} `{PurgeJson} `{FloatFormat} `{MetricsJson} `{LogTime}
  `{UrlQuery} `{ConfigJson} `{Compressor}.
Context {World : Type}.
Variable post : string -> Request -> string -> World -> World * (string + Z).
Variable host_of : string -> string.
Variable split : string -> option string.
Abbreviation state := (Edge * World)%type.
Implicit Types (h : HttpHandler state) (s : state) (I : state -> Prop).

(** The updates requests and background work make. *)
Record closed_under (cfg : Config.Config) (I : state -> Prop) : Prop := {
  cu_plane : forall s x spawned, I s -> moved (ed_plane s.1) x -> I (on_edge (set_plane x spawned) s);
  cu_metrics : forall s d code, I s -> I (upd_metrics (Record_ d code) s);
  cu_logger : forall s l, I s -> I (on_edge (set_logger l) s);
  cu_peers : forall s ps, I s -> I (on_edge (set_peers ps) s);
  cu_config : forall s c v, I s -> I (on_edge (set_config c v) s);
  cu_limiter : forall s now ip, rate_limited cfg = true -> I s -> I (on_edge (set_limiter (Some (RateLimit.Allow now ip (limiter_of cfg s)).1)) s);
  cu_sweep : forall s now, I s -> I (on_edge (sweep_tick now) s);
  cu_span : forall s calls, I s -> I (on_edge (add_span calls) s);
  cu_world : forall s st, I s -> I (s.1, st)
}.

Section preserved.
Variable cfg : Config.Config.
Variable I : state -> Prop.
Hypothesis HI : closed_under cfg I.

Lemma cdn_preserves io : preserves I (cdn_handler cfg io).
Proof.
  intros W HW s w r Hs. unfold cdn_handler. cbn [fst].
  destruct (ServeHTTP_moved (ri_env io) (cdn_of cfg s.1) w r) as [_ Hm]. apply (cu_plane _ _ HI); [done |].
  destruct s as [e st]; destruct e as [[c o p] sp]; exact Hm.
Qed.

Lemma mt_preserves io : preserves I (mt_handler cfg io).
Proof.
  intros W HW s w r Hs. unfold mt_handler.
  destruct (mt_ServeHTTP_moved {| me_env := ri_env io; me_config := fun _ => ed_config s.1 |} (mt_of cfg s.1) w r) as (_ & _ & Hm).
  destruct (mt_ServeHTTP _ _ _ _) as [h w']. cbn [fst] in *. apply (cu_plane _ _ HI); [done |].
  destruct s as [e st]; destruct e as [[c o p] sp]; exact Hm.
Qed.

Lemma appHandler_preserves io : preserves I (appHandler split cfg io).
Proof.
  unfold appHandler. apply Metrics_preserves; [intros; by apply (cu_metrics _ _ HI) |].
  unfold trace_layer, limit_layer, cors_layer, compress_layer, tenant_layer.
  assert (Ht : preserves I (if multiTenant cfg then mt_handler cfg io else cdn_handler cfg io))
    by (destruct (multiTenant cfg); [apply mt_preserves | apply cdn_preserves]).
  set (t := if multiTenant cfg then _ else _) in *. clearbody t.
  assert (Hz : preserves I (if c_bool cfg CompressionEnabled then Compress t else t)) by (destruct (c_bool cfg CompressionEnabled); auto with preserves).
  set (z := if c_bool cfg CompressionEnabled then _ else _) in *. clearbody z.
  assert (Hc : preserves I (if negb (String.eqb (c_str cfg CORSOrigins) "") then CORS (c_str cfg CORSOrigins) (c_int cfg CORSMaxAge) z else z))
    by (destruct (negb _); auto with preserves).
  set (c := if negb _ then _ else _) in *. clearbody c.
  match goal with |- preserves I (if _ then TraceMiddleware _ _ ?l else ?l) => assert (Hl : preserves I l) end.
  { destruct (rate_limited cfg) eqn:Er; [| done]. apply RateLimit_preserves; [intros; by apply (cu_limiter _ _ HI) | done]. }
  destruct (c_bool cfg TracingEnabled); [| done]. apply Trace_preserves; [intros; by apply (cu_span _ _ HI) | done].
Qed.

Lemma answers_preserves (f : forall W, Writer W -> Edge -> W -> W) : preserves I (answers f).
Proof. by intros W HW s w r Hs. Qed.

(** Posting to peers changes the rest of the world only. *)
Lemma fan_out_preserves {A R} (call : A -> state -> state * R) sched xs s :
  (forall x s, I s -> I (call x s).1) -> I s -> I (fan_out call sched xs s).1.
Proof.
  intros Hc. unfold fan_out. generalize (@nil (nat * R)) as out. revert s.
  induction sched as [| i sched IH]; intros s out Hs; [done |]. cbn [foldl].
  assert (Hstep : I (fan_step call xs (s, out) i).1).
  { unfold fan_step. destruct (xs !! i) as [x |]; [| done]. cbn [fst snd]. pose proof (Hc x s Hs) as E. by destruct (call x s). }
  destruct (fan_step call xs (s, out) i) as [s1 out1]. by apply IH.
Qed.

Lemma serve_purge_preserves io : preserves I (serve_purge post host_of cfg io).
Proof.
  intros W HW s w r Hs. unfold serve_purge, ServePurge. destruct (negb _); [done |].
  set (s1 := on_edge _ s). assert (Hs1 : I s1).
  { apply (cu_plane _ _ HI); [done |]. split; cbn; [apply Purge_moved | done..]. }
  destruct (negb _); [done |].
  match goal with |- context [fan_out ?c ?sch ?xs ?s0] => assert (E : I (fan_out c sch xs s0).1) end.
  { apply fan_out_preserves; [| done]. intros x st Hst. unfold purgePeer. destruct (post _ _ _ st.2) as [st' res]. by apply (cu_world _ _ HI). }
  by destruct (fan_out _ _ _ _) as [s' out].
Qed.

Lemma serve_warm_preserves io : preserves I (serve_warm cfg io).
Proof.
  intros W HW s w r Hs. unfold serve_warm.
  pose proof (Warm_moved (ai_warm io) (ed_cache s.1) (ed_origin s.1) (cdn_config cfg) w (r_Method r) (ai_urls io) (ai_warm_encode io)) as Hm.
  destruct (Warm_ServeHTTP _ _ _ _ _ _ _ _) as [[c o] w']. destruct Hm as [Hc Ho]. cbn [fst].
  apply (cu_plane _ _ HI s); [done |]. by split.
Qed.

Lemma serve_loglevel_preserves io : preserves I (serve_loglevel io).
Proof.
  intros W HW s w r Hs. unfold serve_loglevel. destruct (LogLevelHandler _ _ _ _) as [l w']. by apply (cu_logger _ _ HI).
Qed.

Lemma serve_config_preserves io : preserves I (serve_config cfg io).
Proof.
  intros W HW s w r Hs. unfold serve_config. destruct (HandleConfigPush _ _ _ _) as [h w']. by apply (cu_config _ _ HI s).
Qed.

Hint Resolve answers_preserves serve_purge_preserves serve_warm_preserves serve_loglevel_preserves serve_config_preserves : preserves.

Lemma mountAdmin_preserves io : Forall (fun route => preserves I route.2) (mountAdmin post host_of cfg io).
Proof. unfold mountAdmin. repeat (apply Forall_cons; split; [cbn [snd]; auto with preserves |]). constructor. Qed.

Lemma main_routes_preserve io : Forall (fun route => preserves I route.2) (main_routes post host_of cfg io).
Proof.
  unfold main_routes. rewrite !Forall_app. split_and!.
  - destruct (separate_admin cfg); [constructor | apply mountAdmin_preserves].
  - destruct (multiTenant cfg); [apply Forall_singleton; cbn [snd]; auto with preserves | constructor].
  - destruct (_ && _); [apply Forall_singleton; cbn [snd]; unfold serve_handshake_stats; auto with preserves | constructor].
Qed.

Lemma mainHandler_preserves io : preserves I (mainHandler post host_of split cfg io).
Proof.
  apply Log_preserves; [intros e s Hs; by apply (cu_logger _ _ HI) |]. intros ctx.
  apply mux_preserves; [apply main_routes_preserve | apply appHandler_preserves].
Qed.

Lemma adminMux_preserves io admin : adminMux post host_of cfg io = Some admin -> preserves I admin.
Proof.
  unfold adminMux. destruct (separate_admin cfg); [| done]. intros [= <-]. apply mux_preserves; [apply mountAdmin_preserves |].
  apply answers_preserves.
Qed.

Lemma sighup_preserves Getenv now s : I s -> I (on_edge (sighup Getenv now) s).
Proof.
  intros Hs. destruct s as [e st]. unfold sighup, on_edge. cbn [fst snd].
  assert (Hl : forall l e', I (e', st) -> I (set_logger l e', st)) by (intros l e' He; by apply (cu_logger _ _ HI (e', st))).
  assert (Hp : forall ps e', I (e', st) -> I (set_peers ps e', st)) by (intros ps e' He; by apply (cu_peers _ _ HI (e', st))).
  destruct (String.eqb (Getenv "CDN_LOG_LEVEL"%string) ""), (String.eqb (Getenv "CDN_PURGE_PEERS"%string) ""); auto 6.
Qed.

Lemma work_preserves s s' : work post host_of cfg s s' -> I s -> I s'.
Proof.
  intros Hb Hs. destruct Hb as [s io admin r Ha | s G now | s Hd | s now | s resp Hm | s ev rv front rest Hsp | s st].
  - by apply (adminMux_preserves io admin Ha).
  - by apply sighup_preserves.
  - destruct s as [e st]; destruct e as [[c o [p |]] sp]; [| exact Hs]. apply (cu_plane _ _ HI (_, st)); [done |].
    split; cbn; [done | done | apply Rotate_moved].
  - by apply (cu_sweep _ _ HI).
  - by apply (cu_config _ _ HI s).
  - apply (cu_plane _ _ HI); [done |]. destruct (revalidateAsync_moved ev (cdn_of cfg s.1) rv) as [_ Hm].
    destruct s as [e st]; destruct e as [[c o p] sp]; exact Hm.
  - by apply (cu_world _ _ HI).
Qed.

(** Nothing but start and shutdown leaves a property closed under the updates. *)
Lemma background_preserves s s' : background post host_of split cfg s s' -> I s -> I s'.
Proof. intros [s1 io r | s1 s2 Hw]; [by apply mainHandler_preserves | by apply work_preserves]. Qed.

End preserved.

(** ** Readiness *)

Lemma ready_closed cfg b : closed_under cfg (fun s => ed_ready s.1 = b).
Proof. by split. Qed.

(** Once the server serves, the flag follows the phase. *)
Definition ready_inv (l : life (World := World)) : Prop :=
  lf_serving l = true /\ ed_ready (lf_state l).1 = match lf_phase l with Running => true | _ => false end.

Lemma life_step_ready cfg l l' : life_step post host_of split cfg l l' -> ready_inv l -> ready_inv l'.
Proof.
  intros Hs [Hv Hr]. destruct Hs as [ph s Hph | sv s | sv s | ph sv s s' Hph Hb]; split; cbn in *; try done.
  by apply (background_preserves cfg _ (ready_closed cfg _) s s' Hb).
Qed.

(** The client of the readiness probe, through the access log and the mux. *)
Lemma readyz_status cfg io s r :
  separate_admin cfg = false -> r_Path r = "/readyz"%string ->
  w_status (mainHandler post host_of split cfg io _ _ s new_writer r).2
  = if ed_ready s.1 then (if String.eqb (CircuitState (ed_origin s.1)) "open" then 503 else 200) else 503.
Proof.
  intros Hsep Hp. unfold mainHandler, LogMiddleware.
  rewrite (mainMux_admin post host_of split cfg io _ _ _ (answers (fun W _ e w => ServeReadiness (met e) w))) by (done || by rewrite Hp).
  unfold answers, ServeReadiness. cbn [fst snd mh_ready mh_origin met]. by destruct (ed_ready s.1); [destruct (String.eqb _ "open") |].
Qed.

(** C33: A draining edge is not ready: once the server serves, the readiness probe of the
    data port answers 200 exactly until SIGTERM (and while the circuit is not open) and
    503 from then on, whatever requests, reloads and background work come in between and
    without a key, so load balancers stop routing during the drain delay. *)
Theorem drain_not_ready cfg l0 l io r :
  ready_inv l0 -> rtc (life_step post host_of split cfg) l0 l ->
  separate_admin cfg = false -> r_Path r = "/readyz"%string ->
  let code := w_status (mainHandler post host_of split cfg io _ _ (lf_state l) new_writer r).2 in
  match lf_phase l with
  | Running => code = if String.eqb (CircuitState (ed_origin (lf_state l).1)) "open" then 503 else 200
  | _ => code = 503
  end.
Proof.
  intros Hi Hsteps Hsep Hp. cbv zeta.
  assert (Hl : ready_inv l) by (apply (rtc_invariant (life_step post host_of split cfg) ready_inv l0); eauto using life_step_ready).
  destruct Hl as [_ Hl]. rewrite readyz_status, Hl by done. by destruct (lf_phase l).
Qed.

(** An edge told to stop before it served stays ready: the serving goroutine may set the
    flag after [main] cleared it, so readiness is reported through the whole drain. *)
Theorem late_start_stays_ready cfg s :
  exists l, rtc (life_step post host_of split cfg) {| lf_phase := Running; lf_serving := false; lf_state := s |} l /\
    lf_phase l = Draining /\ ed_ready (lf_state l).1 = true.
Proof.
  eexists. split; [eapply rtc_l; [apply life_sigterm |]; eapply rtc_l; [by apply life_serve | apply rtc_refl] |]. by split.
Qed.

(** ** The components inside the edge *)

(** [e] is where the components' own operations lead from [e0]. *)
Record evolved (cfg : Config.Config) (e0 e : Edge) : Prop := {
  ev_plane : moved (ed_plane e0) (ed_plane e);
  ev_metrics : exists evs, ed_ReqMet e = foldl (fun rm ev => Record_ ev.1 ev.2 rm) (ed_ReqMet e0) evs;
  ev_limiter : exists ops, ed_limiter e = (fun l => foldl limiter_step l ops) <$> ed_limiter e0;
  ev_limited : rate_limited cfg = true -> is_Some (ed_limiter e)
}.

Lemma evolved_refl cfg e : (rate_limited cfg = true -> is_Some (ed_limiter e)) -> evolved cfg e e.
Proof. intros Hl. split; [done | by exists [] | exists []; by destruct (ed_limiter e) | done]. Qed.

Lemma limiter_evolves (l0 : option Limiter) ops op l :
  (fun l => foldl limiter_step l ops) <$> l0 = Some l -> Some (limiter_step l op) = (fun l => foldl limiter_step l (ops ++ [op])) <$> l0.
Proof. destruct l0 as [l1 |]; [| done]. cbn. intros [= <-]. by rewrite foldl_app. Qed.

Lemma evolved_closed cfg e0 : closed_under cfg (fun s => evolved cfg e0 s.1).
Proof.
  split.
  - intros s x sp [Hp Hm Hl Hs] Hx. split; [by transitivity (ed_plane s.1) | done..].
  - intros s d code [Hp [evs Hm] Hl Hs]. split; [done | | done | done]. exists (evs ++ [(d, code)]). cbn. by rewrite foldl_app, Hm.
  - intros s l [Hp Hm Hl Hs]. by split.
  - intros s ps [Hp Hm Hl Hs]. by split.
  - intros s c v [Hp Hm Hl Hs]. by split.
  - intros s now ip Hr [Hp Hm [ops Hl] Hs]. split; cbn; [done | done | | by eexists]. destruct (Hs Hr) as [l El].
    exists (ops ++ [(now, LAllow ip)]). unfold limiter_of. rewrite El. cbn [default]. rewrite El in Hl.
    exact (limiter_evolves _ ops (now, LAllow ip) l (eq_sym Hl)).
  - intros s now [Hp Hm [ops Hl] Hs]. split; cbn; [done | done | |].
    + exists (ops ++ [(now, LCleanup)]). destruct (ed_limiter s.1) as [l |] eqn:El; cbn.
      * exact (limiter_evolves _ ops (now, LCleanup) l (eq_sym Hl)).
      * by destruct (ed_limiter e0).
    + intros Hr. destruct (Hs Hr) as [l El]. rewrite El. by eexists.
  - intros s calls [Hp Hm Hl Hs]. by split.
  - done.
Qed.

Lemma life_evolves cfg e0 st l :
  (rate_limited cfg = true -> is_Some (ed_limiter e0)) ->
  rtc (life_step post host_of split cfg) {| lf_phase := Running; lf_serving := false; lf_state := (e0, st) |} l ->
  evolved cfg e0 (lf_state l).1.
Proof.
  intros Hl. apply (rtc_invariant _ (fun l => evolved cfg e0 (lf_state l).1)); [by apply evolved_refl |].
  intros l1 l2 He Hs. destruct Hs as [ph s Hph | sv s | sv s | ph sv s s' Hph Hb]; cbn in *; try done.
  - destruct He. by split.
  - destruct He. by split.
  - by apply (background_preserves cfg _ (evolved_closed cfg e0) s s' Hb).
Qed.

(** ** From the command line to the running edge *)

Section booted.
Context `{ConfigParsers}.

(** The predictor's counters fit, so making it ends. *)
Definition predictor_fits (cfg : Config.Config) : Prop :=
  c_bool cfg PredictorEnabled = true -> predictor_target (c_int cfg PredictorCapacity) <= 2 ^ 31.

(** What [boot] made, when it made an edge. *)
Record boots (fuel : nat) (cfg : Config.Config) (e : Edge) : Prop := {
  bo_cache : exists mkdir_ok files, NewWithOptions mkdir_ok files (cache_options cfg) = Some (ed_cache e);
  bo_origin : ed_origin e = NewOrigin (c_int cfg MaxCacheEntryBytes) (c_str cfg OriginHostOverride);
  bo_predictor : if c_bool cfg PredictorEnabled
    then exists p, NewPredictor fuel (c_int cfg PredictorCapacity) (c_dur cfg PredictorDecay) = Some p /\ pl_predictor (ed_plane e) = Some p
    else pl_predictor (ed_plane e) = None;
  bo_metrics : ed_ReqMet e = NewRequestMetrics;
  bo_limiter : ed_limiter e = if rate_limited cfg then Some (RateLimit.New (c_float cfg RateLimitRPS) (c_int cfg RateLimitBurst)) else None;
  bo_ready : ed_ready e = false
}.

(** Both modes make the same parts. *)
Lemma data_plane_eq fuel c o cfg :
  data_plane fuel c o cfg
  = if c_bool cfg PredictorEnabled
    then p ← NewPredictor fuel (c_int cfg PredictorCapacity) (c_dur cfg PredictorDecay); Some {| pl_cache := c; pl_origin := o; pl_predictor := Some p |}
    else Some {| pl_cache := c; pl_origin := o; pl_predictor := None |}.
Proof.
  unfold data_plane, Handler.New. destruct (multiTenant cfg), (c_bool cfg PredictorEnabled); try done. by destruct (NewPredictor _ _ _).
Qed.

Lemma boot_boots fuel io cfg e : boot fuel io cfg = Some (inr e) -> boots fuel cfg e.
Proof.
  unfold boot. destruct (if c_bool cfg TracingEnabled then Init _ _ _ _ else _) as [err | pr]; [done |].
  destruct (NewWithOptions _ _ _) as [c |] eqn:Ec; [| done]. rewrite data_plane_eq.
  destruct (c_bool cfg PredictorEnabled) eqn:Ep; [destruct (NewPredictor _ _ _) as [p |] eqn:En; [| done] |]; intros [= <-];
    (split; unfold ed_cache, ed_origin; cbn [ed_plane pl_cache pl_origin pl_predictor ed_ReqMet ed_limiter ed_ready];
       [by exists (bi_mkdir_ok io), (bi_files io) | done | rewrite Ep | done..]); eauto.
Qed.

Lemma Init_fails exporter resource name cfg err : Init exporter resource name cfg = inl err -> exporter <> None \/ resource <> None.
Proof. unfold Init. destruct (negb _); [done |]. destruct exporter; [by left |]. destruct resource; [by right | done]. Qed.

Lemma NewWithOptions_fails mkdir_ok files opts : NewWithOptions mkdir_ok files opts = None -> o_DiskDir opts <> ""%string /\ mkdir_ok = false.
Proof.
  unfold NewWithOptions. destruct (shard_count _) as [n m]. destruct (String.eqb_spec (o_DiskDir opts) ""); [done |]. by destruct mkdir_ok.
Qed.

(** Starting up ends: with a predictor whose counters fit, an edge is made unless tracing
    is asked for and cannot be set up, or there is a disk tier whose directory cannot be
    made; no other configuration is refused. *)
Theorem boot_outcome io cfg :
  predictor_fits cfg ->
  match boot 32 io cfg with
  | Some (inr e) => boots 32 cfg e
  | Some (inl _) => (c_bool cfg TracingEnabled = true /\ (bi_exporter io <> None \/ bi_resource io <> None)) \/
                    (c_str cfg DiskCacheDir <> ""%string /\ bi_mkdir_ok io = false)
  | None => False
  end.
Proof.
  intros Hf. destruct (boot 32 io cfg) as [[err | e] |] eqn:Eb; [| by apply (boot_boots 32 io) |]; unfold boot in Eb.
  - destruct (if c_bool cfg TracingEnabled then Init _ _ _ _ else _) as [err' | pr] eqn:Ei.
    { left. destruct (c_bool cfg TracingEnabled); [| done]. split; [done | by eapply Init_fails]. }
    right. destruct (NewWithOptions _ _ _) eqn:Ec; [by destruct (data_plane _ _ _ _) | by apply NewWithOptions_fails in Ec].
  - destruct (if c_bool cfg TracingEnabled then Init _ _ _ _ else _); [done |]. destruct (NewWithOptions _ _ _); [| done].
    rewrite data_plane_eq in Eb. unfold predictor_fits in Hf. destruct (c_bool cfg PredictorEnabled); [| done].
    destruct (proj1 (NewPredictor_termination (c_int cfg PredictorCapacity) (c_dur cfg PredictorDecay)) (Hf eq_refl)) as (q & Hp & _).
    by rewrite Hp in Eb.
Qed.

Lemma p_steps_wf p ops : predictor_wf p -> predictor_wf (foldl p_step p ops).
Proof.
  intros Hp. apply foldl_invariant; [| done]. intros q op _ Hq. destruct op as [key | | key]; cbn [p_step].
  - pose proof (Mark_spec q key Hq) as Hm. destruct (hashKey q key). by destruct Hm as (_ & _ & ? & _).
  - by apply Rotate_wf.
  - by apply IsLikely_wf.
Qed.

Lemma breaker_phase F S T evs cb p :
  F <= max_i64 -> S <= max_i64 -> cb_sim F S T cb p ->
  cb_sim F S T (foldl (fun cb ev => (cb_step cb ev).1) cb evs) (foldl (fun p ev => (phase_step F S T p ev).1) p evs).
Proof.
  intros HF HS. revert cb p. induction evs as [| ev evs IH]; intros cb p Hs; [done |]. cbn [foldl].
  apply IH. by apply cb_sim_step.
Qed.

(** C6: The whole edge keeps its components sound: from any command line and environment that
    are accepted, whatever requests come on either listener, whatever is pushed, polled,
    purged, warmed or reloaded, and however background work interleaves with them, the
    cache is well formed and never over [MaxCacheItems], the predictor is well formed, the
    breaker is in a phase of its three-phase machine, no origin flight is left behind, the
    histogram is that of the requests recorded, and the limiter's buckets are what calls
    and sweeps made them. *)
Theorem running_edge_invariant flags Getenv fuel io cfg e0 st l :
  Load flags Getenv = inr cfg -> c_int cfg MaxCacheItems <= max_i64 -> predictor_fits cfg -> (32 <= fuel)%nat ->
  boot fuel io cfg = Some (inr e0) ->
  rtc (life_step post host_of split cfg) {| lf_phase := Running; lf_serving := false; lf_state := (e0, st) |} l ->
  let e := (lf_state l).1 in
  cache_wf (ed_cache e) /\ 0 <= Len (ed_cache e) <= c_int cfg MaxCacheItems /\
  (forall p, pl_predictor (ed_plane e) = Some p -> predictor_wf p) /\
  (exists evs, CircuitState (ed_origin e) = phase_name (foldl (fun p ev => (phase_step 5 3 (30 * Second) p ev).1) (Closed 0) evs)) /\
  og_flights (ed_origin e) = ∅ /\
  (exists evs, ed_ReqMet e = recorded evs) /\
  (rate_limited cfg = true -> exists ops, ed_limiter e = Some (foldl limiter_step (RateLimit.New (c_float cfg RateLimitRPS) (c_int cfg RateLimitBurst)) ops)).
Proof.
  intros Hload Hmax Hfit Hfuel Hboot Hlife. cbv zeta.
  apply Load_sound in Hload as Hv. pose proof (cv_items _ Hv) as Hpos.
  destruct (boot_boots _ _ _ _ Hboot) as [(mk & files & Hc) Ho Hp Hm Hl _].
  destruct (life_evolves cfg e0 st l) as [[[ops Ec] [[evs Eo] _ _ Ef] [pops Ep]] [ms Em] [lops El] _]; [| done |].
  { rewrite Hl. intros ->. by eexists. }
  unfold ed_cache, ed_origin in *. destruct (fresh_run mk files (cache_options cfg) (pl_cache (ed_plane e0)) ops) as (Hw & _ & Hlen); [done | done | done |].
  rewrite Ec. split_and!; [done | by cbn in Hlen; lia | by cbn in Hlen; lia | | | apply Ef; by rewrite Ho | exists ms; by rewrite Em, Hm |].
  - intros p Hsome. rewrite Ep in Hsome. destruct (pl_predictor (ed_plane e0)) as [p0 |] eqn:E0; [| done]. injection Hsome as <-. apply p_steps_wf.
    unfold predictor_fits in Hfit. destruct (c_bool cfg PredictorEnabled); [| done]. destruct Hp as (p & Hn & [= ->]).
    exact (proj1 (NewPredictor_wf fuel _ _ _ Hfuel (Hfit eq_refl) Hn)).
  - exists evs. unfold CircuitState. rewrite Eo, Ho. apply (cb_sim_name 5 3 (30 * Second)). by apply breaker_phase, cb_sim_init.
  - intros Hr. exists lops. by rewrite El, Hl, Hr.
Qed.

End booted.

End running.

(** ** A concrete edge *)

#[local] Existing Instances poly_hash64 bits_codec bits_codec_laws plain_disk ascii_unicode echo_client mark_compressor no_http_time plain_log_time
  no_params no_config purge_bodies float_digits metrics_text.
(** Every number is 1 and every URL is http://o. *)
#[local] Instance some_parsers : ConfigParsers :=
  {| ParseFloat _ := Some (Fin 1 0); ParseDuration _ := Some Second; url_Parse _ := inr ("http", "o")%string |}.

Definition quiet_start : boot_io :=
  {| bi_exporter := None; bi_resource := None; bi_mkdir_ok := true; bi_files := ∅; bi_Getenv := fun _ => ""%string; bi_now := Z.of_nat |}.
Definition small_edge : list assignment :=
  [SetStr OriginURL "http://o"; SetInt MaxCacheItems 3; SetInt PredictorCapacity 100; SetFloat RateLimitRPS (Fin 1 0)]%string.
Definition small_config : Config.Config := assign (foldl assign default_config small_edge) (SetStr OriginURL "http://o").

Lemma small_edge_loads : Load small_edge (fun _ => ""%string) = inr small_config.
Proof. reflexivity. Qed.

Lemma boot_outcome_witness :
  match boot 32 quiet_start small_config with Some (inr e) => boots 32 small_config e | _ => False end.
Proof.
  pose proof (boot_outcome quiet_start small_config (fun _ => ltac:(vm_compute; discriminate))) as Hb.
  destruct (boot 32 quiet_start small_config) as [[err | e] |]; [| exact Hb | exact Hb].
  destruct Hb as [[Ht _] | [_ Hm]]; [exact (match Bool.diff_false_true Ht with end) | exact (match Bool.diff_true_false Hm with end)].
Defined.

Lemma drain_not_ready_witness :
  w_status (mainHandler no_post (fun u => u) (fun a => Some a) (keyed "k") (an_io "") _ _ (set_ready false (an_edge true), tt) new_writer (to_path "GET" "/readyz")).2 = 503.
Proof.
  refine (drain_not_ready no_post (fun u => u) (fun a => Some a) (keyed "k") {| lf_phase := Running; lf_serving := true; lf_state := (an_edge true, tt) |}
    {| lf_phase := Draining; lf_serving := true; lf_state := (set_ready false (an_edge true), tt) |} (an_io "") (to_path "GET" "/readyz")
    _ _ eq_refl eq_refl); [split; reflexivity |].
  apply rtc_once. exact (life_sigterm _ true (an_edge true, tt)).
Defined.

(** The edge of the small configuration. *)
Definition small_booted : Edge := match boot 32 quiet_start small_config with Some (inr e) => e | _ => an_edge false end.

Lemma small_boots : boot 32 quiet_start small_config = Some (inr small_booted).
Proof. unfold small_booted. vm_compute. reflexivity. Qed.

(** One request through the main listener. *)
Definition one_request : life (World := unit) :=
  {| lf_phase := Running; lf_serving := false;
     lf_state := (mainHandler no_post (fun u => u) (fun a => Some a) small_config (an_io "") _ _ (small_booted, tt) new_writer (to_path "GET" "/a")).1 |}.

Lemma one_request_lives :
  rtc (life_step no_post (fun u => u) (fun a => Some a) small_config) {| lf_phase := Running; lf_serving := false; lf_state := (small_booted, tt) |} one_request.
Proof. apply rtc_once, life_background; [discriminate | apply bg_request]. Qed.

Lemma running_edge_invariant_witness : 0 <= Len (ed_cache (lf_state one_request).1) <= c_int small_config MaxCacheItems.
Proof.
  refine (proj1 (proj2 (running_edge_invariant no_post (fun u => u) (fun a => Some a) small_edge (fun _ => ""%string) 32 quiet_start small_config
    small_booted tt one_request small_edge_loads _ _ _ small_boots one_request_lives)));
    [vm_compute; discriminate | intros _; vm_compute; discriminate | apply le_n].
Defined.

(** ** The poll interval *)

Definition eager_edge : list assignment := [SetStr OriginURL "http://o"; SetStr ControlPlaneURL "http://cp"; SetDur ConfigPollInterval 0]%string.
Definition eager_config : Config.Config := assign (foldl assign default_config eager_edge) (SetStr OriginURL "http://o").

(** A poll interval of zero is accepted by [Load], and the poller of the edge then panics once
    it has polled for the first time. *)
Theorem poll_interval_unchecked :
  Load eager_edge (fun _ => ""%string) = inr eager_config /\ multiTenant eager_config = true /\
  forall first events (p : ConfigPoller), Poller_Start (c_dur eager_config ConfigPollInterval) first events p = (poll p first, None).
Proof. split_and!; [vm_compute; reflexivity | reflexivity | done]. Qed.
