(* ===== verification/DataPlane.v ===== *)
(** * The data plane through its middleware ([main.go])

    The theorems about the handlers are about [ServeHTTP] alone; a client talks to
    [mainHandler], with the access log, the mux, metrics, tracing, rate limiting, CORS and
    compression around it. Here the stack is taken away: what a client gets is what the
    handler alone answers, up to compression, and every layer that observes the response
    observes that one. *)

From S2P Require Import Prelude GoStrings CacheKey TinyLFU Entry Shard Disk Cache Contents Predictor Http CacheControl Range Circuit Origin Handler Tenant MultiTenant Answers Parts Store Api Middleware Float Logging Metrics RateLimit Tracing Chain Purge Config Edge Running.

Local Open Scope Z_scope.

Section plane.
Context `{Hash64} `{HeaderCodec} `{DiskWorld} `{Unicode} `{HttpClient} `{HttpTime} `{PurgeJson} `{FloatFormat} `{MetricsJson} `{LogTime}
  `{UrlQuery} `{ConfigJson} `{Compressor}.
Context {World : Type}.
Variable post : string -> Request -> string -> World -> World * (string + Z).
Variable host_of : string -> string.
Variable split : string -> option string.
Abbreviation state := (Edge * World)%type.
Implicit Types (s : state).

(** ** The innermost handler *)

(** Whichever handler serves tenants, what it does is an answer with a status. *)
Lemma tenant_runs cfg io s r :
  exists s1 a code, an_code a = Some code /\ runs (tenant_layer cfg io) s r s1 (answer_ops a).
Proof.
  unfold tenant_layer. destruct (multiTenant cfg).
  - destruct (mt_ServeHTTP_uniform {| me_env := ri_env io; me_config := fun _ => ed_config s.1 |} (mt_of cfg s.1) r) as (h & a & code & Hc & Hr).
    exists (on_edge (set_plane (mt_plane h) (ed_spawned s.1)) s), a, code. split; [done |]. intros W HW HL w. unfold mt_handler. rewrite (Hr W HW HL w). reflexivity.
  - destruct (ServeHTTP_uniform (ri_env io) (cdn_of cfg s.1) r) as (h & locks & async & a & code & Hc & Hr).
    exists (on_edge (set_plane (cdn_plane h) (ed_spawned s.1 ++ async)) s), a, code. split; [done |]. intros W HW HL w. unfold cdn_handler. rewrite (Hr W HW HL w). reflexivity.
Qed.

(** ** One layer at a time *)

Definition final_answer (cfg : Config.Config) (hd : Header) (r : Request) (a : answer) : answer :=
  if c_bool cfg CompressionEnabled then compressed_answer hd r a else a.

Lemma compress_layer_runs cfg io hd s r s1 a code :
  an_code a = Some code -> runs (tenant_layer cfg io) s r s1 (answer_ops a) ->
  runs_from hd (compress_layer cfg io) s r s1 (answer_ops (final_answer cfg hd r a)).
Proof.
  intros Hc Hr. unfold compress_layer, final_answer. destruct (c_bool cfg CompressionEnabled); [by eapply Compress_runs | by apply runs_runs_from].
Qed.

(** The header the layers inside CORS start from. *)
Definition cors_start (cfg : Config.Config) (r : Request) (hd : Header) : Header := cors_header (c_str cfg CORSOrigins) r hd.

(** What CORS does before the handler: nothing, or one change of the header. *)
Definition sets_header (pre : list wop) (hd hd' : Header) : Prop := pre = [] /\ hd' = hd \/ pre = [OpHeader (fun _ => hd')].

Definition not_preflight (cfg : Config.Config) (r : Request) : Prop := c_str cfg CORSOrigins <> ""%string -> preflight r = false.

Lemma cors_layer_runs cfg io hd s r s1 a code :
  not_preflight cfg r -> an_code a = Some code -> runs (tenant_layer cfg io) s r s1 (answer_ops a) ->
  exists pre, sets_header pre hd (cors_start cfg r hd) /\
    runs_from hd (cors_layer cfg io) s r s1 (pre ++ answer_ops (final_answer cfg (cors_start cfg r hd) r a)).
Proof.
  intros Hp Hc Hr. unfold cors_layer, cors_start. destruct (String.eqb_spec (c_str cfg CORSOrigins) "") as [E | Hne]; cbn [negb].
  - exists []. unfold cors_header. rewrite E. split; [by left | by eapply compress_layer_runs].
  - destruct (CORS_runs (c_str cfg CORSOrigins) (c_int cfg CORSMaxAge) (compress_layer cfg io) s r s1 _ hd (Hp Hne) Hne
      (compress_layer_runs cfg io _ s r s1 a code Hc Hr)) as (pre & Hpre & Hrun).
    exists pre. split; [by destruct Hpre as [[-> ->] | ->]; [left | right] | done].
Qed.

(** What the limiter says, and the state it leaves. *)
Definition admitted (cfg : Config.Config) (io : request_io) s (r : Request) : bool :=
  negb (rate_limited cfg) || (RateLimit.Allow (ri_limit_now io) (extractIP split (ri_remote io) r) (limiter_of cfg s)).2.
Definition limited_state (cfg : Config.Config) (io : request_io) s (r : Request) : state :=
  if rate_limited cfg
  then on_edge (set_limiter (Some (RateLimit.Allow (ri_limit_now io) (extractIP split (ri_remote io) r) (limiter_of cfg s)).1)) s else s.

Definition refusal : list wop :=
  [OpHeader (fun h => Header_Set h "Retry-After" "1");
   OpHeader (fun h => Header_Set (Header_Set (Header_Del h "Content-Length") "Content-Type" "text/plain; charset=utf-8") "X-Content-Type-Options" "nosniff");
   OpWriteHeader 429; OpWrite ("Too Many Requests" +:+ nl)].

Lemma limit_layer_runs cfg io hd s r s1 ops :
  (admitted cfg io s r = true -> runs_from hd (cors_layer cfg io) (limited_state cfg io s r) r s1 ops) ->
  runs_from hd (limit_layer split cfg io) s r
    (if admitted cfg io s r then s1 else limited_state cfg io s r) (if admitted cfg io s r then ops else refusal).
Proof.
  unfold limit_layer, admitted, limited_state. destruct (rate_limited cfg); cbn [negb orb]; [| by auto].
  intros Hr. pose proof (RateLimit_runs (limiter_of cfg) (fun l => on_edge (set_limiter (Some l))) split (ri_limit_now io) (ri_remote io)
    (cors_layer cfg io) s r s1 ops hd) as Hl.
  destruct (RateLimit.Allow _ _ _) as [l ok]. exact (Hl Hr).
Qed.

Definition traced_state (cfg : Config.Config) (io : request_io) (r : Request) (hd : Header) (ops : list wop) s : state :=
  if c_bool cfg TracingEnabled
  then on_edge (add_span (span_calls (ri_url io) r (first_code ops) (Header_Get (ops_header ops hd) "X-Cache"))) s else s.

Lemma appHandler_runs cfg io hd s r s1 ops :
  runs_from hd (limit_layer split cfg io) s r s1 ops ->
  runs_from hd (appHandler split cfg io) s r
    (upd_metrics (Record_ (time_sub (ri_stop io) (ri_start io)) (first_code ops)) (traced_state cfg io r hd ops s1)) ops.
Proof.
  intros Hr. apply Metrics_runs. unfold trace_layer, traced_state. destruct (c_bool cfg TracingEnabled); [| done].
  exact (Trace_runs (fun calls => on_edge (add_span calls)) (ri_url io) (limit_layer split cfg io) s r s1 ops hd Hr).
Qed.

(** ** The whole script *)

(** What the client gets of the script an accepted request becomes. *)
Lemma script_sent pre hd hd' a code (w : ResponseWriter) :
  sets_header pre hd hd' -> an_code a = Some code -> code <> 0 -> w_status w = 0 -> w_body w = ""%string -> w_header w = hd ->
  let w' := run_ops (pre ++ answer_ops a) w in
  w_status w' = code /\ w_sent w' = an_set a hd' /\ w_header w' = an_set a hd' /\ w_body w' = String.concat "" (an_data a).
Proof.
  intros Hp Hc Hn Hs Hb Hh. cbv zeta. destruct Hp as [[-> ->] | ->]; cbn [app].
  - rewrite <- Hh. by apply server_answer.
  - rewrite run_ops_cons. cbn [run_op].
    destruct (server_answer a code (w_set_header hd' w)) as (E1 & E2 & E3 & E4); [done | done | done | done |]. by split_and!.
Qed.

Lemma first_code_answer pre hd hd' a code : sets_header pre hd hd' -> an_code a = Some code -> first_code (pre ++ answer_ops a) = code.
Proof. unfold answer_ops. by intros [[-> _] | ->] ->. Qed.

Lemma header_once_answer pre hd hd' a code :
  sets_header pre hd hd' -> an_code a = Some code -> code <> 0 -> header_once false (pre ++ answer_ops a) = true.
Proof.
  intros Hp Hc Hn. assert (Ha : header_once false (answer_ops a) = true).
  { unfold answer_ops. rewrite Hc. cbn. rewrite (proj2 (Z.eqb_neq _ _) Hn). cbn. by induction (an_data a). }
  by destruct Hp as [[-> _] | ->].
Qed.

(** The handler alone, after the limiter let the request pass, on a writer with the header
    the layers around it have set. *)
Definition start_header (cfg : Config.Config) (io : request_io) (r : Request) : Header :=
  cors_start cfg r (Header_Set ∅ "X-Request-ID" (request_id (ri_random io) r)).
Definition inner (cfg : Config.Config) (io : request_io) s (r : Request) : state * ResponseWriter :=
  tenant_layer cfg io _ _ (limited_state cfg io s r) (w_set_header (start_header cfg io r) new_writer) r.

(** The status the handler gives [WriteHeader], as the capturing writers see it; [net/http]
    panics for 0. *)
Definition status_given (cfg : Config.Config) (io : request_io) s (r : Request) : Z :=
  mrw_status (tenant_layer cfg io _ _ (limited_state cfg io s r) {| mrw_w := w_set_header (start_header cfg io r) new_writer; mrw_status := 200; mrw_done := false |} r).2.

Definition compressed (cfg : Config.Config) (r : Request) (h : Header) : bool := c_bool cfg CompressionEnabled && compresses r h.

(** The paths of [mainMux] other than [/]. *)
Definition admin_paths : list string := ["/livez"; "/readyz"; "/health"; "/metrics"; "/metrics.json"; "/purge"; "/warm"; "/loglevel"]%string.
Definition route_paths (cfg : Config.Config) : list string :=
  (if separate_admin cfg then [] else admin_paths) ++ (if multiTenant cfg then ["/edge/config"%string] else []) ++
  (if c_bool cfg TLSEnabled && negb (c_bool cfg TLSAuto) then ["/handshake-stats"%string] else []).

Lemma main_routes_paths cfg io : (main_routes post host_of cfg io).*1 = route_paths cfg.
Proof. unfold main_routes, route_paths. rewrite !fmap_app. by destruct (separate_admin cfg), (multiTenant cfg), (_ && _). Qed.

(** The request is for the data plane. *)
Definition for_tenant (cfg : Config.Config) (r : Request) : Prop := ~ (r_Path r ∈ route_paths cfg) /\ not_preflight cfg r.

(** The access line of a response. *)
Definition logs (l l' : Logger) (line : AccessEntry -> Prop) : Prop :=
  if lg_level l <=? LevelInfo then exists e, lg_out l' = lg_out l ++ [LAccess e] /\ line e else l' = l.

Lemma final_answer_code cfg hd r a : an_code (final_answer cfg hd r a) = an_code a.
Proof. unfold final_answer, compressed_answer. destruct (c_bool cfg CompressionEnabled); [| done]. by destruct (compresses _ _). Qed.

(** What the client decodes is what the handler wrote. *)
Lemma final_answer_decodes `{!CompressorLaws} cfg hd r a :
  let h := an_set a hd in
  let body := String.concat "" (an_data (final_answer cfg hd r a)) in
  if compressed cfg r h
  then cz_decode (selectEncoding r) body = Some (String.concat "" (an_data a)) /\ an_set (final_answer cfg hd r a) hd = compressed_header (selectEncoding r) h
  else body = String.concat "" (an_data a) /\ an_set (final_answer cfg hd r a) hd = h.
Proof.
  cbv zeta. unfold compressed, final_answer. destruct (c_bool cfg CompressionEnabled); cbn [andb]; [| done].
  destruct (compresses r (an_set a hd)) eqn:Ec; [| by unfold compressed_answer; rewrite Ec].
  by destruct (compressed_answer_decodes hd r a Ec) as (_ & -> & ->).
Qed.

(** The request through every layer: what the handler does, then what each layer adds. *)
Lemma mainHandler_runs cfg io s r s1 a code :
  for_tenant cfg r -> admitted cfg io s r = true -> an_code a = Some code ->
  runs (tenant_layer cfg io) (limited_state cfg io s r) r s1 (answer_ops a) ->
  let id := request_id (ri_random io) r in
  let hd := Header_Set ∅ "X-Request-ID" id in
  let a' := final_answer cfg (start_header cfg io r) r a in
  exists pre e, sets_header pre hd (start_header cfg io r) /\
    let out := run_ops (OpHeader (fun h => Header_Set h "X-Request-ID" id) :: pre ++ answer_ops a') new_writer in
    let rw := run_ops (pre ++ answer_ops a') {| Logging.rw_w := w_set_header hd new_writer; Logging.rw_status := 200; Logging.rw_bytesWritten := 0 |} in
    mainHandler post host_of split cfg io _ _ s new_writer r
    = (upd_logger (Access (ri_t2 io) e)
         (upd_metrics (Record_ (time_sub (ri_stop io) (ri_start io)) code)
            (traced_state cfg io r hd (pre ++ answer_ops a') s1)), out) /\
    ae_Status e = Logging.rw_status rw /\ ae_BytesSent e = ops_bytes (pre ++ answer_ops a') /\ ae_RequestID e = id /\ ae_Path e = r_Path r.
Proof.
  intros [Hroute Hpf] Hadm Hc Hr id hd a'. rewrite <- (main_routes_paths cfg (ri_admin io)) in Hroute.
  destruct (cors_layer_runs cfg io hd _ r s1 a code Hpf Hc Hr) as (pre & Hpre & Hcors). exists pre.
  pose proof (limit_layer_runs cfg io hd s r s1 _ (fun _ => Hcors)) as Hlim. rewrite Hadm in Hlim.
  pose proof (appHandler_runs cfg io hd s r _ _ Hlim) as Happ.
  apply (mux_runs hd (main_routes post host_of cfg (ri_admin io))) in Happ; [| done].
  eexists. split; [done |]. cbv zeta. split.
  - unfold mainHandler. rewrite (LogMiddleware_runs upd_logger (ri_random io) (ri_t0 io) (ri_t1 io) (ri_t2 io) (ri_remote io)
      (fun _ => mainMux post host_of split cfg io) s r _ _ ∅ Happ ResponseWriter server_writer _ new_writer eq_refl).
    rewrite (first_code_answer pre hd (start_header cfg io r) _ code Hpre) by (by rewrite final_answer_code). reflexivity.
  - by split_and!.
Qed.

(** What the layers make of the handler's outcome [inn]: nothing but compression touches
    the response; the handler's state is kept; the request is counted once, with its
    status; its access line, if the level lets it through, has the status and the bytes
    sent; its span, if tracing is on, has the status. *)
Record carried (cfg : Config.Config) (io : request_io) (r : Request) (inn out : state * ResponseWriter) : Prop := {
  ca_status : w_status out.2 = w_status inn.2;
  ca_body : if compressed cfg r (w_sent inn.2)
    then cz_decode (selectEncoding r) (w_body out.2) = Some (w_body inn.2) /\ w_sent out.2 = compressed_header (selectEncoding r) (w_sent inn.2)
    else w_body out.2 = w_body inn.2 /\ w_sent out.2 = w_sent inn.2;
  ca_world : out.1.2 = inn.1.2;
  ca_plane : ed_plane out.1.1 = ed_plane inn.1.1;
  ca_spawned : ed_spawned out.1.1 = ed_spawned inn.1.1;
  ca_metrics : ed_ReqMet out.1.1 = Record_ (time_sub (ri_stop io) (ri_start io)) (w_status out.2) (ed_ReqMet inn.1.1);
  ca_log : logs (ed_logger inn.1.1) (ed_logger out.1.1) (fun e => ae_Status e = w_status out.2 /\ ae_BytesSent e = str_len (w_body out.2) /\
    ae_RequestID e = request_id (ri_random io) r /\ ae_Path e = r_Path r);
  ca_span : if c_bool cfg TracingEnabled
    then exists calls, ed_spans out.1.1 = ed_spans inn.1.1 ++ [calls] /\ SpanStatusCode (w_status out.2) ∈ calls
    else ed_spans out.1.1 = ed_spans inn.1.1
}.

Lemma layers_carry `{!CompressorLaws} cfg io s r :
  for_tenant cfg r -> admitted cfg io s r = true -> status_given cfg io s r <> 0 ->
  carried cfg io r (inner cfg io s r) (mainHandler post host_of split cfg io _ _ s new_writer r).
Proof.
  intros Hten Hadm. destruct (tenant_runs cfg io (limited_state cfg io s r) r) as (s1 & a & code & Hc & Hr).
  unfold status_given, inner. rewrite (Hr _ metrics_writer _), (Hr _ server_writer _). cbn [snd].
  rewrite mrw_status_first by done. pose proof (first_code_answer [] ∅ ∅ a code (or_introl (conj eq_refl eq_refl)) Hc) as Hfirst. cbn [app] in Hfirst. rewrite Hfirst. intros Hn.
  destruct (script_sent [] (start_header cfg io r) (start_header cfg io r) a code (w_set_header (start_header cfg io r) new_writer)
    (or_introl (conj eq_refl eq_refl)) Hc Hn) as (Es1 & Eh1 & _ & Eb1); [done | done | done |]. cbn [app] in Es1, Eh1, Eb1.
  destruct (mainHandler_runs cfg io s r s1 a code Hten Hadm Hc Hr) as (pre & e & Hpre & Hmain & He & Hbytes & Hid & Hpath).
  rewrite Hmain. clear Hmain. set (hd := Header_Set ∅ "X-Request-ID" (request_id (ri_random io) r)) in *.
  set (a' := final_answer cfg (start_header cfg io r) r a) in *.
  assert (Hc' : an_code a' = Some code) by (by unfold a'; rewrite final_answer_code).
  rewrite run_ops_cons. cbn [run_op]. change (Header_Set (w_header new_writer) _ _) with hd.
  destruct (script_sent pre hd _ a' code (w_set_header hd new_writer) Hpre Hc' Hn) as (Es & Eh & _ & Eb); [done | done | done |].
  pose proof (final_answer_decodes cfg (start_header cfg io r) r a) as Hd. cbv zeta in Hd. fold a' in Hd.
  set (st := traced_state cfg io r hd (pre ++ answer_ops a') s1).
  assert (Hst : st.2 = s1.2 /\ ed_plane st.1 = ed_plane s1.1 /\ ed_spawned st.1 = ed_spawned s1.1 /\ ed_ReqMet st.1 = ed_ReqMet s1.1 /\
    ed_logger st.1 = ed_logger s1.1) by (unfold st, traced_state; by destruct (c_bool cfg TracingEnabled)).
  destruct Hst as (Et1 & Et2 & Et3 & Et4 & Et5).
  assert (Hsp : if c_bool cfg TracingEnabled then exists calls, ed_spans st.1 = ed_spans s1.1 ++ [calls] /\ SpanStatusCode code ∈ calls
                else ed_spans st.1 = ed_spans s1.1).
  { unfold st, traced_state. destruct (c_bool cfg TracingEnabled); [| done]. eexists. split; [done |].
    rewrite (first_code_answer pre hd (start_header cfg io r) a' code Hpre Hc'). right. left. }
  clearbody st. unfold upd_logger, upd_metrics, on_edge.
  split; cbn [fst snd set_logger set_met ed_plane ed_spawned ed_ReqMet ed_logger ed_spans]; rewrite ?Es1, ?Eh1, ?Eb1, ?Es, ?Eh, ?Eb, ?Et1, ?Et2, ?Et3, ?Et4, ?Et5;
    try done.
  unfold logs, Access. rewrite Z.ltb_antisym. destruct (lg_level (ed_logger s1.1) <=? LevelInfo); cbn [negb]; [| done].
  eexists. split; [done |]. cbn [ae_Status ae_BytesSent ae_RequestID ae_Path]. rewrite He, Hbytes, Hid, Hpath. split_and!; [| | done | done].
  - rewrite (rw_status_sent (pre ++ answer_ops a') {| Logging.rw_w := w_set_header hd new_writer; Logging.rw_status := 200; Logging.rw_bytesWritten := 0 |} false);
      [| by apply (header_once_answer pre hd (start_header cfg io r) a' code) | done | done].
    unfold final_status. cbn [Logging.rw_w]. rewrite Es. by rewrite (proj2 (Z.eqb_neq _ _) Hn).
  - rewrite <- Eb, ops_bytes_sent. done.
Qed.


(** ** Refused by the limiter *)

(** C36: A request the limiter refuses is answered 429 with Retry-After and goes no further:
    cache, origin, predictor and spawned work are untouched, and the tokens are those the
    refusal left; it is still counted and logged, with status 429. *)
Theorem refused_goes_no_further cfg io s r :
  for_tenant cfg r -> admitted cfg io s r = false ->
  let '(s', w') := mainHandler post host_of split cfg io _ _ s new_writer r in
  w_status w' = 429 /\ w_sent w' !! "Retry-After" = Some ["1"%string] /\
  s'.2 = s.2 /\ ed_plane s'.1 = ed_plane s.1 /\ ed_spawned s'.1 = ed_spawned s.1 /\
  ed_limiter s'.1 = Some (RateLimit.Allow (ri_limit_now io) (extractIP split (ri_remote io) r) (limiter_of cfg s)).1 /\
  ed_ReqMet s'.1 = Record_ (time_sub (ri_stop io) (ri_start io)) 429 (ed_ReqMet s.1) /\
  logs (ed_logger s.1) (ed_logger s'.1) (fun e => ae_Status e = 429 /\ ae_Path e = r_Path r).
Proof.
  intros [Hroute _] Hadm. rewrite <- (main_routes_paths cfg (ri_admin io)) in Hroute. set (hd := Header_Set ∅ "X-Request-ID" (request_id (ri_random io) r)).
  pose proof (limit_layer_runs cfg io hd s r s [] ltac:(by rewrite Hadm)) as Hlim. rewrite Hadm in Hlim.
  pose proof (appHandler_runs cfg io hd s r _ _ Hlim) as Happ.
  apply (mux_runs hd (main_routes post host_of cfg (ri_admin io))) in Happ; [| done].
  unfold mainHandler. rewrite (LogMiddleware_runs upd_logger (ri_random io) (ri_t0 io) (ri_t1 io) (ri_t2 io) (ri_remote io)
      (fun _ => mainMux post host_of split cfg io) s r _ _ ∅ Happ ResponseWriter server_writer _ new_writer eq_refl).
  assert (Hr : rate_limited cfg = true) by (unfold admitted in Hadm; by destruct (rate_limited cfg)).
  assert (Hl : limited_state cfg io s r
    = on_edge (set_limiter (Some (RateLimit.Allow (ri_limit_now io) (extractIP split (ri_remote io) r) (limiter_of cfg s)).1)) s)
    by (unfold limited_state; by rewrite Hr).
  rewrite Hl. set (l := (RateLimit.Allow (ri_limit_now io) _ _).1). clearbody l.
  split; [done |]. split; [vm_compute; done |].
  unfold traced_state. change (first_code refusal) with 429.
  destruct (c_bool cfg TracingEnabled); (split; [done |]; split; [done |]; split; [done |]; split; [done |]; split; [done |]);
    unfold logs, upd_logger, upd_metrics, on_edge, Access; cbn [fst snd ed_logger set_logger set_met set_limiter add_span];
    rewrite Z.ltb_antisym; destruct (lg_level (ed_logger s.1) <=? LevelInfo); cbn [negb]; try done; eexists; by split.
Qed.

(** ** A miss, then a hit, through the whole edge *)

(** The client can read [body]: as it is, or by undoing the encoding the response names. *)
Definition readable (r : Request) (w : ResponseWriter) (body : string) : Prop :=
  w_body w = body \/
  (w_sent w !! "Content-Encoding" = Some [encoding_token (selectEncoding r)] /\ cz_decode (selectEncoding r) (w_body w) = Some body).

Lemma carried_readable cfg io r inn out : carried cfg io r inn out -> readable r out.2 (w_body inn.2).
Proof.
  intros [_ Hb _ _ _ _ _ _]. destruct (compressed cfg r (w_sent inn.2)); [| left; by destruct Hb].
  destruct Hb as [Hd Hs]. right. split; [| done]. rewrite Hs. apply compressed_header_encoding.
Qed.

(** The handler of a single-tenant edge, and what it leaves of the edge. *)
Lemma inner_single cfg io s r :
  multiTenant cfg = false ->
  let out := ServeHTTP (ri_env io) (cdn_of cfg s.1) (w_set_header (start_header cfg io r) new_writer) r in
  (inner cfg io s r).2 = o_w out /\ ed_plane (inner cfg io s r).1.1 = cdn_plane (o_cdn out) /\ ed_ReqMet (inner cfg io s r).1.1 = ed_ReqMet s.1.
Proof.
  intros Hm. unfold inner, tenant_layer. rewrite Hm. unfold cdn_handler, limited_state. by destruct (rate_limited cfg).
Qed.

Lemma status_given_single cfg io s r :
  multiTenant cfg = false ->
  status_given cfg io s r
  = mrw_status (o_w (ServeHTTP (ri_env io) (cdn_of cfg s.1)
      {| mrw_w := w_set_header (start_header cfg io r) new_writer; mrw_status := 200; mrw_done := false |} r)).
Proof.
  intros Hm. unfold status_given, tenant_layer. rewrite Hm. unfold cdn_handler, limited_state. by destruct (rate_limited cfg).
Qed.

(** The handler's view of an edge whose parts a handler left. *)
Lemma cdn_of_plane cfg e h : ed_plane e = cdn_plane h -> h_cfg h = cdn_config cfg -> cdn_of cfg e = h.
Proof. intros Hp Hc. unfold cdn_of, ed_cache, ed_origin. rewrite Hp. destruct h. cbn in *. by rewrite Hc. Qed.

Lemma serveEntry_status {W} `{Writer W} now (w : W) e status :
  mrw_status (serveEntry now {| mrw_w := w; mrw_status := 200; mrw_done := false |} e status) = e_StatusCode e.
Proof. done. Qed.

(** One request for a resource the cache has no entry for, on a writer the layers set up. *)
Record misses (cfg : Config.Config) (io : request_io) s (r : Request) (resp : Response) (ttl swr : Duration) : Prop := {
  mi_request : plain r = true /\ unconditional r = true;
  mi_predictor : unpredicted (cdn_of cfg s.1) r;
  mi_alone : ev_acquired (ri_env io) = None;      (* nobody else fetches the resource *)
  mi_cache : cache_wf (ed_cache s.1);
  mi_miss : (Get (after 0 (ri_env io)) (ed_cache s.1) (primary_key r)).2 = None;
  mi_room : has_room (Get (after 0 (ri_env io)) (ed_cache s.1) (primary_key r)).1 (primary_key r);
  mi_breaker : (Circuit.Allow (ev_now (ri_env io) 20) (og_cb (ed_origin s.1))).2 = true;
  mi_flights : og_flights (ed_origin s.1) = ∅;
  mi_answer : doFetch (ed_origin s.1) (c_str cfg OriginURL +:+ r_RequestURI r) (r_Header r) = inr resp;
  mi_ttl : determineTTL (c_dur cfg DefaultTTL) (rs_Header resp) = (ttl, swr);
  mi_cacheable : cacheable ttl (rs_StatusCode resp) = true;
  mi_vary : Header_Get (rs_Header resp) "Vary" = ""%string
}.

Lemma misses_fetches cfg io s r resp ttl swr :
  misses cfg io s r resp ttl swr -> exists o, fetches (ri_env io) (cdn_of cfg s.1) r o resp.
Proof.
  intros Hm. unfold fetches. pose proof (Fetch_lead (ev_now (ri_env io) 20) (ev_now (ri_env io) 21) (h_origin (cdn_of cfg s.1)) (primary_key r)
    (cfg_OriginURL (h_cfg (cdn_of cfg s.1)) +:+ r_RequestURI r) (r_Header r) (ev_joined (ri_env io))) as Hf.
  destruct (Fetch _ _ _ _ _ _ _) as [o res]. destruct Hf as [-> _].
  - change (h_origin (cdn_of cfg s.1)) with (ed_origin s.1). by rewrite (mi_flights _ _ _ _ _ _ _ Hm), lookup_empty.
  - apply (mi_breaker _ _ _ _ _ _ _ Hm).
  - exists o. f_equal. apply (mi_answer _ _ _ _ _ _ _ Hm).
Qed.

Lemma miss_status `{!HeaderCodecLaws} cfg io s r resp ttl swr :
  multiTenant cfg = false -> misses cfg io s r resp ttl swr -> status_given cfg io s r <> 0.
Proof.
  intros Hmt Hmiss. destruct (misses_fetches _ _ _ _ _ _ _ Hmiss) as [o Hf].
  destruct Hmiss as [[Hp Hu] Hpr Hal Hwf Hg Hroom _ _ _ Httl Hc Hv].
  pose proof (cacheable_facts _ _ _ _ Httl Hc) as (_ & Hst & _). rewrite status_given_single by done.
  destruct (ServeHTTP_miss (ri_env io) (cdn_of cfg s.1) {| mrw_w := w_set_header (start_header cfg io r) new_writer; mrw_status := 200; mrw_done := false |}
    r o resp ttl swr) as (se & E); try done.
  rewrite E. set (e := response_entry _ _ _ _ _). set (c := (Get _ _ _).1).
  destruct (put_both_same (ev_now (ri_env io) 41) (ev_now (ri_env io) 42) c (primary_key r) e) as [Es _].
  destruct (put_both _ _ _ _ _ _) as [c1 e1]. cbn [o_w snd] in *. rewrite serveEntry_status, Es. by apply cacheable_status_nonzero.
Qed.

(** C2: The cache works through the whole edge: a single-tenant edge with any of its
    middleware on serves a resource it does not have by fetching it, and serves the next
    request for it, while the entry is fresh, from the cache: both clients get the origin's
    status and can read the origin's body, the second request does not reach the origin
    client, and both are counted with that status. *)
Theorem edge_miss_then_hit `{!HeaderCodecLaws} `{!CompressorLaws} cfg io io' s r resp ttl swr :
  multiTenant cfg = false -> for_tenant cfg r -> misses cfg io s r resp ttl swr ->
  let e := response_entry (ev_now (ri_env io) 40) resp ttl swr (primary_key r) in
  acceptable (Get (after 0 (ri_env io)) (ed_cache s.1) (primary_key r)).1 (primary_key r) e = true ->
  (forall n, Entry_IsExpired (ev_now (ri_env io') n) e = false) ->
  let '(s1, w1) := mainHandler post host_of split cfg io _ _ s new_writer r in
  let '(s2, w2) := mainHandler post host_of split cfg io' _ _ s1 new_writer r in
  admitted cfg io s r = true -> admitted cfg io' s1 r = true ->
  w_status w1 = rs_StatusCode resp /\ readable r w1 (rs_Body resp) /\
  w_status w2 = rs_StatusCode resp /\ readable r w2 (rs_Body resp) /\
  ed_origin s2.1 = ed_origin s1.1 /\
  ed_ReqMet s2.1 = Record_ (time_sub (ri_stop io') (ri_start io')) (rs_StatusCode resp)
                     (Record_ (time_sub (ri_stop io) (ri_start io)) (rs_StatusCode resp) (ed_ReqMet s.1)).
Proof.
  intros Hmt Hten Hmiss e Hacc Hfresh.
  destruct (misses_fetches _ _ _ _ _ _ _ Hmiss) as [o Hf]. pose proof Hmiss as [[Hp Hu] Hpr Hal Hwf Hg Hroom _ _ _ Httl Hc Hv].
  pose proof (cacheable_facts _ _ _ _ Httl Hc) as (_ & Hst & _). pose proof (cacheable_status_nonzero _ Hst) as Hn.
  set (w := w_set_header (start_header cfg io r) new_writer). set (w' := w_set_header (start_header cfg io' r) new_writer).
  destruct (miss_then_hit (ri_env io) (ri_env io') (cdn_of cfg s.1) w w' r o resp ttl swr) as (S1 & B1 & _ & S2 & B2 & _ & Ho & _); try done.
  set (out := ServeHTTP (ri_env io) (cdn_of cfg s.1) w r) in *. set (out' := ServeHTTP (ri_env io') (o_cdn out) w' r) in *.
  pose proof (ServeHTTP_moved (ri_env io) (cdn_of cfg s.1) w r) as [Hcfg1 _]. fold out in Hcfg1.
  (* the first request *)
  destruct (inner_single cfg io s r Hmt) as (I1 & I2 & I3). fold w out in I1, I2.
  pose proof (miss_status cfg io s r resp ttl swr Hmt Hmiss) as G1.
  destruct (mainHandler post host_of split cfg io _ _ s new_writer r) as [s1 w1] eqn:E1.
  destruct (mainHandler post host_of split cfg io' _ _ s1 new_writer r) as [s2 w2] eqn:E2. intros A1 A2.
  pose proof (layers_carry cfg io s r Hten A1 G1) as C1. rewrite E1 in C1.
  pose proof (carried_readable _ _ _ _ _ C1) as R1. destruct C1 as [C1s _ _ C1p _ C1m _ _]. cbn [fst snd] in *.
  assert (Hs1 : cdn_of cfg s1.1 = o_cdn out) by (apply cdn_of_plane; [by rewrite C1p | by rewrite Hcfg1]).
  (* the second *)
  destruct (inner_single cfg io' s1 r Hmt) as (J1 & J2 & J3). rewrite Hs1 in J1, J2. fold w' out' in J1, J2.
  assert (G2 : status_given cfg io' s1 r <> 0).
  { rewrite status_given_single, Hs1 by done.
    destruct (miss_leaves_fresh (ri_env io) (ri_env io') (cdn_of cfg s.1) w r o resp ttl swr) as ((F1 & F2 & F3 & F4) & F5 & _); try done.
    fold out in F1, F5. by rewrite (ServeHTTP_hit _ _ _ r _ Hp Hu F5 F1 F2 F3). }
  pose proof (layers_carry cfg io' s1 r Hten A2 G2) as C2. rewrite E2 in C2.
  pose proof (carried_readable _ _ _ _ _ C2) as R2. destruct C2 as [C2s _ _ C2p _ C2m _ _]. cbn [fst snd] in *.
  rewrite I1 in *. rewrite J1 in *. rewrite S1, B1, S2, B2 in *. split_and!; try done.
  - unfold ed_origin. rewrite C2p, J2, C1p, I2. exact Ho.
  - rewrite C2m, J3, C1m, I3. by rewrite C2s, C1s.
Qed.

End plane.

(** ** A compressed byte range *)

(** A slice of an entry that is compressed on the way keeps the Content-Range of the bytes
    it was cut from: the client gets status 206, the offsets and the total of the entry as
    it is stored, and a body that is an encoding of the slice, so the offsets are not those
    of the encoding the response says it is in. *)
Theorem compressed_slice `{HeaderCodec} `{Unicode} `{Compressor} `{!CompressorLaws} {S} (s : S) entry b e r :
  isCompressible (Header_Get (copied_header (Entry_GetHeader entry) ∅) "Content-Type") = true -> selectEncoding r <> encodingNone ->
  let out := (Compress (fun W (_ : Writer W) (s : S) w _ => (s, serveRange w entry b e)) _ _ s new_writer r).2 in
  w_status out = 206 /\ w_sent out !! "Content-Range" = Some [range_value b e (str_len (e_Body entry))] /\
  w_sent out !! "Content-Encoding" = Some [encoding_token (selectEncoding r)] /\
  cz_decode (selectEncoding r) (w_body out) = Some (take_bytes (Z.to_nat (e + 1 - b)) (drop_bytes (Z.to_nat b) (e_Body entry))).
Proof.
  intros Hct He. cbv zeta.
  assert (Hrun : runs (fun W (_ : Writer W) (s : S) w _ => (s, serveRange w entry b e)) s r s (answer_ops (range_answer entry b e))).
  { intros W HW HL w. f_equal. unfold serveRange, copy_header, answer_ops. cbn. by rewrite !header_set, !set_header_set. }
  pose (hd := w_header new_writer). rewrite (Compress_runs hd _ s r s (range_answer entry b e) 206 eq_refl Hrun _ _ _ new_writer eq_refl). cbn [snd].
  set (a := range_answer entry b e).
  assert (Hz : compresses r (an_set a hd) = true).
  { unfold compresses, a, hd. cbn [an_set range_answer w_header server_writer srv_header new_writer]. rewrite !Header_Get_Set_ne, Hct by done. by destruct (selectEncoding r). }
  destruct (compressed_answer_decodes hd r a Hz) as (Ea & Eh & Ed).
  destruct (server_answer (compressed_answer hd r a) 206 new_writer eq_refl eq_refl Ea) as (-> & -> & _ & ->); [done |].
  fold hd. rewrite Eh, Ed. split; [done |]. split; [| split; [apply compressed_header_encoding |]].
  - unfold compressed_header, a. cbn [an_set range_answer]. unfold Header_Add, Header_Set, Header_Del.
    change (CanonicalHeaderKey "Content-Length") with "Content-Length"; change (CanonicalHeaderKey "Content-Encoding") with "Content-Encoding";
      change (CanonicalHeaderKey "Vary") with "Vary"; change (CanonicalHeaderKey "Content-Range") with "Content-Range"; change (CanonicalHeaderKey "X-Cache") with "X-Cache".
    by simplify_map_eq.
  - cbn [a an_data range_answer String.concat]. reflexivity.
Qed.

(** ** A concrete edge *)

#[local] Existing Instances poly_hash64 bits_codec bits_codec_laws plain_disk ascii_unicode cc_client mark_compressor mark_laws no_http_time plain_log_time
  no_params no_config purge_bodies float_digits metrics_text.

Definition web_config : Config.Config := assign default_config (SetStr OriginURL "http://o").
Definition io_at (t : Z) : request_io :=
  let io := an_io "" in
  {| ri_env := ev_at t; ri_remote := ri_remote io; ri_url := ri_url io; ri_limit_now := t; ri_start := t; ri_stop := t + 2000; ri_random := ri_random io;
     ri_t0 := t; ri_t1 := t + 5000; ri_t2 := t + 5000; ri_admin := ri_admin io |}.

Lemma get_for_tenant cfg path hdr : c_str cfg CORSOrigins = ""%string -> ~ (path ∈ route_paths cfg) -> for_tenant cfg (get_of path hdr).
Proof. intros Hc Hp. split; [exact Hp | by intros []]. Qed.

Lemma a_is_tenant_path cfg : c_str cfg CORSOrigins = ""%string -> route_paths cfg = route_paths web_config -> for_tenant cfg (get_of "/a" ∅).
Proof.
  intros Hc Hp. apply get_for_tenant; [exact Hc |]. rewrite Hp. apply (bool_decide_unpack _). vm_compute. exact I.
Qed.

Lemma web_misses :
  misses web_config (io_at 0) (an_edge true, tt) (get_of "/a" ∅) (cc_resp "http://o/a" "max-age=60") (60 * Second) 0.
Proof.
  constructor; [split; reflexivity | by intros p | reflexivity | apply tiny_cache_wf | | eexists; split; [| right; left] | | | | | |];
    vm_compute; reflexivity.
Qed.

Lemma edge_miss_then_hit_witness :
  let '(s1, w1) := mainHandler no_post (fun u => u) (fun a => Some a) web_config (io_at 0) _ _ (an_edge true, tt) new_writer (get_of "/a" ∅) in
  let '(s2, w2) := mainHandler no_post (fun u => u) (fun a => Some a) web_config (io_at Second) _ _ s1 new_writer (get_of "/a" ∅) in
  readable (get_of "/a" ∅) w2 "http://o/a" /\ ed_origin s2.1 = ed_origin s1.1.
Proof.
  pose proof (edge_miss_then_hit no_post (fun u => u) (fun a => Some a) web_config (io_at 0) (io_at Second) (an_edge true, tt) (get_of "/a" ∅)
    (cc_resp "http://o/a" "max-age=60") (60 * Second) 0 eq_refl (a_is_tenant_path web_config eq_refl eq_refl) web_misses) as Hm.
  destruct (mainHandler no_post _ _ web_config (io_at 0) _ _ (an_edge true, tt) new_writer (get_of "/a" ∅)) as [s1 w1].
  destruct (mainHandler no_post _ _ web_config (io_at Second) _ _ s1 new_writer (get_of "/a" ∅)) as [s2 w2].
  assert (Ha : acceptable (Get (after 0 (ri_env (io_at 0))) (ed_cache (an_edge true, tt).1) (primary_key (get_of "/a" ∅))).1 (primary_key (get_of "/a" ∅))
    (response_entry (ev_now (ri_env (io_at 0)) 40) (cc_resp "http://o/a" "max-age=60") (60 * Second) 0 (primary_key (get_of "/a" ∅))) = true)
    by (vm_compute; reflexivity).
  destruct (Hm Ha) as (_ & _ & _ & R & O & _); [intros n; vm_compute; reflexivity | reflexivity | reflexivity | split; [exact R | exact O]].
Defined.


(** An edge that lets one request in per client and second, its token spent. *)
Definition limited_config : Config.Config := assign (assign web_config (SetFloat RateLimitRPS (Fin 1 0))) (SetInt RateLimitBurst 1).
Definition spent_edge : Edge :=
  set_limiter (Some (RateLimit.Allow 0 "10.0.0.1:99" (RateLimit.New (Fin 1 0) 1)).1) (an_edge true).

Lemma refused_goes_no_further_witness :
  let out := mainHandler no_post (fun u => u) (fun a => Some a) limited_config (io_at 0) _ _ (spent_edge, tt) new_writer (get_of "/a" ∅) in
  w_status out.2 = 429 /\ ed_plane out.1.1 = ed_plane spent_edge.
Proof.
  pose proof (refused_goes_no_further no_post (fun u => u) (fun a => Some a) limited_config (io_at 0) (spent_edge, tt) (get_of "/a" ∅)) as Hr.
  cbv zeta. destruct (mainHandler no_post _ _ limited_config (io_at 0) _ _ (spent_edge, tt) new_writer (get_of "/a" ∅)) as [s' w'].
  refine (match Hr _ _ with conj R (conj _ (conj _ (conj P _))) => conj R P end);
    [apply a_is_tenant_path; reflexivity | vm_compute; reflexivity].
Defined.

(** The first two bytes of a text of five, gzipped. *)
Definition text_entry : Entry :=
  {| e_Body := "hello"; e_Header := Some {["Content-Type" := ["text/plain"]]}; e_CompressedHeader := None; e_StatusCode := 200; e_StoredAt := 0;
     e_TTL := 60 * Second; e_ETag := ""; e_LastMod := ""; e_VaryKey := ""; e_StaleWhileRevalidate := 0 |}.

Lemma compressed_slice_witness :
  w_sent (Compress (fun W (_ : Writer W) (s : unit) w _ => (s, serveRange w text_entry 0 1)) _ _ tt new_writer
    (get_of "/a" {["Accept-Encoding" := ["gzip"]]})).2 !! "Content-Range" = Some ["bytes 0-1/5"%string].
Proof.
  exact (proj1 (proj2 (compressed_slice tt text_entry 0 1 (get_of "/a" {["Accept-Encoding" := ["gzip"]]}) ltac:(vm_compute; reflexivity) ltac:(vm_compute; discriminate)))).
Defined.
