(* ===== verification/Serving.v ===== *)
(** * The listeners of an edge ([main.go])

    The servers [main] sets up, with their addresses, timeouts and TLS configuration, and
    the listener the main one is served with: the plain one, or the handshake offload
    listener around it. [front_step] runs an edge together with its listener: a request on
    the main port needs a connection the listener has delivered. How a handshake under a
    TLS configuration can end is crypto/tls's affair and a parameter; of it only is assumed
    that a server without a certificate completes no handshake. At the end, what an upgrade
    does to the life of the process it replaces. *)

From S2P Require Import Prelude GoStrings CacheKey TinyLFU Entry Disk Cache Predictor Http CacheControl Paths Circuit Origin Handler Tenant MultiTenant Parts Store Api Middleware Float Logging Metrics RateLimit Tracing Chain Purge Config Handshake Upgrade Edge Running.
From stdpp Require Import relations.

Local Open Scope Z_scope.

(** [tls.Config], as far as [main] may set it: the certificates by name, and whether there
    is a [GetCertificate]. *)
Record tls_config := { MinVersion : Z; CipherSuites : list Z; Certificates : list string; GetCertificate : bool }.

(** [http.Server]: no timeout is 0; the handlers are [mainHandler], [adminMux] and [redirect_handler]. *)
Record http_server := { sv_Addr : string; sv_ReadTimeout : Z; sv_WriteTimeout : Z; sv_IdleTimeout : Z; sv_TLSConfig : option tls_config }.

(** Does the main listener do TLS at all? *)
Definition tls_listener (cfg : Config.Config) : bool := c_bool cfg TLSEnabled && negb (c_bool cfg TLSAuto).

(** VersionTLS12 and the six suites, by their registered numbers. *)
Definition main_tls : tls_config :=
  {| MinVersion := 0x0303; CipherSuites := [0xc02c; 0xc030; 0xc02b; 0xc02f; 0xcca9; 0xcca8]; Certificates := []; GetCertificate := false |}.

Definition srv (cfg : Config.Config) : http_server :=
  {| sv_Addr := ""; sv_ReadTimeout := 10 * Second; sv_WriteTimeout := 60 * Second; sv_IdleTimeout := 120 * Second;
     sv_TLSConfig := if tls_listener cfg then Some main_tls else None |}.
Definition adminSrv (cfg : Config.Config) : option http_server :=
  if separate_admin cfg
  then Some {| sv_Addr := c_str cfg AdminAddr; sv_ReadTimeout := 5 * Second; sv_WriteTimeout := 10 * Second; sv_IdleTimeout := 0; sv_TLSConfig := None |}
  else None.
Definition redirectSrv (cfg : Config.Config) : option http_server :=
  if c_bool cfg TLSEnabled && c_bool cfg Config.HTTPSRedirect
  then Some {| sv_Addr := ":80"; sv_ReadTimeout := 5 * Second; sv_WriteTimeout := 5 * Second; sv_IdleTimeout := 0; sv_TLSConfig := None |}
  else None.
Definition redirect_handler {State} (body : string -> string) : HttpHandler State := fun W _ s w r => (s, Middleware.HTTPSRedirect body "" w r).

(** [serveLn]: the inherited or fresh listener itself, or wrapped. *)
Inductive net_listener := Plain | Offload (tls : option tls_config) (hs : Handshake.Config).
Definition serveLn (cfg : Config.Config) : net_listener :=
  if tls_listener cfg then Offload (sv_TLSConfig (srv cfg)) {| Workers := 0; QueueSize := 0; HandshakeTimeout := 0 |} else Plain.

(** crypto/tls: the ways [tls.Server]'s handshake can end. *)
Class CryptoTLS := { server_ends : tls_config -> tls_outcome -> Prop }.
Class CryptoTLSLaws `{CryptoTLS} :=
  no_certificate : forall tc o, Certificates tc = [] -> GetCertificate tc = false -> server_ends tc o -> to_handshake o <> None.

Definition tls_of `{CryptoTLS} (tc : option tls_config) : tls_behaviour := server_ends <$> tc.

(** Without a certificate nobody gets through. *)
Lemma certless_never_succeeds `{CryptoTLSLaws} tc : Certificates tc = [] -> GetCertificate tc = false -> never_succeeds (tls_of (Some tc)).
Proof.
  intros Hc Hg o Ho. pose proof (no_certificate tc o Hc Hg Ho) as Hh. cbn. destruct (to_deadline o); [done |]. by destruct (to_handshake o).
Qed.

Section serving.
Context `{Hash64} `{HeaderCodec} `{DiskWorld} `{Unicode} `{HttpClient} `{HttpTime} `{PurgeJson} `{FloatFormat} `{MetricsJson} `{LogTime}
  `{UrlQuery} `{ConfigJson} `{Compressor} `{CryptoTLS}.
Context {World : Type}.
Variable post : string -> Request -> string -> World -> World * (string + Z).
Variable host_of : string -> string.
Variable split : string -> option string.
Variable numCPU : Z.
Abbreviation state := (Edge * World)%type.

(** An edge, the listener of its main server, and the requests served on it. *)
Record front := { fr_life : life (World := World); fr_ln : option OffloadListener; fr_served : list Request }.

(** A connection requests can come in on: any, when the listener is plain. *)
Definition connected (ln : option OffloadListener) : Prop := match ln with None => True | Some ln => exists c, c ∈ g_delivered ln end.

Definition with_state (f : state -> state) (l : life (World := World)) : life :=
  {| lf_phase := lf_phase l; lf_serving := lf_serving l; lf_state := f (lf_state l) |}.

Inductive front_step (cfg : Config.Config) : front -> front -> Prop :=
  | front_life l l' ln served : life_with (work post host_of cfg) l l' ->
      front_step cfg {| fr_life := l; fr_ln := ln; fr_served := served |} {| fr_life := l'; fr_ln := ln; fr_served := served |}
  | front_listen l tc hs ln ln' served : serveLn cfg = Offload tc hs -> step (with_defaults numCPU hs) (tls_of tc) ln ln' ->
      front_step cfg {| fr_life := l; fr_ln := Some ln; fr_served := served |}
                     {| fr_life := with_state (on_edge (set_stats (Stats ln'))) l; fr_ln := Some ln'; fr_served := served |}
  | front_request l ln served io r : lf_phase l <> Stopped -> lf_serving l = true -> connected ln ->
      front_step cfg {| fr_life := l; fr_ln := ln; fr_served := served |}
                     {| fr_life := with_state (fun s => (mainHandler post host_of split cfg io _ _ s new_writer r).1) l; fr_ln := ln; fr_served := served ++ [r] |}.

(** When [main] has set up its servers. *)
Definition front_start (cfg : Config.Config) (s : state) : front :=
  {| fr_life := {| lf_phase := Edge.Running; lf_serving := false; lf_state := s |};
     fr_ln := match serveLn cfg with Plain => None | Offload _ hs => Some (NewOffloadListener (with_defaults numCPU hs)) end;
     fr_served := [] |}.

(** What holds as long as a listener whose handshakes all fail is in front. *)
Definition shut_out (cfg : Config.Config) (f : front) : Prop :=
  fr_served f = [] /\ exists ln, fr_ln f = Some ln /\ nothing_ready ln.

Lemma front_step_shut_out cfg tc hs f f' :
  serveLn cfg = Offload tc hs -> never_succeeds (tls_of tc) -> front_step cfg f f' -> shut_out cfg f -> shut_out cfg f'.
Proof.
  intros Hln Hn Hs [Hsv (ln0 & Hf & Hr)]. destruct Hs as [l l' ln served Hl | l tc' hs' ln ln' served Hln' Hs | l ln served io r Hp Hsv' Hc]; cbn in *.
  - split; [done | by exists ln0].
  - rewrite Hln in Hln'. injection Hln' as <- <-. injection Hf as ->. split; [done |]. exists ln'. split; [done |].
    by apply (step_nothing_ready _ _ _ _ Hn Hs).
  - subst ln. destruct Hc as [c Hc]. rewrite (nr_delivered _ Hr) in Hc. by apply elem_of_nil in Hc.
Qed.

(** C12: With TLS enabled and certificate files configured the edge serves nobody: its TLS
    configuration has no certificate, so whatever connections come, whatever their clients
    do and however long the edge runs, no handshake completes, no connection is delivered
    and no request reaches a handler. *)
Theorem tls_edge_serves_nobody `{!CryptoTLSLaws} cfg s f :
  c_bool cfg TLSEnabled = true -> c_bool cfg TLSAuto = false ->
  rtc (front_step cfg) (front_start cfg s) f ->
  fr_served f = [] /\ exists ln, fr_ln f = Some ln /\ g_delivered ln = [] /\ l_completed ln = 0.
Proof.
  intros He Ha Hsteps.
  assert (Hln : serveLn cfg = Offload (Some main_tls) {| Workers := 0; QueueSize := 0; HandshakeTimeout := 0 |})
    by (unfold serveLn, srv, tls_listener; by rewrite He, Ha).
  assert (Hn : never_succeeds (tls_of (Some main_tls))) by by apply certless_never_succeeds.
  assert (Hout : shut_out cfg f).
  { apply (rtc_invariant (front_step cfg) (shut_out cfg) (front_start cfg s) f); [| | done].
    - unfold front_start. rewrite Hln. split; [done |]. eexists. split; [done |]. by apply NewOffloadListener_ready.
    - intros x y Hx Hxy. by apply (front_step_shut_out cfg _ _ x y Hln Hn). }
  destruct Hout as [Hs (ln & Hf & [_ _ Hd Hc])]. split; [done |]. exists ln. by split_and!.
Qed.

(** With automatic certificates the main listener is plain, although every request of the
    redirect server is sent to the https URL of the same host. *)
Theorem auto_tls_is_plain cfg body s r :
  c_bool cfg TLSEnabled = true -> c_bool cfg TLSAuto = true -> c_bool cfg Config.HTTPSRedirect = true ->
  serveLn cfg = Plain /\ sv_TLSConfig (srv cfg) = None /\ is_Some (redirectSrv cfg) /\
  let w := (redirect_handler (State := state) body _ _ s new_writer r).2 in
  w_status w = 301 /\ w_sent w !! "Location" = Some ["https://" +:+ stripPort (r_Host r) +:+ r_RequestURI r].
Proof.
  intros He Ha Hr. unfold serveLn, srv, redirectSrv, tls_listener. rewrite He, Ha, Hr. do 2 (split; [done |]). split; [by eexists |].
  exact (redirect_keeps_uri body "" new_writer r eq_refl).
Qed.

(** ** Upgrades *)

(** What [main] does with the end of [ListenForUpgrade]: an error is logged, success is
    taken as SIGTERM; a panic ends the process ([None]). *)
Definition terminate (l : life (World := World)) : life :=
  match lf_phase l with
  | Edge.Running => {| lf_phase := Draining; lf_serving := lf_serving l; lf_state := on_edge (set_ready false) (lf_state l) |}
  | _ => l
  end.
Definition upgrade_goroutine `{UpgradeOS} (now : Z) (ev : wake) (p : process) (u : Upgrader) (l : life (World := World))
  : option process * Upgrader * option life :=
  let log f := with_state (on_edge (fun e => set_logger (f (ed_logger e)) e)) l in
  match ListenForUpgrade ev p u with
  | (child, u, Returned None) => (child, u, Some (terminate (log (Info_ now "new process is ready, shutting down old process" []))))
  | (child, u, Returned (Some err)) =>
      (child, u, Some (if String.eqb err "context canceled" then l else log (Error_ now "upgrade listener error" (Some err) [])))
  | (child, u, Panicked _) => (child, u, None)
  end.

(** What [main] does once the serving goroutine is started, in a process an upgrade started:
    the file it closes, which the parent waits on, and what it logs. *)
Definition signal_parent `{UpgradeOS} (close : option file -> option string) (now : Z) (p : process) (l : life (World := World))
  : option file * life (World := World) :=
  let log f := with_state (on_edge (fun e => set_logger (f (ed_logger e)) e)) l in
  if IsUpgrade p then
    match SignalReady close p with
    | (f, Some err) => (f, log (Error_ now "failed to signal readiness to parent" (Some err) []))
    | (f, None) => (f, log (Info_ now "signaled readiness to parent process" []))
    end
  else (None, l).

(** The child of an upgrade lets its parent go: it closes the end of the pipe the parent
    reads from. Nothing orders this after the serving goroutine, so it happens whether or
    not the child serves yet. *)
Theorem child_signals_parent `{UpgradeOS} io p u child u' res close now l :
  doUpgrade io p u = (Some child, u', res) ->
  exists readyR readyW, io_pipe io = inr (readyR, readyW) /\
    let '(f, l') := signal_parent close now child l in
    f = Some readyW /\ lf_serving l' = lf_serving l /\ lf_phase l' = lf_phase l /\ ed_ready (lf_state l').1 = ed_ready (lf_state l).1.
Proof.
  intros Hd. destruct (upgrade_child_inherits io p u child u' res close Hd) as (lnFile & readyR & readyW & _ & Hp & _ & Hs & Hu & _).
  exists readyR, readyW. split; [done |]. unfold signal_parent. rewrite Hu, Hs. by destruct (close (Some readyW)).
Qed.

(** The first upgrade of a serving edge: if it fails there is no child and the edge goes on,
    in the same phase, as ready as before, with the cache, the plane and the metrics it
    had; if it succeeds there is a child and the edge drains, not ready; the process does
    not die. *)
Theorem upgrade_hands_over `{UpgradeOS} now io p u l :
  u_ready u = false -> lf_phase l = Edge.Running ->
  let '(child, u', l') := upgrade_goroutine now (WakeSignal io) p u l in
  exists l1, l' = Some l1 /\ ed_plane (lf_state l1).1 = ed_plane (lf_state l).1 /\ ed_ReqMet (lf_state l1).1 = ed_ReqMet (lf_state l).1 /\
    match child with
    | None => u' = u /\ lf_phase l1 = Edge.Running /\ ed_ready (lf_state l1).1 = ed_ready (lf_state l).1
    | Some _ => lf_phase l1 = Draining /\ ed_ready (lf_state l1).1 = false
    end.
Proof.
  intros Hu Hp. unfold upgrade_goroutine. pose proof (upgrade_all_or_nothing io p u Hu) as Ha. cbn [ListenForUpgrade].
  destruct (doUpgrade io p u) as [[child u'] [[err |] | msg]]; [| | done].
  - destruct Ha as [-> ->]. eexists. split; [done |]. by destruct (String.eqb err _).
  - destruct Ha as [[c ->] _]. eexists. split; [done |]. unfold terminate. cbn [lf_phase with_state]. rewrite Hp. by split_and!.
Qed.

(** The old process stops serving for a child that is dead: the child dies before it is
    ready, and the edge drains all the same. *)
Theorem dead_child_drains `{UpgradeOS} now io p u l lnFile fds exe :
  u_ready u = false -> listenerFile (u_ln u) = inr lnFile -> io_pipe io = inr fds -> io_exe io = inr exe -> io_start io = None ->
  io_read io = ReadChildDied -> lf_phase l = Edge.Running ->
  exists child l', upgrade_goroutine now (WakeSignal io) p u l = (Some child, {| u_ln := u_ln u; u_ready := true |}, Some l') /\
    lf_phase l' = Draining /\ ed_ready (lf_state l').1 = false.
Proof.
  intros Hu Hl Hp He Hs Hr Hph. destruct (dead_child_counts_as_ready io p u lnFile fds exe Hu Hl Hp He Hs Hr) as [child E].
  unfold upgrade_goroutine. rewrite E. exists child. eexists. split; [done |]. unfold terminate. cbn [lf_phase with_state]. by rewrite Hph.
Qed.

End serving.

(** ** A concrete edge *)

#[local] Existing Instances poly_hash64 bits_codec bits_codec_laws plain_disk ascii_unicode echo_client mark_compressor no_http_time plain_log_time
  no_params no_config purge_bodies float_digits metrics_text.

(** Handshakes end in any way that has an error when there is no certificate. *)
#[local] Instance strict_tls : CryptoTLS :=
  {| server_ends tc o := Certificates tc = [] -> GetCertificate tc = false -> to_handshake o = Some "tls: no certificates configured"%string |}.
#[local] Instance strict_tls_laws : CryptoTLSLaws.
Proof. intros tc o Hc Hg Ho. by rewrite (Ho Hc Hg). Qed.

Definition tls_config_of (auto : bool) : Config.Config := assign (assign default_config (SetBool TLSEnabled true)) (SetBool TLSAuto auto).

(** A connection comes in. *)
Lemma tls_edge_serves_nobody_witness :
  exists f, rtc (front_step no_post (fun u => u) (fun a => Some a) 1 (tls_config_of false)) (front_start 1 (tls_config_of false) (an_edge false, tt)) f /\
    (exists ln, fr_ln f = Some ln /\ g_accepted ln = [7%nat]) /\ fr_served f = [].
Proof.
  eexists. split; [| split; [| refine (proj1 (tls_edge_serves_nobody no_post (fun u => u) (fun a => Some a) 1 (tls_config_of false) (an_edge false, tt) _ eq_refl eq_refl _))]].
  - eapply rtc_l; [eapply front_listen; [reflexivity | apply step_accept, acc_call; reflexivity] |].
    eapply rtc_l; [eapply front_listen; [reflexivity | apply step_accept, (acc_conn _ _ 7%nat); reflexivity] | apply rtc_refl].
  - eexists. split; reflexivity.
  - eapply rtc_l; [eapply front_listen; [reflexivity | apply step_accept, acc_call; reflexivity] |].
    eapply rtc_l; [eapply front_listen; [reflexivity | apply step_accept, (acc_conn _ _ 7%nat); reflexivity] | apply rtc_refl].
Defined.

Lemma auto_tls_is_plain_witness : serveLn (tls_config_of true) = Plain.
Proof. exact (proj1 (auto_tls_is_plain (tls_config_of true) (fun u => u) (an_edge false, tt) (to_path "GET" "/a") eq_refl eq_refl eq_refl)). Defined.

#[local] Existing Instance some_os.
Definition serving_life : life := {| lf_phase := Edge.Running; lf_serving := true; lf_state := (an_edge true, tt) |}.

Lemma upgrade_hands_over_witness :
  exists l1, (upgrade_goroutine 0 (WakeSignal (good_upgrade ReadEOF)) old_process (@Upgrade.New some_os "old"%string) serving_life).2 = Some l1 /\ lf_phase l1 = Draining.
Proof.
  destruct (upgrade_hands_over 0 (good_upgrade ReadEOF) old_process (@Upgrade.New some_os "old"%string) serving_life eq_refl eq_refl) as (l1 & E & _ & _ & Hp & _).
  exists l1. split; [exact E | exact Hp].
Defined.

Lemma dead_child_drains_witness :
  exists child l', upgrade_goroutine 0 (WakeSignal (good_upgrade ReadChildDied)) old_process (@Upgrade.New some_os "old"%string) serving_life
      = (Some child, {| u_ln := "old"%string; u_ready := true |}, Some l') /\ lf_phase l' = Draining /\ ed_ready (lf_state l').1 = false.
Proof.
  exact (dead_child_drains 0 (good_upgrade ReadChildDied) old_process (@Upgrade.New some_os "old"%string) serving_life "socket"%string ("r", "w")%string "/edge2"%string
    eq_refl eq_refl eq_refl eq_refl eq_refl eq_refl eq_refl).
Defined.
